(* ===== verification/_CoqProject ===== *)
-Q . S2P
Prelude.v
GoProg.v
Model.v
PodModel.v
Kube.v
Libs.v
ApiServer.v
Testbed.v
Ports.v
PodClient.v
NodeRepo.v
Registrar.v
NodeStore.v
Tenants.v
Registration.v
PodService.v
NodeService.v
Lifecycle.v
PoolService.v
Scaling.v
Execution.v
HostPods.v
Shutdown.v
PoolReconciler.v
NodeReconciler.v
PodSyncReconciler.v
Statuses.v
Config.v
System.v
NodePools.v
Footprint.v
PodSafety.v
Orphans.v
Coverage.v
Resources.v
Interleaving.v
Concurrent.v
Deletion.v
StatusSync.v
Guarantees.v
Races.v
Work.v
GoHeap.v
DeepCopy.v
Startup.v
