(* ===== verification/Prelude.v ===== *)
(** * vnode: a verification development

    vnode is a Kubernetes operator that gives tenant clusters (vclusters)
    virtual nodes and runs the pods scheduled on them as pods of the host
    cluster.  This library models its Go code and proves what each part does.

    ** The program

    A [VNodePool] resource of the host cluster declares a number of virtual
    nodes for one tenant.  Three controllers act on it:
    - the VNodePool controller keeps the declared number of [VNode] resources
      and removes them when the pool is deleted (a finalizer guards that);
    - the VNode controller registers each node in the tenant cluster (a Node
      object and a Lease) and refreshes it, with a growing requeue delay;
    - the pod sync controller translates the tenant's pods on ready nodes into
      host pods, copies the ConfigMaps and Secrets they mount, carries the
      status back and removes orphans.
    The domain services between them (node, pool, pod, pod execution) reach the
    clusters through ports; adapters implement the ports with Kubernetes
    clients.  The controllers share the clusters and one cache of tenant
    clients.

    ** How it is modelled

    A Go function that talks to a cluster is a value of [GoProg.prog]: a tree
    that issues one call at a time and goes on with the reply, may run a
    critical section over the shared client cache, may return or panic.
    Errors are values ([Prelude.error]) with Go's wrapping and [errors.Is].
    [for range] loops are [GoProg.for_range], with [Next] for the end of an
    iteration and [Return] for a return out of the loop.  Programs are run
    against a handler ([GoProg.run]) and reasoned about with a weakest
    precondition ([GoProg.wp]) against a specification of the environment, or
    with the predicate [GoProg.issues] on the calls they may make.

    Code that is not in the repository is a parameter: the library functions are
    the class [Kube.KubeLibs], with their documented behaviour in
    [Kube.KubeLibsLaws] (an instance is in Libs.v); the API servers are the
    specification [ApiServer.kube_spec], in which a server may fail with any
    error of a set [faults] and a failed write may or may not have been applied
    (an in-memory server that meets it is in Testbed.v).

    Theorems about one reconciliation take it alone: reads reflect the writes
    before them.  Concurrent.v puts the controllers beside each other: a step
    relation interleaves their calls one by one, answers the reads of the
    manager's client from any earlier state (the informer cache), refuses
    updates made from an outdated version, lets other parties write between any
    two calls and restarts the operator at any time.  Interleaving.v gives the
    reasoning: what a program may rely on and what it guarantees.

    Values of the model are immutable; DeepCopy.v checks, on a memory with
    pointers (GoHeap.v), where the code relies on copies for that.

    ** Files

    - Prelude.v: [int32], errors, strings, map lemmas, tactics, hints.
    - GoProg.v: programs, loops, execution, rules of [wp] and [issues].
    - Model.v, PodModel.v: internal/domain/model (pools, nodes, pods and their
      translation).
    - Kube.v: api/v1alpha1, the core objects, the calls, the libraries.
    - Libs.v, ApiServer.v, Testbed.v: an instance of the libraries, the
      specification of the API servers, an in-memory server.
    - Ports.v: internal/domain/ports.
    - PodClient.v, NodeRepo.v: kubeclient/pod_client.go and client.go.
    - Registrar.v: kubeclient/kubeconfig.go and virtualkubelet/registrar.go.
    - NodeStore.v: the contract of the node repository (a class) and the proof
      that [Save], [Delete] and [ListByPool] meet it on API servers.
    - Tenants.v: the contract of the registrar and its proof: registration
      leaves the host cluster alone.
    - Registration.v: what registration and deregistration leave in the tenant
      cluster; the client cache; the kubeconfig keys.
    - PodService.v, NodeService.v, PoolService.v, Execution.v:
      internal/domain/service.
    - Lifecycle.v: the contract of provisioning and removal, proved from the
      contracts of repository and registrar; status updates.
    - Scaling.v: the scaling of a pool, proved from the contract of the
      lifecycle.
    - HostPods.v: drift detection, round trips of pods and statuses.
    - Shutdown.v: a stopped context is never reported as an error.
    - PoolReconciler.v, NodeReconciler.v, PodSyncReconciler.v:
      internal/adapter/inbound/reconciler, and the metrics.
    - Statuses.v: conditions, status patches, requeue delays, event routing.
    - Config.v, System.v: internal/config and the wiring of cmd/vnode/main.go.
    - NodePools.v: scaling, removal and status updates of the wired operator on
      API servers, with concrete runs.
    - Footprint.v: the calls each controller can make; the finalizer.
    - PodSafety.v: confinement of what is written to the host; cleanup.
    - Orphans.v, Coverage.v, Resources.v: what a whole pass of [ReconcilePool]
      leaves on the host: no pod that no tenant pod asks for, one for each that
      asks, and the ConfigMaps and Secrets they mount.
    - Interleaving.v, Concurrent.v: rely and guarantee for programs; the three
      controllers of main.go running at once.
    - StatusSync.v: after such a pass tenant pods show the status of their host
      pods.
    - Deletion.v: a deleted pool goes away in one undisturbed pass.
    - Guarantees.v: what holds in every state the running operator can reach.
    - Races.v: executable schedules, two interleavings that go wrong, and the
      runs on which the guarantees are seen.
    - Work.v: the number of API calls of a reconciliation.
    - GoHeap.v, DeepCopy.v: memory, and api/v1alpha1/zz_generated.deepcopy.go.
    - Startup.v: [init] and [main] of cmd/vnode/main.go, the scheme, and the
      watches of the controllers ([SetupWithManager]).

    ** What is shown

    - Scaling (NodePools.v): a successful reconciliation leaves the declared
      number of nodes and reports the stored ones, if the generated names are
      free; if one is taken it reports a node that does not exist.
    - Nodes (NodePools.v, Registration.v, Lifecycle.v): what success of
      provisioning, registration, status update and removal means in the two
      clusters; a ready node is not written again.
    - Pods (PodModel.v, HostPods.v, PodSafety.v, Orphans.v, Coverage.v,
      Resources.v, StatusSync.v): labels, credentials and workload under translation,
      exactness and limits of drift detection, stability of an admitted pod,
      confinement of every write to the host, completeness of the cleanup, and
      that the host pods, ConfigMaps, Secrets and statuses left by a successful
      pass are those the tenant pods ask for.
    - Controllers (Footprint.v, Statuses.v, Shutdown.v, Deletion.v, Work.v):
      the calls of each and their number, the guard of the finalizer and the
      end of a deletion, settled statuses, delays, stopped contexts.
    - The running operator (Guarantees.v): in every interleaving the VNodes stay
      well formed, pools keep what their owners wrote, host pods are confined.
    - The process (Startup.v, DeepCopy.v): how it starts or fails to, which
      events lead to which requests, which copies are independent.
    - Defects and divergences from the documentation are stated as theorems on
      the same definitions (taken names, ambiguous host names, lost taints,
      ignored isolation backend, unseen drift, a VNode that outlives its pool,
      a lost condition, a deep copy that shares the spec).

    ** Bounds and fuel

    Counts are [int32] with the wrap-around written out ([int32]).  The only
    fuelled recursion is the requeue loop (six iterations; five doublings pass
    the cap, and [Statuses.requeueBackoff_spec] shows that more fuel changes
    nothing).  Retries on conflict are bounded by the library; the laws say by
    some number of attempts, and no theorem depends on which
    ([Work.reconciliations_end] has it as a factor).

    ** What is not modelled

    The insides of the manager (queues, rate limits, leader election, serving
    metrics and checks): Startup.v knows the calls that set it up and the
    requests its documentation promises, Concurrent.v assumes only that a
    controller handles one request at a time.  Logging and the registration of
    the metrics.  Fields of core objects the operator neither reads nor writes,
    which are opaque and handed back unchanged.  A pod that is deleted stays,
    marked, as the kubelet that stops it is not part of the program.  Slices in
    GoHeap.v span their arrays, so that appending in place is not covered.
    Planned next: exact counts of the metrics, and progress of the running
    operator under fair schedules. *)

From stdpp Require Export gmap strings list fin_maps pretty.
From Stdlib Require Export Ascii.
From Stdlib Require Export Lia ZArith.

Declare Scope go_scope.
Delimit Scope go_scope with go.

(** ** Machine integers

    Go's [int32] conversion keeps the low 32 bits and reads them in two's
    complement. *)
Definition int32_min : Z := -2147483648.
Definition int32_max : Z := 2147483647.

Definition int32 (z : Z) : Z :=
  (z + 2147483648) `mod` 4294967296 - 2147483648.

Definition is_int32 (z : Z) : Prop := (int32_min <= z <= int32_max)%Z.

(** ** Errors as Go values

    [fmt.Errorf] without [%w] gives a leaf ([ErrText]); with [%w] it gives a
    node that keeps the cause reachable ([ErrWrap]); [suffix] is the text that
    follows the verb.  [ErrStatus] is the value the Kubernetes clients return
    for an answer of the API server. *)
Inductive StatusReason : Type :=
| ReasonNotFound
| ReasonAlreadyExists
| ReasonConflict
| ReasonOther (r : string).

Inductive error : Type :=
| ErrText (msg : string)
| ErrWrap (prefix : string) (cause : error)
| ErrStatus (reason : StatusReason) (msg : string)
| ErrCanceled
| ErrDeadlineExceeded
| ErrPodTerminating.

#[export] Instance StatusReason_eq_dec : EqDecision StatusReason.
Proof. solve_decision. Defined.
#[export] Instance error_eq_dec : EqDecision error.
Proof. solve_decision. Defined.

(** The text of an error ([err.Error()]). *)
Fixpoint Error (e : error) : string :=
  match e with
  | ErrText m => m
  | ErrWrap p c => p +:+ Error c
  | ErrStatus _ m => m
  | ErrCanceled => "context canceled"
  | ErrDeadlineExceeded => "context deadline exceeded"
  | ErrPodTerminating => "host pod is terminating, waiting for deletion to complete"
  end.

(** [errors.Is(e, target)] for a sentinel: some error of the chain is it. *)
Fixpoint errors_Is (e target : error) : bool :=
  bool_decide (e = target) ||
  match e with
  | ErrWrap _ c => errors_Is c target
  | _ => false
  end.

(** The two errors a stopped or expired context produces. *)
Definition is_context_error (e : error) : bool :=
  errors_Is e ErrCanceled || errors_Is e ErrDeadlineExceeded.

(** The pair [(value, error)] of a call whose value is meaningless when the
    error is not nil. *)
Inductive res (A : Type) : Type :=
| Ok (a : A)
| Err (e : error).
Arguments Ok {A} a.
Arguments Err {A} e.

Definition res_err {A} (r : res A) : option error :=
  match r with Ok _ => None | Err e => Some e end.

(** ** Strings *)

(** Go's [m[k]] on a [map[string]string]: the zero value when [k] is absent. *)
Definition map_get (m : gmap string string) (k : string) : string :=
  default "" (m !! k).

(** No character of [s] is [c]. *)
Fixpoint no_char (c : Ascii.ascii) (s : string) : bool :=
  match s with
  | EmptyString => true
  | String a s' => negb (Ascii.eqb a c) && no_char c s'
  end.

Lemma no_char_String c a s :
  no_char c (String a s) = true -> a <> c /\ no_char c s = true.
Proof.
  simpl. intros [H1 H2]%andb_prop. split; [|done].
  intros ->. by rewrite Ascii.eqb_refl in H1.
Qed.

(** A separator that does not occur in the left parts makes concatenation
    injective. *)
Lemma sep_inj c s1 s2 t1 t2 :
  no_char c s1 = true -> no_char c t1 = true ->
  s1 +:+ String c s2 = t1 +:+ String c t2 -> s1 = t1 /\ s2 = t2.
Proof.
  revert t1. induction s1 as [|a s1 IH]; intros [|b t1] Hs Ht Heq; simpl in *.
  - by simplify_eq.
  - apply (no_char_String c b t1) in Ht as [Hb _]. by injection Heq.
  - apply (no_char_String c a s1) in Hs as [Ha _]. by injection Heq.
  - apply (no_char_String c a s1) in Hs as [_ Hs].
    apply (no_char_String c b t1) in Ht as [_ Ht].
    injection Heq as -> Heq. destruct (IH t1 Hs Ht Heq) as [-> ->]. done.
Qed.

Lemma append_assoc s1 s2 s3 : s1 +:+ (s2 +:+ s3) = (s1 +:+ s2) +:+ s3.
Proof. induction s1 as [|a s1 IH]; [done|]. exact (f_equal (String a) IH). Qed.

Lemma append_nil_r s : s +:+ "" = s.
Proof. induction s as [|a s IH]; [done|]. exact (f_equal (String a) IH). Qed.

(** ** Machine-integer lemmas *)

Lemma int32_id z : is_int32 z -> int32 z = z.
Proof.
  unfold is_int32, int32_min, int32_max, int32. intros H.
  rewrite Z.mod_small; lia.
Qed.

Lemma int32_range z : is_int32 (int32 z).
Proof.
  unfold is_int32, int32_min, int32_max, int32.
  pose proof (Z.mod_pos_bound (z + 2147483648) 4294967296 ltac:(lia)). lia.
Qed.

(** ** Error lemmas *)

Lemma errors_Is_wrap p c t :
  (forall p' c', t <> ErrWrap p' c') -> errors_Is (ErrWrap p c) t = errors_Is c t.
Proof.
  intros Ht. simpl. rewrite bool_decide_false; [done|].
  intros Heq. by apply (Ht p c).
Qed.

Lemma is_context_error_wrap p c : is_context_error (ErrWrap p c) = is_context_error c.
Proof. unfold is_context_error. by rewrite !errors_Is_wrap. Qed.

Lemma errors_Is_refl e : errors_Is e e = true.
Proof. destruct e; simpl; by rewrite ?bool_decide_true. Qed.

(** ** Finite maps as lists *)

Lemma map_to_list_filter_perm {A} (P : (string * string) * A -> Prop)
    `{!forall x, Decision (P x)} (m : gmap (string * string) A) :
  base.filter P (map_to_list m) ≡ₚ map_to_list (base.filter P m).
Proof.
  rewrite map_filter_alt. symmetry. apply map_to_list_to_map.
  apply (sublist_NoDup _ ((map_to_list m).*1)); [apply NoDup_fst_map_to_list|].
  apply fmap_sublist, sublist_filter.
Qed.

Create HintDb vnode discriminated.
#[export] Hint Rewrite is_context_error_wrap : vnode.
#[export] Hint Resolve int32_range : vnode.

(** ** Tactics *)

(** Split a conjunction of hypotheses and goals, then try the easy closers. *)
Ltac finish := repeat split; simplify_eq/=; eauto with vnode; try done; try lia.

(** Case on the scrutinee of the first [match] of the goal. *)
Ltac case_goal :=
  match goal with
  | |- context [match ?x with _ => _ end] => destruct x eqn:?
  end.
