(* ===== verification/GoProg.v ===== *)
(** Effects: a Go function that talks to API servers is a tree of the calls it
    issues, one branch per reply.  The file gives the tree type and its monad,
    the [for range] loop, the executable interpretation against a deterministic
    handler, and a weakest-precondition calculus against an environment of
    which only a specification is known. *)

From S2P Require Import Prelude.

(** How a Go call ends: it returns, or it panics. *)
Inductive outcome (A : Type) : Type :=
| Done (a : A)
| Panicked (msg : string).
Arguments Done {A} a.
Arguments Panicked {A} msg.

Section Programs.
Context {E : Type -> Type} {M : Type}.

(** [Call c k] issues the external call [c] and goes on with its reply;
    [Atomic f k] is a critical section over the memory the goroutines share. *)
Inductive prog (A : Type) : Type :=
| Ret (a : A)
| Panic (msg : string)
| Call (R : Type) (c : E R) (k : R -> prog A)
| Atomic (R : Type) (f : M -> R * M) (k : R -> prog A).

Arguments Ret {A} a.
Arguments Panic {A} msg.
Arguments Call {A R} c k.
Arguments Atomic {A R} f k.

Fixpoint bind {A B} (p : prog A) (f : A -> prog B) : prog B :=
  match p with
  | Ret a => f a
  | Panic m => Panic m
  | Call c k => Call c (fun r => bind (k r) f)
  | Atomic g k => Atomic g (fun r => bind (k r) f)
  end.

Definition call {R} (c : E R) : prog R := Call c Ret.
Definition atomic {R} (f : M -> R * M) : prog R := Atomic f Ret.

(** ** Loops: [for _, x := range xs { ... }] with an accumulator; the body
    goes on to the next element ([Next]) or leaves the function ([Return]). *)
Inductive ctl (S R : Type) : Type :=
| Next (s : S)
| Return (r : R).
Arguments Next {S R} s.
Arguments Return {S R} r.

Fixpoint for_range {X S R} (xs : list X) (s : S)
    (body : X -> S -> prog (ctl S R)) : prog (ctl S R) :=
  match xs with
  | [] => Ret (Next s)
  | x :: xs' =>
      bind (body x s) (fun c =>
        match c with
        | Next s' => for_range xs' s' body
        | Return r => Ret (Return r)
        end)
  end.

(** ** Execution against a deterministic handler *)
Definition handler (W : Type) : Type := forall R : Type, E R -> W -> R * W.

Fixpoint run {W A} (h : handler W) (p : prog A) (w : W) (m : M)
    : outcome A * W * M :=
  match p with
  | Ret a => (Done a, w, m)
  | Panic s => (Panicked s, w, m)
  | Call c k => let '(r, w') := h _ c w in run h (k r) w' m
  | Atomic f k => let '(r, m') := f m in run h (k r) w m'
  end.

(** ** Specifications of the environment

    [pre c s] says that the program may issue [c] in state [s]; [post c s r s']
    that the environment may reply [r] and end in [s'].  [s] holds what a proof
    tracks: an abstraction of the clusters, or a record of past calls.  Changes
    made by other controllers are allowed by a [post] that admits them. *)
Record spec (S : Type) : Type := mkSpec {
  pre : forall R : Type, E R -> S -> Prop;
  post : forall R : Type, E R -> S -> R -> S -> Prop
}.
Arguments pre {S} _ {R}.
Arguments post {S} _ {R}.

Fixpoint wp {S A} (sp : spec S) (p : prog A) (s : S) (m : M)
    (Q : outcome A -> S -> M -> Prop) : Prop :=
  match p with
  | Ret a => Q (Done a) s m
  | Panic msg => Q (Panicked msg) s m
  | Call c k => pre sp c s /\ forall r s', post sp c s r s' -> wp sp (k r) s' m Q
  | Atomic f k => wp sp (k (f m).1) s (f m).2 Q
  end.

(** ** Rules *)

Lemma wp_mono {S A} (sp : spec S) (p : prog A) s m (Q Q' : outcome A -> S -> M -> Prop) :
  (forall o s' m', Q o s' m' -> Q' o s' m') -> wp sp p s m Q -> wp sp p s m Q'.
Proof.
  intros HQ. revert s m. induction p as [a|msg|R c k IH|R f k IH]; intros s m; simpl; auto.
  intros [Hp Hk]. split; [done|]. intros r s' Hr. by apply IH, Hk.
Qed.

Lemma wp_bind {S A B} (sp : spec S) (p : prog A) (f : A -> prog B) s m Q :
  wp sp p s m (fun o s' m' =>
    match o with
    | Done a => wp sp (f a) s' m' Q
    | Panicked msg => Q (Panicked msg) s' m'
    end) ->
  wp sp (bind p f) s m Q.
Proof.
  revert s m. induction p as [a|msg|R c k IH|R g k IH]; intros s m; simpl; auto.
  intros [Hp Hk]. split; [done|]. intros r s' Hr. by apply IH, Hk.
Qed.

(** Loop rule: [I done todo s st] holds before each iteration. *)
Lemma wp_for_range {S X St R} (sp : spec S) (I : list X -> list X -> St -> S -> M -> Prop)
    (body : X -> St -> prog (ctl St R)) Q :
  (forall pref x suf st s m, I pref (x :: suf) st s m ->
     wp sp (body x st) s m (fun o s' m' =>
       match o with
       | Done (Next st') => I (pref ++ [x]) suf st' s' m'
       | Done (Return r) => Q (Done (Return r)) s' m'
       | Panicked msg => Q (Panicked msg) s' m'
       end)) ->
  (forall all st s m, I all [] st s m -> Q (Done (Next st)) s m) ->
  forall xs pref st s m, I pref xs st s m -> wp sp (for_range xs st body) s m Q.
Proof.
  intros Hbody Hend xs.
  induction xs as [|x xs IH]; intros pref st s m HI; simpl; [by eapply Hend|].
  apply wp_bind. eapply wp_mono; [|by apply Hbody].
  intros [[st'|r]|msg] s' m' H; simpl; eauto.
Qed.

Lemma run_bind {W A B} (h : handler W) (p : prog A) (f : A -> prog B) w m :
  run h (bind p f) w m =
  match run h p w m with
  | (Done a, w', m') => run h (f a) w' m'
  | (Panicked msg, w', m') => (Panicked msg, w', m')
  end.
Proof.
  revert w m. induction p as [a|msg|R c k IH|R g k IH]; intros w m; simpl; auto.
  - destruct (h R c w) as [r w']. apply IH.
  - destruct (g m) as [r m']. apply IH.
Qed.

(** A handler that meets a specification on the states of an invariant, through
    an abstraction of its state, inherits every triple proved against the
    specification. *)
Lemma wp_run {W S A} (h : handler W) (sp : spec S) (abs : W -> S) (Inv : W -> Prop)
    (p : prog A) Q :
  (forall R (c : E R) w, Inv w -> pre sp c (abs w) ->
     post sp c (abs w) (h R c w).1 (abs (h R c w).2) /\ Inv (h R c w).2) ->
  forall w m, Inv w -> wp sp p (abs w) m Q ->
  match run h p w m with (o, w', m') => Q o (abs w') m' /\ Inv w' end.
Proof.
  intros Hh. induction p as [a|msg|R c k IH|R f k IH]; intros w m Hw; simpl; auto.
  - intros [Hp Hk]. destruct (Hh R c w Hw Hp) as [Hpost Hw'].
    destruct (h R c w) as [r w']; simpl in *. apply IH; auto.
  - destruct (f m) as [r m'] eqn:Hf; simpl. intros Hwp. by apply IH.
Qed.

(** A program nothing is known about ends somehow. *)
Lemma wp_any {S A} (sp : spec S) (p : prog A) s m (Q : outcome A -> S -> M -> Prop) :
  (forall R (c : E R) s, pre sp c s) -> (forall o s' m', Q o s' m') -> wp sp p s m Q.
Proof.
  intros Hpre HQ. revert s m. induction p as [a|msg|R c k IH|R f k IH]; intros s m; simpl; auto.
Qed.

(** Two facts about one program. *)
Lemma wp_and {S A} (sp : spec S) (p : prog A) s m (Q1 Q2 : outcome A -> S -> M -> Prop) :
  wp sp p s m Q1 -> wp sp p s m Q2 -> wp sp p s m (fun o s' m' => Q1 o s' m' /\ Q2 o s' m').
Proof.
  revert s m. induction p as [a|msg|R c k IH|R f k IH]; intros s m; simpl; auto.
  intros [Hp Hk] [_ Hk']. split; [done|]. intros r s' Hr. apply IH; auto.
Qed.

(** A family of facts about one program. *)
Lemma wp_forall {S A I} (sp : spec S) (p : prog A) s m (P : I -> Prop)
    (Q : I -> outcome A -> S -> M -> Prop) :
  (forall R (c : E R) s, pre sp c s) -> (forall i, P i -> wp sp p s m (Q i)) ->
  wp sp p s m (fun o s' m' => forall i, P i -> Q i o s' m').
Proof.
  intros Hpre. revert s m. induction p as [a|msg|R c k IH|R f k IH]; intros s m H; simpl in *.
  - exact H.
  - exact H.
  - split; [done|]. intros r s' Hr. apply IH. intros i Hi. by apply (H i Hi).
  - apply IH. exact H.
Qed.

(** A more predictable environment. *)
Lemma wp_weaken {S A} (sp sp' : spec S) (p : prog A) s m Q :
  (forall R (c : E R) s, pre sp c s -> pre sp' c s) ->
  (forall R (c : E R) s r s', post sp' c s r s' -> post sp c s r s') ->
  wp sp p s m Q -> wp sp' p s m Q.
Proof.
  intros Hpre Hpost. revert s m.
  induction p as [a|msg|R c k IH|R f k IH]; intros s m; simpl; auto.
  intros [Hc Hk]. split; [auto|]. intros r s' Hr. auto.
Qed.

(** An invariant of every reply is kept. *)
Lemma wp_keeps {S A} (sp : spec S) (I : S -> Prop) (p : prog A) s m :
  (forall R (c : E R) s, pre sp c s) ->
  (forall R (c : E R) s r s', post sp c s r s' -> I s -> I s') ->
  I s -> wp sp p s m (fun _ s' _ => I s').
Proof.
  intros Hpre Hpost. revert s m.
  induction p as [a|msg|R c k IH|R f k IH]; intros s m HI; simpl in *; eauto.
Qed.

(** Every call the program may issue, on every path, satisfies [P]. *)
Fixpoint issues {A} (P : forall R : Type, E R -> Prop) (p : prog A) : Prop :=
  match p with
  | Ret _ | Panic _ => True
  | Call c k => P _ c /\ forall r, issues P (k r)
  | Atomic f k => forall r, issues P (k r)
  end.

Lemma issues_bind {A B} P (p : prog A) (f : A -> prog B) :
  issues P p -> (forall a, issues P (f a)) -> issues P (bind p f).
Proof.
  intros Hp Hf. induction p as [a|msg|R c k IH|R g k IH]; simpl in *; auto.
  destruct Hp as [Hc Hk]. auto.
Qed.

Lemma issues_for_range {X St R} P (body : X -> St -> prog (ctl St R)) xs st :
  (forall x st, issues P (body x st)) -> issues P (for_range xs st body).
Proof.
  intros Hb. revert st. induction xs as [|x xs IH]; intros st; simpl; [done|].
  apply issues_bind; [done|]. intros [st'|r]; simpl; auto.
Qed.

Lemma issues_mono {A} (P P' : forall R : Type, E R -> Prop) (p : prog A) :
  (forall R (c : E R), P R c -> P' R c) -> issues P p -> issues P' p.
Proof.
  intros HP. induction p as [a|msg|R c k IH|R g k IH]; simpl; auto.
  intros [Hc Hk]. auto.
Qed.

Lemma issues_and {A} (P P' : forall R : Type, E R -> Prop) (p : prog A) :
  issues P p -> issues P' p -> issues (fun R c => P R c /\ P' R c) p.
Proof.
  induction p as [a|msg|R c k IH|R g k IH]; simpl; auto.
  intros [Hc Hk] [Hc' Hk']. auto.
Qed.

(** A program whose calls are all allowed in, and keep, an invariant of the
    tracked state keeps it. *)
Lemma wp_issues {S A} (sp : spec S) (P : forall R : Type, E R -> Prop) (I : S -> Prop)
    (p : prog A) s m :
  (forall R (c : E R) s, P R c -> I s -> pre sp c s) ->
  (forall R (c : E R) s r s', P R c -> I s -> post sp c s r s' -> I s') ->
  issues P p -> I s -> wp sp p s m (fun _ s' _ => I s').
Proof.
  intros Hpre Hpost. revert s m.
  induction p as [a|msg|R c k IH|R f k IH]; intros s m Hp HI; simpl in *; auto.
  destruct Hp as [Hc Hk]. split; [auto|]. intros r s' Hr. apply IH; eauto.
Qed.

(** A program without critical sections, which leaves the memory alone. *)
Fixpoint lockless {A} (p : prog A) : Prop :=
  match p with
  | Ret _ | Panic _ => True
  | Call c k => forall r, lockless (k r)
  | Atomic _ _ => False
  end.

Lemma lockless_bind {A B} (p : prog A) (f : A -> prog B) :
  lockless p -> (forall a, lockless (f a)) -> lockless (bind p f).
Proof. intros Hp Hf. induction p as [a|msg|R c k IH|R g k IH]; simpl in *; auto. Qed.

Lemma lockless_for_range {X St R} (body : X -> St -> prog (ctl St R)) xs st :
  (forall x st, lockless (body x st)) -> lockless (for_range xs st body).
Proof.
  intros Hb. revert st. induction xs as [|x xs IH]; intros st; simpl; [done|].
  apply lockless_bind; [done|]. intros [st'|r]; simpl; auto.
Qed.

Lemma wp_lockless {S A} (sp : spec S) (p : prog A) s m :
  (forall R (c : E R) s, pre sp c s) -> lockless p -> wp sp p s m (fun _ _ m' => m' = m).
Proof.
  intros Hpre. revert s. induction p as [a|msg|R c k IH|R f k IH]; intros s Hp; simpl in *; auto.
  done.
Qed.

End Programs.

Arguments prog : clear implicits.
Arguments Ret {E M A} a.
Arguments Panic {E M A} msg.
Arguments Call {E M A R} c k.
Arguments Atomic {E M A R} f k.
Arguments spec : clear implicits.
Arguments mkSpec {E S} pre post.
Arguments pre {E S} _ {R}.
Arguments post {E S} _ {R}.
Arguments Next {S R} s.
Arguments Return {S R} r.
Arguments handler : clear implicits.

(** The environment that may reply anything. *)
Definition chaos {E : Type -> Type} : spec E unit :=
  mkSpec (fun _ _ _ => True) (fun _ _ _ _ _ => True).

Notation "x <- p ;; q" := (bind p (fun x => q))
  (at level 100, p at next level, right associativity) : go_scope.
Notation "'let*' pat := p 'in' q" := (bind p (fun pat => q))
  (at level 100, pat pattern, p at next level, right associativity) : go_scope.
Notation "p ;;; q" := (bind p (fun _ => q))
  (at level 100, right associativity) : go_scope.

(** One step of a [wp] goal: open a bind, a call, or the scrutinee of a match. *)
Ltac wp_step :=
  lazymatch goal with
  | |- wp _ (bind _ _) _ _ _ => apply wp_bind
  | |- wp _ (call _) _ _ _ => unfold call; simpl
  | |- wp _ (match ?x with _ => _ end) _ _ _ => destruct x eqn:?
  | |- wp _ (Ret _) _ _ _ => simpl
  | |- wp _ (Panic _) _ _ _ => simpl
  end.

(** The same for [issues]. *)
Ltac issues_step :=
  lazymatch goal with
  | |- issues _ (bind _ _) => apply issues_bind
  | |- issues _ (for_range _ _ _) => apply issues_for_range; intros
  | |- issues _ (match ?x with _ => _ end) => destruct x
  | |- issues _ (Ret _) => exact I
  | |- issues _ (Panic _) => exact I
  | |- issues _ (call _) => split; [|intros; exact I]
  | |- forall _, _ => intro
  end.

(** The same for [lockless]. *)
Ltac lockless_step :=
  lazymatch goal with
  | |- lockless (bind _ _) => apply lockless_bind
  | |- lockless (for_range _ _ _) => apply lockless_for_range; intros
  | |- lockless (match ?x with _ => _ end) => destruct x
  | |- lockless (Ret _) => exact I
  | |- lockless (Panic _) => exact I
  | |- lockless (call _) => intros ?; exact I
  | |- forall _, _ => intro
  end.
