(* ===== verification/Model.v ===== *)
(** The domain model of nodes and pools
    (internal/domain/model: resource.go, vnode.go, vnodepool.go): the data, the
    readiness test, the validation of a pool and the scale computation. *)

From S2P Require Import Prelude.

(** ** Resources *)
Record ResourceList : Type := mkResourceList {
  rl_CPU : string;
  rl_Memory : string;
  rl_Pods : Z
}.

(** ** Nodes; a phase and a condition type are Go strings, so any string that
    the API server hands back is a value of them. *)
Definition NodePhasePending : string := "Pending".
Definition NodePhaseReady : string := "Ready".
Definition NodePhaseNotReady : string := "NotReady".
Definition NodePhaseTerminating : string := "Terminating".

Definition NodeConditionRegistered : string := "Registered".
Definition NodeConditionReady : string := "Ready".
Definition NodeConditionKubeconfig : string := "KubeconfigResolved".
Definition NodeConditionLease : string := "LeaseActive".
Definition NodeConditionDegraded : string := "Degraded".

Record NodeCondition : Type := mkNodeCondition {
  nc_Type : string;
  nc_Status : bool;
  nc_Reason : string;
  nc_Message : string
}.

(** ** Pools *)
Definition PoolModeShared : string := "shared".
Definition PoolModeDedicated : string := "dedicated".
Definition PoolModeBurstable : string := "burstable".

Definition PoolPhasePending : string := "Pending".
Definition PoolPhaseReady : string := "Ready".
Definition PoolPhaseScaling : string := "Scaling".
Definition PoolPhaseFailed : string := "Failed".
Definition PoolPhaseDeleting : string := "Deleting".

Record TenantRef : Type := mkTenantRef {
  tr_VClusterName : string;
  tr_VClusterNamespace : string;
  tr_KubeconfigSecret : string
}.

Record Taint : Type := mkTaint {
  ta_Key : string;
  ta_Value : string;
  ta_Effect : string
}.

Record Toleration : Type := mkToleration {
  to_Key : string;
  to_Operator : string;
  to_Value : string;
  to_Effect : string;
  to_TolerationSeconds : option Z
}.

Record VNode : Type := mkVNode {
  vn_ID : string;
  vn_Name : string;
  vn_Namespace : string;
  vn_PoolName : string;
  vn_TenantRef : TenantRef;
  vn_Taints : list Taint;
  vn_Phase : string;
  vn_Capacity : ResourceList;
  vn_Allocatable : ResourceList;
  vn_Conditions : list NodeCondition
}.

Record VNodePool : Type := mkVNodePool {
  vp_ID : string;
  vp_Name : string;
  vp_DisplayName : string;
  vp_Namespace : string;
  vp_TenantRef : TenantRef;
  vp_Mode : string;
  vp_IsolationBackend : string;
  vp_RuntimeClassName : string;
  vp_NodeCount : Z;
  vp_PerNodeResources : ResourceList;
  vp_NodeSelector : gmap string string;
  vp_Taints : list Taint;
  vp_Tolerations : list Toleration;
  vp_Phase : string;
  vp_ReadyNodes : Z;
  vp_Nodes : list string;
  vp_DeletionPending : bool
}.

#[export] Instance ResourceList_eq_dec : EqDecision ResourceList.
Proof. solve_decision. Defined.
#[export] Instance NodeCondition_eq_dec : EqDecision NodeCondition.
Proof. solve_decision. Defined.
#[export] Instance TenantRef_eq_dec : EqDecision TenantRef.
Proof. solve_decision. Defined.
#[export] Instance Taint_eq_dec : EqDecision Taint.
Proof. solve_decision. Defined.
#[export] Instance Toleration_eq_dec : EqDecision Toleration.
Proof. solve_decision. Defined.
#[export] Instance VNode_eq_dec : EqDecision VNode.
Proof. solve_decision. Defined.
#[export] Instance VNodePool_eq_dec : EqDecision VNodePool.
Proof. solve_decision. Defined.

(** The zero value [model.VNode{}]. *)
Definition zeroResourceList : ResourceList := mkResourceList "" "" 0.
Definition zeroVNode : VNode :=
  mkVNode "" "" "" "" (mkTenantRef "" "" "") [] "" zeroResourceList zeroResourceList [].

(** [node.Phase = phase; node.Conditions = conds]. *)
Definition set_node_status (n : VNode) (phase : string) (conds : list NodeCondition) : VNode :=
  mkVNode (vn_ID n) (vn_Name n) (vn_Namespace n) (vn_PoolName n) (vn_TenantRef n)
    (vn_Taints n) phase (vn_Capacity n) (vn_Allocatable n) conds.

(** Field assignments on a pool. *)
Definition set_pool_phase (p : VNodePool) (phase : string) : VNodePool :=
  mkVNodePool (vp_ID p) (vp_Name p) (vp_DisplayName p) (vp_Namespace p) (vp_TenantRef p)
    (vp_Mode p) (vp_IsolationBackend p) (vp_RuntimeClassName p) (vp_NodeCount p)
    (vp_PerNodeResources p) (vp_NodeSelector p) (vp_Taints p) (vp_Tolerations p)
    phase (vp_ReadyNodes p) (vp_Nodes p) (vp_DeletionPending p).
Definition set_pool_ready (p : VNodePool) (ready : Z) : VNodePool :=
  mkVNodePool (vp_ID p) (vp_Name p) (vp_DisplayName p) (vp_Namespace p) (vp_TenantRef p)
    (vp_Mode p) (vp_IsolationBackend p) (vp_RuntimeClassName p) (vp_NodeCount p)
    (vp_PerNodeResources p) (vp_NodeSelector p) (vp_Taints p) (vp_Tolerations p)
    (vp_Phase p) ready (vp_Nodes p) (vp_DeletionPending p).
Definition set_pool_nodes (p : VNodePool) (nodes : list string) : VNodePool :=
  mkVNodePool (vp_ID p) (vp_Name p) (vp_DisplayName p) (vp_Namespace p) (vp_TenantRef p)
    (vp_Mode p) (vp_IsolationBackend p) (vp_RuntimeClassName p) (vp_NodeCount p)
    (vp_PerNodeResources p) (vp_NodeSelector p) (vp_Taints p) (vp_Tolerations p)
    (vp_Phase p) (vp_ReadyNodes p) nodes (vp_DeletionPending p).
Definition set_pool_deletion (p : VNodePool) (count : Z) (pending : bool) : VNodePool :=
  mkVNodePool (vp_ID p) (vp_Name p) (vp_DisplayName p) (vp_Namespace p) (vp_TenantRef p)
    (vp_Mode p) (vp_IsolationBackend p) (vp_RuntimeClassName p) count
    (vp_PerNodeResources p) (vp_NodeSelector p) (vp_Taints p) (vp_Tolerations p)
    (vp_Phase p) (vp_ReadyNodes p) (vp_Nodes p) pending.

(** ** Operations *)

(** The status of the first condition of a given type. *)
Fixpoint first_condition (ty : string) (cs : list NodeCondition) : option bool :=
  match cs with
  | [] => None
  | c :: cs' =>
      if bool_decide (nc_Type c = ty) then Some (nc_Status c) else first_condition ty cs'
  end.

Definition IsReady (n : VNode) : bool :=
  if bool_decide (vn_Phase n = NodePhaseReady) then true
  else default false (first_condition NodeConditionReady (vn_Conditions n)).

Definition Validate (p : VNodePool) : option error :=
  if bool_decide (vp_Name p = "") then Some (ErrText "pool name is required")
  else if bool_decide (tr_KubeconfigSecret (vp_TenantRef p) = "") then
    Some (ErrText "tenantRef.kubeconfigSecret is required")
  else if (vp_NodeCount p <? 0)%Z then Some (ErrText "nodeCount must be >= 0")
  else if bool_decide (vp_Mode p = PoolModeDedicated) && (size (vp_NodeSelector p) =? 0)%nat then
    Some (ErrText "dedicated mode requires nodeSelector")
  else if bool_decide (vp_Mode p = PoolModeShared) || bool_decide (vp_Mode p = PoolModeDedicated)
       || bool_decide (vp_Mode p = PoolModeBurstable) || bool_decide (vp_Mode p = "") then
    None
  else Some (ErrText ("invalid pool mode: " +:+ vp_Mode p)).

(** [(toAdd, toRemove)]; the subtractions are on [int32]. *)
Definition DesiredScaleActions (p : VNodePool) (currentNodes : Z) : Z * Z :=
  if (currentNodes <? vp_NodeCount p)%Z then (int32 (vp_NodeCount p - currentNodes), 0%Z)
  else if (vp_NodeCount p <? currentNodes)%Z then (0%Z, int32 (currentNodes - vp_NodeCount p))
  else (0%Z, 0%Z).

(** ** Properties *)

(** What a valid pool is, without the order in which the code tests it. *)
Definition valid_pool (p : VNodePool) : Prop :=
  vp_Name p <> "" /\ tr_KubeconfigSecret (vp_TenantRef p) <> "" /\ (0 <= vp_NodeCount p)%Z /\
  vp_Mode p ∈ [PoolModeShared; PoolModeDedicated; PoolModeBurstable; ""] /\
  (vp_Mode p = PoolModeDedicated -> vp_NodeSelector p <> ∅).

Lemma first_condition_None ty cs :
  first_condition ty cs = None <-> Forall (fun c => nc_Type c <> ty) cs.
Proof.
  induction cs as [|c cs IH]; simpl; [by split|].
  rewrite Forall_cons, <- IH. case_bool_decide; naive_solver.
Qed.

Lemma selector_size_eqb (m : gmap string string) : (size m =? 0)%nat = bool_decide (m = ∅).
Proof.
  case_bool_decide as H.
  - subst. by rewrite map_size_empty.
  - apply Nat.eqb_neq. by rewrite map_size_empty_iff.
Qed.

(** The validation accepts exactly the valid pools. *)
Theorem Validate_iff (p : VNodePool) : Validate p = None <-> valid_pool p.
Proof.
  unfold Validate, valid_pool. rewrite selector_size_eqb.
  split.
  - intros H. repeat (case_bool_decide || case_match); simplify_eq/=; set_solver by lia.
  - intros (Hn & Hs & Hc & Hm & Hd).
    rewrite (bool_decide_false (vp_Name p = "")), (bool_decide_false (_ = "")) by done.
    destruct (Z.ltb_spec (vp_NodeCount p) 0); [lia|].
    repeat (case_bool_decide || case_match); simplify_eq/=; set_solver.
Qed.

Lemma DesiredScaleActions_add p c :
  is_int32 (vp_NodeCount p) -> (0 <= c <= vp_NodeCount p)%Z ->
  DesiredScaleActions p c = (vp_NodeCount p - c, 0)%Z.
Proof.
  unfold is_int32, int32_min, int32_max, DesiredScaleActions. intros Hp Hc.
  destruct (Z.ltb_spec c (vp_NodeCount p)).
  - rewrite int32_id; [done|]. unfold is_int32, int32_min, int32_max. lia.
  - destruct (Z.ltb_spec (vp_NodeCount p) c); f_equal; lia.
Qed.

Lemma DesiredScaleActions_remove p c :
  (0 <= vp_NodeCount p <= c)%Z -> is_int32 c ->
  DesiredScaleActions p c = (0, c - vp_NodeCount p)%Z.
Proof.
  unfold is_int32, int32_min, int32_max, DesiredScaleActions. intros Hp Hc.
  destruct (Z.ltb_spec c (vp_NodeCount p)); [lia|].
  destruct (Z.ltb_spec (vp_NodeCount p) c); [|f_equal; lia].
  rewrite int32_id; [done|]. unfold is_int32, int32_min, int32_max. lia.
Qed.

(** C30: On the counts a valid pool and a real list can have, the scale computation
    does not overflow, never asks to add and remove at once, and its actions
    lead from the current count to the declared one. *)
Theorem DesiredScaleActions_exact (p : VNodePool) (c : Z) :
  (0 <= vp_NodeCount p <= int32_max)%Z -> (0 <= c <= int32_max)%Z ->
  let '(add, remove) := DesiredScaleActions p c in
  (0 <= add <= int32_max /\ 0 <= remove <= int32_max /\
   (add = 0 \/ remove = 0) /\ c + add - remove = vp_NodeCount p)%Z.
Proof.
  intros Hp Hc. unfold int32_max in *.
  destruct (Z.le_ge_cases c (vp_NodeCount p)).
  - rewrite DesiredScaleActions_add; unfold is_int32, int32_min, int32_max; lia.
  - rewrite DesiredScaleActions_remove; unfold is_int32, int32_min, int32_max; lia.
Qed.

Definition sample_pool (count : Z) : VNodePool :=
  mkVNodePool "uid-1" "pool" "" "ns" (mkTenantRef "t" "t-ns" "kc") PoolModeShared "kata" ""
    count (mkResourceList "4" "8Gi" 110) ∅ [] [] "" 0 [] false.

Lemma DesiredScaleActions_exact_witness :
  let '(add, remove) := DesiredScaleActions (sample_pool 2) 5 in
  (0 <= add <= int32_max /\ 0 <= remove <= int32_max /\
   (add = 0 \/ remove = 0) /\ 5 + add - remove = 2)%Z.
Proof.
  apply (DesiredScaleActions_exact (sample_pool 2) 5); vm_compute; split; discriminate.
Defined.

(** Without the validation the subtraction can overflow: the most negative
    count against one node gives a negative number of removals. *)
Example DesiredScaleActions_overflow :
  DesiredScaleActions (sample_pool int32_min) 1 = (0, -2147483647)%Z.
Proof. reflexivity. Qed.
