(* ===== verification/PodModel.v ===== *)
(** The translation of a tenant pod into a host pod
    (internal/domain/model/pod.go). *)

From S2P Require Import Prelude Model.

(** ** Data *)
Record EnvVar : Type := mkEnvVar { ev_Name : string; ev_Value : string }.

Definition VolumeTypeProjected : string := "projected".
Definition VolumeTypeConfigMap : string := "configMap".
Definition VolumeTypeSecret : string := "secret".
Definition VolumeTypeEmptyDir : string := "emptyDir".
Definition VolumeTypePVC : string := "pvc".
Definition VolumeTypeHostPath : string := "hostPath".
Definition VolumeTypeOther : string := "other".

Record Volume : Type := mkVolume {
  vo_Name : string;
  vo_Type : string;
  vo_Source : string
}.

Record VolumeMount : Type := mkVolumeMount {
  vm_Name : string;
  vm_MountPath : string;
  vm_ReadOnly : bool
}.

Record ContainerResources : Type := mkContainerResources {
  cr_Requests : ResourceList;
  cr_Limits : ResourceList
}.

Record Container : Type := mkContainer {
  ct_Name : string;
  ct_Image : string;
  ct_Command : list string;
  ct_Args : list string;
  ct_Env : list EnvVar;
  ct_VolumeMounts : list VolumeMount;
  ct_Resources : ContainerResources
}.

Record PodSpec : Type := mkPodSpec {
  ps_Name : string;
  ps_Namespace : string;
  ps_Labels : gmap string string;
  ps_NodeName : string;
  ps_Containers : list Container;
  ps_Volumes : list Volume;
  ps_ServiceAccountName : string;
  ps_AutomountServiceAccountToken : option bool;
  ps_RuntimeClassName : string;
  ps_NodeSelector : gmap string string;
  ps_Deleting : bool
}.

Record ContainerStatus : Type := mkContainerStatus {
  cs_Name : string;
  cs_Ready : bool;
  cs_RestartCount : Z;
  cs_State : string
}.

Record PodStatus : Type := mkPodStatus {
  pst_Phase : string;
  pst_PodIP : string;
  pst_ContainerStatuses : list ContainerStatus;
  pst_Message : string;
  pst_Reason : string
}.

Record PodTranslation : Type := mkPodTranslation {
  pt_SourcePod : PodSpec;
  pt_TargetPod : PodSpec
}.

Definition LabelManagedBy : string := "app.kubernetes.io/managed-by".
Definition LabelManagedByValue : string := "kroderdev-vnode".
Definition LabelVNodePool : string := "vnode.kroderdev.io/pool".
Definition LabelVNodeName : string := "vnode.kroderdev.io/node-name".
Definition LabelSourcePodName : string := "vnode.kroderdev.io/source-pod-name".
Definition LabelSourcePodNS : string := "vnode.kroderdev.io/source-pod-namespace".

Record TranslateOpts : Type := mkTranslateOpts {
  op_VNodeName : string;
  op_PoolName : string;
  op_TargetNamespace : string;
  op_RuntimeClass : string;
  op_NodeSelector : gmap string string
}.

Record VolumeResourceRef : Type := mkVolumeResourceRef {
  rf_Type : string;
  rf_SourceName : string;
  rf_SourceNamespace : string;
  rf_TargetName : string
}.

#[export] Instance EnvVar_eq_dec : EqDecision EnvVar.
Proof. solve_decision. Defined.
#[export] Instance Volume_eq_dec : EqDecision Volume.
Proof. solve_decision. Defined.
#[export] Instance VolumeMount_eq_dec : EqDecision VolumeMount.
Proof. solve_decision. Defined.
#[export] Instance ContainerResources_eq_dec : EqDecision ContainerResources.
Proof. solve_decision. Defined.
#[export] Instance Container_eq_dec : EqDecision Container.
Proof. solve_decision. Defined.
#[export] Instance PodSpec_eq_dec : EqDecision PodSpec.
Proof. solve_decision. Defined.
#[export] Instance ContainerStatus_eq_dec : EqDecision ContainerStatus.
Proof. solve_decision. Defined.
#[export] Instance PodStatus_eq_dec : EqDecision PodStatus.
Proof. solve_decision. Defined.
#[export] Instance VolumeResourceRef_eq_dec : EqDecision VolumeResourceRef.
Proof. solve_decision. Defined.

(** ** Operations *)
Definition isServiceAccountMount (vm : VolumeMount) : bool :=
  bool_decide (vm_MountPath vm = "/var/run/secrets/kubernetes.io/serviceaccount").

(** The inner loop of [translateContainers]. *)
Fixpoint strip_mounts (vms : list VolumeMount) : list VolumeMount :=
  match vms with
  | [] => []
  | vm :: vms' => if isServiceAccountMount vm then strip_mounts vms' else vm :: strip_mounts vms'
  end.

Definition translateContainers (containers : list Container) : list Container :=
  map (fun c => mkContainer (ct_Name c) (ct_Image c) (ct_Command c) (ct_Args c) (ct_Env c)
                  (strip_mounts (ct_VolumeMounts c)) (ct_Resources c)) containers.

Fixpoint filterVolumes (volumes : list Volume) (sourceNamespace : string) : list Volume :=
  match volumes with
  | [] => []
  | v :: vs =>
      if bool_decide (vo_Type v = VolumeTypeProjected) then filterVolumes vs sourceNamespace
      else
        let v' :=
          if bool_decide (vo_Type v = VolumeTypeConfigMap) || bool_decide (vo_Type v = VolumeTypeSecret)
          then mkVolume (vo_Name v) (vo_Type v) (sourceNamespace +:+ "-" +:+ vo_Source v)
          else v in
        v' :: filterVolumes vs sourceNamespace
  end.

(** [fmt.Sprintf("%s-%s-%s", opts.VNodeName, source.Namespace, source.Name)]. *)
Definition targetPodName (vnode ns name : string) : string :=
  vnode +:+ "-" +:+ ns +:+ "-" +:+ name.

(** The labels the operator sets before it copies the ones of the tenant. *)
Definition trackingLabels (source : PodSpec) (opts : TranslateOpts) : gmap string string :=
  <[LabelManagedBy := LabelManagedByValue]>
  (<[LabelVNodePool := op_PoolName opts]>
  (<[LabelVNodeName := op_VNodeName opts]>
  (<[LabelSourcePodName := ps_Name source]>
  (<[LabelSourcePodNS := ps_Namespace source]> ∅)))).

(** [for k, v := range source.Labels { if _, exists := ...; !exists { ... } }]
    in the order [kvs] in which the runtime hands out the entries. *)
Fixpoint copyLabels (kvs : list (string * string)) (target : gmap string string)
    : gmap string string :=
  match kvs with
  | [] => target
  | (k, v) :: kvs' =>
      copyLabels kvs' (match target !! k with Some _ => target | None => <[k := v]> target end)
  end.

Definition TranslatePod (source : PodSpec) (opts : TranslateOpts) : PodTranslation :=
  mkPodTranslation source
    (mkPodSpec
       (targetPodName (op_VNodeName opts) (ps_Namespace source) (ps_Name source))
       (op_TargetNamespace opts)
       (copyLabels (map_to_list (ps_Labels source)) (trackingLabels source opts))
       ""
       (translateContainers (ps_Containers source))
       (filterVolumes (ps_Volumes source) (ps_Namespace source))
       ""
       (Some false)
       (op_RuntimeClass opts)
       (op_NodeSelector opts)
       false).

(** The loop of [ResourceRefs]. *)
Fixpoint volumeRefs (sourceNS : string) (vs : list Volume) : list VolumeResourceRef :=
  match vs with
  | [] => []
  | sv :: vs' =>
      if negb (bool_decide (vo_Type sv = VolumeTypeConfigMap))
         && negb (bool_decide (vo_Type sv = VolumeTypeSecret))
      then volumeRefs sourceNS vs'
      else mkVolumeResourceRef (vo_Type sv) (vo_Source sv) sourceNS
             (sourceNS +:+ "-" +:+ vo_Source sv) :: volumeRefs sourceNS vs'
  end.

Definition ResourceRefs (t : PodTranslation) : list VolumeResourceRef :=
  volumeRefs (ps_Namespace (pt_SourcePod t)) (ps_Volumes (pt_SourcePod t)).

(** ** Lemmas *)

Lemma copyLabels_lookup kvs target k :
  NoDup kvs.*1 ->
  copyLabels kvs target !! k =
  match target !! k with Some v => Some v | None => (list_to_map kvs : gmap string string) !! k end.
Proof.
  revert target. induction kvs as [|[k' v'] kvs IH]; intros target; simpl.
  { intros _. destruct (target !! k); [done|]. by rewrite lookup_empty. }
  intros [Hk' HN]%NoDup_cons. rewrite IH by done.
  rewrite (not_elem_of_list_to_map (M:=gmap string)) in Hk'.
  destruct (decide (k = k')) as [->|Hne].
  - rewrite lookup_insert_eq. destruct (target !! k') eqn:Ht.
    + by rewrite Ht.
    + by rewrite lookup_insert_eq.
  - rewrite (lookup_insert_ne _ k' k) by done.
    destruct (target !! k'); [done|]. by rewrite lookup_insert_ne.
Qed.

(** In whatever order the runtime ranges over the map, the copy is the
    left-biased union. *)
Lemma copyLabels_union kvs (m target : gmap string string) :
  kvs ≡ₚ map_to_list m -> copyLabels kvs target = target ∪ m.
Proof.
  intros Hp. apply map_eq. intros k.
  assert (NoDup kvs.*1) as HN by (rewrite Hp; apply NoDup_fst_map_to_list).
  rewrite copyLabels_lookup by done.
  rewrite (list_to_map_proper kvs (map_to_list m)) by done.
  rewrite list_to_map_to_list, lookup_union.
  by destruct (target !! k), (m !! k).
Qed.

Lemma strip_mounts_filter vms :
  strip_mounts vms = base.filter (fun vm => isServiceAccountMount vm = false) vms.
Proof.
  induction vms as [|vm vms IH]; [done|]. cbn -[base.filter]. rewrite filter_cons, <- IH.
  destruct (isServiceAccountMount vm); by case_decide.
Qed.

(** The translation of one kept volume. *)
Definition namespaceVolume (ns : string) (v : Volume) : Volume :=
  if bool_decide (vo_Type v ∈ [VolumeTypeConfigMap; VolumeTypeSecret])
  then mkVolume (vo_Name v) (vo_Type v) (ns +:+ "-" +:+ vo_Source v)
  else v.

Lemma filterVolumes_spec vs ns :
  filterVolumes vs ns =
  namespaceVolume ns <$> base.filter (fun v => vo_Type v <> VolumeTypeProjected) vs.
Proof.
  induction vs as [|v vs IH]; [done|]. cbn -[base.filter]. rewrite filter_cons.
  destruct (bool_decide_reflect (vo_Type v = VolumeTypeProjected)) as [Hp|Hp].
  - rewrite decide_False by auto. exact IH.
  - rewrite decide_True by done. rewrite IH. simpl. f_equal. unfold namespaceVolume.
    repeat case_bool_decide; simpl; set_solver.
Qed.

(** The (kind, name) pairs of the ConfigMaps and Secrets a pod mounts. *)
Definition mountedResources (vs : list Volume) : list (string * string) :=
  (fun v => (vo_Type v, vo_Source v)) <$>
  base.filter (fun v => vo_Type v ∈ [VolumeTypeConfigMap; VolumeTypeSecret]) vs.

Lemma volumeRefs_targets ns vs :
  (fun r => (rf_Type r, rf_TargetName r)) <$> volumeRefs ns vs =
  mountedResources (filterVolumes vs ns).
Proof.
  unfold mountedResources.
  induction vs as [|v vs IH]; [done|]. cbn -[base.filter].
  destruct (bool_decide_reflect (vo_Type v = VolumeTypeConfigMap)) as [Hc|Hc];
    [|destruct (bool_decide_reflect (vo_Type v = VolumeTypeSecret)) as [Hs|Hs]].
  - rewrite (bool_decide_false (vo_Type v = VolumeTypeProjected)) by (by rewrite Hc). simpl.
    rewrite filter_cons_True by (simpl; rewrite Hc; set_solver). simpl. f_equal. exact IH.
  - rewrite (bool_decide_false (vo_Type v = VolumeTypeProjected)) by (by rewrite Hs). simpl.
    rewrite filter_cons_True by (simpl; rewrite Hs; set_solver). simpl. f_equal. exact IH.
  - simpl. case_bool_decide; [done|].
    rewrite filter_cons_False by set_solver. done.
Qed.

Lemma targetPodName_inj vnode ns1 n1 ns2 n2 :
  no_char "-"%char ns1 = true -> no_char "-"%char ns2 = true ->
  targetPodName vnode ns1 n1 = targetPodName vnode ns2 n2 -> ns1 = ns2 /\ n1 = n2.
Proof.
  unfold targetPodName. intros H1 H2 Heq.
  apply (inj (String.append vnode)) in Heq.
  apply (inj (String.append "-")) in Heq.
  by apply (sep_inj "-"%char) in Heq.
Qed.

Lemma target_labels source opts :
  ps_Labels (pt_TargetPod (TranslatePod source opts)) =
  trackingLabels source opts ∪ ps_Labels source.
Proof. cbn [TranslatePod pt_TargetPod ps_Labels]. by apply copyLabels_union. Qed.

Lemma trackingLabels_lookup source opts :
  trackingLabels source opts !! LabelManagedBy = Some LabelManagedByValue /\
  trackingLabels source opts !! LabelVNodePool = Some (op_PoolName opts) /\
  trackingLabels source opts !! LabelVNodeName = Some (op_VNodeName opts) /\
  trackingLabels source opts !! LabelSourcePodName = Some (ps_Name source) /\
  trackingLabels source opts !! LabelSourcePodNS = Some (ps_Namespace source).
Proof. unfold trackingLabels. split_and!; by simplify_map_eq. Qed.

Lemma target_volumes source opts v :
  v ∈ ps_Volumes (pt_TargetPod (TranslatePod source opts)) -> vo_Type v <> VolumeTypeProjected.
Proof.
  simpl. rewrite filterVolumes_spec, list_elem_of_fmap. intros (v' & -> & Hv').
  apply list_elem_of_filter in Hv' as [Hne _]. unfold namespaceVolume. by case_bool_decide.
Qed.

Lemma target_mounts source opts c vm :
  c ∈ ps_Containers (pt_TargetPod (TranslatePod source opts)) -> vm ∈ ct_VolumeMounts c ->
  isServiceAccountMount vm = false.
Proof.
  simpl. intros Hc Hvm. apply list_elem_of_fmap in Hc as (c' & -> & _). simpl in Hvm.
  rewrite strip_mounts_filter in Hvm. by apply list_elem_of_filter in Hvm as [? _].
Qed.

(** ** Properties *)

(** C20: The labels of the host pod are the operator's own labels first and the
    tenant's only where they do not clash, whatever the order of the map
    iteration: a tenant cannot forge or remove a tracking label. *)
Theorem TranslatePod_labels (source : PodSpec) (opts : TranslateOpts) :
  let labels := ps_Labels (pt_TargetPod (TranslatePod source opts)) in
  labels = trackingLabels source opts ∪ ps_Labels source /\
  (forall kvs, kvs ≡ₚ map_to_list (ps_Labels source) ->
     copyLabels kvs (trackingLabels source opts) = labels) /\
  labels !! LabelManagedBy = Some LabelManagedByValue /\
  labels !! LabelVNodePool = Some (op_PoolName opts) /\
  labels !! LabelVNodeName = Some (op_VNodeName opts) /\
  labels !! LabelSourcePodName = Some (ps_Name source) /\
  labels !! LabelSourcePodNS = Some (ps_Namespace source).
Proof.
  intros labels. unfold labels. rewrite target_labels.
  split; [done|]. split; [intros kvs Hp; by apply copyLabels_union|].
  destruct (trackingLabels_lookup source opts) as (H1 & H2 & H3 & H4 & H5).
  split_and!; by apply lookup_union_Some_l.
Qed.


(** C22: Everything else of the workload is kept, in order: each container keeps its
    name, image, command, arguments, environment, resources and its other
    mounts, and each other volume keeps its name and kind. *)
Theorem TranslatePod_preserves_workload (source : PodSpec) (opts : TranslateOpts) :
  let target := pt_TargetPod (TranslatePod source opts) in
  Forall2 (fun s t =>
    ct_Name t = ct_Name s /\ ct_Image t = ct_Image s /\ ct_Command t = ct_Command s /\
    ct_Args t = ct_Args s /\ ct_Env t = ct_Env s /\ ct_Resources t = ct_Resources s /\
    ct_VolumeMounts t =
      base.filter (fun vm => isServiceAccountMount vm = false) (ct_VolumeMounts s))
    (ps_Containers source) (ps_Containers target) /\
  ps_Volumes target =
    namespaceVolume (ps_Namespace source) <$>
    base.filter (fun v => vo_Type v <> VolumeTypeProjected) (ps_Volumes source).
Proof.
  simpl. split; [|apply filterVolumes_spec].
  induction (ps_Containers source) as [|c cs IH]; simpl; [constructor|].
  constructor; [|exact IH]. simpl. by rewrite strip_mounts_filter.
Qed.

(** C23: The resources the operator copies to the host are exactly the ones the host
    pod mounts, under the names it mounts them by. *)
Theorem ResourceRefs_match_target (source : PodSpec) (opts : TranslateOpts) :
  (fun r => (rf_Type r, rf_TargetName r)) <$> ResourceRefs (TranslatePod source opts) =
  mountedResources (ps_Volumes (pt_TargetPod (TranslatePod source opts))).
Proof. apply volumeRefs_targets. Qed.

(** Two tenant pods of one virtual node whose namespaces have no dash get
    different host pods. *)
Theorem TranslatePod_name_injective (s1 s2 : PodSpec) (opts : TranslateOpts) :
  no_char "-"%char (ps_Namespace s1) = true -> no_char "-"%char (ps_Namespace s2) = true ->
  ps_Name (pt_TargetPod (TranslatePod s1 opts)) = ps_Name (pt_TargetPod (TranslatePod s2 opts)) ->
  ps_Namespace s1 = ps_Namespace s2 /\ ps_Name s1 = ps_Name s2.
Proof. simpl. apply targetPodName_inj. Qed.

Definition sample_pod (ns name : string) : PodSpec :=
  mkPodSpec name ns {[ "app" := "web" ]} "vnode-pool-1" []
    [mkVolume "cfg" VolumeTypeConfigMap "c"] "" None "" ∅ false.
Definition sample_opts : TranslateOpts := mkTranslateOpts "vnode-pool-1" "pool" "ns" "kata" ∅.

Lemma TranslatePod_name_injective_witness :
  ps_Namespace (sample_pod "a" "b") = ps_Namespace (sample_pod "a" "b") /\
  ps_Name (sample_pod "a" "b") = ps_Name (sample_pod "a" "b").
Proof.
  apply (TranslatePod_name_injective (sample_pod "a" "b") (sample_pod "a" "b") sample_opts);
    reflexivity.
Defined.

(** C40: With dashes the name of the host pod and the names of the copied ConfigMaps
    are ambiguous: pods [a-b/c] and [a/b-c] share one host pod, and their
    ConfigMaps [c] and [b-c] share one host ConfigMap. *)
Theorem TranslatePod_name_collision :
  exists s1 s2 : PodSpec,
    (ps_Namespace s1, ps_Name s1) <> (ps_Namespace s2, ps_Name s2) /\
    forall opts : TranslateOpts,
      ps_Name (pt_TargetPod (TranslatePod s1 opts)) = ps_Name (pt_TargetPod (TranslatePod s2 opts)) /\
      ps_Namespace (pt_TargetPod (TranslatePod s1 opts)) =
        ps_Namespace (pt_TargetPod (TranslatePod s2 opts)) /\
      rf_TargetName <$> ResourceRefs (TranslatePod s1 opts) =
        rf_TargetName <$> ResourceRefs (TranslatePod s2 opts) /\
      rf_SourceNamespace <$> ResourceRefs (TranslatePod s1 opts) <>
        rf_SourceNamespace <$> ResourceRefs (TranslatePod s2 opts).
Proof.
  exists (mkPodSpec "c" "a-b" ∅ "" [] [mkVolume "v" VolumeTypeConfigMap "c"] "" None "" ∅ false).
  exists (mkPodSpec "b-c" "a" ∅ "" [] [mkVolume "v" VolumeTypeConfigMap "b-c"] "" None "" ∅ false).
  split; [done|]. intros opts. done.
Qed.
