(* ===== verification/Kube.v ===== *)
(** The Kubernetes side of the model: the custom resources of api/v1alpha1, the
    parts of the core objects the operator reads or writes, the calls it makes
    to API servers, and the functions of the Kubernetes libraries it relies on.

    The libraries and the API servers are not code of this repository.  Their
    functions are the fields of the class [KubeLibs], their documented behaviour
    the fields of [KubeLibsLaws], and the replies of API servers come from the
    environment of the program ([GoProg.spec] or a [GoProg.handler]). *)

From S2P Require Import Prelude GoProg Model.

(** ** Tokens for values of library types, which the operator only passes on *)

(** A [resource.Quantity]. *)
Record Quantity : Type := mkQuantity { q_token : string }.
(** A [rest.Config] and the [kubernetes.Interface] built from it. *)
Record RESTConfig : Type := mkRESTConfig { rc_token : string }.
Record Clientset : Type := mkClientset { cl_token : string }.

#[export] Instance Quantity_eq_dec : EqDecision Quantity.
Proof. solve_decision. Defined.
#[export] Instance Clientset_eq_dec : EqDecision Clientset.
Proof. solve_decision. Defined.
#[export] Instance Clientset_countable : Countable Clientset.
Proof. apply (inj_countable' cl_token mkClientset). by intros []. Defined.

(** ** Metadata; times are nanoseconds, [None] is the zero time. *)
Record ObjectMeta : Type := mkObjectMeta {
  om_Name : string;
  om_Namespace : string;
  om_UID : string;
  om_ResourceVersion : string;
  om_Labels : gmap string string;
  om_Annotations : gmap string string;
  om_Finalizers : list string;
  om_CreationTimestamp : Z;
  om_DeletionTimestamp : option Z
}.

(** [metav1.ObjectMeta{Name: ..., Namespace: ..., Labels: ..., Annotations: ...}]. *)
Definition newMeta (name ns : string) (labels annotations : gmap string string) : ObjectMeta :=
  mkObjectMeta name ns "" "" labels annotations [] 0 None.
Definition set_labels (m : ObjectMeta) (l : gmap string string) : ObjectMeta :=
  mkObjectMeta (om_Name m) (om_Namespace m) (om_UID m) (om_ResourceVersion m) l
    (om_Annotations m) (om_Finalizers m) (om_CreationTimestamp m) (om_DeletionTimestamp m).
Definition set_annotations (m : ObjectMeta) (a : gmap string string) : ObjectMeta :=
  mkObjectMeta (om_Name m) (om_Namespace m) (om_UID m) (om_ResourceVersion m) (om_Labels m)
    a (om_Finalizers m) (om_CreationTimestamp m) (om_DeletionTimestamp m).
Definition set_finalizers (m : ObjectMeta) (f : list string) : ObjectMeta :=
  mkObjectMeta (om_Name m) (om_Namespace m) (om_UID m) (om_ResourceVersion m) (om_Labels m)
    (om_Annotations m) f (om_CreationTimestamp m) (om_DeletionTimestamp m).

Definition ConditionTrue : string := "True".
Definition ConditionFalse : string := "False".

Record Condition : Type := mkCondition {
  co_Type : string;
  co_Status : string;
  co_ObservedGeneration : Z;
  co_LastTransitionTime : Z;
  co_Reason : string;
  co_Message : string
}.

Record CoreTaint : Type := mkCoreTaint {
  cta_Key : string;
  cta_Value : string;
  cta_Effect : string;
  cta_TimeAdded : option Z
}.

Record CoreToleration : Type := mkCoreToleration {
  cto_Key : string;
  cto_Operator : string;
  cto_Value : string;
  cto_Effect : string;
  cto_TolerationSeconds : option Z
}.

(** ** Custom resources (api/v1alpha1) *)
Record NodeResources : Type := mkNodeResources {
  nr_CPU : string;
  nr_Memory : string;
  nr_Pods : Z
}.

Record APITenantRef : Type := mkAPITenantRef {
  atr_VClusterName : string;
  atr_VClusterNamespace : string;
  atr_KubeconfigSecret : string
}.

Record VNodePoolSpec : Type := mkVNodePoolSpec {
  sp_TenantRef : APITenantRef;
  sp_NodeCount : Z;
  sp_PerNodeResources : NodeResources;
  sp_Mode : string;
  sp_IsolationBackend : string;
  sp_RuntimeClassName : string;
  sp_NodeSelector : gmap string string;
  sp_Taints : list CoreTaint;
  sp_Tolerations : list CoreToleration;
  sp_DisplayName : string
}.

Record VNodePoolStatus : Type := mkVNodePoolStatus {
  st_Phase : string;
  st_ReadyNodes : Z;
  st_TotalNodes : Z;
  st_Conditions : list Condition
}.

Record VNodePoolCR : Type := mkVNodePoolCR {
  pc_Meta : ObjectMeta;
  pc_Spec : VNodePoolSpec;
  pc_Status : VNodePoolStatus
}.

Record VNodeSpec : Type := mkVNodeSpec {
  ns_PoolRef : string;
  ns_Capacity : NodeResources
}.

Record VNodeStatus : Type := mkVNodeStatus {
  nst_Phase : string;
  nst_Conditions : list Condition
}.

Record VNodeCR : Type := mkVNodeCR {
  nd_Meta : ObjectMeta;
  nd_Spec : VNodeSpec;
  nd_Status : VNodeStatus
}.

(** ** Core objects; a [_rest] field stands for every field the operator
    neither reads nor writes and hands back unchanged on an update. *)
Record CoreEnvVar : Type := mkCoreEnvVar {
  cev_Name : string;
  cev_Value : string;
  cev_ValueFrom : option string
}.

Record CoreVolumeMount : Type := mkCoreVolumeMount {
  cvm_Name : string;
  cvm_MountPath : string;
  cvm_ReadOnly : bool
}.

(** The optional sources of a volume, [None] for a nil pointer; the payload is
    the name or path the operator uses. *)
Record CoreVolume : Type := mkCoreVolume {
  cv_Name : string;
  cv_ConfigMap : option string;
  cv_Secret : option string;
  cv_PersistentVolumeClaim : option string;
  cv_EmptyDir : option unit;
  cv_HostPath : option string;
  cv_Projected : option unit
}.

Record CoreContainer : Type := mkCoreContainer {
  cc_Name : string;
  cc_Image : string;
  cc_Command : list string;
  cc_Args : list string;
  cc_Env : list CoreEnvVar;
  cc_VolumeMounts : list CoreVolumeMount;
  cc_Requests : gmap string Quantity;
  cc_Limits : gmap string Quantity
}.

(** [State.Waiting], [State.Running], [State.Terminated]: nil or not. *)
Record CoreContainerStatus : Type := mkCoreContainerStatus {
  ccs_Name : string;
  ccs_Ready : bool;
  ccs_RestartCount : Z;
  ccs_Waiting : option unit;
  ccs_Running : option unit;
  ccs_Terminated : option unit
}.

Record CorePodSpec : Type := mkCorePodSpec {
  cps_NodeName : string;
  cps_ServiceAccountName : string;
  cps_AutomountServiceAccountToken : option bool;
  cps_RuntimeClassName : option string;
  cps_NodeSelector : gmap string string;
  cps_Containers : list CoreContainer;
  cps_Volumes : list CoreVolume;
  cps_rest : string
}.

Record CorePodStatus : Type := mkCorePodStatus {
  cpst_Phase : string;
  cpst_PodIP : string;
  cpst_Message : string;
  cpst_Reason : string;
  cpst_ContainerStatuses : list CoreContainerStatus;
  cpst_rest : string
}.

Record CorePod : Type := mkCorePod {
  cp_Meta : ObjectMeta;
  cp_Spec : CorePodSpec;
  cp_Status : CorePodStatus
}.

Record CoreNodeCondition : Type := mkCoreNodeCondition {
  cnc_Type : string;
  cnc_Status : string;
  cnc_Reason : string;
  cnc_Message : string;
  cnc_LastHeartbeatTime : Z;
  cnc_LastTransitionTime : Z
}.

Record NodeSystemInfo : Type := mkNodeSystemInfo {
  ni_KubeletVersion : string;
  ni_OperatingSystem : string;
  ni_Architecture : string;
  ni_ContainerRuntimeVersion : string
}.

Record CoreNodeStatus : Type := mkCoreNodeStatus {
  cns_Capacity : gmap string Quantity;
  cns_Allocatable : gmap string Quantity;
  cns_Conditions : list CoreNodeCondition;
  cns_NodeInfo : NodeSystemInfo;
  cns_rest : string
}.

Record CoreNode : Type := mkCoreNode {
  cn_Meta : ObjectMeta;
  cn_Taints : list CoreTaint;
  cn_spec_rest : string;
  cn_Status : CoreNodeStatus
}.

Record CoreLease : Type := mkCoreLease {
  le_Meta : ObjectMeta;
  le_HolderIdentity : option string;
  le_LeaseDurationSeconds : option Z;
  le_RenewTime : option Z;
  le_rest : string
}.

Record CoreNamespace : Type := mkCoreNamespace { nm_Meta : ObjectMeta }.

Record CoreConfigMap : Type := mkCoreConfigMap {
  cm_Meta : ObjectMeta;
  cm_Data : gmap string string;
  cm_BinaryData : gmap string string;
  cm_rest : string
}.

Record CoreSecret : Type := mkCoreSecret {
  se_Meta : ObjectMeta;
  se_Data : gmap string string;
  se_rest : string
}.

Definition ResourceCPU : string := "cpu".
Definition ResourceMemory : string := "memory".
Definition ResourcePods : string := "pods".

#[export] Instance ObjectMeta_eq_dec : EqDecision ObjectMeta.
Proof. solve_decision. Defined.
#[export] Instance Condition_eq_dec : EqDecision Condition.
Proof. solve_decision. Defined.
#[export] Instance VNodePoolStatus_eq_dec : EqDecision VNodePoolStatus.
Proof. solve_decision. Defined.
#[export] Instance VNodeStatus_eq_dec : EqDecision VNodeStatus.
Proof. solve_decision. Defined.

(** ** Calls *)
Inductive kind : Type -> Type :=
| KVNodePool : kind VNodePoolCR
| KVNode : kind VNodeCR
| KPod : kind CorePod
| KSecret : kind CoreSecret
| KConfigMap : kind CoreConfigMap
| KNode : kind CoreNode
| KLease : kind CoreLease
| KNamespace : kind CoreNamespace.

(** Whom a call goes to: the host cluster through the manager's client or
    through the plain clientset, or a tenant cluster. *)
Inductive conn : Type :=
| HostClient
| HostClientset
| Tenant (cs : Clientset).

(** A namespace [""] in [List] means all namespaces.  [Create], [Update] and
    [StatusUpdate] reply with the stored object; [StatusPatch] sends the merge
    patch from [base] to [o]. *)
Inductive api : Type -> Type :=
| Get {O} (c : conn) (k : kind O) (ns name : string) : api (res O)
| List {O} (c : conn) (k : kind O) (ns : string) (labels : gmap string string) : api (res (list O))
| Create {O} (c : conn) (k : kind O) (o : O) : api (res O)
| Update {O} (c : conn) (k : kind O) (o : O) : api (res O)
| StatusUpdate {O} (c : conn) (k : kind O) (o : O) : api (res O)
| StatusPatch {O} (c : conn) (k : kind O) (base o : O) : api (option error)
| Delete {O} (c : conn) (k : kind O) (ns name : string) : api (option error)
| NewClientset (cfg : RESTConfig) : api (res Clientset)
| Now : api Z
| CounterAdd (counter pool : string) (n : Z) : api unit
| Eventf (eventtype reason action note : string) : api unit.

(** The memory the goroutines share: the cache of tenant clientsets. *)
Abbreviation mem := (gmap string Clientset).
Abbreviation go := (prog api mem).

(** ** Library functions *)
Class KubeLibs : Type := {
  IsNotFound : error -> bool;
  IsConflict : error -> bool;
  IsAlreadyExists : error -> bool;
  IgnoreNotFound : error -> option error;
  (** [resource.MustParse]; [None] where it panics. *)
  MustParse : string -> option Quantity;
  QuantityString : Quantity -> string;
  QuantityValue : Quantity -> Z;
  NewQuantity : Z -> Quantity;
  RESTConfigFromKubeConfig : string -> res RESTConfig;
  RetryOnConflict : go (option error) -> go (option error);
  ContainsFinalizer : list string -> string -> bool;
  AddFinalizer : list string -> string -> list string;
  RemoveFinalizer : list string -> string -> list string
}.

Local Open Scope go_scope.

(** Run [fn], again while it ends in a conflict, at most [n] more times. *)
Fixpoint retry_loop (conflict : error -> bool) (n : nat) (fn : go (option error))
    : go (option error) :=
  bind fn (fun r =>
    match r with
    | Some e =>
        if conflict e then
          match n with
          | O => Ret (Some e)
          | S n' => retry_loop conflict n' fn
          end
        else Ret (Some e)
    | None => Ret None
    end).

(** The reason of an API status, found through wrapped errors. *)
Fixpoint status_reason (e : error) : option StatusReason :=
  match e with
  | ErrStatus r _ => Some r
  | ErrWrap _ c => status_reason c
  | _ => None
  end.

(** Documented behaviour of the library functions. *)
Class KubeLibsLaws `{KubeLibs} : Prop := {
  IsNotFound_reason e : IsNotFound e = bool_decide (status_reason e = Some ReasonNotFound);
  IsConflict_reason e : IsConflict e = bool_decide (status_reason e = Some ReasonConflict);
  IsAlreadyExists_reason e :
    IsAlreadyExists e = bool_decide (status_reason e = Some ReasonAlreadyExists);
  IgnoreNotFound_law e : IgnoreNotFound e = if IsNotFound e then None else Some e;
  (** The canonical text of a quantity parses, to a quantity with that text. *)
  MustParse_String q : exists q', MustParse (QuantityString q) = Some q' /\
    QuantityString q' = QuantityString q;
  QuantityString_nonempty q : QuantityString q <> "";
  (** The parser of kubeconfigs takes no context, so it reports none as stopped. *)
  RESTConfig_no_context s e : RESTConfigFromKubeConfig s = Err e -> is_context_error e = false;
  RetryOnConflict_loop : exists n, forall fn, RetryOnConflict fn = retry_loop IsConflict n fn;
  ContainsFinalizer_law fs f : ContainsFinalizer fs f = bool_decide (f ∈ fs);
  AddFinalizer_law fs f : AddFinalizer fs f = if bool_decide (f ∈ fs) then fs else fs ++ [f];
  RemoveFinalizer_law fs f : RemoveFinalizer fs f = base.filter (fun x => x <> f) fs
}.

(** A pure step that may panic. *)
Definition must {A} (o : option A) : go A :=
  match o with
  | Some a => Ret a
  | None => Panic "resource.MustParse"
  end.

(** [metav1.Now()]. *)
Definition now : go Z := call Now.

(** ** Rules for the library functions *)

(** An error that carries an API status is not the error of a context. *)
Lemma status_not_context e r : status_reason e = Some r -> is_context_error e = false.
Proof.
  intros H. induction e as [| p c IH | | | |]; try done.
  rewrite is_context_error_wrap. auto.
Qed.

(** Retrying keeps an invariant that every conflicting attempt keeps. *)
Lemma wp_retry `{KubeLibsLaws} {S} (sp : spec api S) (I : S -> mem -> Prop)
    (fn : go (option error)) Q :
  (forall s m, I s m ->
     wp sp fn s m (fun o s' m' =>
       match o with
       | Done (Some e) => (IsConflict e = true -> I s' m') /\ Q (Done (Some e)) s' m'
       | Done None => Q (Done None) s' m'
       | Panicked msg => Q (Panicked msg) s' m'
       end)) ->
  forall s m, I s m -> wp sp (RetryOnConflict fn) s m Q.
Proof.
  intros Hfn. destruct RetryOnConflict_loop as [n Hn]. rewrite Hn.
  clear Hn. induction n as [|n IH]; intros s m HI; simpl; apply wp_bind;
    (eapply wp_mono; [|by apply Hfn]); intros [[e|]|msg] s' m' HQ; simpl; try exact HQ.
  - destruct HQ as [_ HQ]. by destruct (IsConflict e).
  - destruct HQ as [HI' HQ]. destruct (IsConflict e); [by apply IH, HI'|done].
Qed.

Lemma issues_retry `{KubeLibsLaws} (P : forall R, api R -> Prop) (fn : go (option error)) :
  issues P fn -> issues P (RetryOnConflict fn).
Proof.
  intros Hfn. destruct RetryOnConflict_loop as [n Hn]. rewrite Hn. clear Hn.
  induction n as [|n IH]; simpl; apply issues_bind; try done; intros [e|]; try exact I;
    by destruct (IsConflict e).
Qed.

Lemma issues_must {A} (P : forall R, api R -> Prop) (o : option A) : issues P (must o).
Proof. by destruct o. Qed.
