(* ===== verification/Libs.v ===== *)
(** An instance of the library functions that meets their documented
    behaviour, to run the operator on concrete clusters: the laws of
    [KubeLibsLaws] can hold. *)

From S2P Require Import Prelude GoProg Model Kube.

Definition starts_with_digit (s : string) : bool :=
  match s with
  | String c _ => let n := Ascii.nat_of_ascii c in (48 <=? n)%nat && (n <=? 57)%nat
  | EmptyString => false
  end.

Fixpoint decimal_value (acc : Z) (s : string) : Z :=
  match s with
  | String c s' =>
      let n := Ascii.nat_of_ascii c in
      if (48 <=? n)%nat && (n <=? 57)%nat
      then decimal_value (acc * 10 + Z.of_nat (n - 48)) s' else acc
  | EmptyString => acc
  end.

(** A quantity is the text it was parsed from; a text parses when it starts
    with a digit. *)
Definition simple_libs : KubeLibs := {|
  IsNotFound e := bool_decide (status_reason e = Some ReasonNotFound);
  IsConflict e := bool_decide (status_reason e = Some ReasonConflict);
  IsAlreadyExists e := bool_decide (status_reason e = Some ReasonAlreadyExists);
  IgnoreNotFound e := if bool_decide (status_reason e = Some ReasonNotFound) then None else Some e;
  MustParse s := if starts_with_digit s then Some (mkQuantity s) else None;
  QuantityString q := if starts_with_digit (q_token q) then q_token q else "0";
  QuantityValue q := decimal_value 0 (q_token q);
  NewQuantity z := mkQuantity (pretty z);
  RESTConfigFromKubeConfig s :=
    if bool_decide (s = "") then Err (ErrText "invalid configuration") else Ok (mkRESTConfig s);
  RetryOnConflict fn :=
    retry_loop (fun e => bool_decide (status_reason e = Some ReasonConflict)) 4 fn;
  ContainsFinalizer fs f := bool_decide (f ∈ fs);
  AddFinalizer fs f := if bool_decide (f ∈ fs) then fs else fs ++ [f];
  RemoveFinalizer fs f := base.filter (fun x => x <> f) fs
|}.

Lemma simple_libs_laws : @KubeLibsLaws simple_libs.
Proof.
  split; try done.
  - intros q. exists (mkQuantity (@QuantityString simple_libs q)). simpl.
    destruct (starts_with_digit (q_token q)) eqn:Hq; simpl; by rewrite ?Hq.
  - intros q. simpl. destruct q as [[|c s]]; simpl; [done|]. by destruct (_ && _).
  - intros s e. simpl. case_bool_decide; [|done]. by intros [= <-].
  - by exists 4.
Qed.
