(* ===== verification/ApiServer.v ===== *)
(** The documented behaviour of the API servers, as a specification of the
    replies to the operator's calls: a cluster is a store of objects per kind,
    and [kube_spec] relates a call, the stores before it, the reply and the
    stores after it.  A server may also fail with any error of a set [faults];
    a write that fails so may or may not have been applied. *)

From S2P Require Import Prelude GoProg Model PodModel Kube.

Abbreviation key := (string * string)%type.

(** ** Stores *)
Record cluster : Type := mkCluster {
  c_pools : gmap key VNodePoolCR;
  c_vnodes : gmap key VNodeCR;
  c_pods : gmap key CorePod;
  c_secrets : gmap key CoreSecret;
  c_configmaps : gmap key CoreConfigMap;
  c_nodes : gmap key CoreNode;
  c_leases : gmap key CoreLease;
  c_namespaces : gmap key CoreNamespace
}.

Definition empty_cluster : cluster := mkCluster ∅ ∅ ∅ ∅ ∅ ∅ ∅ ∅.

Definition store {T} (k : kind T) (c : cluster) : gmap key T :=
  match k in kind T return gmap key T with
  | KVNodePool => c_pools c
  | KVNode => c_vnodes c
  | KPod => c_pods c
  | KSecret => c_secrets c
  | KConfigMap => c_configmaps c
  | KNode => c_nodes c
  | KLease => c_leases c
  | KNamespace => c_namespaces c
  end.

Definition set_store {T} (k : kind T) : gmap key T -> cluster -> cluster :=
  match k in kind T return gmap key T -> cluster -> cluster with
  | KVNodePool => fun x c => mkCluster x (c_vnodes c) (c_pods c) (c_secrets c) (c_configmaps c)
                               (c_nodes c) (c_leases c) (c_namespaces c)
  | KVNode => fun x c => mkCluster (c_pools c) x (c_pods c) (c_secrets c) (c_configmaps c)
                           (c_nodes c) (c_leases c) (c_namespaces c)
  | KPod => fun x c => mkCluster (c_pools c) (c_vnodes c) x (c_secrets c) (c_configmaps c)
                         (c_nodes c) (c_leases c) (c_namespaces c)
  | KSecret => fun x c => mkCluster (c_pools c) (c_vnodes c) (c_pods c) x (c_configmaps c)
                            (c_nodes c) (c_leases c) (c_namespaces c)
  | KConfigMap => fun x c => mkCluster (c_pools c) (c_vnodes c) (c_pods c) (c_secrets c) x
                               (c_nodes c) (c_leases c) (c_namespaces c)
  | KNode => fun x c => mkCluster (c_pools c) (c_vnodes c) (c_pods c) (c_secrets c)
                          (c_configmaps c) x (c_leases c) (c_namespaces c)
  | KLease => fun x c => mkCluster (c_pools c) (c_vnodes c) (c_pods c) (c_secrets c)
                           (c_configmaps c) (c_nodes c) x (c_namespaces c)
  | KNamespace => fun x c => mkCluster (c_pools c) (c_vnodes c) (c_pods c) (c_secrets c)
                               (c_configmaps c) (c_nodes c) (c_leases c) x
  end.

Definition meta {T} (k : kind T) : T -> ObjectMeta :=
  match k in kind T return T -> ObjectMeta with
  | KVNodePool => pc_Meta
  | KVNode => nd_Meta
  | KPod => cp_Meta
  | KSecret => se_Meta
  | KConfigMap => cm_Meta
  | KNode => cn_Meta
  | KLease => le_Meta
  | KNamespace => nm_Meta
  end.

Definition key_of {T} (k : kind T) (o : T) : key := (om_Namespace (meta k o), om_Name (meta k o)).

Lemma store_set_store {T} (k : kind T) x c : store k (set_store k x c) = x.
Proof. by destruct k. Qed.
Lemma set_store_set_store {T} (k : kind T) x y c : set_store k x (set_store k y c) = set_store k x c.
Proof. by destruct k. Qed.
Lemma set_store_id {T} (k : kind T) c : set_store k (store k c) c = c.
Proof. by destruct k, c. Qed.

(** All clusters: the host and one per tenant clientset. *)
Record world : Type := mkWorld {
  w_host : cluster;
  w_tenants : gmap Clientset cluster
}.

Definition cluster_at (c : conn) (w : world) : cluster :=
  match c with
  | Tenant cs => default empty_cluster (w_tenants w !! cs)
  | _ => w_host w
  end.

Definition set_cluster (c : conn) (x : cluster) (w : world) : world :=
  match c with
  | Tenant cs => mkWorld (w_host w) (<[cs := x]> (w_tenants w))
  | _ => mkWorld x (w_tenants w)
  end.

(** The object at a key, and the world with another one there. *)
Definition object {T} (c : conn) (k : kind T) (x : key) (w : world) : option T :=
  store k (cluster_at c w) !! x.
Definition put {T} (c : conn) (k : kind T) (x : key) (o : option T) (w : world) : world :=
  set_cluster c (set_store k (partial_alter (fun _ => o) x (store k (cluster_at c w)))
                   (cluster_at c w)) w.

#[global] Arguments object : simpl never.
#[global] Arguments put : simpl never.
#[global] Arguments key_of : simpl never.

(** ** What the servers store *)

(** The descriptive metadata is kept; the rest is the server's. *)
Definition same_description (m m' : ObjectMeta) : Prop :=
  om_Name m' = om_Name m /\ om_Namespace m' = om_Namespace m /\ om_Labels m' = om_Labels m /\
  om_Annotations m' = om_Annotations m /\ om_Finalizers m' = om_Finalizers m.

(** Identity that an update cannot change. *)
Definition same_identity (m m' : ObjectMeta) : Prop :=
  om_UID m' = om_UID m /\ om_CreationTimestamp m' = om_CreationTimestamp m /\
  om_DeletionTimestamp m' = om_DeletionTimestamp m.

(** [created o o']: the server stores [o'] when asked to create [o]. Resources
    with a status subresource start with an empty status. *)
Definition created {T} (k : kind T) (o o' : T) : Prop :=
  same_description (meta k o) (meta k o') /\ om_DeletionTimestamp (meta k o') = None /\
  match k in kind T return T -> T -> Prop with
  | KVNodePool => fun o o' => pc_Spec o' = pc_Spec o /\ pc_Status o' = mkVNodePoolStatus "" 0 0 []
  | KVNode => fun o o' => nd_Spec o' = nd_Spec o /\ nd_Status o' = mkVNodeStatus "" []
  | KConfigMap => fun o o' => cm_Data o' = cm_Data o /\ cm_BinaryData o' = cm_BinaryData o
  | KSecret => fun o o' => se_Data o' = se_Data o
  | KNode => fun o o' => cn_Taints o' = cn_Taints o
  | KLease => fun o o' =>
      le_HolderIdentity o' = le_HolderIdentity o /\
      le_LeaseDurationSeconds o' = le_LeaseDurationSeconds o /\ le_RenewTime o' = le_RenewTime o
  | _ => fun _ _ => True
  end o o'.

(** [updated old o o']: [Update] with [o] replaces [old] by [o']; the status of
    a resource with a status subresource stays. *)
Definition updated {T} (k : kind T) (old o o' : T) : Prop :=
  same_description (meta k o) (meta k o') /\ same_identity (meta k old) (meta k o') /\
  match k in kind T return T -> T -> T -> Prop with
  | KVNodePool => fun old o o' => pc_Spec o' = pc_Spec o /\ pc_Status o' = pc_Status old
  | KVNode => fun old o o' => nd_Spec o' = nd_Spec o /\ nd_Status o' = nd_Status old
  | KConfigMap => fun _ o o' => cm_Data o' = cm_Data o /\ cm_BinaryData o' = cm_BinaryData o
  | KSecret => fun _ o o' => se_Data o' = se_Data o
  | KNode => fun old o o' => cn_Taints o' = cn_Taints o /\ cn_Status o' = cn_Status old
  | KLease => fun _ o o' =>
      le_HolderIdentity o' = le_HolderIdentity o /\
      le_LeaseDurationSeconds o' = le_LeaseDurationSeconds o /\ le_RenewTime o' = le_RenewTime o
  | _ => fun _ _ _ => True
  end old o o'.

(** A node without allocatable resources gets those of its capacity. *)
Definition default_allocatable (s : CoreNodeStatus) : CoreNodeStatus :=
  if bool_decide (cns_Allocatable s = ∅) then
    mkCoreNodeStatus (cns_Capacity s) (cns_Capacity s) (cns_Conditions s) (cns_NodeInfo s)
      (cns_rest s)
  else s.

(** [status_updated old o o']: [Status().Update] with [o] changes the status
    only. *)
Definition status_updated {T} (k : kind T) (old o o' : T) : Prop :=
  same_description (meta k old) (meta k o') /\ same_identity (meta k old) (meta k o') /\
  match k in kind T return T -> T -> T -> Prop with
  | KVNodePool => fun old o o' => pc_Spec o' = pc_Spec old /\ pc_Status o' = pc_Status o
  | KVNode => fun old o o' => nd_Spec o' = nd_Spec old /\ nd_Status o' = nd_Status o
  | KPod => fun old o o' => cp_Spec o' = cp_Spec old /\ cp_Status o' = cp_Status o
  | KNode => fun old o o' =>
      cn_Taints o' = cn_Taints old /\ cn_Status o' = default_allocatable (cn_Status o)
  | _ => fun _ _ _ => True
  end old o o'.

(** A merge patch of the status writes the fields that differ between [base]
    and [o]. *)
Definition patch_field {A} `{EqDecision A} (base new old : A) : A :=
  if bool_decide (base = new) then old else new.
Definition status_patched {T} (k : kind T) (base o old o' : T) : Prop :=
  same_description (meta k old) (meta k o') /\ same_identity (meta k old) (meta k o') /\
  match k in kind T return T -> T -> T -> T -> Prop with
  | KVNodePool => fun base o old o' =>
      pc_Spec o' = pc_Spec old /\
      pc_Status o' =
        (let b := pc_Status base in let n := pc_Status o in let s := pc_Status old in
         mkVNodePoolStatus (patch_field (st_Phase b) (st_Phase n) (st_Phase s))
           (patch_field (st_ReadyNodes b) (st_ReadyNodes n) (st_ReadyNodes s))
           (patch_field (st_TotalNodes b) (st_TotalNodes n) (st_TotalNodes s))
           (patch_field (st_Conditions b) (st_Conditions n) (st_Conditions s)))
  | _ => fun _ _ _ _ => True
  end base o old o'.

(** Deletion of a pod, or of an object with finalizers, only marks it. *)
Definition deferred {T} (k : kind T) (o : T) : Prop :=
  match k with KPod => True | _ => om_Finalizers (meta k o) <> [] end.
Definition marked {T} (k : kind T) (o o' : T) : Prop :=
  same_description (meta k o) (meta k o') /\ om_DeletionTimestamp (meta k o') <> None /\
  match k in kind T return T -> T -> Prop with
  | KPod => fun o o' => cp_Spec o' = cp_Spec o
  | KVNodePool => fun o o' => pc_Spec o' = pc_Spec o /\ pc_Status o' = pc_Status o
  | KVNode => fun o o' => nd_Spec o' = nd_Spec o /\ nd_Status o' = nd_Status o
  | _ => fun _ _ => True
  end o o'.

(** A list selects by namespace ([""] for all) and by labels. *)
Definition selected {T} (k : kind T) (ns : string) (labels : gmap string string) (x : key * T)
    : Prop :=
  (ns = "" \/ x.1.1 = ns) /\ labels ⊆ om_Labels (meta k x.2).
#[export] Instance selected_dec {T} (k : kind T) ns labels x : Decision (selected k ns labels x).
Proof. unfold selected. apply _. Defined.

Definition listing {T} (c : conn) (k : kind T) (ns : string) (labels : gmap string string)
    (w : world) : list T :=
  (base.filter (selected k ns labels) (map_to_list (store k (cluster_at c w)))).*2.

(** ** The specification *)
Section Spec.
Variable faults : error -> Prop.

(** A read error: absent, or a fault. *)
Definition read_error {T} (o : option T) (e : error) : Prop :=
  (status_reason e = Some ReasonNotFound /\ o = None) \/ faults e.

(** A failed write: refused for [reason] and not applied, or a fault. *)
Definition write_error (refused : StatusReason -> Prop) (applied : world -> Prop) (w : world)
    (e : error) (w' : world) : Prop :=
  (exists r, status_reason e = Some r /\ refused r /\ w' = w) \/
  (faults e /\ (w' = w \/ applied w')).

Definition create_applied {T} (c : conn) (k : kind T) (o : T) (w : world) (o' : T) (w' : world)
    : Prop :=
  object c k (key_of k o) w = None /\ created k o o' /\ w' = put c k (key_of k o) (Some o') w.

Definition write_applied {T} (rel : T -> T -> T -> Prop) (c : conn) (k : kind T) (o : T)
    (w : world) (o' : T) (w' : world) : Prop :=
  exists old, object c k (key_of k o) w = Some old /\ rel old o o' /\
    w' = put c k (key_of k o) (Some o') w.

(** An update that leaves an object marked for deletion without finalizers
    removes it; pods go when their node has stopped them. *)
Definition finished {T} (k : kind T) (o : T) : bool :=
  match k with
  | KPod => false
  | _ => bool_decide (om_DeletionTimestamp (meta k o) <> None) &&
         bool_decide (om_Finalizers (meta k o) = [])
  end.

Definition update_applied {T} (c : conn) (k : kind T) (o : T) (w : world) (o' : T) (w' : world)
    : Prop :=
  exists old, object c k (key_of k o) w = Some old /\ updated k old o o' /\
    w' = put c k (key_of k o) (if finished k o' then None else Some o') w.

Definition delete_applied {T} (c : conn) (k : kind T) (x : key) (w w' : world) : Prop :=
  exists old, object c k x w = Some old /\
    ((~ deferred k old /\ w' = put c k x None w) \/
     (deferred k old /\ exists o', marked k old o' /\ w' = put c k x (Some o') w)).

Definition refused_update {T} (o : option T) (r : StatusReason) : Prop :=
  (r = ReasonConflict /\ is_Some o) \/ (r = ReasonNotFound /\ o = None).

Definition kube_post (R : Type) (c : api R) (w : world) (r : R) (w' : world) : Prop :=
  match c in api R return R -> Prop with
  | Get c k ns name => fun r =>
      w' = w /\
      match r with
      | Ok o => object c k (ns, name) w = Some o /\ key_of k o = (ns, name) /\ finished k o = false
      | Err e => read_error (object c k (ns, name) w) e
      end
  | List c k ns labels => fun r =>
      w' = w /\
      match r with
      | Ok l => l ≡ₚ listing c k ns labels w
      | Err e => faults e
      end
  | Create c k o => fun r =>
      match r with
      | Ok o' => create_applied c k o w o' w'
      | Err e =>
          write_error (fun x => x = ReasonAlreadyExists /\ is_Some (object c k (key_of k o) w))
            (fun w' => exists o', create_applied c k o w o' w') w e w'
      end
  | Update c k o => fun r =>
      match r with
      | Ok o' => update_applied c k o w o' w'
      | Err e =>
          write_error (refused_update (object c k (key_of k o) w))
            (fun w' => exists o', update_applied c k o w o' w') w e w'
      end
  | StatusUpdate c k o => fun r =>
      match r with
      | Ok o' => write_applied (status_updated k) c k o w o' w'
      | Err e =>
          write_error (refused_update (object c k (key_of k o) w))
            (fun w' => exists o', write_applied (status_updated k) c k o w o' w') w e w'
      end
  | StatusPatch c k base o => fun r =>
      let applied w' := exists o',
        write_applied (fun old o o' => status_patched k base o old o') c k o w o' w' in
      match r with
      | None => applied w'
      | Some e => write_error (refused_update (object c k (key_of k o) w)) applied w e w'
      end
  | Delete c k ns name => fun r =>
      match r with
      | None => delete_applied c k (ns, name) w w'
      | Some e =>
          write_error (fun x => x = ReasonNotFound /\ object c k (ns, name) w = None)
            (delete_applied c k (ns, name) w) w e w'
      end
  | NewClientset _ => fun r => w' = w /\ match r with Ok _ => True | Err e => faults e end
  | Now => fun _ => w' = w
  | CounterAdd _ _ _ => fun _ => w' = w
  | Eventf _ _ _ _ => fun _ => w' = w
  end r.

Definition kube_spec : spec api world := mkSpec (fun _ _ _ => True) kube_post.

End Spec.

(** ** Lemmas on the worlds *)

Lemma cluster_at_set c x w : cluster_at c (set_cluster c x w) = x.
Proof. destruct c; simpl; [done..|]. by rewrite lookup_insert_eq. Qed.

Lemma object_put {T} c (k : kind T) x o w : object c k x (put c k x o w) = o.
Proof.
  unfold object, put. rewrite cluster_at_set, store_set_store. apply lookup_partial_alter_eq.
Qed.

Lemma object_put_ne {T} c (k : kind T) x y o w :
  x <> y -> object c k y (put c k x o w) = object c k y w.
Proof.
  intros Hne. unfold object, put. rewrite cluster_at_set, store_set_store.
  by apply lookup_partial_alter_ne.
Qed.

Lemma put_put {T} c (k : kind T) x o o' w : put c k x o (put c k x o' w) = put c k x o w.
Proof.
  unfold put. rewrite cluster_at_set, store_set_store, set_store_set_store.
  rewrite partial_alter_partial_alter_eq. destruct c; simpl; [done..|].
  by rewrite insert_insert_eq.
Qed.

(** What a list holds. *)
Lemma elem_of_listing {T} c (k : kind T) ns labels w o :
  o ∈ listing c k ns labels w <->
  exists x, object c k x w = Some o /\ selected k ns labels (x, o).
Proof.
  unfold listing. rewrite list_elem_of_fmap. split.
  - intros ([x o1] & -> & [Hs Hin]%list_elem_of_filter). apply elem_of_map_to_list in Hin. eauto.
  - intros (x & Hx & Hs). exists (x, o). split; [done|]. apply list_elem_of_filter.
    split; [done|]. by apply elem_of_map_to_list.
Qed.

(** ** Invariants of all objects *)
Section Everywhere.
Variable P : forall T, kind T -> key -> T -> Prop.
Arguments P {T}.

(** Every object of every cluster satisfies [P] at its place. *)
Definition everywhere (w : world) : Prop :=
  forall T (c : conn) (k : kind T) x o, object c k x w = Some o -> P k x o.

Lemma everywhere_store {T} (k : kind T) x o (c : cluster) :
  (forall T' (k' : kind T') y o', store k' c !! y = Some o' -> P k' y o') ->
  (forall o', o = Some o' -> P k x o') ->
  forall T' (k' : kind T') y o',
    store k' (set_store k (partial_alter (fun _ => o) x (store k c)) c) !! y = Some o' ->
    P k' y o'.
Proof.
  intros Hc Ho.
  assert (forall y o', partial_alter (fun _ => o) x (store k c) !! y = Some o' -> P k y o') as Hk.
  { intros y o'. destruct (decide (x = y)) as [->|Hne].
    - rewrite lookup_partial_alter_eq. apply Ho.
    - rewrite lookup_partial_alter_ne by done. apply Hc. }
  intros T' k' y o'. specialize (Hc T' k' y o').
  destruct k, k'; simpl in *; first [exact (Hk y o')|exact Hc].
Qed.

(** A write keeps the invariant if the written object satisfies it. *)
Lemma everywhere_put {T} c (k : kind T) x o w :
  everywhere w -> (forall o', o = Some o' -> P k x o') -> everywhere (put c k x o w).
Proof.
  intros Hw Ho T' c' k' y o'. unfold object, put.
  pose proof (everywhere_store k x o (cluster_at c w)
    ltac:(intros T2 k2; apply (Hw T2 c k2)) Ho T' k' y o') as H.
  pose proof (Hw T' c' k' y o') as H'. unfold object in H'.
  destruct c as [| |cs], c' as [| |cs']; simpl in *; try done.
  destruct (decide (cs = cs')) as [->|Hne].
  - by rewrite lookup_insert_eq.
  - by rewrite lookup_insert_ne.
Qed.

End Everywhere.

(** *** Objects stay at their keys *)
Definition at_key T (k : kind T) (x : key) (o : T) : Prop := key_of k o = x.

Lemma described_key {T} (k : kind T) o o' :
  same_description (meta k o) (meta k o') -> key_of k o' = key_of k o.
Proof. intros (E1 & E2 & _). unfold key_of. congruence. Qed.

Lemma write_error_keeps faults refused applied w e w' (I : world -> Prop) :
  write_error faults refused applied w e w' -> I w -> (forall w', applied w' -> I w') -> I w'.
Proof. intros [(r & _ & _ & ->)|[_ [->|Ha]]] Hw Happ; auto. Qed.

Lemma create_at_keys {T} c (k : kind T) o w o' w' :
  everywhere at_key w -> create_applied c k o w o' w' -> everywhere at_key w'.
Proof.
  intros Hw (_ & Hc & ->). apply everywhere_put; [done|]. intros ? [= <-].
  apply described_key, Hc.
Qed.

Lemma update_at_keys {T} c (k : kind T) o w o' w' :
  everywhere at_key w -> update_applied c k o w o' w' -> everywhere at_key w'.
Proof.
  intros Hw (old & _ & Hu & ->). apply everywhere_put; [done|].
  destruct (finished k o'); [done|]. intros ? [= <-]. apply described_key, Hu.
Qed.

(** A write that keeps the description of the stored object. *)
Lemma status_at_keys {T} (rel : T -> T -> T -> Prop) c (k : kind T) o w o' w' :
  (forall old o o', rel old o o' -> same_description (meta k old) (meta k o')) ->
  everywhere at_key w -> write_applied rel c k o w o' w' -> everywhere at_key w'.
Proof.
  intros Hrel Hw (old & Hold & Hr & ->). apply everywhere_put; [done|]. intros ? [= <-].
  red. rewrite (described_key k old) by (by eapply Hrel). by apply Hw in Hold.
Qed.

Lemma delete_at_keys {T} c (k : kind T) x w w' :
  everywhere at_key w -> delete_applied c k x w w' -> everywhere at_key w'.
Proof.
  intros Hw (old & Hold & [[_ ->]|(_ & o' & [Hd _] & ->)]); apply everywhere_put; try done.
  intros ? [= <-]. red. rewrite (described_key k old) by done. by apply Hw in Hold.
Qed.

(** Whatever the operator asks for, objects stay at their keys. *)
Lemma kube_post_at_keys faults {R} (c : api R) w r w' :
  kube_post faults R c w r w' -> everywhere at_key w -> everywhere at_key w'.
Proof.
  intros H Hw. destruct c as [? c k ? ?|? c k ? ?|? c k o|? c k o|? c k o|? c k b o|? c k ? ?|?| | |];
    simpl in H.
  - by destruct H as [-> _].
  - by destruct H as [-> _].
  - destruct r as [o'|e]; [by eapply create_at_keys|].
    eapply write_error_keeps; [exact H|done|]. intros w2 [o' Ha]. by eapply create_at_keys.
  - destruct r as [o'|e]; [by eapply update_at_keys|].
    eapply write_error_keeps; [exact H|done|]. intros w2 [o' Ha]. by eapply update_at_keys.
  - assert (forall o' w2, write_applied (status_updated k) c k o w o' w2 -> everywhere at_key w2).
    { intros o' w2. apply status_at_keys; [|done]. by intros ? ? ? []. }
    destruct r as [o'|e]; [eauto|].
    eapply write_error_keeps; [exact H|done|]. intros w2 [o' Ha]. eauto.
  - assert (forall o' w2, write_applied (fun old o o' => status_patched k b o old o') c k o w o' w2 ->
      everywhere at_key w2).
    { intros o' w2. apply status_at_keys; [|done]. by intros ? ? ? []. }
    destruct r as [e|]; [|destruct H; eauto].
    eapply write_error_keeps; [exact H|done|]. intros w2 [o' Ha]. eauto.
  - destruct r as [e|]; [|by eapply delete_at_keys].
    eapply write_error_keeps; [exact H|done|]. intros w2 Ha. by eapply delete_at_keys.
  - by destruct H as [-> _].
  - by subst.
  - by subst.
  - by subst.
Qed.

(** ** The effect of a call, failed or not *)
Definition effect {R} (c : api R) (w w' : world) : Prop :=
  match c with
  | Create c k o => exists o', create_applied c k o w o' w'
  | Update c k o => exists o', update_applied c k o w o' w'
  | StatusUpdate c k o => exists o', write_applied (status_updated k) c k o w o' w'
  | StatusPatch c k base o => exists o',
      write_applied (fun old o o' => status_patched k base o old o') c k o w o' w'
  | Delete c k ns name => delete_applied c k (ns, name) w w'
  | _ => False
  end.

Lemma write_error_effect faults refused (applied : world -> Prop) w e w' :
  write_error faults refused applied w e w' -> w' = w \/ applied w'.
Proof. intros [(r & _ & _ & ->)|[_ [->|Ha]]]; auto. Qed.

Lemma kube_post_effect faults {R} (c : api R) w r w' :
  kube_post faults R c w r w' -> w' = w \/ effect c w w'.
Proof.
  intros H. destruct c; simpl in *; try (left; first [apply H | by destruct H]);
    destruct r as [r|]; try (by eapply write_error_effect in H); right; eauto.
Qed.
