(* ===== verification/Testbed.v ===== *)
(** An in-memory API server: a deterministic handler that meets the
    specification of ApiServer.v without faults, to run the operator on
    concrete clusters. *)

From S2P Require Import Prelude GoProg Model Kube ApiServer.

Definition set_meta {T} (k : kind T) (o : T) (m : ObjectMeta) : T :=
  match k in kind T return T -> T with
  | KVNodePool => fun o => mkVNodePoolCR m (pc_Spec o) (pc_Status o)
  | KVNode => fun o => mkVNodeCR m (nd_Spec o) (nd_Status o)
  | KPod => fun o => mkCorePod m (cp_Spec o) (cp_Status o)
  | KSecret => fun o => mkCoreSecret m (se_Data o) (se_rest o)
  | KConfigMap => fun o => mkCoreConfigMap m (cm_Data o) (cm_BinaryData o) (cm_rest o)
  | KNode => fun o => mkCoreNode m (cn_Taints o) (cn_spec_rest o) (cn_Status o)
  | KLease => fun o =>
      mkCoreLease m (le_HolderIdentity o) (le_LeaseDurationSeconds o) (le_RenewTime o) (le_rest o)
  | KNamespace => fun _ => mkCoreNamespace m
  end o.

(** The metadata of a written object: described by [m], identified by [old]. *)
Definition written_meta (old m : ObjectMeta) (deletion : option Z) : ObjectMeta :=
  mkObjectMeta (om_Name m) (om_Namespace m) (om_UID old) (om_ResourceVersion old) (om_Labels m)
    (om_Annotations m) (om_Finalizers m) (om_CreationTimestamp old) deletion.

Definition set_version (m : ObjectMeta) (v : string) : ObjectMeta :=
  mkObjectMeta (om_Name m) (om_Namespace m) (om_UID m) v (om_Labels m) (om_Annotations m)
    (om_Finalizers m) (om_CreationTimestamp m) (om_DeletionTimestamp m).

(** Resources with a status subresource start with an empty status. *)
Definition stored {T} (k : kind T) (o : T) : T :=
  match k in kind T return T -> T with
  | KVNodePool => fun o => mkVNodePoolCR (pc_Meta o) (pc_Spec o) (mkVNodePoolStatus "" 0 0 [])
  | KVNode => fun o => mkVNodeCR (nd_Meta o) (nd_Spec o) (mkVNodeStatus "" [])
  | _ => fun o => o
  end (set_meta k o (written_meta (meta k o) (meta k o) None)).

(** [o] with the status of [s]. *)
Definition with_status {T} (k : kind T) (o s : T) : T :=
  match k in kind T return T -> T -> T with
  | KVNodePool => fun o s => mkVNodePoolCR (pc_Meta o) (pc_Spec o) (pc_Status s)
  | KVNode => fun o s => mkVNodeCR (nd_Meta o) (nd_Spec o) (nd_Status s)
  | KPod => fun o s => mkCorePod (cp_Meta o) (cp_Spec o) (cp_Status s)
  | KNode => fun o s => mkCoreNode (cn_Meta o) (cn_Taints o) (cn_spec_rest o) (cn_Status s)
  | _ => fun o _ => o
  end o s.

(** The defaults of a written status. *)
Definition status_defaults {T} (k : kind T) (o : T) : T :=
  match k in kind T return T -> T with
  | KNode => fun o =>
      mkCoreNode (cn_Meta o) (cn_Taints o) (cn_spec_rest o) (default_allocatable (cn_Status o))
  | _ => fun o => o
  end o.

Definition replaced {T} (k : kind T) (old o : T) : T :=
  with_status k
    (set_meta k o (written_meta (meta k old) (meta k o) (om_DeletionTimestamp (meta k old)))) old.

Definition patched {T} (k : kind T) (base o old : T) : T :=
  match k in kind T return T -> T -> T -> T with
  | KVNodePool => fun base o old =>
      let b := pc_Status base in let n := pc_Status o in let s := pc_Status old in
      mkVNodePoolCR (pc_Meta old) (pc_Spec old)
        (mkVNodePoolStatus (patch_field (st_Phase b) (st_Phase n) (st_Phase s))
           (patch_field (st_ReadyNodes b) (st_ReadyNodes n) (st_ReadyNodes s))
           (patch_field (st_TotalNodes b) (st_TotalNodes n) (st_TotalNodes s))
           (patch_field (st_Conditions b) (st_Conditions n) (st_Conditions s)))
  | _ => fun _ _ old => old
  end base o old.

Definition is_deferred {T} (k : kind T) (o : T) : bool :=
  match k with KPod => true | _ => negb (bool_decide (om_Finalizers (meta k o) = [])) end.
Definition terminating {T} (k : kind T) (o : T) : T :=
  set_meta k o (written_meta (meta k o) (meta k o) (Some 0%Z)).

Definition refuse (r : StatusReason) : error := ErrStatus r "".

Section Server.
(** The resource version of a written object, from the one it had. *)
Variable bump : string -> string.

Definition restamp {T} (k : kind T) (o : T) : T :=
  set_meta k o (set_version (meta k o) (bump (om_ResourceVersion (meta k o)))).

Definition server : handler api world := fun R c w =>
  match c in api R return R * world with
  | Get c k ns name =>
      (match object c k (ns, name) w with Some o => Ok o | None => Err (refuse ReasonNotFound) end, w)
  | List c k ns labels => (Ok (listing c k ns labels w), w)
  | Create c k o =>
      match object c k (key_of k o) w with
      | Some _ => (Err (refuse ReasonAlreadyExists), w)
      | None =>
          let o' := restamp k (stored k o) in (Ok o', put c k (key_of k o) (Some o') w)
      end
  | Update c k o =>
      match object c k (key_of k o) w with
      | None => (Err (refuse ReasonNotFound), w)
      | Some old =>
          let o' := restamp k (replaced k old o) in
          (Ok o', put c k (key_of k o) (if finished k o' then None else Some o') w)
      end
  | StatusUpdate c k o =>
      match object c k (key_of k o) w with
      | None => (Err (refuse ReasonNotFound), w)
      | Some old =>
          let o' := restamp k (with_status k old (status_defaults k o)) in
          (Ok o', put c k (key_of k o) (Some o') w)
      end
  | StatusPatch c k base o =>
      match object c k (key_of k o) w with
      | None => (Some (refuse ReasonNotFound), w)
      | Some old => (None, put c k (key_of k o) (Some (restamp k (patched k base o old))) w)
      end
  | Delete c k ns name =>
      match object c k (ns, name) w with
      | None => (Some (refuse ReasonNotFound), w)
      | Some old =>
          (None, put c k (ns, name)
                   (if is_deferred k old then Some (restamp k (terminating k old)) else None) w)
      end
  | NewClientset cfg => (Ok (mkClientset (rc_token cfg)), w)
  | Now => (0%Z, w)
  | CounterAdd _ _ _ => (tt, w)
  | Eventf _ _ _ _ => (tt, w)
  end.

End Server.

(** The server that leaves resource versions alone. *)
Definition memory_server : handler api world := server (fun v => v).

(** ** It meets the specification *)
Create HintDb server.


(** An object sits at its key, and is gone once nothing holds its deletion. *)
Definition sound {T} (k : kind T) (x : key) (o : T) : Prop :=
  key_of k o = x /\ finished k o = false.

Definition keyed (w : world) : Prop := everywhere (@sound) w.

Definition no_faults (e : error) : Prop := False.

Lemma meta_set_meta {T} (k : kind T) o m : meta k (set_meta k o m) = m.
Proof. by destruct k. Qed.
Lemma meta_with_status {T} (k : kind T) o s : meta k (with_status k o s) = meta k o.
Proof. by destruct k. Qed.
Lemma meta_stored {T} (k : kind T) o :
  meta k (stored k o) = written_meta (meta k o) (meta k o) None.
Proof. by destruct k. Qed.
Lemma meta_replaced {T} (k : kind T) old o :
  meta k (replaced k old o) =
  written_meta (meta k old) (meta k o) (om_DeletionTimestamp (meta k old)).
Proof. unfold replaced. by rewrite meta_with_status, meta_set_meta. Qed.
Lemma meta_patched {T} (k : kind T) base o old : meta k (patched k base o old) = meta k old.
Proof. by destruct k. Qed.

Lemma created_stored {T} (k : kind T) o : created k o (stored k o).
Proof. unfold created. rewrite meta_stored. by destruct k. Qed.
Lemma updated_replaced {T} (k : kind T) old o : updated k old o (replaced k old o).
Proof. unfold updated. rewrite meta_replaced. by destruct k. Qed.
Lemma status_updated_with {T} (k : kind T) old o :
  status_updated k old o (with_status k old (status_defaults k o)).
Proof. unfold status_updated. rewrite meta_with_status. by destruct k. Qed.
Lemma status_patched_patched {T} (k : kind T) base o old :
  status_patched k base o old (patched k base o old).
Proof. unfold status_patched. rewrite meta_patched. by destruct k. Qed.
Lemma marked_terminating {T} (k : kind T) o : marked k o (terminating k o).
Proof. unfold marked, terminating. rewrite meta_set_meta. by destruct k. Qed.

Lemma is_deferred_spec {T} (k : kind T) o : is_deferred k o = true <-> deferred k o.
Proof. destruct k; simpl; rewrite ?negb_true_iff, ?bool_decide_eq_false; tauto. Qed.

Lemma key_replaced {T} (k : kind T) old o : key_of k (replaced k old o) = key_of k o.
Proof. unfold key_of. by rewrite meta_replaced. Qed.
Lemma key_stored {T} (k : kind T) o : key_of k (stored k o) = key_of k o.
Proof. unfold key_of. by rewrite meta_stored. Qed.
Lemma key_with_status {T} (k : kind T) o s : key_of k (with_status k o s) = key_of k o.
Proof. unfold key_of. by rewrite meta_with_status. Qed.
Lemma key_patched {T} (k : kind T) base o old : key_of k (patched k base o old) = key_of k old.
Proof. unfold key_of. by rewrite meta_patched. Qed.
Lemma key_terminating {T} (k : kind T) o : key_of k (terminating k o) = key_of k o.
Proof. unfold key_of, terminating. by rewrite meta_set_meta. Qed.

Lemma finished_meta {T} (k : kind T) o o' : meta k o = meta k o' -> finished k o = finished k o'.
Proof. intros H. unfold finished. by rewrite H. Qed.
Lemma finished_stored {T} (k : kind T) o : finished k (stored k o) = false.
Proof. unfold finished. rewrite meta_stored. by destruct k. Qed.
Lemma finished_terminating {T} (k : kind T) o :
  is_deferred k o = true -> finished k (terminating k o) = false.
Proof.
  unfold finished, terminating. rewrite meta_set_meta. unfold is_deferred.
  destruct k; simpl; try done; rewrite negb_true_iff; by intros ->.
Qed.

(** *** Versions are not described *)
Section Restamp.
Variable bump : string -> string.
Context {T : Type}.
Implicit Types (k : kind T) (o : T).

Lemma meta_restamp k o :
  meta k (restamp bump k o) = set_version (meta k o) (bump (om_ResourceVersion (meta k o))).
Proof. apply meta_set_meta. Qed.
Lemma created_restamp k o o' : created k o o' -> created k o (restamp bump k o').
Proof. unfold created. rewrite meta_restamp. by destruct k. Qed.
Lemma updated_restamp k old o o' : updated k old o o' -> updated k old o (restamp bump k o').
Proof. unfold updated. rewrite meta_restamp. by destruct k. Qed.
Lemma status_updated_restamp k old o o' :
  status_updated k old o o' -> status_updated k old o (restamp bump k o').
Proof. unfold status_updated. rewrite meta_restamp. by destruct k. Qed.
Lemma status_patched_restamp k base o old o' :
  status_patched k base o old o' -> status_patched k base o old (restamp bump k o').
Proof. unfold status_patched. rewrite meta_restamp. by destruct k. Qed.
Lemma marked_restamp k o o' : marked k o o' -> marked k o (restamp bump k o').
Proof. unfold marked. rewrite meta_restamp. by destruct k. Qed.
Lemma key_restamp k o : key_of k (restamp bump k o) = key_of k o.
Proof. unfold key_of. by rewrite meta_restamp. Qed.
Lemma finished_restamp k o : finished k (restamp bump k o) = finished k o.
Proof. unfold finished. by rewrite meta_restamp. Qed.
End Restamp.

#[local] Hint Resolve created_stored updated_replaced status_updated_with status_patched_patched
  marked_terminating created_restamp updated_restamp status_updated_restamp status_patched_restamp
  marked_restamp : server.

(** The server's replies are those of the specification without faults. *)
Lemma server_meets bump {R} (c : api R) w :
  keyed w -> kube_post no_faults R c w (server bump R c w).1 (server bump R c w).2.
Proof.
  intros Hw. destruct c; simpl; try done.
  - split; [done|]. destruct (object _ _ _ _) eqn:Ho; [by apply Hw in Ho as []|]. by left.
  - destruct (object _ _ _ _) eqn:Ho; simpl.
    + left. eexists. split_and!; [done..|by eauto|done].
    + split_and!; try done; auto with server.
  - destruct (object _ _ _ _) eqn:Ho; simpl.
    + eexists. split_and!; try done; auto with server.
    + left. eexists. split_and!; [done|by right|done].
  - destruct (object _ _ _ _) eqn:Ho; simpl.
    + eexists. split_and!; try done; auto with server.
    + left. eexists. split_and!; [done|by right|done].
  - destruct (object _ _ _ _) eqn:Ho; simpl.
    + eexists. eexists. split_and!; try done; auto with server.
    + left. eexists. split_and!; [done|by right|done].
  - destruct (object _ _ _ _) eqn:Ho; simpl.
    + eexists. split; [done|]. destruct (is_deferred _ _) eqn:Hd.
      * right. split; [by apply is_deferred_spec|]. eexists.
        split; [apply marked_restamp, marked_terminating|done].
      * left. split; [|done]. intros H%is_deferred_spec. congruence.
    + left. eexists. by split_and!.
Qed.

Lemma server_keyed bump {R} (c : api R) w : keyed w -> keyed (server bump R c w).2.
Proof.
  intros Hw. destruct c; simpl; try done; destruct (object _ _ _ _) eqn:Ho; simpl; try done;
    (apply everywhere_put; [done|]); intros o'; unfold sound.
  - intros [= <-]. rewrite key_restamp, finished_restamp.
    split; [apply key_stored|by apply finished_stored].
  - destruct (finished _ _) eqn:Hf; [done|]. intros [= <-]. rewrite key_restamp.
    split; [apply key_replaced|done].
  - intros [= <-]. apply Hw in Ho as [Hk Hf]. rewrite key_restamp, finished_restamp.
    split; [by rewrite key_with_status|].
    by rewrite <- Hf; apply finished_meta, meta_with_status.
  - intros [= <-]. apply Hw in Ho as [Hk Hf]. rewrite key_restamp, finished_restamp.
    split; [by rewrite key_patched|]. by rewrite <- Hf; apply finished_meta, meta_patched.
  - destruct (is_deferred _ _) eqn:Hd; [|done]. intros [= <-]. apply Hw in Ho as [Hk _].
    rewrite key_restamp, finished_restamp.
    split; [by rewrite key_terminating|by apply finished_terminating].
Qed.

Lemma memory_server_meets {R} (c : api R) w :
  keyed w -> kube_post no_faults R c w (memory_server R c w).1 (memory_server R c w).2.
Proof. apply server_meets. Qed.

Lemma memory_server_keyed {R} (c : api R) w : keyed w -> keyed (memory_server R c w).2.
Proof. apply server_keyed. Qed.

(** Every triple proved against the specification holds of the runs of the
    operator on the in-memory servers. *)
Lemma memory_server_run {A} (p : go A) w m (Q : outcome A -> world -> mem -> Prop) :
  keyed w -> wp (kube_spec no_faults) p w m Q ->
  match run memory_server p w m with (o, w', m') => Q o w' m' end.
Proof.
  intros Hw Hp.
  pose proof (wp_run memory_server (kube_spec no_faults) id keyed p Q) as H.
  destruct (run memory_server p w m) as [[o w'] m'] eqn:Hrun.
  specialize (H ltac:(intros R c w0 H0 _; split;
    [by apply memory_server_meets|by apply memory_server_keyed]) w m Hw Hp).
  rewrite Hrun in H. apply H.
Qed.

(** ** Checks of concrete worlds *)
#[export] Instance sound_dec {T} (k : kind T) x o : Decision (sound k x o).
Proof. unfold sound. apply _. Defined.

Definition store_sound {T} (k : kind T) (c : cluster) : bool :=
  bool_decide (map_Forall (sound k) (store k c)).

Definition cluster_sound (c : cluster) : bool :=
  store_sound KVNodePool c && store_sound KVNode c && store_sound KPod c &&
  store_sound KSecret c && store_sound KConfigMap c && store_sound KNode c &&
  store_sound KLease c && store_sound KNamespace c.

Lemma cluster_sound_check c T (k : kind T) x o :
  cluster_sound c = true -> store k c !! x = Some o -> sound k x o.
Proof.
  unfold cluster_sound. rewrite !andb_true_iff. intros Hc.
  assert (store_sound k c = true) as Hk by (destruct k; tauto).
  apply bool_decide_eq_true_1 in Hk. apply Hk.
Qed.

Lemma keyed_check w :
  cluster_sound (w_host w) = true -> map_Forall (fun _ c => cluster_sound c = true) (w_tenants w) ->
  keyed w.
Proof.
  intros Hh Ht T c k x o Ho. unfold object in Ho.
  destruct c as [| |cs]; [by eapply cluster_sound_check; [exact Hh|exact Ho]..|].
  simpl in Ho. destruct (w_tenants w !! cs) as [cl|] eqn:Hcs.
  - eapply cluster_sound_check; [by eapply Ht|exact Ho].
  - by eapply (cluster_sound_check empty_cluster); [|exact Ho].
Qed.

Lemma keyed_at_keys w : keyed w -> everywhere at_key w.
Proof. intros Hw T c k x o Ho. by apply Hw in Ho as [? _]. Qed.
