(* ===== verification/Ports.v ===== *)
(** The interfaces between the domain and its adapters
    (internal/domain/ports): each Go interface is a record of operations, given
    by an adapter and received by the services. *)

From S2P Require Import Prelude GoProg Model PodModel Kube.

(** ** Outbound ports (outbound.go) *)
Record ClusterClient : Type := mkClusterClient {
  CreatePod : PodSpec -> go (option error);
  UpdatePod : PodSpec -> go (option error);
  DeletePod : string -> string -> go (option error);
  GetPod : string -> string -> go (res PodSpec);
  GetPodStatus : string -> string -> go (res PodStatus);
  ListPodsByLabels : string -> gmap string string -> go (res (list PodSpec));
  EnsureConfigMap : string -> string -> gmap string string -> gmap string string ->
    gmap string string -> go (option error);
  EnsureSecret : string -> string -> gmap string string -> gmap string string ->
    go (option error)
}.

Record NodeRegistrar : Type := mkNodeRegistrar {
  Register : VNode -> TenantRef -> go (option error);
  Deregister : VNode -> TenantRef -> go (option error);
  UpdateNodeStatus : VNode -> TenantRef -> go (option error)
}.

Record IsolationRuntime : Type := mkIsolationRuntime {
  RuntimeClassName : string;
  ValidateRuntime : go (option error)
}.

Record KubeconfigResolver : Type := mkKubeconfigResolver {
  Resolve : string -> string -> go (res string)
}.

Record PoolRepository : Type := mkPoolRepository {
  pools_Get : string -> string -> go (res VNodePool);
  pools_Save : VNodePool -> go (option error);
  pools_List : go (res (list VNodePool))
}.

Record NodeRepository : Type := mkNodeRepository {
  nodes_Get : string -> string -> go (res VNode);
  nodes_Save : VNode -> go (option error);
  nodes_Delete : string -> string -> go (option error);
  nodes_ListByPool : string -> string -> go (res (list VNode))
}.

(** ** Inbound ports (inbound.go); the pool manager and the provisioning
    return a meaningful value next to an error. *)
Record PoolManager : Type := mkPoolManager {
  ReconcilePoolNodes : VNodePool -> go (VNodePool * option error)
}.

Record NodeLifecycle : Type := mkNodeLifecycle {
  Provision : VNodePool -> go (VNode * option error);
  Deprovision : VNode -> go (option error);
  UpdateStatus : VNode -> go (option error)
}.

Record PodTranslator : Type := mkPodTranslator {
  Translate : PodSpec -> VNodePool -> string -> go (res PodTranslation);
  SyncStatus : PodStatus -> go (res PodStatus)
}.
