(* ===== verification/PodClient.v ===== *)
(** The host pod adapter (internal/adapter/outbound/kubeclient/pod_client.go):
    conversions between the domain's pods and the API's, and the operations of
    [ports.ClusterClient] on the host cluster. *)

From S2P Require Import Prelude GoProg Model PodModel Kube Ports.

Local Open Scope go_scope.

Section PodClient.
Context `{L : KubeLibs}.

(** ** Conversions *)
Definition stringPtrOrNil (v : string) : option string :=
  if bool_decide (v = "") then None else Some v.

Definition envToK8s (env : list EnvVar) : list CoreEnvVar :=
  map (fun item => mkCoreEnvVar (ev_Name item) (ev_Value item) None) env.

Definition envFromK8s (env : list CoreEnvVar) : list EnvVar :=
  map (fun item => mkEnvVar (cev_Name item) (cev_Value item)) env.

Definition volumeMountsToK8s (ms : list VolumeMount) : list CoreVolumeMount :=
  map (fun m => mkCoreVolumeMount (vm_Name m) (vm_MountPath m) (vm_ReadOnly m)) ms.

Definition volumeMountsFromK8s (ms : list CoreVolumeMount) : list VolumeMount :=
  map (fun m => mkVolumeMount (cvm_Name m) (cvm_MountPath m) (cvm_ReadOnly m)) ms.

(** One entry [out[key] = resource.MustParse(text)], skipped when [text] is
    empty; [None] is the panic of [MustParse]. *)
Definition parse_entry (key text : string) (out : gmap string Quantity)
    : option (gmap string Quantity) :=
  if bool_decide (text = "") then Some out
  else q ← MustParse text; Some (<[key := q]> out).

Definition resourceListToK8s (rl : ResourceList) : option (gmap string Quantity) :=
  out ← parse_entry ResourceCPU (rl_CPU rl) ∅;
  parse_entry ResourceMemory (rl_Memory rl) out.

Definition resourceListFromK8s (rl : gmap string Quantity) : ResourceList :=
  mkResourceList
    (match rl !! ResourceCPU with Some q => QuantityString q | None => "" end)
    (match rl !! ResourceMemory with Some q => QuantityString q | None => "" end)
    (match rl !! ResourcePods with Some q => int32 (QuantityValue q) | None => 0%Z end).

Definition emptyVolume (name : string) : CoreVolume :=
  mkCoreVolume name None None None None None None.

Definition volumeToK8s (v : Volume) : CoreVolume :=
  if bool_decide (vo_Type v = VolumeTypeConfigMap) then
    mkCoreVolume (vo_Name v) (Some (vo_Source v)) None None None None None
  else if bool_decide (vo_Type v = VolumeTypeSecret) then
    mkCoreVolume (vo_Name v) None (Some (vo_Source v)) None None None None
  else if bool_decide (vo_Type v = VolumeTypePVC) then
    mkCoreVolume (vo_Name v) None None (Some (vo_Source v)) None None None
  else if bool_decide (vo_Type v = VolumeTypeEmptyDir) then
    mkCoreVolume (vo_Name v) None None None (Some tt) None None
  else if bool_decide (vo_Type v = VolumeTypeHostPath) then
    mkCoreVolume (vo_Name v) None None None None (Some (vo_Source v)) None
  else if bool_decide (vo_Type v = VolumeTypeProjected) then
    mkCoreVolume (vo_Name v) None None None None None (Some tt)
  else emptyVolume (vo_Name v).

(** The Go [switch] takes the first source that is not nil. *)
Definition volumeFromK8s (v : CoreVolume) : Volume :=
  match cv_ConfigMap v with Some n => mkVolume (cv_Name v) VolumeTypeConfigMap n | None =>
  match cv_Secret v with Some n => mkVolume (cv_Name v) VolumeTypeSecret n | None =>
  match cv_PersistentVolumeClaim v with Some n => mkVolume (cv_Name v) VolumeTypePVC n | None =>
  match cv_EmptyDir v with Some _ => mkVolume (cv_Name v) VolumeTypeEmptyDir "" | None =>
  match cv_HostPath v with Some p => mkVolume (cv_Name v) VolumeTypeHostPath p | None =>
  match cv_Projected v with Some _ => mkVolume (cv_Name v) VolumeTypeProjected "" | None =>
    mkVolume (cv_Name v) VolumeTypeOther ""
  end end end end end end.

Definition containerToK8s (c : Container) : option CoreContainer :=
  requests ← resourceListToK8s (cr_Requests (ct_Resources c));
  limits ← resourceListToK8s (cr_Limits (ct_Resources c));
  Some (mkCoreContainer (ct_Name c) (ct_Image c) (ct_Command c) (ct_Args c)
          (envToK8s (ct_Env c)) (volumeMountsToK8s (ct_VolumeMounts c)) requests limits).

Definition containerFromK8s (c : CoreContainer) : Container :=
  mkContainer (cc_Name c) (cc_Image c) (cc_Command c) (cc_Args c)
    (envFromK8s (cc_Env c)) (volumeMountsFromK8s (cc_VolumeMounts c))
    (mkContainerResources (resourceListFromK8s (cc_Requests c)) (resourceListFromK8s (cc_Limits c))).

Definition podSpecToK8sPod (p : PodSpec) : option CorePod :=
  containers ← mapM containerToK8s (ps_Containers p);
  Some (mkCorePod
    (newMeta (ps_Name p) (ps_Namespace p) (ps_Labels p) ∅)
    (mkCorePodSpec (ps_NodeName p) (ps_ServiceAccountName p)
       (ps_AutomountServiceAccountToken p) (stringPtrOrNil (ps_RuntimeClassName p))
       (ps_NodeSelector p) containers (map volumeToK8s (ps_Volumes p)) "")
    (mkCorePodStatus "" "" "" "" [] "")).

Definition podToSpec (pod : CorePod) : PodSpec :=
  let m := cp_Meta pod in
  let s := cp_Spec pod in
  mkPodSpec (om_Name m) (om_Namespace m) (om_Labels m) (cps_NodeName s)
    (map containerFromK8s (cps_Containers s)) (map volumeFromK8s (cps_Volumes s))
    (cps_ServiceAccountName s) (cps_AutomountServiceAccountToken s)
    (default "" (cps_RuntimeClassName s)) (cps_NodeSelector s)
    (match om_DeletionTimestamp m with Some _ => true | None => false end).

Definition containerState (cs : CoreContainerStatus) : string :=
  match ccs_Running cs with Some _ => "running" | None =>
  match ccs_Waiting cs with Some _ => "waiting" | None =>
  match ccs_Terminated cs with Some _ => "terminated" | None => "" end end end.

Definition podToStatus (pod : CorePod) : PodStatus :=
  let s := cp_Status pod in
  mkPodStatus (cpst_Phase s) (cpst_PodIP s)
    (map (fun cs => mkContainerStatus (ccs_Name cs) (ccs_Ready cs) (ccs_RestartCount cs)
                      (containerState cs)) (cpst_ContainerStatuses s))
    (cpst_Message s) (cpst_Reason s).

(** ** Operations of [PodClusterClient] *)
Definition CreatePod_ (pod : PodSpec) : go (option error) :=
  k8sPod <- must (podSpecToK8sPod pod) ;;
  r <- call (Create HostClient KPod k8sPod) ;;
  Ret (res_err r).

Definition UpdatePod_ (pod : PodSpec) : go (option error) :=
  r <- call (Get HostClient KPod (ps_Namespace pod) (ps_Name pod)) ;;
  match r with
  | Err e => Ret (Some e)
  | Ok current =>
      desired <- must (podSpecToK8sPod pod) ;;
      let s := cp_Spec current in
      let d := cp_Spec desired in
      r' <- call (Update HostClient KPod
        (mkCorePod (set_labels (cp_Meta current) (om_Labels (cp_Meta desired)))
           (mkCorePodSpec (cps_NodeName s) (cps_ServiceAccountName d)
              (cps_AutomountServiceAccountToken s) (cps_RuntimeClassName d)
              (cps_NodeSelector d) (cps_Containers d) (cps_Volumes d) (cps_rest s))
           (cp_Status current))) ;;
      Ret (res_err r')
  end.

Definition DeletePod_ (ns name : string) : go (option error) :=
  r <- call (Delete HostClient KPod ns name) ;;
  match r with
  | Some e => if IsNotFound e then Ret None else Ret (Some e)
  | None => Ret None
  end.

Definition GetPod_ (ns name : string) : go (res PodSpec) :=
  r <- call (Get HostClient KPod ns name) ;;
  match r with
  | Err e => Ret (Err e)
  | Ok pod => Ret (Ok (podToSpec pod))
  end.

Definition GetPodStatus_ (ns name : string) : go (res PodStatus) :=
  r <- call (Get HostClient KPod ns name) ;;
  match r with
  | Err e => Ret (Err e)
  | Ok pod => Ret (Ok (podToStatus pod))
  end.

(** An empty namespace adds no [InNamespace] option, which lists them all. *)
Definition ListPodsByLabels_ (ns : string) (labels : gmap string string)
    : go (res (list PodSpec)) :=
  r <- call (List HostClient KPod ns labels) ;;
  match r with
  | Err e => Ret (Err e)
  | Ok items => Ret (Ok (map podToSpec items))
  end.

Definition EnsureConfigMap_ (ns name : string) (data binaryData labels : gmap string string)
    : go (option error) :=
  r <- call (Get HostClientset KConfigMap ns name) ;;
  match r with
  | Err e =>
      if IsNotFound e then
        r' <- call (Create HostClientset KConfigMap
                (mkCoreConfigMap (newMeta name ns labels ∅) data binaryData "")) ;;
        Ret (res_err r')
      else Ret (Some e)
  | Ok existing =>
      r' <- call (Update HostClientset KConfigMap
              (mkCoreConfigMap (set_labels (cm_Meta existing) labels) data binaryData
                 (cm_rest existing))) ;;
      Ret (res_err r')
  end.

Definition EnsureSecret_ (ns name : string) (data labels : gmap string string)
    : go (option error) :=
  r <- call (Get HostClientset KSecret ns name) ;;
  match r with
  | Err e =>
      if IsNotFound e then
        r' <- call (Create HostClientset KSecret
                (mkCoreSecret (newMeta name ns labels ∅) data "")) ;;
        Ret (res_err r')
      else Ret (Some e)
  | Ok existing =>
      r' <- call (Update HostClientset KSecret
              (mkCoreSecret (set_labels (se_Meta existing) labels) data (se_rest existing))) ;;
      Ret (res_err r')
  end.

Definition PodClusterClient : ClusterClient :=
  mkClusterClient CreatePod_ UpdatePod_ DeletePod_ GetPod_ GetPodStatus_ ListPodsByLabels_
    EnsureConfigMap_ EnsureSecret_.

End PodClient.
