(* ===== verification/NodeRepo.v ===== *)
(** The repositories of nodes and pools
    (internal/adapter/outbound/kubeclient/client.go), kept as custom resources
    of the host cluster. *)

From S2P Require Import Prelude GoProg Model Kube Ports.

Local Open Scope go_scope.

Definition annotationVClusterName : string := "vnode.kroderdev.io/vcluster-name".
Definition annotationVClusterNamespace : string := "vnode.kroderdev.io/vcluster-namespace".
Definition annotationKubeconfigSecret : string := "vnode.kroderdev.io/kubeconfig-secret".
Definition labelPool : string := "vnode.kroderdev.io/pool".

(** ** Conversions *)
Definition taintFromCore (t : CoreTaint) : Taint :=
  mkTaint (cta_Key t) (cta_Value t) (cta_Effect t).
Definition tolerationFromCore (t : CoreToleration) : Toleration :=
  mkToleration (cto_Key t) (cto_Operator t) (cto_Value t) (cto_Effect t)
    (cto_TolerationSeconds t).
Definition resourcesFromCR (r : NodeResources) : ResourceList :=
  mkResourceList (nr_CPU r) (nr_Memory r) (nr_Pods r).

Definition is_set (t : option Z) : bool :=
  match t with Some _ => true | None => false end.

Definition crToPool (cr : VNodePoolCR) : VNodePool :=
  let m := pc_Meta cr in
  let s := pc_Spec cr in
  let st := pc_Status cr in
  mkVNodePool (om_UID m) (om_Name m) (sp_DisplayName s) (om_Namespace m)
    (mkTenantRef (atr_VClusterName (sp_TenantRef s)) (atr_VClusterNamespace (sp_TenantRef s))
       (atr_KubeconfigSecret (sp_TenantRef s)))
    (sp_Mode s) (sp_IsolationBackend s) (sp_RuntimeClassName s) (sp_NodeCount s)
    (resourcesFromCR (sp_PerNodeResources s)) (sp_NodeSelector s)
    (map taintFromCore (sp_Taints s)) (map tolerationFromCore (sp_Tolerations s))
    (st_Phase st) (st_ReadyNodes st) [] (is_set (om_DeletionTimestamp m)).

Definition conditionFromCR (c : Condition) : NodeCondition :=
  mkNodeCondition (co_Type c) (bool_decide (co_Status c = ConditionTrue)) (co_Reason c)
    (co_Message c).

Definition crToNode (cr : VNodeCR) : VNode :=
  let m := nd_Meta cr in
  let s := nd_Spec cr in
  mkVNode (om_UID m) (om_Name m) (om_Namespace m) (ns_PoolRef s)
    (mkTenantRef (map_get (om_Annotations m) annotationVClusterName)
       (map_get (om_Annotations m) annotationVClusterNamespace)
       (map_get (om_Annotations m) annotationKubeconfigSecret))
    [] (nst_Phase (nd_Status cr))
    (resourcesFromCR (ns_Capacity s)) (resourcesFromCR (ns_Capacity s))
    (map conditionFromCR (nst_Conditions (nd_Status cr))).

Definition isIgnorableClientError (e : error) : bool :=
  errors_Is e ErrCanceled || errors_Is e ErrDeadlineExceeded.

Section NodeRepo.
Context `{L : KubeLibs}.

(** [metav1.Now()] is read once per condition. *)
Fixpoint conditionsToCR (cs : list NodeCondition) : go (list Condition) :=
  match cs with
  | [] => Ret []
  | c :: cs' =>
      t <- now ;;
      rest <- conditionsToCR cs' ;;
      Ret (mkCondition (nc_Type c) (if nc_Status c then ConditionTrue else ConditionFalse) 0 t
             (nc_Reason c) (nc_Message c) :: rest)
  end.

Definition applyNodeStatus (cr : VNodeCR) (node : VNode) : go VNodeCR :=
  conds <- conditionsToCR (vn_Conditions node) ;;
  Ret (mkVNodeCR (nd_Meta cr) (nd_Spec cr) (mkVNodeStatus (vn_Phase node) conds)).

(** The body that [updateStatus] retries. *)
Definition updateStatus_attempt (node : VNode) : go (option error) :=
  r <- call (Get HostClient KVNode (vn_Namespace node) (vn_Name node)) ;;
  match r with
  | Err e => if isIgnorableClientError e then Ret None else Ret (Some e)
  | Ok current =>
      current' <- applyNodeStatus current node ;;
      r' <- call (StatusUpdate HostClient KVNode current') ;;
      match r' with
      | Err e => if isIgnorableClientError e then Ret None else Ret (Some e)
      | Ok _ => Ret None
      end
  end.

Definition updateStatus (node : VNode) : go (option error) :=
  RetryOnConflict (updateStatus_attempt node).

(** The custom resource of a node that has none yet. *)
Definition newVNodeCR (node : VNode) : VNodeCR :=
  mkVNodeCR
    (newMeta (vn_Name node) (vn_Namespace node) {[ labelPool := vn_PoolName node ]}
       (<[annotationVClusterName := tr_VClusterName (vn_TenantRef node)]>
       (<[annotationVClusterNamespace := tr_VClusterNamespace (vn_TenantRef node)]>
       (<[annotationKubeconfigSecret := tr_KubeconfigSecret (vn_TenantRef node)]> ∅))))
    (mkVNodeSpec (vn_PoolName node)
       (mkNodeResources (rl_CPU (vn_Capacity node)) (rl_Memory (vn_Capacity node))
          (rl_Pods (vn_Capacity node))))
    (mkVNodeStatus "" []).

Definition setTenantAnnotations (cr : VNodeCR) (t : TenantRef) : VNodeCR :=
  mkVNodeCR
    (set_annotations (nd_Meta cr)
       (<[annotationKubeconfigSecret := tr_KubeconfigSecret t]>
       (<[annotationVClusterNamespace := tr_VClusterNamespace t]>
       (<[annotationVClusterName := tr_VClusterName t]> (om_Annotations (nd_Meta cr))))))
    (nd_Spec cr) (nd_Status cr).

(** The body that [Save] retries for a node that exists. *)
Definition annotate_attempt (node : VNode) : go (option error) :=
  r <- call (Get HostClient KVNode (vn_Namespace node) (vn_Name node)) ;;
  match r with
  | Err e => Ret (Some e)
  | Ok current =>
      r' <- call (Update HostClient KVNode (setTenantAnnotations current (vn_TenantRef node))) ;;
      Ret (res_err r')
  end.

Definition Save (node : VNode) : go (option error) :=
  r <- call (Get HostClient KVNode (vn_Namespace node) (vn_Name node)) ;;
  match r with
  | Err e =>
      match IgnoreNotFound e with
      | Some _ => Ret (Some e)
      | None =>
          c <- call (Create HostClient KVNode (newVNodeCR node)) ;;
          match c with
          | Err createErr => Ret (Some (ErrWrap "creating VNode CR: " createErr))
          | Ok cr =>
              cr' <- applyNodeStatus cr node ;;
              u <- call (StatusUpdate HostClient KVNode cr') ;;
              match u with
              | Err e' =>
                  if IsConflict e' || IsNotFound e' then updateStatus node else Ret (Some e')
              | Ok _ => Ret None
              end
          end
      end
  | Ok _ =>
      a <- RetryOnConflict (annotate_attempt node) ;;
      match a with
      | Some e => if isIgnorableClientError e then Ret None else Ret (Some e)
      | None => updateStatus node
      end
  end.

Definition GetNode (ns name : string) : go (res VNode) :=
  r <- call (Get HostClient KVNode ns name) ;;
  match r with
  | Err e => Ret (Err e)
  | Ok cr => Ret (Ok (crToNode cr))
  end.

Definition DeleteNode (ns name : string) : go (option error) :=
  call (Delete HostClient KVNode ns name).

Definition ListByPool (ns poolName : string) : go (res (list VNode)) :=
  r <- call (List HostClient KVNode ns {[ labelPool := poolName ]}) ;;
  match r with
  | Err e => Ret (Err e)
  | Ok items => Ret (Ok (map crToNode items))
  end.

Definition KubeNodeRepository : NodeRepository :=
  mkNodeRepository GetNode Save DeleteNode ListByPool.

(** ** Pools *)
Definition GetPool (ns name : string) : go (res VNodePool) :=
  r <- call (Get HostClient KVNodePool ns name) ;;
  match r with
  | Err e => Ret (Err e)
  | Ok cr => Ret (Ok (crToPool cr))
  end.

Definition SavePool (pool : VNodePool) : go (option error) :=
  r <- call (Get HostClient KVNodePool (vp_Namespace pool) (vp_Name pool)) ;;
  match r with
  | Err e => Ret (Some e)
  | Ok cr =>
      u <- call (StatusUpdate HostClient KVNodePool
             (mkVNodePoolCR (pc_Meta cr) (pc_Spec cr)
                (mkVNodePoolStatus (vp_Phase pool) (vp_ReadyNodes pool)
                   (int32 (Z.of_nat (length (vp_Nodes pool)))) (st_Conditions (pc_Status cr))))) ;;
      Ret (res_err u)
  end.

Definition ListPools : go (res (list VNodePool)) :=
  r <- call (List HostClient KVNodePool "" ∅) ;;
  match r with
  | Err e => Ret (Err e)
  | Ok items => Ret (Ok (map crToPool items))
  end.

Definition KubePoolRepository : PoolRepository :=
  mkPoolRepository GetPool SavePool ListPools.

End NodeRepo.
