(* ===== verification/Registrar.v ===== *)
(** The tenant side: resolution of kubeconfigs
    (internal/adapter/outbound/kubeclient/kubeconfig.go), the cache of tenant
    clients and the registration of virtual nodes
    (internal/adapter/outbound/virtualkubelet/registrar.go). *)

From S2P Require Import Prelude GoProg Model Kube Ports PodClient.

Local Open Scope go_scope.

Definition leaseNamespace : string := "kube-node-lease".
(** [version.Version] when it is not set at build time. *)
Definition Version : string := "dev".

Definition cacheKey (tenant : TenantRef) : string :=
  tr_VClusterNamespace tenant +:+ "/" +:+ tr_KubeconfigSecret tenant.

Section Registrar.
Context `{L : KubeLibs}.

(** ** Kubeconfig secrets *)

(** The first recognised key with a value that is not empty. *)
Fixpoint kubeconfig_data (keys : list string) (data : gmap string string) : option string :=
  match keys with
  | [] => None
  | key :: keys' =>
      match data !! key with
      | Some d => if bool_decide (d = "") then kubeconfig_data keys' data else Some d
      | None => kubeconfig_data keys' data
      end
  end.

Definition ResolveSecret (secretNamespace secretName : string) : go (res string) :=
  r <- call (Get HostClient KSecret secretNamespace secretName) ;;
  match r with
  | Err e =>
      Ret (Err (ErrWrap ("getting kubeconfig secret " +:+ secretNamespace +:+ "/" +:+ secretName
                           +:+ ": ") e))
  | Ok secret =>
      match kubeconfig_data ["kubeconfig"; "config"; "value"] (se_Data secret) with
      | Some d => Ret (Ok d)
      | None =>
          Ret (Err (ErrText ("kubeconfig secret " +:+ secretNamespace +:+ "/" +:+ secretName +:+
            " has no recognized kubeconfig key (tried: kubeconfig, config, value)")))
      end
  end.

Definition SecretKubeconfigResolver : KubeconfigResolver := mkKubeconfigResolver ResolveSecret.

(** ** The cache of tenant clients; each critical section is atomic. *)
Definition cache_lookup (key : string) : go (option Clientset) :=
  atomic (fun m : mem => (m !! key, m)).
Definition cache_store (key : string) (cs : Clientset) : go unit :=
  atomic (fun m : mem => (tt, <[key := cs]> m)).

Definition Invalidate (tenant : TenantRef) : go unit :=
  atomic (fun m : mem => (tt, delete (cacheKey tenant) m)).

Definition GetClient (resolver : KubeconfigResolver) (tenant : TenantRef) : go (res Clientset) :=
  hit <- cache_lookup (cacheKey tenant) ;;
  match hit with
  | Some cs => Ret (Ok cs)
  | None =>
      r <- Resolve resolver (tr_VClusterNamespace tenant) (tr_KubeconfigSecret tenant) ;;
      match r with
      | Err e => Invalidate tenant ;;; Ret (Err (ErrWrap "resolving tenant kubeconfig: " e))
      | Ok kubeconfig =>
          match RESTConfigFromKubeConfig kubeconfig with
          | Err e => Invalidate tenant ;;; Ret (Err (ErrWrap "building tenant rest config: " e))
          | Ok cfg =>
              c <- call (NewClientset cfg) ;;
              match c with
              | Err e => Invalidate tenant ;;; Ret (Err (ErrWrap "building tenant clientset: " e))
              | Ok cs => cache_store (cacheKey tenant) cs ;;; Ret (Ok cs)
              end
          end
      end
  end.

(** ** Objects of the tenant cluster *)
Definition nodeLabels (node : VNode) : gmap string string :=
  list_to_map [
    ("kubernetes.io/os", "linux");
    ("kubernetes.io/arch", "amd64");
    ("kubernetes.io/hostname", vn_Name node);
    ("node.kubernetes.io/exclude-from-external-load-balancers", "true");
    ("node-role.kubernetes.io/worker", "");
    ("vnode.kroderdev.io/managed", "true");
    ("vnode.kroderdev.io/pool", vn_PoolName node);
    ("vnode.kroderdev.io/vnode", vn_Name node)].

Definition nodeAnnotations (node : VNode) : gmap string string :=
  list_to_map [
    ("vnode.kroderdev.io/vcluster-name", tr_VClusterName (vn_TenantRef node));
    ("vnode.kroderdev.io/vcluster-namespace", tr_VClusterNamespace (vn_TenantRef node))].

Definition mapNodeTaints (ts : list Taint) : list CoreTaint :=
  map (fun t => mkCoreTaint (ta_Key t) (ta_Value t) (ta_Effect t) None) ts.

Definition buildResources (rl : ResourceList) : option (gmap string Quantity) :=
  out ← parse_entry ResourceCPU (rl_CPU rl) ∅;
  out ← parse_entry ResourceMemory (rl_Memory rl) out;
  Some (if (0 <? rl_Pods rl)%Z then <[ResourcePods := NewQuantity (rl_Pods rl)]> out else out).

Definition buildNodeConditions (t : Z) (node : VNode) : list CoreNodeCondition :=
  map (fun c => mkCoreNodeCondition
         (if bool_decide (nc_Type c = NodeConditionReady) then "Ready" else nc_Type c)
         (if nc_Status c then ConditionTrue else ConditionFalse)
         (nc_Reason c) (nc_Message c) t t) (vn_Conditions node).

Definition nodeSystemInfo : NodeSystemInfo :=
  mkNodeSystemInfo ("vnode/" +:+ Version) "linux" "amd64" ("vnode/" +:+ Version).

(** The status fields [UpdateNodeStatus] overwrites on the fetched node. *)
Definition setNodeStatus (current : CoreNode) (cap alloc : gmap string Quantity)
    (conds : list CoreNodeCondition) : CoreNode :=
  mkCoreNode (cn_Meta current) (cn_Taints current) (cn_spec_rest current)
    (mkCoreNodeStatus cap alloc conds nodeSystemInfo (cns_rest (cn_Status current))).

(** ** Steps of the registration *)
Definition ensureLeaseNamespace (cs : Clientset) : go (option error) :=
  r <- call (Get (Tenant cs) KNamespace "" leaseNamespace) ;;
  match r with
  | Ok _ => Ret None
  | Err e =>
      if IsNotFound e then
        c <- call (Create (Tenant cs) KNamespace (mkCoreNamespace (newMeta leaseNamespace "" ∅ ∅))) ;;
        match c with
        | Err e' =>
            if IsAlreadyExists e' then Ret None
            else Ret (Some (ErrWrap "creating lease namespace: " e'))
        | Ok _ => Ret None
        end
      else Ret (Some (ErrWrap "getting lease namespace: " e))
  end.

Definition upsertLease (cs : Clientset) (nodeName : string) : go (option error) :=
  t <- now ;;
  r <- call (Get (Tenant cs) KLease leaseNamespace nodeName) ;;
  match r with
  | Err e =>
      if IsNotFound e then
        c <- call (Create (Tenant cs) KLease
               (mkCoreLease (newMeta nodeName leaseNamespace ∅ ∅) (Some nodeName) (Some 40%Z)
                  (Some t) "")) ;;
        match c with
        | Err e' => Ret (Some (ErrWrap ("creating node lease " +:+ nodeName +:+ ": ") e'))
        | Ok _ => Ret None
        end
      else Ret (Some (ErrWrap ("getting node lease " +:+ nodeName +:+ ": ") e))
  | Ok current =>
      u <- call (Update (Tenant cs) KLease
             (mkCoreLease (le_Meta current) (Some nodeName) (Some 40%Z) (Some t)
                (le_rest current))) ;;
      match u with
      | Err e' => Ret (Some (ErrWrap ("updating node lease " +:+ nodeName +:+ ": ") e'))
      | Ok _ => Ret None
      end
  end.

Definition newTenantNode (node : VNode) : CoreNode :=
  mkCoreNode (newMeta (vn_Name node) "" (nodeLabels node) (nodeAnnotations node))
    (mapNodeTaints (vn_Taints node)) ""
    (mkCoreNodeStatus ∅ ∅ [] (mkNodeSystemInfo "" "" "" "") "").

Definition upsertNode (cs : Clientset) (node : VNode) : go (option error) :=
  r <- call (Get (Tenant cs) KNode "" (vn_Name node)) ;;
  match r with
  | Err e =>
      if IsNotFound e then
        c <- call (Create (Tenant cs) KNode (newTenantNode node)) ;;
        match c with
        | Err e' => Ret (Some (ErrWrap ("creating tenant node " +:+ vn_Name node +:+ ": ") e'))
        | Ok _ => Ret None
        end
      else Ret (Some (ErrWrap ("getting tenant node " +:+ vn_Name node +:+ ": ") e))
  | Ok current =>
      u <- call (Update (Tenant cs) KNode
             (mkCoreNode
                (set_annotations (set_labels (cn_Meta current) (nodeLabels node))
                   (nodeAnnotations node))
                (mapNodeTaints (vn_Taints node)) (cn_spec_rest current) (cn_Status current))) ;;
      match u with
      | Err e' => Ret (Some (ErrWrap ("updating tenant node " +:+ vn_Name node +:+ ": ") e'))
      | Ok _ => Ret None
      end
  end.

(** The body that [UpdateNodeStatus] retries. *)
Definition node_status_attempt (cs : Clientset) (node : VNode) : go (option error) :=
  r <- call (Get (Tenant cs) KNode "" (vn_Name node)) ;;
  match r with
  | Err e => Ret (Some (ErrWrap ("getting tenant node " +:+ vn_Name node +:+ ": ") e))
  | Ok current =>
      cap <- must (buildResources (vn_Capacity node)) ;;
      alloc <- must (buildResources (vn_Allocatable node)) ;;
      t <- now ;;
      u <- call (StatusUpdate (Tenant cs) KNode
             (setNodeStatus current cap alloc (buildNodeConditions t node))) ;;
      Ret (res_err u)
  end.

(** [err != nil && !apierrors.IsNotFound(err)]. *)
Definition unless_not_found (r : option error) : option error :=
  match r with
  | Some e => if IsNotFound e then None else Some e
  | None => None
  end.

Section WithResolver.
Variable resolver : KubeconfigResolver.

Definition registrar_UpdateNodeStatus (node : VNode) (tenant : TenantRef) : go (option error) :=
  if bool_decide (tr_KubeconfigSecret tenant = "") then Ret None
  else
    c <- GetClient resolver tenant ;;
    match c with
    | Err e => Ret (Some e)
    | Ok cs =>
        r <- RetryOnConflict (node_status_attempt cs node) ;;
        match r with
        | Some e =>
            Ret (Some (ErrWrap ("updating tenant node " +:+ vn_Name node +:+ " status: ") e))
        | None => upsertLease cs (vn_Name node)
        end
    end.

Definition registrar_Register (node : VNode) (tenant : TenantRef) : go (option error) :=
  c <- GetClient resolver tenant ;;
  match c with
  | Err e => Ret (Some e)
  | Ok cs =>
      n <- ensureLeaseNamespace cs ;;
      match n with
      | Some e => Ret (Some e)
      | None =>
          u <- upsertNode cs node ;;
          match u with
          | Some e => Ret (Some e)
          | None => registrar_UpdateNodeStatus node tenant
          end
      end
  end.

Definition registrar_Deregister (node : VNode) (tenant : TenantRef) : go (option error) :=
  if bool_decide (tr_KubeconfigSecret tenant = "") then Ret None
  else
    c <- GetClient resolver tenant ;;
    match c with
    | Err e => Ret (Some e)
    | Ok cs =>
        l <- call (Delete (Tenant cs) KLease leaseNamespace (vn_Name node)) ;;
        match unless_not_found l with
        | Some e => Ret (Some (ErrWrap ("deleting lease " +:+ vn_Name node +:+ ": ") e))
        | None =>
            n <- call (Delete (Tenant cs) KNode "" (vn_Name node)) ;;
            match unless_not_found n with
            | Some e => Ret (Some (ErrWrap ("deleting tenant node " +:+ vn_Name node +:+ ": ") e))
            | None => Ret None
            end
        end
    end.

Definition TenantRegistrar : NodeRegistrar :=
  mkNodeRegistrar registrar_Register registrar_Deregister registrar_UpdateNodeStatus.

End WithResolver.

End Registrar.
