(* ===== verification/NodeStore.v ===== *)
(** The contract between the services and the repository of nodes, and the
    proof that the repository of client.go meets it on API servers that behave
    as documented. *)

From S2P Require Import Prelude GoProg Model Kube ApiServer Ports NodeRepo.

(** ** The contract *)
Definition node_key (n : VNode) : key := (vn_Namespace n, vn_Name n).

(** What a successful save of [n] leaves at its key: its phase, conditions and
    tenant; pool and capacity are those of the first save. *)
Definition saved (old : option VNode) (n n' : VNode) : Prop :=
  node_key n' = node_key n /\ vn_Phase n' = vn_Phase n /\
  vn_Conditions n' = vn_Conditions n /\ vn_TenantRef n' = vn_TenantRef n /\
  match old with
  | Some o => vn_PoolName n' = vn_PoolName o /\ vn_Capacity n' = vn_Capacity o
  | None => vn_PoolName n' = vn_PoolName n /\ vn_Capacity n' = vn_Capacity n
  end.

(** The nodes of a pool among the stored ones. *)
Definition in_pool (ns pool : string) (x : key * VNode) : Prop :=
  x.1.1 = ns /\ vn_PoolName x.2 = pool.
#[export] Instance in_pool_dec ns pool x : Decision (in_pool ns pool x).
Proof. unfold in_pool. apply _. Defined.
Definition members (ns pool : string) (v : gmap key VNode) : gmap key VNode :=
  base.filter (in_pool ns pool) v.

(** [view s] is the set of nodes the repository holds in state [s]; [inv] is the
    shape of the states it relies on. *)
Class NodeStore {S} (sp : spec api S) (repo : NodeRepository) (inv : S -> Prop)
    (view : S -> gmap key VNode) : Prop := {
  view_keys s x n : inv s -> view s !! x = Some n -> node_key n = x;
  save_contract n s m : inv s ->
    wp sp (nodes_Save repo n) s m (fun o s' m' => exists r, o = Done r /\ m' = m /\ inv s' /\
      (forall x, x <> node_key n -> view s' !! x = view s !! x) /\
      match r with
      | None => exists n', view s' !! node_key n = Some n' /\ saved (view s !! node_key n) n n'
      | Some e => is_context_error e = false
      end);
  delete_contract ns name s m : inv s ->
    wp sp (nodes_Delete repo ns name) s m (fun o s' m' => exists r, o = Done r /\ m' = m /\ inv s' /\
      (forall x, x <> (ns, name) -> view s' !! x = view s !! x) /\
      (r = None -> view s' !! (ns, name) = None));
  list_contract ns pool s m : inv s -> ns <> "" ->
    wp sp (nodes_ListByPool repo ns pool) s m (fun o s' m' => exists r, o = Done r /\ m' = m /\
      s' = s /\
      match r with
      | Ok l => l ≡ₚ (map_to_list (members ns pool (view s))).*2
      | Err _ => True
      end)
}.

(** ** The repository on the API server *)
Section KubeNodeStore.
Context `{L : KubeLibs} {LL : KubeLibsLaws}.
Variable faults : error -> Prop.

(** Faults are not the errors the repository takes for an answer: a finished
    context, or a missing object. *)
Hypothesis calm : forall e, faults e -> is_context_error e = false /\
  status_reason e <> Some ReasonNotFound.

(** Stored VNodes sit at their key, carry their pool as a label, and have no
    finalizer, so that a deletion removes them at once and none is left half
    deleted. *)
Definition good_vnode (x : key) (cr : VNodeCR) : Prop :=
  key_of KVNode cr = x /\ om_Labels (nd_Meta cr) !! labelPool = Some (ns_PoolRef (nd_Spec cr)) /\
  om_Finalizers (nd_Meta cr) = [] /\ om_DeletionTimestamp (nd_Meta cr) = None.

Definition good_world (w : world) : Prop :=
  forall x cr, object HostClient KVNode x w = Some cr -> good_vnode x cr.

Definition node_view (w : world) : gmap key VNode := crToNode <$> c_vnodes (w_host w).

Abbreviation K := (kube_spec faults).
Abbreviation vput x cr w := (put HostClient KVNode x cr w).

Lemma node_view_lookup w x : node_view w !! x = crToNode <$> object HostClient KVNode x w.
Proof. apply lookup_fmap. Qed.

Lemma vput_id x w : vput x (object HostClient KVNode x w) w = w.
Proof.
  unfold object, put. simpl. destruct w as [h t]; simpl. f_equal.
  destruct h; simpl. f_equal. apply map_eq. intros y.
  destruct (decide (x = y)) as [->|Hne].
  - by rewrite lookup_partial_alter_eq.
  - by rewrite lookup_partial_alter_ne.
Qed.

Lemma good_put x cr w : good_world w -> good_vnode x cr -> good_world (vput x (Some cr) w).
Proof.
  intros Hw Hcr y cr'. destruct (decide (x = y)) as [->|Hne].
  - rewrite object_put. by intros [= <-].
  - rewrite object_put_ne by done. apply Hw.
Qed.

Lemma good_remove x w : good_world w -> good_world (vput x None w).
Proof.
  intros Hw y cr'. destruct (decide (x = y)) as [->|Hne].
  - by rewrite object_put.
  - rewrite object_put_ne by done. apply Hw.
Qed.

(** *** Statuses *)

Lemma conditionsToCR_spec cs w m Q :
  (forall out, map conditionFromCR out = cs -> Q (Done out) w m) ->
  wp K (conditionsToCR cs) w m Q.
Proof.
  revert Q. induction cs as [|c cs IH]; intros Q HQ; simpl; [by apply HQ|].
  split; [done|]. intros t w' ->. apply wp_bind, IH. intros out Hout. simpl.
  apply HQ. simpl. rewrite Hout. f_equal. destruct c as [ty st re ms].
  unfold conditionFromCR; simpl. by destruct st.
Qed.

(** The status of [cr] is the one of [n]. *)
Definition status_of (n : VNode) (cr : VNodeCR) : Prop :=
  nst_Phase (nd_Status cr) = vn_Phase n /\
  map conditionFromCR (nst_Conditions (nd_Status cr)) = vn_Conditions n.

Lemma applyNodeStatus_spec cr n w m Q :
  (forall cr', nd_Meta cr' = nd_Meta cr -> nd_Spec cr' = nd_Spec cr -> status_of n cr' ->
     Q (Done cr') w m) ->
  wp K (applyNodeStatus cr n) w m Q.
Proof.
  intros HQ. unfold applyNodeStatus. apply wp_bind, conditionsToCR_spec.
  intros out Hout. simpl. by apply HQ.
Qed.

(** [cr'] describes the same VNode as [cr], up to the status. *)
Definition same_vnode (cr cr' : VNodeCR) : Prop :=
  same_description (nd_Meta cr) (nd_Meta cr') /\
  om_DeletionTimestamp (nd_Meta cr') = om_DeletionTimestamp (nd_Meta cr) /\
  nd_Spec cr' = nd_Spec cr.

Lemma same_description_trans m1 m2 m3 :
  same_description m1 m2 -> same_description m2 m3 -> same_description m1 m3.
Proof. unfold same_description. intuition congruence. Qed.

Lemma same_vnode_key cr cr' : same_vnode cr cr' -> key_of KVNode cr' = key_of KVNode cr.
Proof. intros [(? & ? & _) _]. unfold key_of; simpl. congruence. Qed.

Lemma same_vnode_good x cr cr' : same_vnode cr cr' -> good_vnode x cr -> good_vnode x cr'.
Proof.
  intros [(E1 & E2 & E3 & _ & E5) [E6 E7]] (Hk & Hl & Hf & Hd).
  unfold good_vnode, key_of in *; simpl in *. by rewrite E1, E2, E3, E5, E6, E7.
Qed.

(** A status write of an object that is there: the outcome is a new object of
    the same description, with the written status if the write succeeded. *)
Lemma status_write x cr0 w0 cr o r w' :
  same_vnode cr0 cr -> key_of KVNode o = x -> nd_Meta o = nd_Meta cr -> nd_Spec o = nd_Spec cr ->
  kube_post faults _ (StatusUpdate HostClient KVNode o) (vput x (Some cr) w0) r w' ->
  exists cr', w' = vput x (Some cr') w0 /\ same_vnode cr0 cr' /\
    match r with Ok _ => nd_Status cr' = nd_Status o | Err e => is_context_error e = false end.
Proof.
  intros Hsame Hk Hm Hs.
  assert (forall o' w', write_applied (status_updated KVNode) HostClient KVNode o
            (vput x (Some cr) w0) o' w' ->
          w' = vput x (Some o') w0 /\ same_vnode cr0 o' /\ nd_Status o' = nd_Status o) as Happ.
  { intros o' w2 (old & Hold & (Hd & (_ & _ & Hdel) & Hspec & Hst) & ->).
    rewrite Hk, object_put in Hold. injection Hold as <-. rewrite Hk, put_put.
    split; [done|]. split; [|done]. destruct Hsame as (Hs1 & Hs2 & Hs3).
    split; [|simpl in *; split; congruence].
    eapply same_description_trans; [apply Hs1|apply Hd]. }
  simpl. destruct r as [o'|e].
  - intros (-> & Hsv & Hst)%Happ. eauto.
  - intros [(s & He & _ & ->)|[Hf [->|(o' & (-> & Hsv & Hst)%Happ)]]].
    + exists cr. eauto using status_not_context.
    + exists cr. destruct (calm e Hf). eauto.
    + exists o'. destruct (calm e Hf). eauto.
Qed.

(** The state of a retried status update: the VNode [x] is there, described as
    [cr0], and nothing else has changed. *)
Definition updating (x : key) (cr0 : VNodeCR) (w0 w : world) (m0 m : mem) : Prop :=
  m = m0 /\ exists cr, w = vput x (Some cr) w0 /\ same_vnode cr0 cr.

Lemma updateStatus_spec n cr0 w0 m0 :
  key_of KVNode cr0 = node_key n ->
  forall w m, updating (node_key n) cr0 w0 w m0 m ->
  wp K (updateStatus n) w m (fun o w' m' => exists r cr', o = Done r /\ m' = m0 /\
    w' = vput (node_key n) (Some cr') w0 /\ same_vnode cr0 cr' /\
    match r with None => status_of n cr' | Some e => is_context_error e = false end).
Proof.
  intros Hk0. unfold updateStatus. apply (wp_retry _ (fun w m => updating (node_key n) cr0 w0 w m0 m)).
  intros w m [-> (cr & -> & Hsame)]. unfold updateStatus_attempt.
  apply wp_bind. unfold call; simpl. split; [done|]. intros [o|e] w' [-> Hr].
  - destruct Hr as (Hr & Hko & _). change (vn_Namespace n, vn_Name n) with (node_key n) in *.
    rewrite object_put in Hr. injection Hr as <-.
    apply wp_bind, applyNodeStatus_spec. intros cr' Hm Hs Hst.
    simpl. split; [done|]. intros r w' Hpost.
    assert (key_of KVNode cr' = node_key n) as Hk.
    { unfold key_of in *; simpl in *. by rewrite Hm. }
    destruct (status_write _ _ _ _ _ _ _ Hsame Hk Hm Hs Hpost) as (cr2 & -> & Hsv & Hres).
    destruct r as [o'|e]; simpl.
    + exists None, cr2. split_and!; try done. unfold status_of. by rewrite Hres.
    + change (isIgnorableClientError e) with (is_context_error e). rewrite Hres. simpl.
      split; [intros _; split; eauto|]. by exists (Some e), cr2.
  - change (vn_Namespace n, vn_Name n) with (node_key n) in *.
    destruct Hr as [[_ Hnone]|Hf]; [by rewrite object_put in Hnone|].
    destruct (calm e Hf) as [Hc _]. change (is_context_error e) with (isIgnorableClientError e) in Hc.
    rewrite Hc. simpl. split; [intros _; split; eauto|].
    by exists (Some e), cr.
Qed.

(** *** Annotations *)

(** The tenant reference the annotations spell. *)
Definition tenant_of (m : ObjectMeta) : TenantRef :=
  mkTenantRef (map_get (om_Annotations m) annotationVClusterName)
    (map_get (om_Annotations m) annotationVClusterNamespace)
    (map_get (om_Annotations m) annotationKubeconfigSecret).

(** As [same_vnode], but the annotations may differ. *)
Definition same_but_annotations (cr cr' : VNodeCR) : Prop :=
  om_Name (nd_Meta cr') = om_Name (nd_Meta cr) /\
  om_Namespace (nd_Meta cr') = om_Namespace (nd_Meta cr) /\
  om_Labels (nd_Meta cr') = om_Labels (nd_Meta cr) /\
  om_Finalizers (nd_Meta cr') = om_Finalizers (nd_Meta cr) /\
  om_DeletionTimestamp (nd_Meta cr') = om_DeletionTimestamp (nd_Meta cr) /\
  nd_Spec cr' = nd_Spec cr.

Lemma same_but_annotations_good x cr cr' :
  same_but_annotations cr cr' -> good_vnode x cr -> good_vnode x cr'.
Proof.
  intros (E1 & E2 & E3 & E5 & E6 & E7) (Hk & Hl & Hf & Hd).
  unfold good_vnode, key_of in *; simpl in *. by rewrite E1, E2, E3, E5, E6, E7.
Qed.

Lemma annotated_tenant cr t : tenant_of (nd_Meta (setTenantAnnotations cr t)) = t.
Proof. destruct t. unfold tenant_of, map_get; simpl. by simplify_map_eq. Qed.

Lemma new_tenant n : tenant_of (nd_Meta (newVNodeCR n)) = vn_TenantRef n.
Proof. destruct n as [? ? ? ? []]. unfold tenant_of, map_get; simpl. by simplify_map_eq. Qed.

Definition annotating (x : key) (cr0 : VNodeCR) (w0 w : world) (m0 m : mem) : Prop :=
  m = m0 /\ exists cr, w = vput x (Some cr) w0 /\ same_but_annotations cr0 cr.

Lemma annotate_spec n cr0 w0 m0 :
  key_of KVNode cr0 = node_key n -> om_DeletionTimestamp (nd_Meta cr0) = None ->
  forall w m, annotating (node_key n) cr0 w0 w m0 m ->
  wp K (RetryOnConflict (annotate_attempt n)) w m (fun o w' m' => exists r cr', o = Done r /\
    m' = m0 /\ w' = vput (node_key n) (Some cr') w0 /\ same_but_annotations cr0 cr' /\
    match r with
    | None => tenant_of (nd_Meta cr') = vn_TenantRef n
    | Some e => is_context_error e = false
    end).
Proof.
  intros Hk0 Hdel0. apply (wp_retry _ (fun w m => annotating (node_key n) cr0 w0 w m0 m)).
  intros w m [-> (cr & -> & Hsame)]. unfold annotate_attempt.
  apply wp_bind. unfold call; simpl. split; [done|]. intros [o|e] w' [-> Hr].
  2:{ change (vn_Namespace n, vn_Name n) with (node_key n) in *.
      destruct Hr as [[_ Hnone]|Hf]; [by rewrite object_put in Hnone|]. simpl.
      split; [intros _; split; eauto|]. exists (Some e), cr. split_and!; try done. by apply calm. }
  destruct Hr as (Hr & Hko & _). change (vn_Namespace n, vn_Name n) with (node_key n) in *.
  rewrite object_put in Hr. injection Hr as <-. simpl. split; [done|].
  assert (key_of KVNode (setTenantAnnotations cr (vn_TenantRef n)) = node_key n) as Hk by exact Hko.
  assert (forall o' w', update_applied HostClient KVNode
            (setTenantAnnotations cr (vn_TenantRef n)) (vput (node_key n) (Some cr) w0) o' w' ->
          w' = vput (node_key n) (Some o') w0 /\ same_but_annotations cr0 o' /\
          tenant_of (nd_Meta o') = vn_TenantRef n) as Happ.
  { intros o' w2 (old & Hold & ((E1 & E2 & E3 & E4 & E5) & (_ & _ & E6) & Hspec & _) & ->).
    rewrite Hk, object_put in Hold. injection Hold as <-.
    destruct Hsame as (F1 & F2 & F3 & F4 & F5 & F6).
    assert (finished KVNode o' = false) as ->.
    { unfold finished. rewrite E6. simpl. by rewrite F5, Hdel0. }
    rewrite Hk, put_put. split; [done|]. split.
    - simpl in *. repeat split; simpl; congruence.
    - rewrite <- (annotated_tenant cr (vn_TenantRef n)). unfold tenant_of. simpl in E4 |- *.
      by rewrite E4. }
  intros [o'|e] w'; simpl.
  - intros (-> & Hs & Ht)%Happ. exists None, o'. done.
  - intros [(s & He & _ & ->)|[Hf [->|(o' & (-> & Hs & Ht)%Happ)]]].
    + pose proof (status_not_context e s He). split; [intros _; split; eauto|].
      exists (Some e), cr. done.
    + destruct (calm e Hf). split; [intros _; split; eauto|]. exists (Some e), cr. done.
    + destruct (calm e Hf). split; [intros _; split; eauto|]. exists (Some e), o'. done.
Qed.

(** *** Saving *)

(** What a save of [n] from [w0] leads to. *)
Definition save_result (n : VNode) (w0 : world) (r : option error) (w' : world) : Prop :=
  exists ocr, w' = vput (node_key n) ocr w0 /\
    (forall cr, ocr = Some cr -> good_vnode (node_key n) cr) /\
    match r with
    | None => exists cr, ocr = Some cr /\ status_of n cr /\
        tenant_of (nd_Meta cr) = vn_TenantRef n /\
        nd_Spec cr = match object HostClient KVNode (node_key n) w0 with
                     | Some old => nd_Spec old
                     | None => nd_Spec (newVNodeCR n)
                     end
    | Some e => is_context_error e = false
    end.

Lemma new_good n cr :
  created KVNode (newVNodeCR n) cr -> good_vnode (node_key n) cr.
Proof.
  intros ((E1 & E2 & E3 & E4 & E5) & E6 & Hs & _). simpl in *.
  unfold good_vnode, key_of; simpl. rewrite E1, E2, E3, E5, E6, Hs. simpl.
  by rewrite lookup_singleton_eq.
Qed.

Lemma same_vnode_tenant cr cr' :
  same_vnode cr cr' -> tenant_of (nd_Meta cr') = tenant_of (nd_Meta cr).
Proof. intros [(_ & _ & _ & E & _) _]. unfold tenant_of. by rewrite E. Qed.

Lemma updateStatus_saves n cr0 w0 w m0 :
  good_vnode (node_key n) cr0 -> tenant_of (nd_Meta cr0) = vn_TenantRef n ->
  nd_Spec cr0 = match object HostClient KVNode (node_key n) w0 with
                | Some old => nd_Spec old
                | None => nd_Spec (newVNodeCR n)
                end ->
  updating (node_key n) cr0 w0 w m0 m0 ->
  wp K (updateStatus n) w m0 (fun o w' m' => exists r, o = Done r /\ m' = m0 /\
    save_result n w0 r w').
Proof.
  intros Hg Ht Hs Hu. eapply wp_mono; [|eapply updateStatus_spec; [apply Hg|apply Hu]].
  intros o w' m' (r & cr & -> & -> & -> & Hsame & Hst). exists r. split_and!; try done.
  exists (Some cr). split_and!; [done|intros ? [= <-]; by eapply same_vnode_good|].
  destruct r as [e|]; [done|]. exists cr. split_and!; auto.
  - by rewrite (same_vnode_tenant _ _ Hsame).
  - rewrite <- Hs. apply Hsame.
Qed.

Lemma save_unchanged n w0 e :
  good_world w0 -> is_context_error e = false -> save_result n w0 (Some e) w0.
Proof.
  intros Hw He. exists (object HostClient KVNode (node_key n) w0). split_and!; try done.
  - by rewrite vput_id.
  - intros cr Hcr. by apply Hw.
Qed.

(** The VNode does not exist yet. *)
Lemma save_create n w0 m0 :
  good_world w0 -> object HostClient KVNode (node_key n) w0 = None ->
  wp K (bind (call (Create HostClient KVNode (newVNodeCR n))) (fun c =>
    match c with
    | Err createErr => Ret (Some (ErrWrap "creating VNode CR: " createErr))
    | Ok cr =>
        bind (applyNodeStatus cr n) (fun cr' =>
        bind (call (StatusUpdate HostClient KVNode cr')) (fun u =>
          match u with
          | Err e' => if IsConflict e' || IsNotFound e' then updateStatus n else Ret (Some e')
          | Ok _ => Ret None
          end))
    end)) w0 m0 (fun o w' m' => exists r, o = Done r /\ m' = m0 /\ save_result n w0 r w').
Proof.
  intros Hw Hnone. assert (key_of KVNode (newVNodeCR n) = node_key n) as Hkn by done.
  apply wp_bind. unfold call; simpl. split; [done|]. intros [cr|e] w1.
  - intros (_ & Hcr & ->). rewrite Hkn. pose proof (new_good n cr Hcr) as Hg.
    destruct Hcr as (Hd & _ & Hspec & _).
    assert (tenant_of (nd_Meta cr) = vn_TenantRef n) as Ht.
    { rewrite <- new_tenant. unfold tenant_of.
      destruct Hd as (_ & _ & _ & E & _). simpl in E |- *. by rewrite E. }
    assert (same_vnode cr cr) as Hrefl by done.
    apply wp_bind, applyNodeStatus_spec. intros cr' Hm Hs Hst. simpl. split; [done|].
    intros u w2 Hpost.
    assert (key_of KVNode cr' = node_key n) as Hk'.
    { destruct Hg as [<- _]. unfold key_of; simpl. by rewrite Hm. }
    destruct (status_write _ _ _ _ _ _ _ Hrefl Hk' Hm Hs Hpost) as (cr2 & -> & Hsv & Hres).
    destruct u as [o'|e'].
    + exists None. split_and!; try done. exists (Some cr2).
      split_and!; [done|intros ? [= <-]; by eapply same_vnode_good|].
      exists cr2. split_and!; [done|unfold status_of; by rewrite Hres|
        by rewrite (same_vnode_tenant _ _ Hsv)|rewrite Hnone, <- Hspec; apply Hsv].
    + destruct (_ || _); simpl.
      * apply (updateStatus_saves n cr); [done..|by rewrite Hnone|]. split; eauto.
      * exists (Some e'). split_and!; try done. exists (Some cr2).
        split_and!; [done|intros ? [= <-]; by eapply same_vnode_good|done].
  - intros [(r & _ & [_ [? Hex]] & _)|[Hf [->|(o' & _ & Hcr & ->)]]].
    + rewrite Hkn in Hex. congruence.
    + eexists. split_and!; [done..|]. apply save_unchanged; [done|].
      rewrite is_context_error_wrap. by apply calm.
    + rewrite Hkn. eexists. split_and!; [done..|]. exists (Some o').
      split_and!; [done|intros ? [= <-]; by apply new_good|].
      rewrite is_context_error_wrap. by apply calm.
Qed.

Lemma Save_spec n w0 m0 :
  good_world w0 ->
  wp K (Save n) w0 m0 (fun o w' m' => exists r, o = Done r /\ m' = m0 /\ save_result n w0 r w').
Proof.
  intros Hw. unfold Save. apply wp_bind. unfold call at 1; simpl. split; [done|].
  change (vn_Namespace n, vn_Name n) with (node_key n).
  intros [cr|e] w1 [-> Hr].
  - destruct Hr as (Hobj & Hk & _). pose proof (Hw _ _ Hobj) as Hg.
    apply wp_bind. eapply wp_mono; [|apply (annotate_spec n cr w0 m0 Hk ltac:(apply Hg))].
    2:{ split; [done|]. exists cr. split; [by rewrite <- Hobj, vput_id|done]. }
    intros o w1 m1 (r & cr1 & -> & -> & -> & Hsame & Hr).
    pose proof (same_but_annotations_good _ _ _ Hsame Hg) as Hg1.
    destruct r as [e|]; simpl.
    + change (isIgnorableClientError e) with (is_context_error e). rewrite Hr. simpl.
      exists (Some e). split_and!; try done. exists (Some cr1).
      split_and!; [done|by intros ? [= <-]|done].
    + apply (updateStatus_saves n cr1); [done..| |split; [done|by exists cr1]].
      rewrite Hobj. apply Hsame.
  - rewrite IgnoreNotFound_law, IsNotFound_reason. case_bool_decide as Hnf.
    + apply save_create; [done|]. destruct Hr as [[_ ?]|Hf]; [done|].
      by destruct (calm e Hf).
    + simpl. exists (Some e). split_and!; try done. apply save_unchanged; [done|].
      destruct Hr as [[? _]|Hf]; [done|]. by apply calm.
Qed.

(** *** The view *)

Lemma node_view_put x ocr w y :
  node_view (vput x ocr w) !! y =
  if decide (y = x) then crToNode <$> ocr else node_view w !! y.
Proof.
  rewrite !node_view_lookup. case_decide as Hyx; subst.
  - by rewrite object_put.
  - by rewrite object_put_ne by done.
Qed.

Lemma good_put_opt x ocr w :
  good_world w -> (forall cr, ocr = Some cr -> good_vnode x cr) -> good_world (vput x ocr w).
Proof.
  intros Hw Ho. destruct ocr as [cr|]; [|by apply good_remove]. apply good_put; auto.
Qed.

Lemma resourcesFromCR_id cap :
  resourcesFromCR (mkNodeResources (rl_CPU cap) (rl_Memory cap) (rl_Pods cap)) = cap.
Proof. by destruct cap. Qed.

(** A saved custom resource reads back as the node that was saved. *)
Lemma saved_read_back n cr old :
  good_vnode (node_key n) cr -> status_of n cr -> tenant_of (nd_Meta cr) = vn_TenantRef n ->
  nd_Spec cr = match old with Some o => nd_Spec o | None => nd_Spec (newVNodeCR n) end ->
  saved (crToNode <$> old) n (crToNode cr).
Proof.
  intros (Hk & _) [Hp Hc] Ht Hs. unfold saved. split_and!; try done.
  destruct old as [o|]; simpl; rewrite Hs; simpl; [done|]. split; [done|].
  apply resourcesFromCR_id.
Qed.

Lemma Save_meets n w m :
  good_world w ->
  wp K (Save n) w m (fun o w' m' => exists r, o = Done r /\ m' = m /\ good_world w' /\
    (forall x, x <> node_key n -> node_view w' !! x = node_view w !! x) /\
    match r with
    | None => exists n', node_view w' !! node_key n = Some n' /\
                saved (node_view w !! node_key n) n n'
    | Some e => is_context_error e = false
    end).
Proof.
  intros Hw. eapply wp_mono; [|by apply Save_spec].
  intros o w' m' (r & -> & -> & ocr & -> & Hg & Hr). exists r. split_and!; try done.
  - by apply good_put_opt.
  - intros x Hx. rewrite node_view_put. by rewrite decide_False.
  - destruct r as [e|]; [done|]. destruct Hr as (cr & -> & Hst & Ht & Hs).
    exists (crToNode cr). rewrite node_view_put, decide_True, node_view_lookup by done.
    split; [done|]. apply saved_read_back; auto.
Qed.

Lemma Delete_meets ns name w m :
  good_world w ->
  wp K (DeleteNode ns name) w m (fun o w' m' => exists r, o = Done r /\ m' = m /\ good_world w' /\
    (forall x, x <> (ns, name) -> node_view w' !! x = node_view w !! x) /\
    (r = None -> node_view w' !! (ns, name) = None)).
Proof.
  intros Hw. unfold DeleteNode, call; simpl. split; [done|].
  assert (forall w', delete_applied HostClient KVNode (ns, name) w w' ->
            w' = vput (ns, name) None w) as Hdel.
  { intros w' (old & Hold & [[_ ->]|[Hdef _]]); [done|].
    destruct (Hw _ _ Hold) as (_ & _ & Hf & _). by destruct (Hdef Hf). }
  assert (forall (r : option error) w', w' = w \/ w' = vput (ns, name) None w ->
    (r = None -> w' = vput (ns, name) None w) ->
    exists r', Done r = Done r' /\ m = m /\ good_world w' /\
      (forall x, x <> (ns, name) -> node_view w' !! x = node_view w !! x) /\
      (r' = None -> node_view w' !! (ns, name) = None)) as Hend.
  { intros r w' Hw' Hr. exists r. split_and!; try done.
    - destruct Hw' as [->| ->]; [done|]. by apply good_remove.
    - intros x Hx. destruct Hw' as [->| ->]; [done|]. by rewrite node_view_put, decide_False.
    - intros ->. rewrite (Hr eq_refl), node_view_put. by rewrite decide_True. }
  intros [e|] w'; simpl.
  - intros [(s & _ & _ & ->)|[_ [->|Happ]]]; (apply Hend; [|done]); auto.
  - intros Happ. apply Hend; auto.
Qed.

(** The label selector picks the VNodes of the pool. *)
Lemma selected_members ns pool x cr :
  ns <> "" -> good_vnode x cr ->
  selected KVNode ns {[ labelPool := pool ]} (x, cr) <-> in_pool ns pool (x, crToNode cr).
Proof.
  intros Hns (_ & Hl & _). unfold selected, in_pool; simpl.
  rewrite map_singleton_subseteq_l. rewrite Hl. naive_solver.
Qed.

Lemma listing_members ns pool w :
  good_world w -> ns <> "" ->
  map crToNode (listing HostClient KVNode ns {[ labelPool := pool ]} w)
  ≡ₚ (map_to_list (members ns pool (node_view w))).*2.
Proof.
  intros Hw Hns. unfold listing, members, node_view. simpl.
  change (map crToNode) with (fmap crToNode : list VNodeCR -> list VNode).
  rewrite map_to_list_filter_perm.
  rewrite map_filter_fmap, map_to_list_fmap, <- !list_fmap_compose.
  assert (base.filter (selected KVNode ns {[labelPool := pool]}) (c_vnodes (w_host w)) =
          base.filter (fun '(k, x) => in_pool ns pool (k, crToNode x)) (c_vnodes (w_host w))) as ->.
  { apply map_filter_ext. intros x cr Hx. apply selected_members; [done|].
    by apply Hw. }
  apply reflexive_eq, list_fmap_ext. by intros ? [].
Qed.

Lemma List_meets ns pool w m :
  good_world w -> ns <> "" ->
  wp K (ListByPool ns pool) w m (fun o w' m' => exists r, o = Done r /\ m' = m /\ w' = w /\
    match r with
    | Ok l => l ≡ₚ (map_to_list (members ns pool (node_view w))).*2
    | Err _ => True
    end).
Proof.
  intros Hw Hns. unfold ListByPool. apply wp_bind. unfold call; simpl. split; [done|].
  intros [l|e] w' [-> Hl]; simpl.
  - exists (Ok (map crToNode l)). split_and!; try done. rewrite <- listing_members by done.
    by rewrite Hl.
  - by exists (Err e).
Qed.

#[export] Instance KubeNodeRepository_store :
  NodeStore K KubeNodeRepository good_world node_view.
Proof.
  split.
  - intros w x n Hw Hx. rewrite node_view_lookup in Hx.
    destruct (object HostClient KVNode x w) as [cr|] eqn:Hcr; [|done].
    injection Hx as <-. by destruct (Hw _ _ Hcr) as [? _].
  - intros. by apply Save_meets.
  - intros. by apply Delete_meets.
  - intros. by apply List_meets.
Qed.

End KubeNodeStore.
