(* ===== verification/Tenants.v ===== *)
(** The contract between the services and the registrar of nodes, and the proof
    that the registrar of registrar.go meets it: registration happens in tenant
    clusters and leaves the host cluster as it is. *)

From S2P Require Import Prelude GoProg Model Kube ApiServer Ports PodClient NodeRepo Registrar.
From S2P Require Import NodeStore.

(** ** The contract *)

(** A call that ends, keeps [inv] and [view], and does not fail because of a
    stopped context. *)
Definition calm_end {S} (inv : S -> Prop) (view : S -> gmap key VNode) (s : S)
    (o : outcome (option error)) (s' : S) : Prop :=
  exists r, o = Done r /\ inv s' /\ view s' = view s /\
    match r with Some e => is_context_error e = false | None => True end.

(** [fits n] says that the node can be described to a cluster: its quantities
    parse. *)
Class TenantSide {S} (sp : spec api S) (reg : NodeRegistrar) (fits : VNode -> Prop)
    (inv : S -> Prop) (view : S -> gmap key VNode) : Prop := {
  register_contract n t s m : inv s -> fits n ->
    wp sp (Register reg n t) s m (fun o s' _ => calm_end inv view s o s');
  deregister_contract n t s m : inv s ->
    wp sp (Deregister reg n t) s m (fun o s' _ => calm_end inv view s o s');
  status_contract n t s m : inv s -> fits n ->
    wp sp (UpdateNodeStatus reg n t) s m (fun o s' _ => calm_end inv view s o s')
}.

(** ** Calls that leave the host cluster alone *)

Definition host_quiet {R} (c : api R) : Prop :=
  match c with
  | Create c _ _ | Update c _ _ | StatusUpdate c _ _ | StatusPatch c _ _ _ | Delete c _ _ _ =>
      match c with Tenant _ => True | _ => False end
  | _ => True
  end.

(** The error of a reply. *)
Definition reply_err {R} (c : api R) : R -> option error :=
  match c in api R return R -> option error with
  | Get _ _ _ _ => res_err
  | List _ _ _ _ => res_err
  | Create _ _ _ => res_err
  | Update _ _ _ => res_err
  | StatusUpdate _ _ _ => res_err
  | StatusPatch _ _ _ _ => fun e => e
  | Delete _ _ _ _ => fun e => e
  | NewClientset _ => res_err
  | Now => fun _ => None
  | CounterAdd _ _ _ => fun _ => None
  | Eventf _ _ _ _ => fun _ => None
  end.

Section Tenants.
Context `{L : KubeLibs} {LL : KubeLibsLaws}.
Variable faults : error -> Prop.
Hypothesis calm : forall e, faults e -> is_context_error e = false /\
  status_reason e <> Some ReasonNotFound.

Abbreviation K := (kube_spec faults).

Lemma put_tenant_host {T} cs (k : kind T) x o w : w_host (put (Tenant cs) k x o w) = w_host w.
Proof. done. Qed.

Lemma write_error_host refused applied w e w' :
  write_error faults refused applied w e w' -> (forall w', applied w' -> w_host w' = w_host w) ->
  w_host w' = w_host w.
Proof. intros [(r & _ & _ & ->)|[_ [->|Ha]]] Happ; auto. Qed.

Lemma create_host {T} cs (k : kind T) o w o' w' :
  create_applied (Tenant cs) k o w o' w' -> w_host w' = w_host w.
Proof. by intros (_ & _ & ->). Qed.

Lemma write_host {T} rel cs (k : kind T) o w o' w' :
  write_applied rel (Tenant cs) k o w o' w' -> w_host w' = w_host w.
Proof. by intros (old & _ & _ & ->). Qed.

Lemma update_host {T} cs (k : kind T) o w o' w' :
  update_applied (Tenant cs) k o w o' w' -> w_host w' = w_host w.
Proof. by intros (old & _ & _ & ->). Qed.

Lemma delete_host {T} cs (k : kind T) x w w' :
  delete_applied (Tenant cs) k x w w' -> w_host w' = w_host w.
Proof. by intros (old & _ & [[_ ->]|(_ & o' & _ & ->)]). Qed.

Lemma host_quiet_post {R} (c : api R) w r w' :
  host_quiet c -> kube_post faults R c w r w' -> w_host w' = w_host w.
Proof.
  destruct c; simpl; try (by intros _ [-> _]); try (by intros _ ->);
    destruct c; try done; intros _; destruct r; intros H;
    first [eapply write_error_host; [exact H|]; intros ? Ha|rename H into Ha];
    first [eapply create_host; apply Ha|eapply write_host; apply Ha
          |eapply update_host; apply Ha|eapply delete_host; apply Ha
          |destruct Ha as [? Ha]; first [eapply create_host; exact Ha
             |eapply write_host; exact Ha|eapply update_host; exact Ha]].
Qed.

Lemma write_error_calm refused applied w e w' :
  write_error faults refused applied w e w' -> is_context_error e = false.
Proof. intros [(r & He & _)|[Hf _]]; [by eapply status_not_context|by apply calm]. Qed.

Lemma reply_calm {R} (c : api R) w r w' e :
  kube_post faults R c w r w' -> reply_err c r = Some e -> is_context_error e = false.
Proof.
  destruct c; simpl; try (destruct r; simpl; try done; intros H [= <-]);
    try done; try (by eapply write_error_calm); try (intros H ->; by eapply write_error_calm).
  - destruct H as [_ [[He _]|Hf]]; [by eapply status_not_context|by apply calm].
  - destruct H as [_ Hf]. by apply calm.
  - destruct H as [_ Hf]. by apply calm.
Qed.

(** A call of the registrar. *)
Lemma wp_quiet {R A} (c : api R) (k : R -> go A) w m Q :
  host_quiet c ->
  (forall r w', w_host w' = w_host w ->
     (forall e, reply_err c r = Some e -> is_context_error e = false) -> wp K (k r) w' m Q) ->
  wp K (bind (call c) k) w m Q.
Proof.
  intros Hq Hk. simpl. split; [done|]. intros r w' Hpost.
  apply Hk; [by eapply host_quiet_post|]. intros e. by eapply reply_calm.
Qed.

(** A parse that succeeds. *)
Lemma wp_must {A B} (a : A) (k : A -> go B) w m Q :
  wp K (k a) w m Q -> wp K (bind (must (Some a)) k) w m Q.
Proof. done. Qed.

(** How each step of the registrar ends. *)
Definition quiet_end (w : world) (o : outcome (option error)) (w' : world) : Prop :=
  exists r, o = Done r /\ w_host w' = w_host w /\
    match r with Some e => is_context_error e = false | None => True end.

Lemma quiet_none w w' : w_host w' = w_host w -> quiet_end w (Done None) w'.
Proof. intros H. by exists None. Qed.
Lemma quiet_some w w' e :
  w_host w' = w_host w -> is_context_error e = false -> quiet_end w (Done (Some e)) w'.
Proof. intros H He. by exists (Some e). Qed.
Lemma quiet_wrap w w' p e :
  w_host w' = w_host w -> is_context_error e = false -> quiet_end w (Done (Some (ErrWrap p e))) w'.
Proof. intros H He. apply quiet_some; [done|]. by rewrite is_context_error_wrap. Qed.
Lemma quiet_res {T} w w' (r : res T) :
  w_host w' = w_host w -> (forall e, res_err r = Some e -> is_context_error e = false) ->
  quiet_end w (Done (res_err r)) w'.
Proof. intros H He. exists (res_err r). split_and!; auto. destruct (res_err r); auto. Qed.
Lemma quiet_trans w w1 o w' : w_host w1 = w_host w -> quiet_end w1 o w' -> quiet_end w o w'.
Proof. intros H (r & -> & H' & Hr). exists r. split_and!; [done|congruence|done]. Qed.

(** The end of a step after a reply [r]. *)
Ltac quiet_close :=
  simpl; first [apply quiet_none; congruence
               |apply quiet_wrap; [congruence|by auto]
               |apply quiet_some; [congruence|by auto]].

Lemma ensureLeaseNamespace_quiet cs w m :
  wp K (ensureLeaseNamespace cs) w m (fun o w' _ => quiet_end w o w').
Proof.
  unfold ensureLeaseNamespace. apply wp_quiet; [done|]. intros [o|e] w1 H1 He; [quiet_close|].
  destruct (IsNotFound e); [|quiet_close]. apply wp_quiet; [done|].
  intros [o|e'] w2 H2 He'; [quiet_close|]. destruct (IsAlreadyExists e'); quiet_close.
Qed.

Lemma upsertLease_quiet cs name w m :
  wp K (upsertLease cs name) w m (fun o w' _ => quiet_end w o w').
Proof.
  unfold upsertLease. apply wp_quiet; [done|]. intros t w0 H0 _.
  apply wp_quiet; [done|]. intros [o|e] w1 H1 He.
  - apply wp_quiet; [done|]. intros [o'|e'] w2 H2 He'; quiet_close.
  - destruct (IsNotFound e); [|quiet_close]. apply wp_quiet; [done|].
    intros [o'|e'] w2 H2 He'; quiet_close.
Qed.

Lemma upsertNode_quiet cs n w m :
  wp K (upsertNode cs n) w m (fun o w' _ => quiet_end w o w').
Proof.
  unfold upsertNode. apply wp_quiet; [done|]. intros [o|e] w1 H1 He.
  - apply wp_quiet; [done|]. intros [o'|e'] w2 H2 He'; quiet_close.
  - destruct (IsNotFound e); [|quiet_close]. apply wp_quiet; [done|].
    intros [o'|e'] w2 H2 He'; quiet_close.
Qed.

(** The quantities of the node parse. *)
Definition resources_fit (n : VNode) : Prop :=
  is_Some (buildResources (vn_Capacity n)) /\ is_Some (buildResources (vn_Allocatable n)).

Lemma node_status_quiet cs n w m :
  resources_fit n ->
  wp K (RetryOnConflict (node_status_attempt cs n)) w m (fun o w' _ => quiet_end w o w').
Proof.
  intros [[cap Hcap] [alloc Halloc]].
  apply (wp_retry _ (fun w' _ => w_host w' = w_host w)); [|done].
  intros w1 m1 H1. unfold node_status_attempt. rewrite Hcap, Halloc.
  apply wp_quiet; [done|]. intros [o|e] w2 H2 He.
  - apply wp_must, wp_must. apply wp_quiet; [done|]. intros t w3 H3 _.
    apply wp_quiet; [done|]. intros r w4 H4 Hr. simpl.
    pose proof (quiet_res w w4 r ltac:(congruence) Hr).
    destruct (res_err r); [split; [congruence|done]|done].
  - simpl. split; [congruence|]. quiet_close.
Qed.

(** *** Clients *)

(** A resolver that reads the host cluster only. *)
Definition quiet_resolver (resolver : KubeconfigResolver) : Prop :=
  forall ns name w m, wp K (Resolve resolver ns name) w m (fun o w' _ =>
    exists r, o = Done r /\ w_host w' = w_host w /\
      match r with Err e => is_context_error e = false | Ok _ => True end).

Lemma SecretKubeconfigResolver_quiet : quiet_resolver SecretKubeconfigResolver.
Proof.
  intros ns name w m. unfold SecretKubeconfigResolver; cbn [Resolve].
  unfold ResolveSecret. apply wp_quiet; [done|].
  intros [o|e] w1 H1 He.
  - destruct (kubeconfig_data _ _); simpl; eexists; split_and!; done.
  - simpl. eexists; split_and!; [done..|]; simpl. rewrite is_context_error_wrap. auto.
Qed.

Variable resolver : KubeconfigResolver.
Hypothesis Hres : quiet_resolver resolver.

Lemma GetClient_quiet t w m :
  wp K (GetClient resolver t) w m (fun o w' _ => exists r, o = Done r /\ w_host w' = w_host w /\
    match r with Err e => is_context_error e = false | Ok _ => True end).
Proof.
  unfold GetClient. apply wp_bind. simpl. destruct (m !! cacheKey t) as [cs|]; simpl.
  { by exists (Ok cs). }
  apply wp_bind. eapply wp_mono; [|apply Hres]. intros o w1 m1 (r & -> & H1 & Hr).
  destruct r as [kc|e]; simpl.
  2:{ eexists; split_and!; [done..|]; simpl. by rewrite is_context_error_wrap. }
  destruct (RESTConfigFromKubeConfig kc) as [cfg|e] eqn:Hcfg; simpl.
  2:{ eexists; split_and!; [done..|]; simpl. rewrite is_context_error_wrap.
      by eapply RESTConfig_no_context. }
  split; [done|]. intros [cs|e] w2 [-> Hf]; simpl.
  - eexists; split_and!; done.
  - eexists; split_and!; [done..|]; simpl. rewrite is_context_error_wrap. by apply calm.
Qed.

Lemma with_client t (k : Clientset -> go (option error)) w m :
  (forall cs w' m', w_host w' = w_host w -> wp K (k cs) w' m' (fun o w' _ => quiet_end w o w')) ->
  wp K (bind (GetClient resolver t) (fun c =>
          match c with Err e => Ret (Some e) | Ok cs => k cs end)) w m
    (fun o w' _ => quiet_end w o w').
Proof.
  intros Hk. apply wp_bind. eapply wp_mono; [|apply GetClient_quiet].
  intros o w1 m1 (r & -> & H1 & Hr). destruct r as [cs|e]; [by apply Hk|].
  by apply quiet_some.
Qed.

(** [if err := p; err != nil { return f(err) }; k]. *)
Lemma then_quiet (p k : go (option error)) (f : error -> error) w0 w m :
  wp K p w m (fun o w' _ => quiet_end w o w') -> w_host w = w_host w0 ->
  (forall e, is_context_error e = false -> is_context_error (f e) = false) ->
  (forall w' m', w_host w' = w_host w0 -> wp K k w' m' (fun o w' _ => quiet_end w0 o w')) ->
  wp K (bind p (fun r => match r with Some e => Ret (Some (f e)) | None => k end)) w m
    (fun o w' _ => quiet_end w0 o w').
Proof.
  intros Hp H0 Hf Hk. apply wp_bind. eapply wp_mono; [|exact Hp].
  intros o w1 m1 (r & -> & H1 & Hr). destruct r as [e|].
  - apply quiet_some; [congruence|auto].
  - apply Hk. congruence.
Qed.

Lemma quiet_from (p : go (option error)) w0 w m :
  wp K p w m (fun o w' _ => quiet_end w o w') -> w_host w = w_host w0 ->
  wp K p w m (fun o w' _ => quiet_end w0 o w').
Proof. intros Hp H0. eapply wp_mono; [|exact Hp]. intros o w' m'. by apply quiet_trans. Qed.

Lemma UpdateNodeStatus_quiet n t w m :
  resources_fit n ->
  wp K (registrar_UpdateNodeStatus resolver n t) w m (fun o w' _ => quiet_end w o w').
Proof.
  intros Hn. unfold registrar_UpdateNodeStatus. case_bool_decide; [by apply quiet_none|].
  apply with_client. intros cs w1 m1 H1.
  apply (then_quiet _ _ (fun e => ErrWrap _ e)); [by apply node_status_quiet|done| |].
  - intros e He. by rewrite is_context_error_wrap.
  - intros w2 m2 H2. by apply quiet_from; [apply upsertLease_quiet|].
Qed.

Lemma Register_quiet n t w m :
  resources_fit n ->
  wp K (registrar_Register resolver n t) w m (fun o w' _ => quiet_end w o w').
Proof.
  intros Hn. unfold registrar_Register. apply with_client. intros cs w1 m1 H1.
  apply (then_quiet _ _ (fun e => e)); [apply ensureLeaseNamespace_quiet|done|done|].
  intros w2 m2 H2.
  apply (then_quiet _ _ (fun e => e)); [apply upsertNode_quiet|done|done|].
  intros w3 m3 H3. by apply quiet_from; [apply UpdateNodeStatus_quiet|].
Qed.

Lemma Deregister_quiet n t w m :
  wp K (registrar_Deregister resolver n t) w m (fun o w' _ => quiet_end w o w').
Proof.
  unfold registrar_Deregister. case_bool_decide; [by apply quiet_none|].
  apply with_client. intros cs w1 m1 H1.
  apply wp_quiet; [done|]. intros l w2 H2 Hl.
  assert (forall w3 (m3 : mem), w_host w3 = w_host w ->
    wp K (bind (call (Delete (Tenant cs) KNode "" (vn_Name n))) (fun r =>
            match unless_not_found r return go (option error) with
            | Some e => Ret (Some (ErrWrap ("deleting tenant node " +:+ vn_Name n +:+ ": ") e))
            | None => Ret None
            end)) w3 m3 (fun o w' _ => quiet_end w o w')) as Hnode.
  { intros w3 m3 H3. apply wp_quiet; [done|]. intros [e|] w4 H4 He; cbn [unless_not_found];
      [destruct (IsNotFound e)|]; quiet_close. }
  destruct l as [e|]; cbn [unless_not_found]; [destruct (IsNotFound e)|];
    first [apply Hnode; congruence|quiet_close].
Qed.

(** The registrar meets its contract, for any invariant and view of the host
    cluster. *)
Lemma TenantRegistrar_side (inv : world -> Prop) (view : world -> gmap key VNode) :
  (forall w w', w_host w' = w_host w -> inv w -> inv w' /\ view w' = view w) ->
  TenantSide K (TenantRegistrar resolver) resources_fit inv view.
Proof.
  intros Hfr.
  assert (forall w o w', inv w -> quiet_end w o w' -> calm_end inv view w o w') as Hq.
  { intros w o w' Hw (r & -> & H1 & Hr). destruct (Hfr _ _ H1 Hw). by exists r. }
  split; intros; (eapply wp_mono; [|by (apply Register_quiet || apply Deregister_quiet ||
    apply UpdateNodeStatus_quiet)]); intros; by apply Hq.
Qed.

#[export] Instance TenantRegistrar_nodes :
  TenantSide K (TenantRegistrar resolver) resources_fit good_world node_view.
Proof.
  apply TenantRegistrar_side. intros w w' H Hw. unfold good_world, node_view, object in *.
  simpl in *. by rewrite H.
Qed.

End Tenants.
