(* ===== verification/Registration.v ===== *)
(** What registration leaves in the tenant cluster, and the cache of tenant
    clients (registrar.go). *)

From S2P Require Import Prelude GoProg Model Kube Libs ApiServer Testbed Ports PodClient.
From S2P Require Import NodeRepo Registrar.

(** ** The cache *)

Section Cache.
Context `{L : KubeLibs}.

Lemma ResolveSecret_ends {S} (sp : spec api S) ns name s m :
  (forall R (c : api R) s, pre sp c s) ->
  wp sp (ResolveSecret ns name) s m (fun o _ m' => m' = m /\ exists r, o = Done r).
Proof.
  intros Hpre. unfold ResolveSecret. apply wp_bind. unfold call. cbn [wp]. split; [done|].
  intros [o|e] s' _; [destruct (kubeconfig_data _ _)|]; simpl; eauto.
Qed.

(** What a lookup leaves in the cache. *)
Definition cached (t : TenantRef) (m : mem) (o : outcome (res Clientset)) (m' : mem) : Prop :=
  exists r, o = Done r /\ (forall k, k <> cacheKey t -> m' !! k = m !! k) /\
    m' !! cacheKey t = match r with Ok cs => Some cs | Err _ => None end.

Lemma GetClient_caches {S} (sp : spec api S) t s m :
  (forall R (c : api R) s, pre sp c s) ->
  wp sp (GetClient SecretKubeconfigResolver t) s m (fun o _ m' => cached t m o m').
Proof.
  intros Hpre. unfold GetClient, cached. apply wp_bind. cbn [cache_lookup atomic wp fst snd].
  destruct (m !! cacheKey t) as [cs|] eqn:Hm; [by exists (Ok cs)|].
  apply wp_bind. eapply wp_mono; [|by apply ResolveSecret_ends].
  intros o s1 m' [-> [r ->]]. pose proof (delete_id m (cacheKey t) Hm) as Hd.
  destruct r as [kc|e]; [destruct (RESTConfigFromKubeConfig kc) as [cfg|e]|]; simpl;
    try (rewrite Hd; by eexists).
  split; [done|]. intros [cs|e] s2 _; simpl; [|rewrite Hd; by eexists].
  eexists. split_and!; [done| |by rewrite lookup_insert_eq].
  intros k Hk. by rewrite lookup_insert_ne.
Qed.

Lemma GetClient_hit t m cs {S} (sp : spec api S) resolver s Q :
  m !! cacheKey t = Some cs -> Q (Done (Ok cs)) s m -> wp sp (GetClient resolver t) s m Q.
Proof. intros Hm HQ. unfold GetClient. apply wp_bind. simpl. by rewrite Hm. Qed.

(** C29: In any environment, a lookup ends with the client of the tenant cached when
    it succeeds and nothing cached for it when it fails, and never touches the
    entry of another key; and once a client is cached, a lookup makes no call
    at all. *)
Theorem GetClient_cache t m :
  wp chaos (GetClient SecretKubeconfigResolver t) tt m (fun o _ m' => cached t m o m') /\
  (forall cs, m !! cacheKey t = Some cs ->
     forall S (sp : spec api S) resolver s (Q : outcome (res Clientset) -> S -> mem -> Prop),
     Q (Done (Ok cs)) s m -> wp sp (GetClient resolver t) s m Q).
Proof. split; [by apply GetClient_caches|]. intros. by eapply GetClient_hit. Qed.

End Cache.

(** Two tenants share a cached client only if they name the same kubeconfig
    secret (namespaces of a cluster have no slash). *)
Theorem cacheKey_inj t1 t2 :
  no_char "/"%char (tr_VClusterNamespace t1) = true ->
  no_char "/"%char (tr_VClusterNamespace t2) = true ->
  cacheKey t1 = cacheKey t2 ->
  tr_VClusterNamespace t1 = tr_VClusterNamespace t2 /\
  tr_KubeconfigSecret t1 = tr_KubeconfigSecret t2.
Proof. unfold cacheKey. apply (sep_inj "/"%char). Qed.

Lemma cacheKey_inj_witness :
  tr_VClusterNamespace (mkTenantRef "a" "ns" "kc") = tr_VClusterNamespace (mkTenantRef "b" "ns" "kc") /\
  tr_KubeconfigSecret (mkTenantRef "a" "ns" "kc") = tr_KubeconfigSecret (mkTenantRef "b" "ns" "kc").
Proof.
  apply (cacheKey_inj (mkTenantRef "a" "ns" "kc") (mkTenantRef "b" "ns" "kc")); reflexivity.
Defined.

(** The kubeconfig of a secret is the first of the three recognised keys that
    holds a value. *)
Theorem kubeconfig_data_first keys data d :
  kubeconfig_data keys data = Some d <->
  exists before k after, keys = before ++ k :: after /\ data !! k = Some d /\ d <> "" /\
    forall k', k' ∈ before -> map_get data k' = "".
Proof.
  unfold map_get. induction keys as [|k keys IH]; simpl.
  { split; [done|]. by intros ([] & ? & ? & [=] & _). }
  assert (map_get data k = "" ->
    (kubeconfig_data keys data = Some d <-> exists before k' after, k :: keys = before ++ k' :: after /\
       data !! k' = Some d /\ d <> "" /\ forall k'', k'' ∈ before -> default "" (data !! k'') = "")) as Hskip.
  { intros Hk. rewrite IH. split.
    - intros (b & k' & a & -> & H1 & H2 & H3). exists (k :: b), k', a. split_and!; try done.
      intros k'' [->|]%elem_of_cons; auto.
    - intros ([|k0 b] & k' & a & [= -> E] & H1 & H2 & H3).
      + unfold map_get in Hk. rewrite H1 in Hk. done.
      + exists b, k', a. split_and!; try done. intros. apply H3. by right. }
  destruct (data !! k) as [d'|] eqn:Hk; [case_bool_decide as Hd|]; [|split|].
  - apply Hskip. unfold map_get. by rewrite Hk.
  - intros [= <-]. exists [], k, keys. split_and!; try done. by intros ? ?%elem_of_nil.
  - intros ([|k0 b] & k' & a & [= <- E] & H1 & H2 & H3); [congruence|].
    specialize (H3 k ltac:(by left)). by rewrite Hk in H3.
  - apply Hskip. unfold map_get. by rewrite Hk.
Qed.

(** ** Registration *)
Section Registration.
Context `{L : KubeLibs} {LL : KubeLibsLaws}.
Variable faults : error -> Prop.

Abbreviation K := (kube_spec faults).

(** The tenant cluster has a node that describes [n]. *)
Definition described (cs : Clientset) (n : VNode) (w : world) : Prop :=
  exists o, object (Tenant cs) KNode ("", vn_Name n) w = Some o /\
    key_of KNode o = ("", vn_Name n) /\
    om_Labels (cn_Meta o) = nodeLabels n /\ om_Annotations (cn_Meta o) = nodeAnnotations n /\
    cn_Taints o = mapNodeTaints (vn_Taints n).

(** And its status is that of [n]. *)
Definition reported (cs : Clientset) (n : VNode) (w : world) : Prop :=
  exists o cap alloc t, object (Tenant cs) KNode ("", vn_Name n) w = Some o /\
    om_Labels (cn_Meta o) = nodeLabels n /\ cn_Taints o = mapNodeTaints (vn_Taints n) /\
    buildResources (vn_Capacity n) = Some cap /\ buildResources (vn_Allocatable n) = Some alloc /\
    cns_Capacity (cn_Status o) = cap /\
    cns_Allocatable (cn_Status o) = (if bool_decide (alloc = ∅) then cap else alloc) /\
    cns_Conditions (cn_Status o) = buildNodeConditions t n.

(** The tenant cluster has a lease held by [n]. *)
Definition leased (cs : Clientset) (n : VNode) (w : world) : Prop :=
  exists l, object (Tenant cs) KLease (leaseNamespace, vn_Name n) w = Some l /\
    le_HolderIdentity l = Some (vn_Name n) /\ le_LeaseDurationSeconds l = Some 40%Z.

Lemma node_put_lease cs x y o w :
  object (Tenant cs) KNode x (put (Tenant cs) KLease y o w) = object (Tenant cs) KNode x w.
Proof. unfold object, put; simpl. by rewrite lookup_insert_eq. Qed.

Lemma reported_put_lease cs n y o w : reported cs n w -> reported cs n (put (Tenant cs) KLease y o w).
Proof. unfold reported. by setoid_rewrite node_put_lease. Qed.

(** An update that keeps finalizers does not remove the object it read. *)
Lemma updated_unfinished {T} (k : kind T) old o o' :
  updated k old o o' -> om_Finalizers (meta k o) = om_Finalizers (meta k old) ->
  finished k old = false -> finished k o' = false.
Proof.
  intros ((_ & _ & _ & _ & Hf) & (_ & _ & Hd) & _) E H.
  unfold finished in *. by rewrite Hf, Hd, E.
Qed.

Lemma upsertNode_describes cs n w m :
  wp K (upsertNode cs n) w m (fun o w' m' => o = Done None -> m' = m /\ described cs n w').
Proof.
  unfold upsertNode. apply wp_bind. unfold call at 1. cbn [wp]. split; [done|].
  intros [cur|e] w1 [-> Hr].
  - destruct Hr as (Hobj & Hk & Hf). apply wp_bind. unfold call. cbn [wp]. split; [done|].
    set (o1 := mkCoreNode _ _ _ _). assert (key_of KNode o1 = ("", vn_Name n)) as Hk1 by exact Hk.
    intros [o|e] w2; simpl; [|done]. intros (old & Hold & Hu & ->) _. split; [done|].
    rewrite Hk1 in *. rewrite Hobj in Hold. injection Hold as <-.
    rewrite (updated_unfinished _ _ _ _ Hu) by done.
    exists o. rewrite object_put. destruct Hu as ((E1 & E2 & E3 & E4 & _) & _ & Ht & _).
    split_and!; try done. unfold key_of in *. simpl in *. congruence.
  - destruct (IsNotFound e); [|done]. apply wp_bind. unfold call. cbn [wp]. split; [done|].
    intros [o|e'] w2; simpl; [|done]. intros (_ & Hc & ->) _. split; [done|].
    exists o. rewrite object_put. destruct Hc as ((E1 & E2 & E3 & E4 & _) & _ & Ht).
    split_and!; try done. unfold key_of in *. simpl in *. congruence.
Qed.

Lemma node_status_reports cs n w m :
  described cs n w ->
  wp K (RetryOnConflict (node_status_attempt cs n)) w m (fun o w' m' =>
    o = Done None -> m' = m /\ reported cs n w').
Proof.
  intros Hd. apply (wp_retry _ (fun w' m' => m' = m /\ described cs n w')); [|done].
  clear w Hd. intros w m1 [-> (o & Ho & Hk & Hl & Ha & Ht)]. unfold node_status_attempt.
  apply wp_bind. unfold call at 1. cbn [wp]. split; [done|].
  intros [cur|e] w1 [-> Hr]; [|split; [|done]; intros _; split; [done|by exists o]].
  destruct Hr as (Hobj & _). rewrite Ho in Hobj. injection Hobj as <-.
  destruct (buildResources (vn_Capacity n)) as [cap|] eqn:Hcap; [|done].
  destruct (buildResources (vn_Allocatable n)) as [alloc|] eqn:Halloc; [|done].
  cbn [must bind]. apply wp_bind. unfold now, call at 1. cbn [wp]. split; [done|].
  intros t w2 ->. apply wp_bind. unfold call. cbn [wp]. split; [done|].
  set (o1 := setNodeStatus _ _ _ _). assert (key_of KNode o1 = ("", vn_Name n)) as Hk1 by exact Hk.
  assert (forall o' w', write_applied (status_updated KNode) (Tenant cs) KNode o1 w o' w' ->
    described cs n w' /\ reported cs n w') as Happ.
  { intros o' w' (old & Hold & Hs & ->). rewrite Hk1 in *. rewrite Ho in Hold. injection Hold as <-.
    destruct Hs as ((E1 & E2 & E3 & E4 & _) & _ & Et & Es). split.
    - exists o'. rewrite object_put. unfold key_of in *. simpl in *.
      split_and!; try done; congruence.
    - exists o', cap, alloc, t. rewrite object_put, Es. unfold default_allocatable.
      simpl in *. split_and!; try done; try congruence; by case_bool_decide. }
  intros [o'|e] w3; simpl.
  - intros [_ Hrep]%Happ _. done.
  - intros Hw. split; [|done]. intros _. split; [done|].
    destruct Hw as [(r & _ & _ & ->)|[_ [->|(o' & [Hdesc _]%Happ)]]]; [by exists o..|done].
Qed.

Lemma upsertLease_leases cs n w m :
  reported cs n w ->
  wp K (upsertLease cs (vn_Name n)) w m (fun o w' m' =>
    o = Done None -> m' = m /\ reported cs n w' /\ leased cs n w').
Proof.
  intros Hrep. unfold upsertLease. apply wp_bind. unfold now, call at 1. cbn [wp].
  split; [done|]. intros t w1 ->. apply wp_bind. unfold call at 1. cbn [wp]. split; [done|].
  intros [cur|e] w1 [-> Hr].
  - destruct Hr as (Hobj & Hk & Hf). apply wp_bind. unfold call. cbn [wp]. split; [done|].
    set (l1 := mkCoreLease _ _ _ _ _).
    assert (key_of KLease l1 = (leaseNamespace, vn_Name n)) as Hk1 by exact Hk.
    intros [l|e] w2; simpl; [|done]. intros (old & Hold & Hu & ->) _. split; [done|].
    rewrite Hk1 in *. rewrite Hobj in Hold. injection Hold as <-.
    split; [by apply reported_put_lease|].
    rewrite (updated_unfinished _ _ _ _ Hu) by done.
    exists l. rewrite object_put. destruct Hu as (_ & _ & E1 & E2 & _). by rewrite E1, E2.
  - destruct (IsNotFound e); [|done]. apply wp_bind. unfold call. cbn [wp]. split; [done|].
    intros [l|e'] w2; simpl; [|done]. intros (_ & Hc & ->) _. split; [done|].
    split; [by apply reported_put_lease|].
    exists l. rewrite object_put. destruct Hc as (_ & _ & E1 & E2 & _). by rewrite E1, E2.
Qed.

Lemma ensureLeaseNamespace_mem cs w m :
  wp K (ensureLeaseNamespace cs) w m (fun _ _ m' => m' = m).
Proof.
  unfold ensureLeaseNamespace. apply wp_bind. unfold call at 1. cbn [wp]. split; [done|].
  intros [o|e] w1 _; [done|]. destruct (IsNotFound e); [|done].
  apply wp_bind. unfold call. cbn [wp]. split; [done|].
  intros [o|e'] w2 _; [done|]. by destruct (IsAlreadyExists e').
Qed.

Lemma UpdateNodeStatus_reports t n cs w m :
  tr_KubeconfigSecret t <> "" -> m !! cacheKey t = Some cs -> described cs n w ->
  wp K (registrar_UpdateNodeStatus SecretKubeconfigResolver n t) w m (fun o w' m' =>
    o = Done None -> m' = m /\ reported cs n w' /\ leased cs n w').
Proof.
  intros Ht Hm Hd. unfold registrar_UpdateNodeStatus. rewrite bool_decide_false by done.
  apply wp_bind, (GetClient_hit _ _ _ _ _ _ _ Hm), wp_bind.
  eapply wp_mono; [|by apply node_status_reports]. intros o w1 m1 H1.
  destruct o as [[e|]|msg]; [done| |done]. destruct (H1 eq_refl) as [-> Hr].
  by apply upsertLease_leases.
Qed.

Lemma Register_meets n t w m :
  tr_KubeconfigSecret t <> "" ->
  wp K (registrar_Register SecretKubeconfigResolver n t) w m (fun o w' m' =>
    o = Done None -> exists cs, m' !! cacheKey t = Some cs /\ reported cs n w' /\ leased cs n w').
Proof.
  intros Ht. unfold registrar_Register. apply wp_bind.
  eapply wp_mono; [|by apply GetClient_caches]. intros o w1 m1 (r & -> & _ & Hm).
  destruct r as [cs|e]; [|done].
  apply wp_bind. eapply wp_mono; [|apply ensureLeaseNamespace_mem].
  intros o w2 m2 ->. destruct o as [[e|]|msg]; [done| |done].
  apply wp_bind. eapply wp_mono; [|apply upsertNode_describes].
  intros o w3 m3 H3. destruct o as [[e|]|msg]; [done| |done]. destruct (H3 eq_refl) as [-> Hd].
  eapply wp_mono; [|by apply (UpdateNodeStatus_reports t n cs)].
  intros o w4 m4 H4 Ho. destruct (H4 Ho) as (-> & Hr & Hl). eauto.
Qed.


(** *** Deregistration *)

(** Nothing is left at a key but an object marked for deletion. *)
Definition removed {T} (c : conn) (k : kind T) (x : key) (w : world) : Prop :=
  forall o, object c k x w = Some o -> om_DeletionTimestamp (meta k o) <> None.

(** Faults are not the answer that an object is missing. *)
Hypothesis no_false_absence : forall e, faults e -> status_reason e <> Some ReasonNotFound.

Lemma delete_removes {T} cs (k : kind T) ns name w r w' :
  kube_post faults _ (Delete (Tenant cs) k ns name) w r w' -> unless_not_found r = None ->
  removed (Tenant cs) k (ns, name) w' /\ (w' = w \/ exists o, w' = put (Tenant cs) k (ns, name) o w).
Proof.
  destruct r as [e|]; simpl.
  - rewrite IsNotFound_reason. case_bool_decide as Hnf; [|done].
    intros [(r & He & [-> Hnone] & ->)|[Hf _]] _; [|by destruct (no_false_absence e Hf)].
    split; [|by left]. intros o Ho. congruence.
  - intros (old & _ & [[_ ->]|(_ & o' & (_ & Hd & _) & ->)]) _; (split; [|eauto]);
      intros o; rewrite object_put; [done|]. by intros [= <-].
Qed.

Lemma lease_put_node cs x y o w :
  object (Tenant cs) KLease x (put (Tenant cs) KNode y o w) = object (Tenant cs) KLease x w.
Proof. unfold object, put; simpl. by rewrite lookup_insert_eq. Qed.


End Registration.

Definition sample_node : VNode :=
  mkVNode "" "vnode-pool-1" "ns" "pool" (mkTenantRef "t" "t-ns" "kc") [mkTaint "k" "v" "NoSchedule"]
    NodePhaseReady (mkResourceList "4" "8Gi" 110) (mkResourceList "4" "8Gi" 110) [].


