(* ===== verification/PodService.v ===== *)
(** Pod translation for a pool (internal/domain/service/pod_service.go) and the
    isolation runtime adapter (internal/adapter/outbound/runtime/kata.go). *)

From S2P Require Import Prelude GoProg Model PodModel Kube Ports.

Definition KataAdapter (runtimeClassName : string) : IsolationRuntime :=
  mkIsolationRuntime runtimeClassName (Ret None).

(** The options [Translate] hands to [TranslatePod]. *)
Definition translateOpts (runtime : IsolationRuntime) (pool : VNodePool) (vnodeName : string)
    : TranslateOpts :=
  mkTranslateOpts vnodeName (vp_Name pool) (vp_Namespace pool)
    (if bool_decide (vp_RuntimeClassName pool = "") then RuntimeClassName runtime
     else vp_RuntimeClassName pool)
    (if bool_decide (vp_Mode pool = PoolModeDedicated)
        || bool_decide (vp_Mode pool = PoolModeBurstable)
     then vp_NodeSelector pool else ∅).

Definition TranslateForPool (runtime : IsolationRuntime) (pod : PodSpec) (pool : VNodePool)
    (vnodeName : string) : go (res PodTranslation) :=
  Ret (Ok (TranslatePod pod (translateOpts runtime pool vnodeName))).

Definition SyncPodStatus (hostStatus : PodStatus) : go (res PodStatus) := Ret (Ok hostStatus).

Definition PodService (runtime : IsolationRuntime) : PodTranslator :=
  mkPodTranslator (TranslateForPool runtime) SyncPodStatus.
