(* ===== verification/NodeService.v ===== *)
(** The lifecycle of one virtual node
    (internal/domain/service/node_service.go). *)

From S2P Require Import Prelude GoProg Model Kube Ports.

Local Open Scope go_scope.

(** ** Conditions *)
Definition readyNodeConditions : list NodeCondition := [
  mkNodeCondition NodeConditionKubeconfig true "KubeconfigResolved" "Tenant kubeconfig resolved";
  mkNodeCondition NodeConditionRegistered true "RegistrationSucceeded"
    "Node registered in tenant cluster";
  mkNodeCondition NodeConditionLease true "LeaseActive" "Node lease is active";
  mkNodeCondition NodeConditionReady true "Ready" "Node is ready";
  mkNodeCondition NodeConditionDegraded false "Healthy" "Node registration is healthy"].

Definition registrationFailedConditions (e : error) : list NodeCondition := [
  mkNodeCondition NodeConditionKubeconfig false "RegistrationFailed" (Error e);
  mkNodeCondition NodeConditionRegistered false "RegistrationFailed" (Error e);
  mkNodeCondition NodeConditionReady false "RegistrationFailed" (Error e);
  mkNodeCondition NodeConditionDegraded true "RegistrationFailed" (Error e)].

Definition statusSyncFailedConditions (e : error) : list NodeCondition := [
  mkNodeCondition NodeConditionReady false "StatusSyncFailed" (Error e);
  mkNodeCondition NodeConditionDegraded true "StatusSyncFailed" (Error e)].

Definition registeringConditions : list NodeCondition := [
  mkNodeCondition NodeConditionReady false "Registering"
    "Waiting for tenant cluster node registration"].

Definition terminatingConditions : list NodeCondition := [
  mkNodeCondition NodeConditionReady false "Terminating" "Node is being removed"].

(** ** Tests *)
Definition shouldRetryRegistration (node : VNode) : bool :=
  if negb (bool_decide (vn_Phase node = NodePhasePending))
     && negb (bool_decide (vn_Phase node = NodePhaseNotReady)) then false
  else match first_condition NodeConditionRegistered (vn_Conditions node) with
       | Some status => negb status
       | None => true
       end.

Definition hasRegisteredCondition (node : VNode) : bool :=
  match first_condition NodeConditionRegistered (vn_Conditions node) with
  | Some _ => true
  | None => false
  end.

Definition isIgnorableStatusError (e : error) : bool :=
  errors_Is e ErrCanceled || errors_Is e ErrDeadlineExceeded.

(** ** Operations *)
Section NodeService.
Variable nodeRepo : NodeRepository.
Variable registrar : NodeRegistrar.

(** [fmt.Sprintf("vnode-%s-%d", displayName, len(existing)+1)]. *)
Definition nodeName (pool : VNodePool) (existing : nat) : string :=
  let displayName :=
    if bool_decide (vp_DisplayName pool = "") then vp_Name pool else vp_DisplayName pool in
  "vnode-" +:+ displayName +:+ "-" +:+ pretty (Z.of_nat (existing + 1)).

(** The node [Provision] starts from. *)
Definition pendingNode (pool : VNodePool) (existing : nat) : VNode :=
  mkVNode "" (nodeName pool existing) (vp_Namespace pool) (vp_Name pool) (vp_TenantRef pool)
    (vp_Taints pool) NodePhasePending (vp_PerNodeResources pool) (vp_PerNodeResources pool)
    registeringConditions.

Definition ProvisionNode (pool : VNodePool) : go (VNode * option error) :=
  l <- nodes_ListByPool nodeRepo (vp_Namespace pool) (vp_Name pool) ;;
  match l with
  | Err e => Ret (zeroVNode, Some (ErrWrap "listing existing nodes: " e))
  | Ok existing =>
      let node := pendingNode pool (length existing) in
      s <- nodes_Save nodeRepo node ;;
      match s with
      | Some e => Ret (zeroVNode, Some (ErrWrap ("saving node " +:+ vn_Name node +:+ ": ") e))
      | None =>
          r <- Register registrar node (vp_TenantRef pool) ;;
          match r with
          | Some e =>
              let failed := set_node_status node NodePhaseNotReady (registrationFailedConditions e) in
              nodes_Save nodeRepo failed ;;;
              Ret (failed, Some (ErrWrap ("registering node " +:+ vn_Name node +:+ " in vcluster: ") e))
          | None =>
              let ready := set_node_status node NodePhaseReady readyNodeConditions in
              s' <- nodes_Save nodeRepo ready ;;
              match s' with
              | Some e =>
                  Ret (ready, Some (ErrWrap ("updating node " +:+ vn_Name node +:+ " status: ") e))
              | None => Ret (ready, None)
              end
          end
      end
  end.

Definition DeprovisionNode (node : VNode) : go (option error) :=
  let node := set_node_status node NodePhaseTerminating terminatingConditions in
  s <- nodes_Save nodeRepo node ;;
  match s with
  | Some e => Ret (Some (ErrWrap ("marking node " +:+ vn_Name node +:+ " as terminating: ") e))
  | None =>
      (* the error of the deregistration is only logged *)
      Deregister registrar node (vn_TenantRef node) ;;;
      d <- nodes_Delete nodeRepo (vn_Namespace node) (vn_Name node) ;;
      match d with
      | Some e => Ret (Some (ErrWrap ("deleting node " +:+ vn_Name node +:+ ": ") e))
      | None => Ret None
      end
  end.

(** Save a node as ready; a stopped context is not an error. *)
Definition saveReady (node : VNode) : go (option error) :=
  s <- nodes_Save nodeRepo (set_node_status node NodePhaseReady readyNodeConditions) ;;
  match s with
  | Some e => if isIgnorableStatusError e then Ret None else Ret (Some e)
  | None => Ret None
  end.

(** The branch of [UpdateStatus] that registers the node again. *)
Definition retryRegistration (node : VNode) : go (option error) :=
  r <- Register registrar node (vn_TenantRef node) ;;
  match r with
  | Some e =>
      if isIgnorableStatusError e then Ret None
      else
        let failure :=
          Some (ErrWrap ("retrying tenant node registration for " +:+ vn_Name node +:+ ": ") e) in
        if negb (bool_decide (vn_Phase node = NodePhaseNotReady))
           || negb (hasRegisteredCondition node) then
          s <- nodes_Save nodeRepo
                 (set_node_status node NodePhaseNotReady (registrationFailedConditions e)) ;;
          match s with
          | Some saveErr =>
              if isIgnorableStatusError saveErr then Ret None
              else Ret (Some (ErrWrap ("updating node " +:+ vn_Name node +:+
                                " status after registration retry failure: ") saveErr))
          | None => Ret failure
          end
        else Ret failure
  | None => saveReady node
  end.

(** The branch of [UpdateStatus] that refreshes a registered node. *)
Definition refreshStatus (node : VNode) : go (option error) :=
  r <- UpdateNodeStatus registrar node (vn_TenantRef node) ;;
  match r with
  | Some e =>
      if isIgnorableStatusError e then Ret None
      else
        s <- nodes_Save nodeRepo
               (set_node_status node NodePhaseNotReady (statusSyncFailedConditions e)) ;;
        match s with
        | Some saveErr =>
            if isIgnorableStatusError saveErr then Ret None
            else Ret (Some (ErrWrap ("updating node " +:+ vn_Name node +:+
                              " status after sync failure: ") saveErr))
        | None => Ret (Some (ErrWrap ("syncing tenant node status for " +:+ vn_Name node +:+ ": ") e))
        end
  | None =>
      if bool_decide (vn_Phase node = NodePhaseReady) && IsReady node then Ret None
      else saveReady node
  end.

Definition UpdateNode (node : VNode) : go (option error) :=
  if bool_decide (vn_Phase node = "") && (length (vn_Conditions node) =? 0)%nat then Ret None
  else if shouldRetryRegistration node then retryRegistration node
  else refreshStatus node.

Definition NodeService : NodeLifecycle :=
  mkNodeLifecycle ProvisionNode DeprovisionNode UpdateNode.

End NodeService.
