(* ===== verification/Lifecycle.v ===== *)
(** The lifecycle of virtual nodes against the contracts of the repository and
    of the registrar: what provisioning, removal and status updates of
    node_service.go leave in the store. *)

From S2P Require Import Prelude GoProg Model Kube Libs ApiServer Ports NodeRepo Registrar.
From S2P Require Import NodeStore Tenants NodeService.

(** ** The contract of the lifecycle, as the scaling of pools uses it *)

Definition pool_members {S} (view : S -> gmap key VNode) (pool : VNodePool) (s : S)
    : gmap key VNode :=
  members (vp_Namespace pool) (vp_Name pool) (view s).

(** The key of the next node of a pool. *)
Definition next_key {S} (view : S -> gmap key VNode) (pool : VNodePool) (s : S) : key :=
  (vp_Namespace pool, nodeName pool (size (pool_members view pool s))).

Class LifecycleSpec {S} (sp : spec api S) (svc : NodeLifecycle) (fits : VNodePool -> Prop)
    (inv : S -> Prop) (view : S -> gmap key VNode) : Prop := {
  fits_nodes pool names : fits pool -> fits (set_pool_nodes pool names);
  provision_contract pool s m : inv s -> vp_Namespace pool <> "" -> fits pool ->
    wp sp (Provision svc pool) s m (fun o s' _ => exists node err, o = Done (node, err) /\ inv s' /\
      (forall y, y <> next_key view pool s -> view s' !! y = view s !! y) /\
      (err = None ->
         node_key node = next_key view pool s /\ vn_PoolName node = vp_Name pool /\
         vn_Phase node = NodePhaseReady /\
         exists n', view s' !! next_key view pool s = Some n' /\
           saved (view s !! next_key view pool s) node n'));
  deprovision_contract node s m : inv s ->
    wp sp (Deprovision svc node) s m (fun o s' _ => exists err, o = Done err /\ inv s' /\
      (forall y, y <> node_key node -> view s' !! y = view s !! y) /\
      (err = None -> view s' !! node_key node = None))
}.

(** ** The service *)
Section Lifecycle.
Context {S : Type} (sp : spec api S) (repo : NodeRepository) (reg : NodeRegistrar).
Context (fits : VNode -> Prop) (inv : S -> Prop) (view : S -> gmap key VNode).
Context {store : NodeStore sp repo inv view} {tenants : TenantSide sp reg fits inv view}.

Definition pool_fits (pool : VNodePool) : Prop := forall k, fits (pendingNode pool k).

(** Two saves at a key are one save of the second node, when they agree on what
    only the first save writes. *)
Lemma saved_saved old n1 n2 n1' n2' :
  saved old n1 n1' -> saved (Some n1') n2 n2' ->
  vn_PoolName n2 = vn_PoolName n1 -> vn_Capacity n2 = vn_Capacity n1 ->
  saved old n2 n2'.
Proof.
  intros (_ & _ & _ & _ & H1) (Hk & Hp & Hc & Ht & H2 & H3) E1 E2.
  unfold saved. split_and!; try done. destruct old; intuition congruence.
Qed.

(** A save after which the store is read back at one key. *)
Lemma save_step {A} n s m (k : option error -> go A) Q :
  inv s ->
  (forall r s', inv s' -> (forall x, x <> node_key n -> view s' !! x = view s !! x) ->
     match r with
     | None => exists n', view s' !! node_key n = Some n' /\ saved (view s !! node_key n) n n'
     | Some e => is_context_error e = false
     end -> wp sp (k r) s' m Q) ->
  wp sp (bind (nodes_Save repo n) k) s m Q.
Proof.
  intros Hs Hk. apply wp_bind. eapply wp_mono; [|by apply save_contract].
  intros o s' m' (r & -> & -> & Hi & Hf & Hr). by apply Hk.
Qed.

(** A call of the registrar, which leaves the store alone. *)
Lemma tenant_step {A} (p : go (option error)) s m (k : option error -> go A) Q :
  wp sp p s m (fun o s' _ => calm_end inv view s o s') ->
  (forall r s' m', inv s' -> view s' = view s ->
     match r with Some e => is_context_error e = false | None => True end ->
     wp sp (k r) s' m' Q) ->
  wp sp (bind p k) s m Q.
Proof.
  intros Hp Hk. apply wp_bind. eapply wp_mono; [|exact Hp].
  intros o s' m' (r & -> & Hi & Hv & Hr). by apply Hk.
Qed.

Lemma list_step {A} pool s m (k : res (list VNode) -> go A) Q :
  inv s -> vp_Namespace pool <> "" ->
  (forall l, l ≡ₚ (map_to_list (pool_members view pool s)).*2 -> wp sp (k (Ok l)) s m Q) ->
  (forall e, wp sp (k (Err e)) s m Q) ->
  wp sp (bind (nodes_ListByPool repo (vp_Namespace pool) (vp_Name pool)) k) s m Q.
Proof.
  intros Hs Hns Hok Herr. apply wp_bind. eapply wp_mono; [|by apply list_contract].
  intros o s' m' (r & -> & -> & -> & Hr). destruct r as [l|e]; [by apply Hok|apply Herr].
Qed.

Lemma members_length (l : list VNode) (v : gmap key VNode) : l ≡ₚ (map_to_list v).*2 -> length l = size v.
Proof. intros ->. by rewrite length_fmap, length_map_to_list. Qed.

Lemma Provision_meets pool s m :
  inv s -> vp_Namespace pool <> "" -> pool_fits pool ->
  wp sp (ProvisionNode repo reg pool) s m (fun o s' _ => exists node err,
    o = Done (node, err) /\ inv s' /\
    (forall y, y <> next_key view pool s -> view s' !! y = view s !! y) /\
    (err = None ->
       node_key node = next_key view pool s /\ vn_PoolName node = vp_Name pool /\
       vn_Phase node = NodePhaseReady /\
       exists n', view s' !! next_key view pool s = Some n' /\
         saved (view s !! next_key view pool s) node n')).
Proof.
  intros Hs Hns Hfit. unfold ProvisionNode. apply list_step; [done..| |].
  2:{ intros e. simpl. do 2 eexists. split_and!; done. }
  intros l Hl. apply members_length in Hl. rewrite Hl.
  set (node := pendingNode pool _). change (next_key view pool s) with (node_key node).
  apply save_step; [done|]. intros [e|] s1 H1 F1 V1.
  { simpl. do 2 eexists. split_and!; done. }
  destruct V1 as (n1 & V1 & Sv1).
  apply tenant_step; [apply register_contract; [done|apply Hfit]|]. intros [e|] s2 m2 H2 E2 _.
  - set (failed := set_node_status _ _ _). apply save_step; [done|]. intros r s3 H3 F3 _.
    simpl. do 2 eexists. split_and!; [done|done| |done].
    intros y Hy. by rewrite (F3 y Hy), E2, F1.
  - set (ready := set_node_status _ _ _). apply save_step; [done|]. intros r s3 H3 F3 V3.
    change (node_key ready) with (node_key node) in *. rewrite E2 in F3, V3.
    assert (forall y, y <> node_key node -> view s3 !! y = view s !! y) as F.
    { intros y Hy. by rewrite F3, F1. }
    destruct r as [e|]; simpl; do 2 eexists; (split_and!; [done..|]); [done|]. intros _.
    destruct V3 as (n3 & V3 & Sv3). split_and!; try done. exists n3. split; [done|].
    rewrite V1 in Sv3. by eapply saved_saved.
Qed.

Lemma Deprovision_meets node s m :
  inv s ->
  wp sp (DeprovisionNode repo reg node) s m (fun o s' _ => exists err, o = Done err /\ inv s' /\
    (forall y, y <> node_key node -> view s' !! y = view s !! y) /\
    (err = None -> view s' !! node_key node = None)).
Proof.
  intros Hs. unfold DeprovisionNode. set (node' := set_node_status _ _ _).
  change (node_key node) with (node_key node').
  apply save_step; [done|]. intros [e|] s1 H1 F1 _.
  { simpl. eexists. split_and!; done. }
  apply tenant_step; [by apply deregister_contract|]. intros r s2 m2 H2 E2 _.
  apply wp_bind. eapply wp_mono; [|by apply delete_contract].
  intros o s3 m3 (d & -> & -> & H3 & F3 & V3).
  assert (forall y, y <> node_key node' -> view s3 !! y = view s !! y) as F.
  { intros y Hy. by rewrite F3, E2, F1. }
  destruct d as [e|]; simpl; eexists; by split_and!.
Qed.

#[export] Instance NodeService_lifecycle :
  LifecycleSpec sp (NodeService repo reg) pool_fits inv view.
Proof.
  split; intros.
  - done.
  - by apply Provision_meets.
  - by apply Deprovision_meets.
Qed.

(** ** Status updates *)

(** The store holds [n] as ready. *)
Definition ready_in (v : gmap key VNode) (n : VNode) : Prop :=
  exists n', v !! node_key n = Some n' /\ vn_Phase n' = NodePhaseReady /\
    vn_Conditions n' = readyNodeConditions.

(** What a status update may do: other nodes stay; when it reports success the
    node is stored as ready, or was ready and is left alone, or has no status
    yet and is left alone. *)
Definition update_result (n : VNode) (v : gmap key VNode) (r : option error)
    (v' : gmap key VNode) : Prop :=
  (forall y, y <> node_key n -> v' !! y = v !! y) /\
  match r with
  | None => ready_in v' n \/
      (v' = v /\ ((vn_Phase n = NodePhaseReady /\ IsReady n = true) \/
                  (vn_Phase n = "" /\ vn_Conditions n = [])))
  | Some e => is_context_error e = false
  end.

Lemma not_ignorable e : is_context_error e = false -> isIgnorableStatusError e = false.
Proof. done. Qed.

Lemma saveReady_meets n s m v :
  inv s -> (forall y, y <> node_key n -> view s !! y = v !! y) ->
  wp sp (saveReady repo n) s m (fun o s' _ => exists r, o = Done r /\ inv s' /\
    update_result n v r (view s')).
Proof.
  intros Hs F. unfold saveReady. apply save_step; [done|].
  intros r s1 H1 F1 V1. change (node_key (set_node_status n _ _)) with (node_key n) in *.
  assert (forall y, y <> node_key n -> view s1 !! y = v !! y) as F'.
  { intros y Hy. by rewrite F1, F. }
  destruct r as [e|].
  - rewrite not_ignorable by done. by exists (Some e).
  - exists None. split_and!; [done..|]. split; [done|]. left. destruct V1 as (n' & V1 & _ & Hp & Hc & _).
    by exists n'.
Qed.

(** A failure to report after a save of the failure. *)
Lemma save_failure_meets n (n' : VNode) s m v p e e0 :
  inv s -> node_key n' = node_key n -> is_context_error e0 = false ->
  (forall y, y <> node_key n -> view s !! y = v !! y) ->
  wp sp (bind (nodes_Save repo n') (fun r =>
      match r with
      | Some saveErr =>
          if isIgnorableStatusError saveErr then Ret None else Ret (Some (ErrWrap p saveErr))
      | None => Ret (Some (ErrWrap e e0))
      end)) s m (fun o s' _ => exists r, o = Done r /\ inv s' /\ update_result n v r (view s')).
Proof.
  intros Hs Hk He F. apply save_step; [done|]. rewrite Hk. intros r s1 H1 F1 V1.
  assert (forall y, y <> node_key n -> view s1 !! y = v !! y) as F'.
  { intros y Hy. by rewrite F1, F. }
  destruct r as [e'|]; [rewrite not_ignorable by done|]; simpl; eexists;
    (split_and!; [done..|]); (split; [done|]); by rewrite is_context_error_wrap.
Qed.

Lemma retryRegistration_meets n s m :
  inv s -> fits n ->
  wp sp (retryRegistration repo reg n) s m (fun o s' _ => exists r, o = Done r /\ inv s' /\
    update_result n (view s) r (view s')).
Proof.
  intros Hs Hn. unfold retryRegistration.
  apply tenant_step; [by apply register_contract|]. intros [e|] s1 m1 H1 E1 He.
  - rewrite not_ignorable by done. destruct (_ || _).
    + apply save_failure_meets; try done. by rewrite E1.
    + simpl. eexists. split_and!; [done..|]. rewrite E1. split; [done|].
      by rewrite is_context_error_wrap.
  - apply saveReady_meets; [done|]. by rewrite E1.
Qed.

Lemma refreshStatus_meets n s m :
  inv s -> fits n ->
  wp sp (refreshStatus repo reg n) s m (fun o s' _ => exists r, o = Done r /\ inv s' /\
    update_result n (view s) r (view s')).
Proof.
  intros Hs Hn. unfold refreshStatus.
  apply tenant_step; [by apply status_contract|]. intros [e|] s1 m1 H1 E1 He.
  - rewrite not_ignorable by done. apply save_failure_meets; try done. by rewrite E1.
  - destruct (_ && _) eqn:Hr.
    + apply andb_true_iff in Hr as [Hp%bool_decide_eq_true_1 Hi].
      simpl. exists None. rewrite E1. split_and!; [done..|]. split; [done|]. right. auto.
    + apply saveReady_meets; [done|]. by rewrite E1.
Qed.

(** A status update of a node, against any store and registrar that keep their
    contracts: it ends; other nodes stay as they are; and it reports success
    only if the node is stored as ready, was ready already, or has no status
    yet. *)
Lemma UpdateNode_result n s m :
  inv s -> fits n ->
  wp sp (UpdateNode repo reg n) s m (fun o s' _ => exists r, o = Done r /\ inv s' /\
    update_result n (view s) r (view s')).
Proof.
  intros Hs Hn. unfold UpdateNode. destruct (_ && _) eqn:Hb.
  - apply andb_true_iff in Hb as [Hp%bool_decide_eq_true_1 Hc%Nat.eqb_eq%nil_length_inv].
    simpl. exists None. split_and!; [done..|]. split; [done|]. right. auto.
  - destruct (shouldRetryRegistration n); [by apply retryRegistration_meets|].
    by apply refreshStatus_meets.
Qed.

End Lifecycle.

(** A node that is ready is not saved again: whatever the calls of the refresh
    are allowed to be, a status update makes no other call (a save would
    trigger the next reconciliation). *)
Theorem UpdateNode_ready_only_refreshes {S} (sp : spec api S) repo reg n s m
    (Q : outcome (option error) -> S -> mem -> Prop) :
  vn_Phase n = NodePhaseReady -> IsReady n = true ->
  wp sp (UpdateNodeStatus reg n (vn_TenantRef n)) s m (fun o s' m' =>
    o = Done None /\ Q (Done None) s' m') ->
  wp sp (UpdateNode repo reg n) s m Q.
Proof.
  intros Hp Hr Hw. unfold UpdateNode. rewrite Hp. simpl.
  assert (shouldRetryRegistration n = false) as ->.
  { unfold shouldRetryRegistration. by rewrite Hp. }
  unfold refreshStatus. apply wp_bind. eapply wp_mono; [|exact Hw].
  intros o s' m' [-> HQ]. by rewrite Hp, Hr.
Qed.

(** A ready node of a tenant without kubeconfig. *)
Definition ready_node : VNode :=
  mkVNode "" "vnode-pool-1" "ns" "pool" (mkTenantRef "t" "t-ns" "") [] NodePhaseReady
    zeroResourceList zeroResourceList readyNodeConditions.

Lemma UpdateNode_ready_only_refreshes_witness :
  wp chaos (UpdateNode (@KubeNodeRepository simple_libs)
              (@TenantRegistrar simple_libs SecretKubeconfigResolver) ready_node) tt ∅
    (fun o _ m' => o = Done None /\ m' = ∅).
Proof.
  apply (UpdateNode_ready_only_refreshes chaos (@KubeNodeRepository simple_libs)
           (@TenantRegistrar simple_libs SecretKubeconfigResolver) ready_node tt ∅
           (fun o _ m' => o = Done None /\ m' = ∅)); by vm_compute.
Defined.
