(* ===== verification/PoolService.v ===== *)
(** Scaling of a pool (internal/domain/service/pool_service.go). *)

From S2P Require Import Prelude GoProg Model Kube Ports.

Local Open Scope go_scope.

Section PoolService.
Variable nodeRepo : NodeRepository.
Variable nodeSvc : NodeLifecycle.

(** The node counts as ready: it is neither NotReady nor Terminating. *)
Definition countsReady (n : VNode) : bool :=
  negb (bool_decide (vn_Phase n = NodePhaseNotReady))
  && negb (bool_decide (vn_Phase n = NodePhaseTerminating)).

(** [readyCount++] for each node that counts, on [int32]. *)
Definition readyCount (working : list VNode) : Z :=
  int32 (Z.of_nat (length (List.filter countsReady working))).

(** [for i := int32(0); i < toAdd; i++]: [n] iterations left, [i] done. *)
Fixpoint scaleUp (n : nat) (i : Z) (pool : VNodePool) (working : list VNode)
    : go (VNodePool * list VNode * option error) :=
  match n with
  | O => Ret (pool, working, None)
  | S n' =>
      let* (node, e) := Provision nodeSvc pool in
      match e with
      | Some err =>
          Ret (set_pool_phase pool PoolPhaseFailed, working,
               Some (ErrWrap ("provisioning node " +:+ pretty i +:+ " for pool " +:+ vp_Name pool
                                +:+ ": ") err))
      | None =>
          scaleUp n' (i + 1) (set_pool_nodes pool (vp_Nodes pool ++ [vn_Name node]))
            (working ++ [node])
      end
  end.

(** [for i := int32(0); i < toRemove; i++], from the end of [working]. *)
Fixpoint scaleDown (n : nat) (pool : VNodePool) (working : list VNode)
    : go (VNodePool * list VNode * option error) :=
  match n with
  | O => Ret (pool, working, None)
  | S n' =>
      match last working with
      | None => Ret (pool, working, None)
      | Some node =>
          e <- Deprovision nodeSvc node ;;
          match e with
          | Some err =>
              Ret (set_pool_phase pool PoolPhaseFailed, working,
                   Some (ErrWrap ("deprovisioning node " +:+ vn_Name node +:+ ": ") err))
          | None => scaleDown n' pool (take (length working - 1) working)
          end
      end
  end.

(** The fields [Reconcile] sets once the pool has its nodes. *)
Definition summarize (pool : VNodePool) (working : list VNode) : VNodePool :=
  let ready := readyCount working in
  set_pool_phase (set_pool_ready pool ready)
    (if (ready =? vp_NodeCount pool)%Z then PoolPhaseReady else PoolPhaseScaling).

Definition ReconcileNodes (pool : VNodePool) : go (VNodePool * option error) :=
  l <- nodes_ListByPool nodeRepo (vp_Namespace pool) (vp_Name pool) ;;
  match l with
  | Err e => Ret (pool, Some (ErrWrap ("listing nodes for pool " +:+ vp_Name pool +:+ ": ") e))
  | Ok existing =>
      let currentCount := int32 (Z.of_nat (length existing)) in
      let '(toAdd, toRemove) := DesiredScaleActions pool currentCount in
      let* (pool1, working1, e1) := scaleUp (Z.to_nat toAdd) 0 pool existing in
      match e1 with
      | Some e => Ret (pool1, Some e)
      | None =>
          let* (pool2, working2, e2) := scaleDown (Z.to_nat toRemove) pool1 working1 in
          match e2 with
          | Some e => Ret (pool2, Some e)
          | None => Ret (summarize pool2 working2, None)
          end
      end
  end.

Definition PoolService : PoolManager := mkPoolManager ReconcileNodes.

End PoolService.

(** ** The calls of a scaling are the calls of its parts *)

Lemma scaleUp_issues P (svc : NodeLifecycle) :
  (forall pool, issues P (Provision svc pool)) ->
  forall n i pool w, issues P (scaleUp svc n i pool w).
Proof.
  intros Hp n. induction n as [|n IH]; intros i pool w; simpl; [done|].
  apply issues_bind; [done|]. intros [node [e|]]; [done|apply IH].
Qed.

Lemma scaleDown_issues P (svc : NodeLifecycle) :
  (forall node, issues P (Deprovision svc node)) ->
  forall n pool w, issues P (scaleDown svc n pool w).
Proof.
  intros Hd n. induction n as [|n IH]; intros pool w; simpl; [done|].
  destruct (last w); [|done]. apply issues_bind; [done|]. intros [e|]; [done|apply IH].
Qed.

Lemma ReconcileNodes_issues P (repo : NodeRepository) (svc : NodeLifecycle) pool :
  (forall ns name, issues P (nodes_ListByPool repo ns name)) ->
  (forall pool, issues P (Provision svc pool)) ->
  (forall node, issues P (Deprovision svc node)) ->
  issues P (ReconcileNodes repo svc pool).
Proof.
  intros Hl Hp Hd. unfold ReconcileNodes. apply issues_bind; [apply Hl|].
  intros [l|e]; [|done]. destruct (DesiredScaleActions _ _) as [toAdd toRemove].
  apply issues_bind; [by apply scaleUp_issues|]. intros [[pool1 w1] [e|]]; [done|].
  apply issues_bind; [by apply scaleDown_issues|]. by intros [[? ?] [|]].
Qed.
