(* ===== verification/Scaling.v ===== *)
(** Scaling of a pool against the contracts of the lifecycle and of the
    repository: a successful reconciliation of pool_service.go leaves exactly
    the declared number of nodes, as long as the names it generates are free;
    when one is taken it reports nodes that do not exist. *)

From S2P Require Import Prelude GoProg Model Kube ApiServer Ports NodeStore Tenants NodeService.
From S2P Require Import Lifecycle PoolService.

(** ** Names *)

Lemma append_inj s t u : s +:+ t = s +:+ u -> t = u.
Proof.
  induction s as [|a s IH]; [done|]. intros H. apply IH.
  change (String a (s +:+ t) = String a (s +:+ u)) in H. by injection H.
Qed.

Lemma nodeName_inj pool i j : nodeName pool i = nodeName pool j -> i = j.
Proof.
  unfold nodeName. intros H%append_inj%append_inj%append_inj%(inj pretty). lia.
Qed.

(** ** Changes of the store, seen by a pool *)

Lemma view_insert {A} (v v' : gmap key A) x a :
  (forall y, y <> x -> v' !! y = v !! y) -> v' !! x = Some a -> v' = <[x := a]> v.
Proof.
  intros F Hx. apply map_eq. intros y. destruct (decide (y = x)) as [->|Hne].
  - by rewrite lookup_insert_eq.
  - by rewrite lookup_insert_ne, F.
Qed.

Lemma view_delete {A} (v v' : gmap key A) x :
  (forall y, y <> x -> v' !! y = v !! y) -> v' !! x = None -> v' = delete x v.
Proof.
  intros F Hx. apply map_eq. intros y. destruct (decide (y = x)) as [->|Hne].
  - by rewrite lookup_delete_eq.
  - by rewrite lookup_delete_ne, F.
Qed.

Lemma members_insert ns pool v x n :
  x.1 = ns -> vn_PoolName n = pool ->
  members ns pool (<[x := n]> v) = <[x := n]> (members ns pool v).
Proof. intros H1 H2. unfold members. by rewrite map_filter_insert_True. Qed.

Lemma members_delete ns pool v x :
  members ns pool (delete x v) = delete x (members ns pool v).
Proof. apply map_filter_delete. Qed.

(** The list a reconciliation works on describes the stored nodes of the pool:
    same keys, same phases. *)
Definition tracks (working : list VNode) (v : gmap key VNode) : Prop :=
  (fun n => (node_key n, vn_Phase n)) <$> working ≡ₚ map_to_list (vn_Phase <$> v).

Lemma tracks_list (l : list VNode) (v : gmap key VNode) :
  (forall x n, v !! x = Some n -> node_key n = x) ->
  l ≡ₚ (map_to_list v).*2 -> tracks l v.
Proof.
  intros Hk Hl. unfold tracks. rewrite Hl, map_to_list_fmap, <- list_fmap_compose.
  apply reflexive_eq, list_fmap_ext. intros i [x n] Hi%list_elem_of_lookup_2.
  apply elem_of_map_to_list, Hk in Hi. simpl. by rewrite Hi.
Qed.

Lemma tracks_length l v : tracks l v -> length l = size v.
Proof.
  intros H%Permutation_length.
  by rewrite length_fmap, length_map_to_list, map_size_fmap in H.
Qed.

Lemma tracks_snoc l v n n' :
  tracks l v -> v !! node_key n = None -> vn_Phase n' = vn_Phase n ->
  tracks (l ++ [n]) (<[node_key n := n']> v).
Proof.
  unfold tracks. intros H Hx Hp. rewrite fmap_insert, map_to_list_insert.
  - rewrite fmap_app, H. simpl. rewrite Hp. by rewrite Permutation_app_comm.
  - by rewrite lookup_fmap, Hx.
Qed.

Lemma tracks_last l v n :
  tracks (l ++ [n]) v -> is_Some (v !! node_key n) /\ tracks l (delete (node_key n) v).
Proof.
  unfold tracks. rewrite fmap_app. simpl. intros H.
  assert ((vn_Phase <$> v) !! node_key n = Some (vn_Phase n)) as Hx.
  { apply elem_of_map_to_list. rewrite <- H. set_solver. }
  split. { rewrite lookup_fmap in Hx. by destruct (v !! node_key n). }
  rewrite fmap_delete. apply (Permutation_cons_inv (a := (node_key n, vn_Phase n))).
  rewrite map_to_list_delete by done. rewrite <- H. by rewrite Permutation_app_comm.
Qed.

(** The stored nodes that count as ready. *)
Definition ready_members (v : gmap key VNode) : gmap key VNode :=
  base.filter (fun x => countsReady x.2 = true) v.

Definition phase_counts (phase : string) : bool :=
  negb (bool_decide (phase = NodePhaseNotReady)) && negb (bool_decide (phase = NodePhaseTerminating)).

Lemma filter_length_fmap {A B} (f : B -> bool) (g : A -> B) (l : list A) :
  length (List.filter (fun a => f (g a)) l) = length (List.filter f (g <$> l)).
Proof. induction l as [|a l IH]; simpl; [done|]. destruct (f (g a)); simpl; auto. Qed.

Lemma filter_length_perm {A} (f : A -> bool) (l l' : list A) :
  l ≡ₚ l' -> length (List.filter f l) = length (List.filter f l').
Proof.
  induction 1 as [|x l l' _ IH|x y l|l1 l2 l3 _ IH1 _ IH2]; simpl; auto.
  - destruct (f x); simpl; auto.
  - by destruct (f x), (f y).
  - congruence.
Qed.

Lemma filter_bool_length {A} (f : A -> bool) (l : list A) :
  length (base.filter (fun a => f a = true) l) = length (List.filter f l).
Proof.
  induction l as [|a l IH]; [done|]. rewrite filter_cons. simpl.
  destruct (f a) eqn:Ha; [rewrite decide_True by done; simpl; auto|].
  by rewrite decide_False.
Qed.

Lemma tracks_ready l v :
  tracks l v -> length (List.filter countsReady l) = size (ready_members v).
Proof.
  intros H. unfold ready_members.
  rewrite <- length_map_to_list, <- map_to_list_filter_perm.
  rewrite (filter_bool_length (fun x => countsReady x.2)).
  change countsReady with (fun n => phase_counts (node_key n, vn_Phase n).2) at 1.
  rewrite (filter_length_fmap (fun x => phase_counts x.2) (fun n => (node_key n, vn_Phase n)) l).
  rewrite (filter_length_perm _ _ _ H), map_to_list_fmap.
  by rewrite <- (filter_length_fmap (fun x => phase_counts x.2) (prod_map id vn_Phase)).
Qed.

(** ** The loops *)
Section Scaling.
Context {S : Type} (sp : spec api S) (repo : NodeRepository) (svc : NodeLifecycle).
Context (fits : VNodePool -> Prop) (inv : S -> Prop) (view : S -> gmap key VNode).
Context {store : NodeStore sp repo inv view} {lifecycle : LifecycleSpec sp svc fits inv view}.

Abbreviation mine pool s := (pool_members view pool s).

(** The names of the next [n] nodes are not in use. *)
Definition names_free (pool : VNodePool) (s : S) (n : nat) : Prop :=
  forall j, size (mine pool s) <= j < size (mine pool s) + n ->
    view s !! (vp_Namespace pool, nodeName pool j) = None.

Lemma mine_None pool s x : view s !! x = None -> mine pool s !! x = None.
Proof. intros H. apply map_lookup_filter_None. by left. Qed.

(** A node of the pool sits in the store. *)
Lemma mine_subseteq pool s : mine pool s ⊆ view s.
Proof. apply map_filter_subseteq. Qed.

Lemma mine_keys pool s x n : inv s -> mine pool s !! x = Some n -> node_key n = x.
Proof. intros Hs Hx%map_lookup_filter_Some_1_1. by eapply view_keys. Qed.

(** One successful provisioning under a free name. *)
Lemma provisioned pool s s' node n' :
  (forall y, y <> next_key view pool s -> view s' !! y = view s !! y) ->
  view s !! next_key view pool s = None ->
  vn_PoolName node = vp_Name pool -> view s' !! next_key view pool s = Some n' ->
  saved (view s !! next_key view pool s) node n' ->
  mine pool s' = <[next_key view pool s := n']> (mine pool s).
Proof.
  intros F Hfree Hp Hn Hsv. rewrite Hfree in Hsv. destruct Hsv as (_ & _ & _ & _ & Hpn & _).
  unfold pool_members. rewrite (view_insert _ _ _ _ F Hn).
  apply members_insert; [done|]. congruence.
Qed.

Lemma names_free_step pool s s' names n n' :
  (forall y, y <> next_key view pool s -> view s' !! y = view s !! y) ->
  mine pool s' = <[next_key view pool s := n']> (mine pool s) ->
  mine pool s !! next_key view pool s = None ->
  names_free pool s (1 + n) -> names_free (set_pool_nodes pool names) s' n.
Proof.
  intros F E Hm Hfree j Hj. change (mine (set_pool_nodes pool names) s') with (mine pool s') in Hj.
  rewrite E, map_size_insert_None in Hj by done.
  change (nodeName (set_pool_nodes pool names) j) with (nodeName pool j).
  change (vp_Namespace (set_pool_nodes pool names)) with (vp_Namespace pool).
  rewrite F; [apply Hfree; lia|]. unfold next_key.
  intros Hn%pair_equal_spec. destruct Hn as [_ Hn%nodeName_inj]. lia.
Qed.

Lemma free_extends s s' x :
  (forall y, y <> x -> view s' !! y = view s !! y) -> view s !! x = None -> view s ⊆ view s'.
Proof.
  intros F Hx. apply map_subseteq_spec. intros y n Hy. rewrite F; [done|].
  intros ->. congruence.
Qed.

Lemma scaleUp_meets n : forall i pool working s m,
  inv s -> vp_Namespace pool <> "" -> fits pool -> tracks working (mine pool s) ->
  names_free pool s n ->
  wp sp (scaleUp svc n i pool working) s m (fun o s' _ => exists pool' working' err,
    o = Done (pool', working', err) /\ inv s' /\ view s ⊆ view s' /\ (n = 0 -> s' = s) /\
    match err with
    | None => (exists names, pool' = set_pool_nodes pool names) /\
        tracks working' (mine pool s') /\ length working' = length working + n
    | Some _ => vp_Phase pool' = PoolPhaseFailed
    end).
Proof.
  induction n as [|n IH]; intros i pool working s m Hs Hns Hfit Ht Hfree.
  { exists pool, working, None. split_and!; [done|done|done|done| |done|lia].
    exists (vp_Nodes pool). by destruct pool. }
  simpl. apply wp_bind. eapply wp_mono; [|by apply provision_contract].
  intros o s1 m1 (node & err & -> & H1 & F1 & P1).
  assert (view s !! next_key view pool s = None) as Hnone by (apply Hfree; lia).
  pose proof (free_extends _ _ _ F1 Hnone) as Hsub.
  destruct err as [e|]; [simpl; do 3 eexists; by split_and!|].
  destruct (P1 eq_refl) as (Hk & Hp & Hph & n' & V1 & Sv).
  pose proof (provisioned _ _ _ _ _ F1 Hnone Hp V1 Sv) as E.
  eapply wp_mono; [|apply IH].
  - intros o s2 m2 (pool' & working' & err & -> & H2 & Hsub2 & _ & Hend).
    exists pool', working', err. split_and!; [done..|by transitivity (view s1)|done|].
    destruct err; [done|]. destruct Hend as ((names & ->) & Ht2 & Hl). split_and!; [by eexists|done|].
    rewrite Hl, length_app. simpl. lia.
  - done.
  - done.
  - by apply fits_nodes.
  - change (mine (set_pool_nodes pool _) s1) with (mine pool s1). rewrite E, <- Hk.
    apply tracks_snoc; [done|rewrite Hk; by apply mine_None|]. apply Sv.
  - eapply names_free_step; [exact F1|exact E|by apply mine_None|exact Hfree].
Qed.

Lemma last_split (l : list VNode) n : last l = Some n -> l = take (length l - 1) l ++ [n].
Proof.
  intros [l' ->]%last_Some. rewrite length_app. simpl.
  by rewrite Nat.add_sub, take_app_length.
Qed.

Lemma scaleDown_meets n : forall pool working s m,
  inv s -> tracks working (mine pool s) ->
  wp sp (scaleDown svc n pool working) s m (fun o s' _ => exists pool' working' err,
    o = Done (pool', working', err) /\ inv s' /\
    (forall x, mine pool s !! x = None -> view s' !! x = view s !! x) /\ (n = 0 -> s' = s) /\
    match err with
    | None => pool' = pool /\ tracks working' (mine pool s') /\ view s' ⊆ view s /\
        length working' = length working - n
    | Some _ => vp_Phase pool' = PoolPhaseFailed
    end).
Proof.
  induction n as [|n IH]; intros pool working s m Hs Ht; simpl.
  { exists pool, working, None. split_and!; [done..|]. lia. }
  destruct (last working) as [node|] eqn:Hlast.
  2:{ apply last_None in Hlast as ->. simpl. do 3 eexists. by split_and!. }
  apply last_split in Hlast. set (rest := take _ _) in *.
  rewrite Hlast in Ht. destruct (tracks_last _ _ _ Ht) as [Hin Ht'].
  apply wp_bind. eapply wp_mono; [|by apply deprovision_contract].
  intros o s1 m1 (err & -> & H1 & F1 & V1).
  assert (forall x, mine pool s !! x = None -> view s1 !! x = view s !! x) as Fr.
  { intros x Hx. apply F1. intros ->. destruct Hin. congruence. }
  destruct err as [e|]; [simpl; do 3 eexists; by split_and!|].
  pose proof (view_delete _ _ _ F1 (V1 eq_refl)) as E.
  assert (mine pool s1 = delete (node_key node) (mine pool s)) as E'.
  { unfold pool_members. by rewrite E, members_delete. }
  eapply wp_mono; [|apply (IH pool rest s1 m1 H1); by rewrite E'].
  intros o s2 m2 (pool' & working' & err & -> & H2 & F2 & _ & Hend).
  exists pool', working', err. split_and!; [done..| |done|].
  - intros x Hx. rewrite F2, Fr; [done..|]. rewrite E'. apply lookup_delete_None. by right.
  - destruct err; [done|]. destruct Hend as (-> & Ht2 & Hsub & Hl). split_and!; [done..| |].
    + transitivity (view s1); [done|]. rewrite E. apply delete_subseteq.
    + rewrite Hl, Hlast, length_app. simpl. lia.
Qed.

(** ** Reconciliation *)

Lemma readyCount_tracks working pool s :
  tracks working (mine pool s) -> (Z.of_nat (length working) <= int32_max)%Z ->
  readyCount working = Z.of_nat (size (ready_members (mine pool s))).
Proof.
  intros Ht Hlen. unfold readyCount. rewrite (tracks_ready _ _ Ht). apply int32_id.
  rewrite (tracks_length _ _ Ht) in Hlen.
  assert (size (ready_members (mine pool s)) <= size (mine pool s)).
  { apply map_subseteq_size, map_filter_subseteq. }
  unfold is_int32, int32_min. lia.
Qed.

(** What the pool reports about its nodes in the store. *)
Definition reports (pool pool' : VNodePool) (v : gmap key VNode) : Prop :=
  vp_ReadyNodes pool' = Z.of_nat (size (ready_members v)) /\
  vp_Phase pool' = if bool_decide (Z.of_nat (size (ready_members v)) = vp_NodeCount pool)
                   then PoolPhaseReady else PoolPhaseScaling.

Lemma summarize_reports pool names working s :
  tracks working (mine pool s) -> (Z.of_nat (length working) <= int32_max)%Z ->
  reports pool (summarize (set_pool_nodes pool names) working) (mine pool s).
Proof.
  intros Ht Hlen. unfold reports, summarize. rewrite (readyCount_tracks _ _ _ Ht Hlen).
  split; [done|]. simpl. case_bool_decide as H.
  - by rewrite (proj2 (Z.eqb_eq _ _) H).
  - by rewrite (proj2 (Z.eqb_neq _ _) H).
Qed.

(** Every node outside the pool is as it was. *)
Definition others_kept (pool : VNodePool) (s s' : S) : Prop :=
  forall x n, view s !! x = Some n -> mine pool s !! x = None -> view s' !! x = Some n.

Lemma scale_actions pool (existing : list VNode) :
  (0 <= vp_NodeCount pool <= int32_max)%Z -> (Z.of_nat (length existing) <= int32_max)%Z ->
  DesiredScaleActions pool (int32 (Z.of_nat (length existing))) =
    (Z.of_nat (Z.to_nat (vp_NodeCount pool) - length existing),
     Z.of_nat (length existing - Z.to_nat (vp_NodeCount pool))).
Proof.
  intros Hc Hl. rewrite int32_id by (unfold is_int32, int32_min; lia).
  destruct (Z.le_ge_cases (Z.of_nat (length existing)) (vp_NodeCount pool)).
  - rewrite DesiredScaleActions_add by (unfold is_int32, int32_min; lia). f_equal; lia.
  - rewrite DesiredScaleActions_remove by (unfold is_int32, int32_min; lia). f_equal; lia.
Qed.

(** Scaling a pool, against any store and lifecycle that keep their contracts:
    if the names of the nodes to add are free, a successful reconciliation
    leaves exactly the declared number of nodes, only adds or only removes, and
    reports the nodes of the store; a failed one reports the failure; nodes
    outside the pool stay as they are. *)
Lemma ReconcileNodes_scales pool s m :
  inv s -> vp_Namespace pool <> "" -> fits pool ->
  (0 <= vp_NodeCount pool <= int32_max)%Z ->
  (Z.of_nat (size (pool_members view pool s)) <= int32_max)%Z ->
  names_free pool s (Z.to_nat (vp_NodeCount pool) - size (pool_members view pool s)) ->
  wp sp (ReconcileNodes repo svc pool) s m (fun o s' _ => exists pool' err,
    o = Done (pool', err) /\ inv s' /\ others_kept pool s s' /\
    match err with
    | None =>
        Z.of_nat (size (pool_members view pool s')) = vp_NodeCount pool /\
        (view s ⊆ view s' \/ view s' ⊆ view s) /\ reports pool pool' (pool_members view pool s')
    | Some _ => vp_Phase pool' = PoolPhaseFailed \/ (pool' = pool /\ s' = s)
    end).
Proof.
  intros Hs Hns Hfit Hc Hsz Hfree. unfold ReconcileNodes. eapply list_step; [done..| |].
  2:{ intros e. simpl. do 2 eexists. split_and!; [done..| |by right].
      by intros x n Hx _. }
  intros existing Hl. assert (tracks existing (mine pool s)) as Ht.
  { apply tracks_list; [|done]. intros x n. by apply mine_keys. }
  pose proof (tracks_length _ _ Ht) as Hlen. rewrite scale_actions by (done || lia).
  rewrite !Nat2Z.id, Hlen. apply wp_bind. eapply wp_mono; [|by apply scaleUp_meets].
  intros o s1 m1 (pool1 & w1 & e1 & -> & H1 & Hsub & Z1 & P1).
  destruct e1 as [e|].
  { simpl. exists pool1, (Some e). split_and!; [done..| |by left].
    intros x n Hx _. by eapply lookup_weaken. }
  destruct P1 as ((names & ->) & Ht1 & Hl1).
  apply wp_bind. eapply wp_mono; [|by apply scaleDown_meets].
  intros o s2 m2 (pool2 & w2 & e2 & -> & H2 & F2 & Z2 & P2).
  change (pool_members view (set_pool_nodes pool names)) with (pool_members view pool) in *.
  assert (others_kept pool s s2) as Ho.
  { intros x n Hx Hm. rewrite F2; [by eapply lookup_weaken|].
    pose proof (lookup_weaken _ _ _ _ Hx Hsub) as Hx1.
    apply map_lookup_filter_None in Hm. apply map_lookup_filter_None. right.
    intros n' Hn'. rewrite Hx1 in Hn'. injection Hn' as <-. destruct Hm as [?|Hm]; [congruence|].
    by apply Hm. }
  destruct e2 as [e|]; simpl; do 2 eexists; (split_and!; [done..|]); [by left|].
  destruct P2 as (-> & Ht2 & Hsub2 & Hl2).
  pose proof (tracks_length _ _ Ht2) as Hlen2. split_and!; [lia| |].
  - destruct (decide (size (mine pool s) <= Z.to_nat (vp_NodeCount pool))) as [Hle|Hgt].
    + left. by rewrite Z2 by lia.
    + right. by rewrite <- Z1 by lia.
  - apply summarize_reports; [done|lia].
Qed.

(** *** When the generated name is taken *)

Lemma members_same_size (ns pool : string) (v : gmap key VNode) (x : key) n n0 :
  x.1 = ns -> vn_PoolName n = pool -> members ns pool v !! x = Some n0 ->
  size (members ns pool (<[x := n]> v)) = size (members ns pool v).
Proof.
  intros H1 H2 H3. rewrite members_insert by done. rewrite map_size_insert, H3. simpl. lia.
Qed.

Lemma all_ready_count (l : list VNode) v :
  tracks l v -> ready_members v = v -> length (List.filter countsReady l) = length l.
Proof. intros Ht Hr. by rewrite (tracks_ready _ _ Ht), Hr, (tracks_length _ _ Ht). Qed.

(** A pool that lacks one node, while a node of it has the name the next one
    would get: a successful reconciliation adds no node, and reports the pool
    as ready when its nodes are. *)
Lemma ReconcileNodes_stuck pool s m :
  inv s -> vp_Namespace pool <> "" -> fits pool ->
  (vp_NodeCount pool <= int32_max)%Z ->
  vp_NodeCount pool = Z.of_nat (size (pool_members view pool s) + 1) ->
  is_Some (pool_members view pool s !! next_key view pool s) ->
  wp sp (ReconcileNodes repo svc pool) s m (fun o s' _ => exists pool' err,
    o = Done (pool', err) /\
    (err = None ->
       size (pool_members view pool s') = size (pool_members view pool s) /\
       (ready_members (pool_members view pool s) = pool_members view pool s ->
        vp_Phase pool' = PoolPhaseReady /\ vp_ReadyNodes pool' = vp_NodeCount pool))).
Proof.
  intros Hs Hns Hfit Hmax Hc [n0 Hn0]. unfold ReconcileNodes. eapply list_step; [done..| |].
  2:{ intros e. simpl. do 2 eexists. by split_and!. }
  intros existing Hl. assert (tracks existing (mine pool s)) as Ht.
  { apply tracks_list; [|done]. intros x n. by apply mine_keys. }
  pose proof (tracks_length _ _ Ht) as Hlen. rewrite scale_actions by (unfold int32_max in *; lia).
  rewrite !Nat2Z.id. replace (Z.to_nat (vp_NodeCount pool) - length existing) with 1 by lia.
  replace (length existing - Z.to_nat (vp_NodeCount pool)) with 0 by lia.
  cbn [scaleUp scaleDown]. apply wp_bind, wp_bind.
  eapply wp_mono; [|by apply provision_contract].
  intros o s1 m1 (node & err & -> & H1 & F1 & P1). destruct err as [e|]; simpl.
  { do 2 eexists. by split_and!. }
  destruct (P1 eq_refl) as (Hk & Hp & Hph & n' & V1 & Sv). do 2 eexists. split; [done|]. intros _.
  pose proof Hn0 as [Hv0 Hin]%map_lookup_filter_Some.
  rewrite Hv0 in Sv. destruct Sv as (_ & _ & _ & _ & Hpn & _).
  split.
  - unfold pool_members. rewrite (view_insert _ _ _ _ F1 V1).
    eapply members_same_size; [done| |exact Hn0]. rewrite Hpn. apply Hin.
  - intros Hall. unfold summarize, readyCount. rewrite List.filter_app, length_app.
    rewrite (all_ready_count _ _ Ht Hall). simpl. unfold countsReady. rewrite Hph. simpl.
    rewrite Hlen, <- Hc, int32_id by (unfold is_int32, int32_min; lia).
    by rewrite Z.eqb_refl.
Qed.

End Scaling.
