(* ===== verification/Execution.v ===== *)
(** Execution of tenant pods on the host cluster
    (internal/domain/service/execution_service.go). *)

From S2P Require Import Prelude GoProg Model PodModel Kube Ports Registrar.

Local Open Scope go_scope.

Record PodExecutionResult : Type := mkPodExecutionResult {
  er_SourcePods : Z;
  er_CreatedHostPods : Z;
  er_DeletedHostPods : Z;
  er_SyncedStatuses : Z
}.

Definition add_created (r : PodExecutionResult) : PodExecutionResult :=
  mkPodExecutionResult (er_SourcePods r) (er_CreatedHostPods r + 1) (er_DeletedHostPods r)
    (er_SyncedStatuses r).
Definition add_deleted (r : PodExecutionResult) : PodExecutionResult :=
  mkPodExecutionResult (er_SourcePods r) (er_CreatedHostPods r) (er_DeletedHostPods r + 1)
    (er_SyncedStatuses r).
Definition add_synced (r : PodExecutionResult) : PodExecutionResult :=
  mkPodExecutionResult (er_SourcePods r) (er_CreatedHostPods r) (er_DeletedHostPods r)
    (er_SyncedStatuses r + 1).

(** ** Tests and comparisons *)
Definition isIgnorableShutdownError (e : error) : bool :=
  errors_Is e ErrCanceled || errors_Is e ErrDeadlineExceeded.

Definition keyForPod (ns name : string) : string := ns +:+ "/" +:+ name.

Definition isTerminalPod (pod : CorePod) : bool :=
  bool_decide (cpst_Phase (cp_Status pod) = "Succeeded")
  || bool_decide (cpst_Phase (cp_Status pod) = "Failed").

Definition boolPtrEqual (a b : option bool) : bool :=
  match a, b with
  | None, None => true
  | Some x, Some y => Bool.eqb x y
  | _, _ => false
  end.

Definition normalizeServiceAccount (name : string) : string :=
  if bool_decide (name = "") then "default" else name.

Definition stringMapEqual (a b : gmap string string) : bool :=
  if (size a =? 0)%nat && (size b =? 0)%nat then true
  else if negb (size a =? size b)%nat then false
  else forallb (fun kv => bool_decide (map_get b kv.1 = kv.2)) (map_to_list a).

(** The index loops of the slice comparisons: equal lengths, then element by
    element. *)
Fixpoint all2 {A} (eq : A -> A -> bool) (a b : list A) : bool :=
  match a, b with
  | [], [] => true
  | x :: a', y :: b' => eq x y && all2 eq a' b'
  | _, _ => false
  end.

Definition stringSliceEqual : list string -> list string -> bool :=
  all2 (fun x y => bool_decide (x = y)).
Definition envVarsEqual : list EnvVar -> list EnvVar -> bool :=
  all2 (fun x y => bool_decide (x = y)).
Definition volumeMountsEqual : list VolumeMount -> list VolumeMount -> bool :=
  all2 (fun x y => bool_decide (x = y)).
Definition volumesEqual : list Volume -> list Volume -> bool :=
  all2 (fun x y => bool_decide (x = y)).

Definition containerEqual (a b : Container) : bool :=
  bool_decide (ct_Name a = ct_Name b) && bool_decide (ct_Image a = ct_Image b)
  && stringSliceEqual (ct_Command a) (ct_Command b) && stringSliceEqual (ct_Args a) (ct_Args b)
  && envVarsEqual (ct_Env a) (ct_Env b)
  && volumeMountsEqual (ct_VolumeMounts a) (ct_VolumeMounts b)
  && bool_decide (ct_Resources a = ct_Resources b).

Definition containersEqual : list Container -> list Container -> bool := all2 containerEqual.

Definition podSpecsEqual (a b : PodSpec) : bool :=
  bool_decide (ps_Name a = ps_Name b)
  && bool_decide (ps_Namespace a = ps_Namespace b)
  && bool_decide (normalizeServiceAccount (ps_ServiceAccountName a)
                  = normalizeServiceAccount (ps_ServiceAccountName b))
  && boolPtrEqual (ps_AutomountServiceAccountToken a) (ps_AutomountServiceAccountToken b)
  && bool_decide (ps_RuntimeClassName a = ps_RuntimeClassName b)
  && stringMapEqual (ps_Labels a) (ps_Labels b)
  && stringMapEqual (ps_NodeSelector a) (ps_NodeSelector b)
  && containersEqual (ps_Containers a) (ps_Containers b)
  && volumesEqual (ps_Volumes a) (ps_Volumes b).

Section Execution.
Context `{L : KubeLibs}.

(** ** Conversion of tenant pods *)
Definition envVarsFromCore (env : list CoreEnvVar) : list EnvVar :=
  map (fun e => mkEnvVar (cev_Name e) (cev_Value e)) env.

Definition volumeMountsFromCore (ms : list CoreVolumeMount) : list VolumeMount :=
  map (fun m => mkVolumeMount (cvm_Name m) (cvm_MountPath m) (cvm_ReadOnly m)) ms.

Definition resourceListFromCore (rl : gmap string Quantity) : ResourceList :=
  mkResourceList
    (match rl !! ResourceCPU with Some q => QuantityString q | None => "" end)
    (match rl !! ResourceMemory with Some q => QuantityString q | None => "" end)
    (match rl !! ResourcePods with Some q => int32 (QuantityValue q) | None => 0%Z end).

Definition volumeFromCore (v : CoreVolume) : Volume :=
  match cv_ConfigMap v with Some n => mkVolume (cv_Name v) VolumeTypeConfigMap n | None =>
  match cv_Secret v with Some n => mkVolume (cv_Name v) VolumeTypeSecret n | None =>
  match cv_PersistentVolumeClaim v with Some n => mkVolume (cv_Name v) VolumeTypePVC n | None =>
  match cv_EmptyDir v with Some _ => mkVolume (cv_Name v) VolumeTypeEmptyDir "" | None =>
  match cv_HostPath v with Some p => mkVolume (cv_Name v) VolumeTypeHostPath p | None =>
  match cv_Projected v with Some _ => mkVolume (cv_Name v) VolumeTypeProjected "" | None =>
    mkVolume (cv_Name v) VolumeTypeOther ""
  end end end end end end.

Definition containerFromCore (c : CoreContainer) : Container :=
  mkContainer (cc_Name c) (cc_Image c) (cc_Command c) (cc_Args c)
    (envVarsFromCore (cc_Env c)) (volumeMountsFromCore (cc_VolumeMounts c))
    (mkContainerResources (resourceListFromCore (cc_Requests c))
       (resourceListFromCore (cc_Limits c))).

Definition podFromCore (pod : CorePod) : PodSpec :=
  mkPodSpec (om_Name (cp_Meta pod)) (om_Namespace (cp_Meta pod)) (om_Labels (cp_Meta pod))
    (cps_NodeName (cp_Spec pod)) (map containerFromCore (cps_Containers (cp_Spec pod)))
    (map volumeFromCore (cps_Volumes (cp_Spec pod)))
    (cps_ServiceAccountName (cp_Spec pod)) None "" ∅ false.

(** ** Steps *)

(** The filter loop of [listTenantPodsForNodes]. *)
Definition keepTenantPod (ready : gmap string VNode) (pod : CorePod) : bool :=
  if bool_decide (map_get (om_Labels (cp_Meta pod)) LabelManagedBy = LabelManagedByValue) then false
  else match om_DeletionTimestamp (cp_Meta pod) with
       | Some _ => false
       | None => match ready !! cps_NodeName (cp_Spec pod) with Some _ => true | None => false end
       end.

Definition listTenantPodsForNodes (cs : Clientset) (ready : gmap string VNode)
    : go (res (list CorePod)) :=
  if (size ready =? 0)%nat then Ret (Ok [])
  else
    r <- call (List (Tenant cs) KPod "" ∅) ;;
    match r with
    | Err e => Ret (Err (ErrWrap "listing tenant pods: " e))
    | Ok items => Ret (Ok (List.filter (keepTenantPod ready) items))
    end.

(** [(created, deleted, err)]. *)
Definition ensureHostPod (host : ClusterClient) (pod : PodSpec) : go (bool * bool * option error) :=
  r <- GetPod host (ps_Namespace pod) (ps_Name pod) ;;
  match r with
  | Err e =>
      if IsNotFound e then c <- CreatePod host pod ;; Ret (true, false, c)
      else Ret (false, false, Some e)
  | Ok current =>
      if ps_Deleting current then Ret (false, false, Some ErrPodTerminating)
      else if podSpecsEqual current pod then Ret (false, false, None)
      else
        d <- DeletePod host (ps_Namespace pod) (ps_Name pod) ;;
        match d with
        | Some e => Ret (false, false, Some e)
        | None => Ret (false, true, Some ErrPodTerminating)
        end
  end.

Definition containerStatusToCore (cs : ContainerStatus) : CoreContainerStatus :=
  let st := cs_State cs in
  mkCoreContainerStatus (cs_Name cs) (cs_Ready cs) (cs_RestartCount cs)
    (if bool_decide (st = "waiting") then Some tt else None)
    (if bool_decide (st = "running") then Some tt else None)
    (if bool_decide (st = "terminated") then Some tt else None).

(** The fields [updateTenantPodStatus] overwrites on the fetched pod. *)
Definition setPodStatus (current : CorePod) (status : PodStatus) : CorePod :=
  mkCorePod (cp_Meta current) (cp_Spec current)
    (mkCorePodStatus (pst_Phase status) (pst_PodIP status) (pst_Message status)
       (pst_Reason status) (map containerStatusToCore (pst_ContainerStatuses status))
       (cpst_rest (cp_Status current))).

Definition updateTenantPodStatus (cs : Clientset) (ns name : string) (status : PodStatus)
    : go (option error) :=
  r <- call (Get (Tenant cs) KPod ns name) ;;
  match r with
  | Err e => Ret (Some e)
  | Ok current =>
      u <- call (StatusUpdate (Tenant cs) KPod (setPodStatus current status)) ;;
      Ret (res_err u)
  end.

(** The labels by which the operator finds its objects on the host. *)
Definition poolLabels (pool : VNodePool) : gmap string string :=
  <[LabelManagedBy := LabelManagedByValue]> (<[LabelVNodePool := vp_Name pool]> ∅).

(** The body of the loop of [syncPodResources]. *)
Definition syncResource (cs : Clientset) (host : ClusterClient) (pool : VNodePool)
    (ref : VolumeResourceRef) (_ : unit) : go (ctl unit error) :=
  let source := rf_SourceNamespace ref +:+ "/" +:+ rf_SourceName ref +:+ ": " in
  let target := vp_Namespace pool +:+ "/" +:+ rf_TargetName ref +:+ ": " in
  if bool_decide (rf_Type ref = VolumeTypeConfigMap) then
    r <- call (Get (Tenant cs) KConfigMap (rf_SourceNamespace ref) (rf_SourceName ref)) ;;
    match r with
    | Err e =>
        if IsNotFound e then Ret (Next tt)
        else Ret (Return (ErrWrap ("getting tenant ConfigMap " +:+ source) e))
    | Ok cm =>
        x <- EnsureConfigMap host (vp_Namespace pool) (rf_TargetName ref) (cm_Data cm)
               (cm_BinaryData cm) (poolLabels pool) ;;
        match x with
        | Some e => Ret (Return (ErrWrap ("ensuring host ConfigMap " +:+ target) e))
        | None => Ret (Next tt)
        end
    end
  else if bool_decide (rf_Type ref = VolumeTypeSecret) then
    r <- call (Get (Tenant cs) KSecret (rf_SourceNamespace ref) (rf_SourceName ref)) ;;
    match r with
    | Err e =>
        if IsNotFound e then Ret (Next tt)
        else Ret (Return (ErrWrap ("getting tenant Secret " +:+ source) e))
    | Ok secret =>
        x <- EnsureSecret host (vp_Namespace pool) (rf_TargetName ref) (se_Data secret)
               (poolLabels pool) ;;
        match x with
        | Some e => Ret (Return (ErrWrap ("ensuring host Secret " +:+ target) e))
        | None => Ret (Next tt)
        end
    end
  else Ret (Next tt).

Definition syncPodResources (cs : Clientset) (host : ClusterClient) (translation : PodTranslation)
    (pool : VNodePool) : go (option error) :=
  c <- for_range (ResourceRefs translation) tt (syncResource cs host pool) ;;
  match c with
  | Return e => Ret (Some e)
  | Next _ => Ret None
  end.

(** The answer to an error met in the loop: nil when the context is done. *)
Definition stop (result : PodExecutionResult) (prefix : string) (e : error)
    : PodExecutionResult * option error :=
  if isIgnorableShutdownError e then (result, None) else (result, Some (ErrWrap prefix e)).

(** ** The loops of [ReconcilePool] *)
Section Pool.
Variable host : ClusterClient.
Variable translator : PodTranslator.

Abbreviation acc := (PodExecutionResult * gset string)%type.
Abbreviation answer := (PodExecutionResult * option error)%type.

Definition podRef (ns name : string) : string := ns +:+ "/" +:+ name +:+ ": ".

(** From [isTerminalPod(sourcePod)] (the second test) to the end of the body. *)
Definition finishTerminal (sourcePod : CorePod) (target : PodSpec) (result : PodExecutionResult)
    (desired : gset string) : go (ctl acc answer) :=
  if isTerminalPod sourcePod then
    d <- DeletePod host (ps_Namespace target) (ps_Name target) ;;
    match d with
    | Some e =>
        Ret (Return (stop result ("deleting host pod for terminal source pod " +:+
          podRef (om_Namespace (cp_Meta sourcePod)) (om_Name (cp_Meta sourcePod))) e))
    | None => Ret (Next (add_deleted result, desired))
    end
  else Ret (Next (result, desired)).

(** From [GetPodStatus] on. *)
Definition syncHostStatus (cs : Clientset) (sourcePod : CorePod) (target : PodSpec)
    (result : PodExecutionResult) (desired : gset string) : go (ctl acc answer) :=
  let srcNS := om_Namespace (cp_Meta sourcePod) in
  let srcName := om_Name (cp_Meta sourcePod) in
  h <- GetPodStatus host (ps_Namespace target) (ps_Name target) ;;
  match h with
  | Err e =>
      if IsNotFound e then finishTerminal sourcePod target result desired
      else Ret (Return (stop result ("getting host pod status for " +:+
             podRef (ps_Namespace target) (ps_Name target)) e))
  | Ok hostStatus =>
      y <- SyncStatus translator hostStatus ;;
      match y with
      | Err e => Ret (Return (stop result ("syncing host status for " +:+ podRef srcNS srcName) e))
      | Ok synced =>
          u <- updateTenantPodStatus cs srcNS srcName synced ;;
          match u with
          | Some e =>
              Ret (Return (stop result ("updating tenant pod status for " +:+
                podRef srcNS srcName) e))
          | None => finishTerminal sourcePod target (add_synced result) desired
          end
      end
  end.

(** The body of the loop over the tenant pods. *)
Definition processPod (cs : Clientset) (pool : VNodePool) (sourcePod : CorePod) (a : acc)
    : go (ctl acc answer) :=
  let '(result, desired) := a in
  let srcNS := om_Namespace (cp_Meta sourcePod) in
  let srcName := om_Name (cp_Meta sourcePod) in
  t <- Translate translator (podFromCore sourcePod) pool (cps_NodeName (cp_Spec sourcePod)) ;;
  match t with
  | Err e => Ret (Return (result, Some (ErrWrap ("translating pod " +:+ podRef srcNS srcName) e)))
  | Ok translation =>
      let target := pt_TargetPod translation in
      let desired := {[ keyForPod (ps_Namespace target) (ps_Name target) ]} ∪ desired in
      x <- syncPodResources cs host translation pool ;;
      match x with
      | Some e =>
          Ret (Return (stop result ("syncing resources for pod " +:+ podRef srcNS srcName) e))
      | None =>
          if isTerminalPod sourcePod then syncHostStatus cs sourcePod target result desired
          else
            let* (created, deleted, err) := ensureHostPod host target in
            match err with
            | Some e =>
                if errors_Is e ErrPodTerminating then
                  Ret (Next ((if deleted : bool then add_deleted result else result), desired))
                else Ret (Return (stop result ("ensuring host pod for " +:+ podRef srcNS srcName) e))
            | None =>
                let result := if created : bool then add_created result else result in
                let result := if deleted : bool then add_deleted result else result in
                syncHostStatus cs sourcePod target result desired
            end
      end
  end.

(** The body of the loop over the host pods that removes orphans. *)
Definition removeOrphan (desired : gset string) (hostPod : PodSpec) (result : PodExecutionResult)
    : go (ctl PodExecutionResult answer) :=
  if bool_decide (keyForPod (ps_Namespace hostPod) (ps_Name hostPod) ∈ desired) then
    Ret (Next result)
  else
    d <- DeletePod host (ps_Namespace hostPod) (ps_Name hostPod) ;;
    match d with
    | Some e =>
        Ret (Return (stop result ("deleting orphaned host pod " +:+
          podRef (ps_Namespace hostPod) (ps_Name hostPod)) e))
    | None => Ret (Next (add_deleted result))
    end.

Definition cleanupOrphans (pool : VNodePool) (result : PodExecutionResult) (desired : gset string)
    : go answer :=
  l <- ListPodsByLabels host (vp_Namespace pool) (poolLabels pool) ;;
  match l with
  | Err e => Ret (stop result "listing host pods for cleanup: " e)
  | Ok hostPods =>
      c <- for_range hostPods result (removeOrphan desired) ;;
      match c with
      | Return r => Ret r
      | Next result => Ret (result, None)
      end
  end.

Definition readyNodes (nodes : list VNode) : gmap string VNode :=
  fold_left (fun m n => if IsReady n then <[vn_Name n := n]> m else m) nodes ∅.

Definition ReconcilePool (nodeRepo : NodeRepository) (resolver : KubeconfigResolver)
    (pool : VNodePool) : go answer :=
  let result := mkPodExecutionResult 0 0 0 0 in
  c <- GetClient resolver (vp_TenantRef pool) ;;
  match c with
  | Err e => Ret (result, if isIgnorableShutdownError e then None else Some e)
  | Ok clientset =>
      l <- nodes_ListByPool nodeRepo (vp_Namespace pool) (vp_Name pool) ;;
      match l with
      | Err e => Ret (stop result "listing pool nodes: " e)
      | Ok nodes =>
          p <- listTenantPodsForNodes clientset (readyNodes nodes) ;;
          match p with
          | Err e => Ret (result, if isIgnorableShutdownError e then None else Some e)
          | Ok sourcePods =>
              let result := mkPodExecutionResult (Z.of_nat (length sourcePods)) 0 0 0 in
              b <- for_range sourcePods (result, ∅) (processPod clientset pool) ;;
              match b with
              | Return r => Ret r
              | Next (result, desired) => cleanupOrphans pool result desired
              end
          end
      end
  end.

(** The body of the loop of [CleanupPoolPods]. *)
Definition cleanupPod (pod : PodSpec) (deleted : Z) : go (ctl Z (Z * option error)) :=
  d <- DeletePod host (ps_Namespace pod) (ps_Name pod) ;;
  match d with
  | Some e =>
      if isIgnorableShutdownError e then Ret (Return (deleted, None))
      else Ret (Return (deleted, Some e))
  | None => Ret (Next (deleted + 1)%Z)
  end.

Definition CleanupPoolPods (pool : VNodePool) : go (Z * option error) :=
  l <- ListPodsByLabels host (vp_Namespace pool) (poolLabels pool) ;;
  match l with
  | Err e => if isIgnorableShutdownError e then Ret (0%Z, None) else Ret (0%Z, Some e)
  | Ok pods =>
      c <- for_range pods 0%Z cleanupPod ;;
      match c with
      | Return r => Ret r
      | Next deleted => Ret (deleted, None)
      end
  end.

End Pool.
End Execution.
