(* ===== verification/HostPods.v ===== *)
(** Drift detection of host pods: what the comparison of
    execution_service.go decides, and that a pod read back from the API server
    compares equal to the translation it was created from. *)

From S2P Require Import Prelude GoProg Model PodModel Kube Libs Ports PodClient PodService.
From S2P Require Import Execution.

(** ** Reflection of the comparisons *)

Lemma all2_eq `{EqDecision A} (a b : list A) :
  all2 (fun x y => bool_decide (x = y)) a b = bool_decide (a = b).
Proof.
  revert b. induction a as [|x a IH]; intros [|y b]; simpl; try done.
  rewrite IH. repeat case_bool_decide; simplify_eq/=; naive_solver.
Qed.

Lemma containerEqual_eq (a b : Container) : containerEqual a b = bool_decide (a = b).
Proof.
  unfold containerEqual, stringSliceEqual, envVarsEqual, volumeMountsEqual.
  rewrite !all2_eq. destruct a, b; simpl.
  repeat case_bool_decide; simpl; congruence.
Qed.

Lemma containersEqual_eq (a b : list Container) : containersEqual a b = bool_decide (a = b).
Proof.
  revert b. unfold containersEqual.
  induction a as [|x a IH]; intros [|y b]; simpl; try done.
  rewrite IH, containerEqual_eq. repeat case_bool_decide; simplify_eq/=; naive_solver.
Qed.

Lemma volumesEqual_eq (a b : list Volume) : volumesEqual a b = bool_decide (a = b).
Proof. apply all2_eq. Qed.

Lemma boolPtrEqual_eq (a b : option bool) : boolPtrEqual a b = bool_decide (a = b).
Proof. by destruct a as [[]|], b as [[]|]. Qed.

Lemma stringMapEqual_refl (a : gmap string string) : stringMapEqual a a = true.
Proof.
  unfold stringMapEqual. rewrite Nat.eqb_refl. simpl. case_match; [done|].
  apply forallb_forall. intros [k v] Hin%list_elem_of_In%elem_of_map_to_list. simpl.
  apply bool_decide_eq_true. unfold map_get. by rewrite Hin.
Qed.

Lemma stringMapEqual_sizes (a b : gmap string string) :
  stringMapEqual a b = true -> size a = size b.
Proof.
  unfold stringMapEqual.
  destruct (Nat.eqb_spec (size a) 0), (Nat.eqb_spec (size b) 0); simpl; try lia;
    destruct (Nat.eqb_spec (size a) (size b)); simpl; lia || done.
Qed.

Lemma stringMapEqual_values (a b : gmap string string) k v :
  stringMapEqual a b = true -> a !! k = Some v -> map_get b k = v.
Proof.
  unfold stringMapEqual. intros H Hk.
  destruct (Nat.eqb_spec (size a) 0) as [H0|H0].
  { apply map_size_empty_inv in H0. subst. by rewrite lookup_empty in Hk. }
  simpl in H. destruct (size a =? size b)%nat; [|done]. simpl in H.
  rewrite forallb_forall in H. apply elem_of_map_to_list in Hk.
  apply list_elem_of_In in Hk. specialize (H _ Hk). by apply bool_decide_eq_true in H.
Qed.

(** On maps without empty values the comparison is equality. *)
Lemma stringMapEqual_eq (a b : gmap string string) :
  map_Forall (fun _ v => v <> "") a -> stringMapEqual a b = true -> a = b.
Proof.
  intros Hne H. apply map_subseteq_size_eq.
  - apply map_subseteq_spec. intros k v Hk.
    pose proof (stringMapEqual_values a b k v H Hk) as Hv. unfold map_get in Hv.
    destruct (b !! k) as [v'|]; simpl in Hv; [by subst|].
    exfalso. by apply (Hne k v Hk).
  - apply stringMapEqual_sizes in H. lia.
Qed.

(** The fields [podSpecsEqual] looks at, up to the default service account. *)
Definition samePodSpec (a b : PodSpec) : Prop :=
  ps_Name a = ps_Name b /\ ps_Namespace a = ps_Namespace b /\
  normalizeServiceAccount (ps_ServiceAccountName a) =
    normalizeServiceAccount (ps_ServiceAccountName b) /\
  ps_AutomountServiceAccountToken a = ps_AutomountServiceAccountToken b /\
  ps_RuntimeClassName a = ps_RuntimeClassName b /\
  ps_Labels a = ps_Labels b /\ ps_NodeSelector a = ps_NodeSelector b /\
  ps_Containers a = ps_Containers b /\ ps_Volumes a = ps_Volumes b.

Lemma samePodSpec_equal a b : samePodSpec a b -> podSpecsEqual a b = true.
Proof.
  intros (? & ? & ? & ? & ? & Hl & Hs & ? & ?). unfold podSpecsEqual.
  rewrite Hl, Hs, !stringMapEqual_refl, containersEqual_eq, volumesEqual_eq, boolPtrEqual_eq.
  by rewrite !bool_decide_true.
Qed.

(** C31: Drift detection is exact on pods whose labels and selectors have no empty
    value: the comparison accepts precisely the pods that agree on every
    compared field. *)
Theorem podSpecsEqual_iff (a b : PodSpec) :
  map_Forall (fun _ v => v <> "") (ps_Labels a) ->
  map_Forall (fun _ v => v <> "") (ps_NodeSelector a) ->
  podSpecsEqual a b = true <-> samePodSpec a b.
Proof.
  intros Hl Hs. split; [|apply samePodSpec_equal].
  unfold podSpecsEqual. rewrite containersEqual_eq, volumesEqual_eq, boolPtrEqual_eq.
  intros H. repeat (apply andb_true_iff in H as [H ?]).
  repeat match goal with
  | H : bool_decide _ = true |- _ => apply bool_decide_eq_true in H
  end.
  repeat split; try done; by apply stringMapEqual_eq.
Qed.

Lemma podSpecsEqual_iff_witness :
  podSpecsEqual (sample_pod "a" "b") (sample_pod "a" "b") = true <->
  samePodSpec (sample_pod "a" "b") (sample_pod "a" "b").
Proof.
  apply (podSpecsEqual_iff (sample_pod "a" "b") (sample_pod "a" "b")).
  - apply map_Forall_singleton. discriminate.
  - apply map_Forall_empty.
Defined.

(** With empty values it is not: two pods whose label keys differ compare
    equal, so that such a drift is never repaired. *)
Theorem podSpecsEqual_misses_drift :
  exists a b : PodSpec, podSpecsEqual a b = true /\ ps_Labels a <> ps_Labels b.
Proof.
  exists (mkPodSpec "p" "n" {["x" := ""]} "" [] [] "" None "" ∅ false).
  exists (mkPodSpec "p" "n" {["y" := ""]} "" [] [] "" None "" ∅ false).
  split; [reflexivity|]. simpl. intros H.
  apply (f_equal (fun m : gmap string string => m !! "x")) in H. by simplify_map_eq.
Qed.

(** ** Round trip through the API's pod *)
Section Roundtrip.
Context `{L : KubeLibs} {LL : KubeLibsLaws}.

(** A text is absent or the canonical text of a quantity. *)
Definition canonicalText (s : string) : Prop := s = "" \/ exists q, s = QuantityString q.

Definition canonicalResources (r : ResourceList) : Prop :=
  canonicalText (rl_CPU r) /\ canonicalText (rl_Memory r) /\ rl_Pods r = 0%Z.

(** A volume that has a source only where its kind has one. *)
Definition canonicalVolume (v : Volume) : Prop :=
  vo_Type v ∈ [VolumeTypeConfigMap; VolumeTypeSecret; VolumeTypePVC; VolumeTypeHostPath] \/
  vo_Type v ∈ [VolumeTypeEmptyDir; VolumeTypeProjected; VolumeTypeOther] /\ vo_Source v = "".

Definition canonicalPod (p : PodSpec) : Prop :=
  ps_Deleting p = false /\
  Forall (fun c => canonicalResources (cr_Requests (ct_Resources c)) /\
                   canonicalResources (cr_Limits (ct_Resources c))) (ps_Containers p) /\
  Forall canonicalVolume (ps_Volumes p).

Lemma parse_entry_canonical key text out :
  canonicalText text -> exists out', parse_entry key text out = Some out' /\
    (match out' !! key with Some q => QuantityString q | None => "" end) =
      (if bool_decide (text = "") then match out !! key with Some q => QuantityString q | None => "" end
       else text) /\
    forall k, k <> key -> out' !! k = out !! k.
Proof.
  unfold parse_entry. intros [->|[q ->]].
  - by exists out.
  - rewrite !bool_decide_false by apply QuantityString_nonempty.
    destruct (MustParse_String q) as (q' & Hp & Hq). rewrite Hp. simpl.
    eexists. split; [done|]. rewrite lookup_insert_eq. split; [done|].
    intros k Hk. by rewrite lookup_insert_ne.
Qed.

Lemma resourceList_roundtrip r :
  canonicalResources r -> exists k, resourceListToK8s r = Some k /\ resourceListFromK8s k = r.
Proof.
  intros (Hc & Hm & Hp). unfold resourceListToK8s, resourceListFromK8s.
  destruct (parse_entry_canonical ResourceCPU (rl_CPU r) ∅ Hc) as (o1 & E1 & C1 & N1).
  rewrite E1. simpl.
  destruct (parse_entry_canonical ResourceMemory (rl_Memory r) o1 Hm) as (o2 & E2 & C2 & N2).
  exists o2. split; [done|].
  rewrite (N2 ResourceCPU), (N2 ResourcePods), (N1 ResourcePods) by done.
  rewrite (N1 ResourceMemory) in C2 by done.
  rewrite lookup_empty in C1, C2. rewrite lookup_empty, C1, C2.
  destruct r as [c m p]; simpl in *. repeat case_bool_decide; congruence.
Qed.

Lemma volume_roundtrip v : canonicalVolume v -> volumeFromK8s (volumeToK8s v) = v.
Proof.
  destruct v as [n ty src]. unfold canonicalVolume; simpl.
  intros [H|[H ->]]; repeat (apply elem_of_cons in H as [->|H]; [reflexivity|]);
    by apply not_elem_of_nil in H.
Qed.

Lemma env_roundtrip env : envFromK8s (envToK8s env) = env.
Proof. induction env as [|[n v] env IH]; [done|]. exact (f_equal (cons _) IH). Qed.

Lemma mounts_roundtrip ms : volumeMountsFromK8s (volumeMountsToK8s ms) = ms.
Proof. induction ms as [|[n p r] ms IH]; [done|]. exact (f_equal (cons _) IH). Qed.

Lemma container_roundtrip c :
  canonicalResources (cr_Requests (ct_Resources c)) ->
  canonicalResources (cr_Limits (ct_Resources c)) ->
  exists k, containerToK8s c = Some k /\ containerFromK8s k = c.
Proof.
  intros Hr Hl. unfold containerToK8s.
  destruct (resourceList_roundtrip _ Hr) as (kr & -> & Er).
  destruct (resourceList_roundtrip _ Hl) as (kl & -> & El). simpl.
  eexists. split; [done|]. unfold containerFromK8s; simpl.
  rewrite env_roundtrip, mounts_roundtrip, Er, El. by destruct c as [? ? ? ? ? ? []].
Qed.

Lemma containers_roundtrip cs :
  Forall (fun c => canonicalResources (cr_Requests (ct_Resources c)) /\
                   canonicalResources (cr_Limits (ct_Resources c))) cs ->
  exists ks, mapM containerToK8s cs = Some ks /\ map containerFromK8s ks = cs.
Proof.
  induction 1 as [|c cs [Hr Hl] _ IH]; [by exists []|].
  destruct IH as (ks & Hks & IH). destruct (container_roundtrip c Hr Hl) as (k & Hk & Hc).
  exists (k :: ks). split.
  - apply mapM_Some. constructor; [done|]. by apply mapM_Some.
  - simpl. by rewrite Hc, IH.
Qed.

Lemma volumes_roundtrip vs :
  Forall canonicalVolume vs -> map volumeFromK8s (map volumeToK8s vs) = vs.
Proof. induction 1 as [|v vs Hv _ IH]; simpl; [done|]. by rewrite volume_roundtrip, IH. Qed.

Lemma pod_roundtrip p :
  canonicalPod p -> exists k, podSpecToK8sPod p = Some k /\ podToSpec k = p.
Proof.
  intros (Hd & Hc & Hv). unfold podSpecToK8sPod.
  destruct (containers_roundtrip _ Hc) as (ks & -> & Hks). simpl.
  eexists. split; [done|]. unfold podToSpec; simpl.
  rewrite Hks, volumes_roundtrip by done.
  destruct p as [? ? ? ? ? ? ? ? rc ? d]; simpl in *. subst. f_equal.
  unfold stringPtrOrNil. by case_bool_decide.
Qed.

(** C18: A domain pod whose quantities are in canonical form survives the
    conversion to the API's pod and back, field for field. *)
Theorem podSpec_roundtrip (p : PodSpec) :
  canonicalPod p -> exists k, podSpecToK8sPod p = Some k /\ podToSpec k = p.
Proof. apply pod_roundtrip. Qed.

(** ** Translated pods *)

(** No container asks for the [pods] resource, which only nodes have. *)
Definition noPodsResource (pod : CorePod) : Prop :=
  Forall (fun c => cc_Requests c !! ResourcePods = None /\ cc_Limits c !! ResourcePods = None)
    (cps_Containers (cp_Spec pod)).

Lemma resourceListFromCore_canonical r :
  r !! ResourcePods = None -> canonicalResources (resourceListFromCore r).
Proof.
  intros H. unfold canonicalResources, resourceListFromCore; simpl. rewrite H.
  repeat split; unfold canonicalText; case_match; eauto.
Qed.

Lemma volumeFromCore_canonical v : canonicalVolume (volumeFromCore v).
Proof.
  unfold canonicalVolume, volumeFromCore.
  repeat case_match; simpl; (left; set_solver) || (right; split; [set_solver|done]).
Qed.

Lemma namespaceVolume_canonical ns v : canonicalVolume v -> canonicalVolume (namespaceVolume ns v).
Proof.
  unfold namespaceVolume. case_bool_decide; [|done]. intros _. left. simpl. set_solver.
Qed.

Lemma translated_canonical pod opts :
  noPodsResource pod -> canonicalPod (pt_TargetPod (TranslatePod (podFromCore pod) opts)).
Proof.
  intros Hr. split; [done|]. simpl. split.
  - unfold translateContainers. rewrite !Forall_map. eapply Forall_impl; [exact Hr|].
    simpl. intros c [H1 H2]. by split; apply resourceListFromCore_canonical.
  - rewrite filterVolumes_spec. apply Forall_forall. intros v.
    rewrite list_elem_of_fmap. intros (v' & -> & Hv). apply list_elem_of_filter in Hv as [_ Hv].
    apply list_elem_of_fmap in Hv as (w & -> & _).
    apply namespaceVolume_canonical, volumeFromCore_canonical.
Qed.

(** What the API server and the scheduler may do to a pod they admit: set the
    default service account, assign a node, fill status and other metadata. *)
Definition admitted (k k' : CorePod) : Prop :=
  om_Name (cp_Meta k') = om_Name (cp_Meta k) /\
  om_Namespace (cp_Meta k') = om_Namespace (cp_Meta k) /\
  om_Labels (cp_Meta k') = om_Labels (cp_Meta k) /\
  om_DeletionTimestamp (cp_Meta k') = None /\
  normalizeServiceAccount (cps_ServiceAccountName (cp_Spec k')) =
    normalizeServiceAccount (cps_ServiceAccountName (cp_Spec k)) /\
  cps_AutomountServiceAccountToken (cp_Spec k') = cps_AutomountServiceAccountToken (cp_Spec k) /\
  cps_RuntimeClassName (cp_Spec k') = cps_RuntimeClassName (cp_Spec k) /\
  cps_NodeSelector (cp_Spec k') = cps_NodeSelector (cp_Spec k) /\
  cps_Containers (cp_Spec k') = cps_Containers (cp_Spec k) /\
  cps_Volumes (cp_Spec k') = cps_Volumes (cp_Spec k).

Lemma admitted_same k k' : admitted k k' -> samePodSpec (podToSpec k') (podToSpec k).
Proof.
  intros (E1 & E2 & E3 & _ & E5 & E6 & E7 & E8 & E9 & E10).
  unfold samePodSpec, podToSpec; simpl. by rewrite E1, E2, E3, E5, E6, E7, E8, E9, E10.
Qed.

(** The environment in which the host holds [k] and nothing may be written. *)
Definition read_only (k : CorePod) : spec api unit :=
  mkSpec
    (fun R c _ => match c with
      | Get HostClient kd ns name =>
          match kd with
          | KPod => ns = om_Namespace (cp_Meta k) /\ name = om_Name (cp_Meta k)
          | _ => False
          end
      | _ => False
      end)
    (fun R c _ r _ => match c in api R return R -> Prop with
      | Get HostClient kd _ _ =>
          match kd in kind T return res T -> Prop with
          | KPod => fun r => r = Ok k
          | _ => fun _ => True
          end
      | _ => fun _ => True
      end r).


(** ** Status *)

Lemma containerState_roundtrip cs :
  containerState (containerStatusToCore
    (mkContainerStatus (ccs_Name cs) (ccs_Ready cs) (ccs_RestartCount cs) (containerState cs))) =
  containerState cs.
Proof. destruct cs as [? ? ? [] [] []]; reflexivity. Qed.

(** After a status sync the tenant's pod shows exactly the host's status. *)
Lemma status_synced (current hostPod : CorePod) :
  podToStatus (setPodStatus current (podToStatus hostPod)) = podToStatus hostPod.
Proof.
  unfold podToStatus, setPodStatus; simpl. f_equal.
  induction (cpst_ContainerStatuses (cp_Status hostPod)) as [|cs css IH]; simpl; [done|].
  f_equal; [|exact IH]. f_equal. apply containerState_roundtrip.
Qed.

End Roundtrip.

(** A tenant pod with one container, a ConfigMap and a token volume. *)
Definition sample_core_pod : CorePod :=
  mkCorePod (newMeta "web" "app" {[ "app" := "web" ]} ∅)
    (mkCorePodSpec "vnode-pool-1" "default" None None ∅
       [mkCoreContainer "c" "nginx" [] ["-g"] [mkCoreEnvVar "K" "v" None]
          [mkCoreVolumeMount "cfg" "/etc/cfg" true;
           mkCoreVolumeMount "token" "/var/run/secrets/kubernetes.io/serviceaccount" true]
          {[ ResourceCPU := mkQuantity "500m" ]} ∅]
       [mkCoreVolume "cfg" (Some "web-cfg") None None None None None;
        mkCoreVolume "token" None None None None None (Some tt)] "")
    (mkCorePodStatus "Pending" "" "" "" [] "").

Definition sample_target : PodSpec :=
  pt_TargetPod (TranslatePod (@podFromCore simple_libs sample_core_pod) sample_opts).

Lemma sample_no_pods : noPodsResource sample_core_pod.
Proof. repeat constructor. Qed.

Lemma podSpec_roundtrip_witness :
  exists k, @podSpecToK8sPod simple_libs sample_target = Some k /\
    @podToSpec simple_libs k = sample_target.
Proof.
  apply (@podSpec_roundtrip simple_libs simple_libs_laws sample_target).
  apply (@translated_canonical simple_libs simple_libs_laws sample_core_pod sample_opts).
  exact sample_no_pods.
Defined.

