(* ===== verification/Shutdown.v ===== *)
(** Behaviour when the context of a reconcile is cancelled or expires: which
    operations report such an error and which end quietly.  The statements hold
    for every implementation of the ports and every reply of the environment. *)

From S2P Require Import Prelude GoProg Model PodModel Kube Ports Registrar PodService.
From S2P Require Import NodeService Execution.

(** The outcome carries no error of a finished context. *)
Definition quiet {A} (o : outcome (A * option error)) : Prop :=
  match o with
  | Done (_, Some e) => is_context_error e = false
  | _ => True
  end.
Definition quiet1 (o : outcome (option error)) : Prop :=
  match o with
  | Done (Some e) => is_context_error e = false
  | _ => True
  end.

(** Go on after a program of which nothing is known. *)
Ltac wp_skip := apply wp_any; [done|]; intros [?|?] [] ?; [|exact I].

Section Shutdown.
Context `{L : KubeLibs}.

Lemma stop_quiet r prefix e : quiet (Done (stop r prefix e)).
Proof.
  unfold stop. change (isIgnorableShutdownError e) with (is_context_error e).
  destruct (is_context_error e) eqn:He; simpl; [done|]. by rewrite is_context_error_wrap.
Qed.

Lemma guard_quiet {A} (a : A) e :
  quiet (Done (a, if isIgnorableShutdownError e then None else Some e)).
Proof.
  change (isIgnorableShutdownError e) with (is_context_error e).
  by destruct (is_context_error e) eqn:He.
Qed.

Section Pool.
Variable host : ClusterClient.
Variable runtime : IsolationRuntime.

(** What a loop body may do: go on, or leave with a quiet answer. *)
Definition quiet_ctl {S A} (o : outcome (ctl S (A * option error))) (_ : unit) (_ : mem) : Prop :=
  match o with
  | Done (Return r) => quiet (Done r)
  | _ => True
  end.

Lemma finishTerminal_quiet src target r d m :
  wp chaos (finishTerminal host src target r d) tt m quiet_ctl.
Proof.
  unfold finishTerminal. wp_step; [|done]. wp_step. wp_skip.
  destruct a as [e|]; simpl; [apply stop_quiet|done].
Qed.

Lemma syncHostStatus_quiet cs src target r d m :
  wp chaos (syncHostStatus host (PodService runtime) cs src target r d) tt m quiet_ctl.
Proof.
  unfold syncHostStatus. wp_step. wp_skip. destruct a as [st|e].
  - cbn [SyncStatus PodService SyncPodStatus bind]. wp_step. wp_skip.
    destruct a as [e|]; [apply stop_quiet|apply finishTerminal_quiet].
  - wp_step; [apply finishTerminal_quiet|apply stop_quiet].
Qed.

Lemma processPod_quiet cs pool src a m :
  wp chaos (processPod host (PodService runtime) cs pool src a) tt m quiet_ctl.
Proof.
  unfold processPod. destruct a as [r d].
  cbn [Translate PodService TranslateForPool bind]. wp_step. wp_skip.
  destruct a as [e|]; [apply stop_quiet|].
  wp_step; [apply syncHostStatus_quiet|].
  wp_step. wp_skip. destruct a as [[c dl] [e|]]; [|apply syncHostStatus_quiet].
  wp_step; [done|apply stop_quiet].
Qed.

Lemma removeOrphan_quiet desired pod r m :
  wp chaos (removeOrphan host desired pod r) tt m quiet_ctl.
Proof.
  unfold removeOrphan. wp_step; [done|]. wp_step. wp_skip.
  destruct a as [e|]; [apply stop_quiet|done].
Qed.

(** A loop of quiet bodies is quiet. *)
Lemma for_range_quiet {X S A} (body : X -> S -> go (ctl S (A * option error))) xs st m :
  (forall x st m, wp chaos (body x st) tt m quiet_ctl) ->
  wp chaos (for_range xs st body) tt m quiet_ctl.
Proof.
  intros Hb. apply (wp_for_range chaos (fun _ _ _ _ _ => True) body _) with (pref := []); [|done..].
  intros pref x suf st' [] m' _. eapply wp_mono; [|apply Hb].
  by intros [[]|] [] ?.
Qed.

Lemma cleanupOrphans_quiet pool r d m :
  wp chaos (cleanupOrphans host pool r d) tt m (fun o _ _ => quiet o).
Proof.
  unfold cleanupOrphans. wp_step. wp_skip. destruct a as [pods|e]; [|apply stop_quiet].
  wp_step. eapply wp_mono; [|apply for_range_quiet, removeOrphan_quiet].
  intros [[r'|r']|msg] [] ? H; done.
Qed.

(** The pod execution of a pool never returns the error of a cancelled or
    expired context: on shutdown it ends without an error, so that no failure
    is counted, recorded or written to the pool's conditions. *)
Lemma ReconcilePool_hides_context_errors (repo : NodeRepository)
    (resolver : KubeconfigResolver) (pool : VNodePool) (m : mem) :
  wp chaos (ReconcilePool host (PodService runtime) repo resolver pool) tt m
    (fun o _ _ => quiet o).
Proof.
  unfold ReconcilePool. wp_step. wp_skip. destruct a as [cs|e]; [|apply guard_quiet].
  wp_step. wp_skip. destruct a as [nodes|e]; [|apply stop_quiet].
  wp_step. wp_skip. destruct a as [pods|e]; [|apply guard_quiet].
  wp_step. eapply wp_mono; [|apply for_range_quiet; intros; apply processPod_quiet].
  intros [[[r d]|r]|msg] [] ? H; [apply cleanupOrphans_quiet|done..].
Qed.

(** So does the removal of a deleted pool's host pods. *)
Lemma CleanupPoolPods_hides_context_errors (pool : VNodePool) (m : mem) :
  wp chaos (CleanupPoolPods host pool) tt m (fun o _ _ => quiet o).
Proof.
  unfold CleanupPoolPods. wp_step. wp_skip. destruct a as [pods|e].
  - wp_step. eapply wp_mono; [|apply for_range_quiet].
    + intros [[r'|r']|msg] [] ? H; done.
    + intros pod d ?. unfold cleanupPod. wp_step. wp_skip.
      destruct a as [e|]; [|done]. wp_step; simpl; done.
  - wp_step; done.
Qed.
End Pool.

(** The status update of a node never returns the error of a finished context
    either, in any phase and on any path. *)
Lemma UpdateNode_hides_context_errors (repo : NodeRepository) (registrar : NodeRegistrar)
    (node : VNode) (m : mem) :
  wp chaos (UpdateNode repo registrar node) tt m (fun o _ _ => quiet1 o).
Proof.
  assert (forall e : error, isIgnorableStatusError e = is_context_error e) as Hi by done.
  assert (forall m, wp chaos (saveReady repo node) tt m (fun o _ _ => quiet1 o)) as Hs.
  { intros m'. unfold saveReady. wp_step. wp_skip. destruct a as [e|]; [|done].
    wp_step; done. }
  unfold UpdateNode. wp_step; [done|]. wp_step.
  - unfold retryRegistration. wp_step. wp_skip. destruct a as [e|]; [|apply Hs].
    wp_step; [done|]. rewrite Hi in *.
    wp_step; [|simpl; by rewrite is_context_error_wrap].
    wp_step. wp_skip. destruct a as [e'|]; [|simpl; by rewrite is_context_error_wrap].
    wp_step; simpl; [done|]. by rewrite is_context_error_wrap.
  - unfold refreshStatus. wp_step. wp_skip. destruct a as [e|].
    + wp_step; [done|]. rewrite Hi in *. wp_step. wp_skip.
      destruct a as [e'|]; [|simpl; by rewrite is_context_error_wrap].
      wp_step; simpl; [done|]. by rewrite is_context_error_wrap.
    + wp_step; [done|]. apply Hs.
Qed.

(** C24: On shutdown nothing is reported as a failure: whatever the host, the
    repository, the registrar and the servers reply, neither a pass of the pod
    execution, nor the cleanup of host pods, nor the status update of a node
    returns the error of a cancelled or expired context. *)
Theorem context_errors_hidden (host : ClusterClient) (runtime : IsolationRuntime)
    (repo : NodeRepository) (resolver : KubeconfigResolver) (registrar : NodeRegistrar)
    (pool : VNodePool) (node : VNode) (m : mem) :
  wp chaos (ReconcilePool host (PodService runtime) repo resolver pool) tt m
    (fun o _ _ => quiet o) /\
  wp chaos (CleanupPoolPods host pool) tt m (fun o _ _ => quiet o) /\
  wp chaos (UpdateNode repo registrar node) tt m (fun o _ _ => quiet1 o).
Proof.
  split_and!; [apply ReconcilePool_hides_context_errors|apply CleanupPoolPods_hides_context_errors|
    apply UpdateNode_hides_context_errors].
Qed.

End Shutdown.
