(* ===== verification/PoolReconciler.v ===== *)
(** The controller of VNodePool resources
    (internal/adapter/inbound/reconciler/vnodepool_reconciler.go): finalizer,
    validation, scaling through the pool manager, status conditions, deletion. *)

From S2P Require Import Prelude GoProg Model Kube Ports.

Local Open Scope go_scope.

Definition poolFinalizer : string := "vnode.kroderdev.io/pool-cleanup".

(** Durations are nanoseconds; [0] in a result means no requeue. *)
Definition Second : Z := 1000000000.

(** ** Conversion *)
Definition mapTaints (ts : list CoreTaint) : list Taint :=
  map (fun t => mkTaint (cta_Key t) (cta_Value t) (cta_Effect t)) ts.

Definition mapTolerations (ts : list CoreToleration) : list Toleration :=
  map (fun t => mkToleration (cto_Key t) (cto_Operator t) (cto_Value t) (cto_Effect t)
                  (cto_TolerationSeconds t)) ts.

Definition deleting (m : ObjectMeta) : bool :=
  match om_DeletionTimestamp m with Some _ => true | None => false end.

Definition crToPoolModel (cr : VNodePoolCR) : VNodePool :=
  let m := pc_Meta cr in
  let s := pc_Spec cr in
  let r := sp_PerNodeResources s in
  mkVNodePool (om_UID m) (om_Name m) (sp_DisplayName s) (om_Namespace m)
    (mkTenantRef (atr_VClusterName (sp_TenantRef s)) (atr_VClusterNamespace (sp_TenantRef s))
       (atr_KubeconfigSecret (sp_TenantRef s)))
    (sp_Mode s) (sp_IsolationBackend s) (sp_RuntimeClassName s) (sp_NodeCount s)
    (mkResourceList (nr_CPU r) (nr_Memory r) (nr_Pods r)) (sp_NodeSelector s)
    (mapTaints (sp_Taints s)) (mapTolerations (sp_Tolerations s))
    (st_Phase (pc_Status cr)) (st_ReadyNodes (pc_Status cr)) [] (deleting m).

(** ** Conditions *)
Definition conditionStatus (ok : bool) : string := if ok then ConditionTrue else ConditionFalse.

Definition phaseReason (phase : string) : string :=
  if bool_decide (phase = PoolPhaseReady) then "PoolReady"
  else if bool_decide (phase = PoolPhaseScaling) then "PoolScaling"
  else if bool_decide (phase = PoolPhaseDeleting) then "PoolDeleting"
  else if bool_decide (phase = PoolPhaseFailed) then "PoolFailed"
  else "PoolPending".

(** [setStatusCondition] with the time it read. *)
Fixpoint setCondition (t : Z) (ty status reason message : string) (cs : list Condition)
    : list Condition :=
  match cs with
  | [] => [mkCondition ty status 0 t reason message]
  | c :: cs' =>
      if bool_decide (co_Type c = ty) then
        (if bool_decide (co_Status c = status) && bool_decide (co_Reason c = reason)
            && bool_decide (co_Message c = message)
         then c
         else mkCondition (co_Type c) status (co_ObservedGeneration c) t reason message) :: cs'
      else c :: setCondition t ty status reason message cs'
  end.

Definition setStatusCondition (cs : list Condition) (ty status reason message : string)
    : go (list Condition) :=
  t <- now ;; Ret (setCondition t ty status reason message cs).

(** A status change: phase and counts, then the two conditions every caller
    sets, in the callers' order. *)
Definition mutateStatus (phase : string) (counts : option (Z * Z))
    (ready readyReason readyMsg degraded degradedReason degradedMsg : string)
    (st : VNodePoolStatus) : go VNodePoolStatus :=
  c1 <- setStatusCondition (st_Conditions st) "Ready" ready readyReason readyMsg ;;
  c2 <- setStatusCondition c1 "Degraded" degraded degradedReason degradedMsg ;;
  Ret (match counts with
       | Some (rn, tn) => mkVNodePoolStatus phase rn tn c2
       | None => mkVNodePoolStatus phase (st_ReadyNodes st) (st_TotalNodes st) c2
       end).

(** A ratio as [fmt.Sprintf("%d/%d virtual nodes ready", ...)] prints it. *)
Definition readyMessage (ready total : Z) : string :=
  pretty ready +:+ "/" +:+ pretty total +:+ " virtual nodes ready".

Section PoolReconciler.
Context `{L : KubeLibs}.

(** The body that [updatePoolStatus] retries. *)
Definition updatePoolStatus_attempt (ns name : string)
    (mutate : VNodePoolStatus -> go VNodePoolStatus) : go (option error) :=
  r <- call (Get HostClient KVNodePool ns name) ;;
  match r with
  | Err e => Ret (Some e)
  | Ok base =>
      st <- mutate (pc_Status base) ;;
      if bool_decide (pc_Status base = st) then Ret None
      else call (StatusPatch HostClient KVNodePool base
                   (mkVNodePoolCR (pc_Meta base) (pc_Spec base) st))
  end.

Definition updatePoolStatus (ns name : string) (mutate : VNodePoolStatus -> go VNodePoolStatus)
    : go (option error) :=
  RetryOnConflict (updatePoolStatus_attempt ns name mutate).

(** The body that removes the finalizer, retried on conflict. *)
Definition removeFinalizer_attempt (cr : VNodePoolCR) : go (option error) :=
  r <- call (Get HostClient KVNodePool (om_Namespace (pc_Meta cr)) (om_Name (pc_Meta cr))) ;;
  match r with
  | Err e => Ret (IgnoreNotFound e)
  | Ok current =>
      u <- call (Update HostClient KVNodePool
             (mkVNodePoolCR
                (set_finalizers (pc_Meta current)
                   (RemoveFinalizer (om_Finalizers (pc_Meta current)) poolFinalizer))
                (pc_Spec current) (pc_Status current))) ;;
      Ret (res_err u)
  end.

Section WithManager.
Variable poolMgr : PoolManager.

(** The pool that deprovisions every node. *)
Definition deletionPool (cr : VNodePoolCR) : VNodePool :=
  set_pool_deletion (crToPoolModel cr) 0 true.

Definition handleDeletion (cr : VNodePoolCR) : go (Z * option error) :=
  let m := pc_Meta cr in
  if negb (ContainsFinalizer (om_Finalizers m) poolFinalizer) then Ret (0%Z, None)
  else
    updatePoolStatus (om_Namespace m) (om_Name m)
      (mutateStatus PoolPhaseDeleting None
         ConditionFalse "Deleting" "Pool is being deleted"
         ConditionFalse "Deleting" "Pool cleanup in progress") ;;;
    let* (_, e) := ReconcilePoolNodes poolMgr (deletionPool cr) in
    match e with
    | Some err => Ret (0%Z, Some (ErrWrap ("cleaning up pool " +:+ om_Name m +:+ ": ") err))
    | None =>
        l <- call (List HostClient KVNode (om_Namespace m)
               {[ "vnode.kroderdev.io/pool" := om_Name m ]}) ;;
        match l with
        | Err err =>
            Ret (0%Z, Some (ErrWrap ("listing remaining VNodes for pool " +:+ om_Name m +:+ ": ") err))
        | Ok remaining =>
            if (0 <? length remaining)%nat then Ret (Second, None)
            else
              f <- RetryOnConflict (removeFinalizer_attempt cr) ;;
              match f with
              | Some err => Ret (0%Z, Some (ErrWrap "removing finalizer: " err))
              | None => Ret (0%Z, None)
              end
        end
    end.

(** From the conversion of the resource to the end of [Reconcile]. *)
Definition reconcileSpec (cr : VNodePoolCR) : go (Z * option error) :=
  let ns := om_Namespace (pc_Meta cr) in
  let name := om_Name (pc_Meta cr) in
  let pool := crToPoolModel cr in
  match Validate pool with
  | Some e =>
      updatePoolStatus ns name
        (mutateStatus PoolPhaseFailed None
           ConditionFalse "ValidationFailed" (Error e)
           ConditionTrue "ValidationFailed" (Error e)) ;;;
      Ret (0%Z, None)
  | None =>
      let* (result, e) := ReconcilePoolNodes poolMgr pool in
      match e with
      | Some err =>
          updatePoolStatus ns name
            (mutateStatus PoolPhaseFailed None
               ConditionFalse "ReconcileFailed" (Error err)
               ConditionTrue "ReconcileFailed" (Error err)) ;;;
          Ret (0%Z, Some (ErrWrap ("reconciling pool " +:+ vp_Name pool +:+ ": ") err))
      | None =>
          let phase := vp_Phase result in
          u <- updatePoolStatus ns name
            (mutateStatus phase (Some (vp_ReadyNodes result, vp_NodeCount result))
               (conditionStatus (bool_decide (phase = PoolPhaseReady))) (phaseReason phase)
               (readyMessage (vp_ReadyNodes result) (vp_NodeCount result))
               (conditionStatus (bool_decide (phase = PoolPhaseFailed))) (phaseReason phase)
               ("Pool phase is " +:+ phase)) ;;
          match u with
          | Some err => Ret (0%Z, Some (ErrWrap "updating pool status: " err))
          | None =>
              if deleting (pc_Meta cr) && negb (bool_decide (phase = PoolPhaseReady))
              then Ret (Second, None) else Ret (0%Z, None)
          end
      end
  end.

Definition ReconcileVNodePool (ns name : string) : go (Z * option error) :=
  r <- call (Get HostClient KVNodePool ns name) ;;
  match r with
  | Err e => Ret (0%Z, IgnoreNotFound e)
  | Ok cr =>
      let m := pc_Meta cr in
      if deleting m then handleDeletion cr
      else if negb (ContainsFinalizer (om_Finalizers m) poolFinalizer) then
        u <- call (Update HostClient KVNodePool
               (mkVNodePoolCR (set_finalizers m (AddFinalizer (om_Finalizers m) poolFinalizer))
                  (pc_Spec cr) (pc_Status cr))) ;;
        match u with
        | Err e => Ret (0%Z, Some (ErrWrap "adding finalizer: " e))
        | Ok cr' => reconcileSpec cr'
        end
      else reconcileSpec cr
  end.
End WithManager.

(** ** Event routing; [None] is an object that is not a VNode. *)
Definition vnodeToPool (obj : option VNodeCR) : list (string * string) :=
  match obj with
  | None => []
  | Some vnode =>
      let poolName := map_get (om_Labels (nd_Meta vnode)) "vnode.kroderdev.io/pool" in
      if bool_decide (poolName = "") then [] else [(om_Namespace (nd_Meta vnode), poolName)]
  end.

Inductive watch_event : Type :=
| CreateEvent (o : option VNodeCR)
| DeleteEvent (o : option VNodeCR)
| UpdateEvent (old new : option VNodeCR)
| GenericEvent (o : option VNodeCR).

Definition vnodePhaseChangedPredicate (e : watch_event) : bool :=
  match e with
  | CreateEvent _ => false
  | DeleteEvent _ => true
  | UpdateEvent (Some old) (Some new) =>
      negb (bool_decide (nst_Phase (nd_Status old) = nst_Phase (nd_Status new)))
  | UpdateEvent _ _ => false
  | GenericEvent _ => false
  end.

End PoolReconciler.
