(* ===== verification/NodeReconciler.v ===== *)
(** The controller of VNode resources
    (internal/adapter/inbound/reconciler/vnode_reconciler.go). *)

From S2P Require Import Prelude GoProg Model Kube Ports PoolReconciler.

Local Open Scope go_scope.

Definition vnodeAnnotationVClusterName : string := "vnode.kroderdev.io/vcluster-name".
Definition vnodeAnnotationVClusterNamespace : string := "vnode.kroderdev.io/vcluster-namespace".
Definition vnodeAnnotationKubeconfigSecret : string := "vnode.kroderdev.io/kubeconfig-secret".

Definition vnodeMinRequeue : Z := 2 * Second.
Definition vnodeMaxRequeue : Z := 60 * Second.

(** The node [Reconcile] builds; it leaves [Taints] and [Allocatable] unset. *)
Definition nodeFromCR (cr : VNodeCR) : VNode :=
  let m := nd_Meta cr in
  let s := nd_Spec cr in
  mkVNode (om_UID m) (om_Name m) (om_Namespace m) (ns_PoolRef s)
    (mkTenantRef (map_get (om_Annotations m) vnodeAnnotationVClusterName)
       (map_get (om_Annotations m) vnodeAnnotationVClusterNamespace)
       (map_get (om_Annotations m) vnodeAnnotationKubeconfigSecret))
    [] (nst_Phase (nd_Status cr))
    (mkResourceList (nr_CPU (ns_Capacity s)) (nr_Memory (ns_Capacity s)) (nr_Pods (ns_Capacity s)))
    zeroResourceList
    (map (fun c => mkNodeCondition (co_Type c) (bool_decide (co_Status c = ConditionTrue))
                     (co_Reason c) (co_Message c)) (nst_Conditions (nd_Status cr))).

Definition shouldRequeueVNode (node : VNode) : bool :=
  bool_decide (vn_Phase node = NodePhasePending) || bool_decide (vn_Phase node = NodePhaseNotReady).

(** [time.Since]: the difference of two instants, saturated to [int64]. *)
Definition time_since (t created : Z) : Z :=
  Z.max (-9223372036854775808) (Z.min 9223372036854775807 (t - created)).

(** The loop of [requeueBackoff]; [fuel] bounds its iterations. *)
Fixpoint backoff_loop (fuel : nat) (threshold delay age : Z) : Z :=
  match fuel with
  | O => delay
  | S fuel' =>
      if (threshold <=? age)%Z && (delay <? vnodeMaxRequeue)%Z then
        backoff_loop fuel' (threshold + 30 * Second) (delay * 2) age
      else delay
  end.

Definition requeueBackoff (age : Z) : Z :=
  let delay := backoff_loop 6 (30 * Second) vnodeMinRequeue age in
  if (vnodeMaxRequeue <? delay)%Z then vnodeMaxRequeue else delay.

Section NodeReconciler.
Context `{L : KubeLibs}.
Variable nodeSvc : NodeLifecycle.

Definition ReconcileVNode (ns name : string) : go (Z * option error) :=
  r <- call (Get HostClient KVNode ns name) ;;
  match r with
  | Err e => Ret (0%Z, IgnoreNotFound e)
  | Ok cr =>
      let node := nodeFromCR cr in
      u <- UpdateStatus nodeSvc node ;;
      match u with
      | Some e =>
          if IsNotFound e || errors_Is e ErrCanceled || errors_Is e ErrDeadlineExceeded then
            Ret (0%Z, None)
          else Ret (0%Z, Some (ErrWrap ("updating node " +:+ vn_Name node +:+ ": ") e))
      | None =>
          if shouldRequeueVNode node then
            t <- now ;;
            Ret (requeueBackoff (time_since t (om_CreationTimestamp (nd_Meta cr))), None)
          else Ret (0%Z, None)
      end
  end.

End NodeReconciler.
