(* ===== verification/PodSyncReconciler.v ===== *)
(** The controller that runs pod execution for a pool
    (internal/adapter/inbound/reconciler/podsync_reconciler.go) and its metrics
    (internal/observability/metrics.go). *)

From S2P Require Import Prelude GoProg Model Kube Ports PoolReconciler Execution.

Local Open Scope go_scope.

Definition HostPodCreates : string := "vnode_host_pod_creates_total".
Definition HostPodDeletes : string := "vnode_host_pod_deletes_total".
Definition StatusSyncs : string := "vnode_pod_status_sync_total".
Definition ExecutionFailures : string := "vnode_pod_execution_failures_total".

Definition isIgnorablePodSyncError (e : error) : bool :=
  errors_Is e ErrCanceled || errors_Is e ErrDeadlineExceeded.

(** [setPodSyncCondition] with the time it read. *)
Fixpoint setPodSyncCondition_at (t : Z) (ty status reason message : string) (cs : list Condition)
    : list Condition :=
  match cs with
  | [] => [mkCondition ty status 0 t reason message]
  | c :: cs' =>
      if bool_decide (co_Type c = ty) then
        (if bool_decide (co_Status c = status) && bool_decide (co_Reason c = reason)
            && bool_decide (co_Message c = message)
         then c
         else mkCondition (co_Type c) status (co_ObservedGeneration c) t reason message) :: cs'
      else c :: setPodSyncCondition_at t ty status reason message cs'
  end.

Definition setPodSyncCondition (cs : list Condition) (ty status reason message : string)
    : go (list Condition) :=
  t <- now ;; Ret (setPodSyncCondition_at t ty status reason message cs).

Section PodSyncReconciler.
Context `{L : KubeLibs}.

(** The body that [updateExecutionConditions] retries. *)
Definition executionConditions_attempt (ns name podExecutionReady degraded reason message : string)
    : go (option error) :=
  r <- call (Get HostClient KVNodePool ns name) ;;
  match r with
  | Err e => if isIgnorablePodSyncError e then Ret None else Ret (Some e)
  | Ok base =>
      let st := pc_Status base in
      c1 <- setPodSyncCondition (st_Conditions st) "PodExecutionReady" podExecutionReady reason message ;;
      c2 <- setPodSyncCondition c1 "Degraded" degraded reason message ;;
      let st' := mkVNodePoolStatus (st_Phase st) (st_ReadyNodes st) (st_TotalNodes st) c2 in
      if bool_decide (st = st') then Ret None
      else
        p <- call (StatusPatch HostClient KVNodePool base
               (mkVNodePoolCR (pc_Meta base) (pc_Spec base) st')) ;;
        match p with
        | Some e => if isIgnorablePodSyncError e then Ret None else Ret (Some e)
        | None => Ret None
        end
  end.

Definition updateExecutionConditions (ns name podExecutionReady degraded reason message : string)
    : go (option error) :=
  RetryOnConflict (executionConditions_attempt ns name podExecutionReady degraded reason message).

(** The executor, its host client, and whether an event recorder is set. *)
Variable executor : VNodePool -> go (PodExecutionResult * option error).
Variable hostClient : ClusterClient.
Variable recorder : bool.

(** [r.Recorder.Eventf]: a nil interface panics. *)
Definition recordEvent (eventtype reason action note : string) : go unit :=
  if recorder then call (Eventf eventtype reason action note)
  else Panic "invalid memory address or nil pointer dereference".

Definition recordWarning (reason : string) (e : error) : go unit :=
  if recorder then call (Eventf "Warning" reason "PodSync" (Error e)) else Ret tt.

Definition syncedNote (r : PodExecutionResult) : string :=
  "Processed " +:+ pretty (er_SourcePods r) +:+ " tenant pods, created " +:+
  pretty (er_CreatedHostPods r) +:+ " host pods, deleted " +:+ pretty (er_DeletedHostPods r) +:+
  " host pods, synced " +:+ pretty (er_SyncedStatuses r) +:+ " statuses".

(** The branch of a pool that is being deleted. *)
Definition cleanupDeleted (pool : VNodePool) : go (Z * option error) :=
  let* (deleted, e) := CleanupPoolPods hostClient pool in
  match e with
  | Some err =>
      call (CounterAdd ExecutionFailures (vp_Name pool) 1) ;;;
      recordWarning "PodCleanupFailed" err ;;;
      Ret (0%Z, Some (ErrWrap ("cleaning host pods for pool " +:+ vp_Name pool +:+ ": ") err))
  | None =>
      if (0 <? deleted)%Z then
        call (CounterAdd HostPodDeletes (vp_Name pool) deleted) ;;;
        recordEvent "Normal" "PodCleanupComplete" "PodCleanup"
          ("Deleted " +:+ pretty deleted +:+ " host pods during pool cleanup") ;;;
        Ret (0%Z, None)
      else Ret (0%Z, None)
  end.

(** The branch that runs the executor. *)
Definition executePool (ns name : string) (pool : VNodePool) : go (Z * option error) :=
  let* (result, e) := executor pool in
  match e with
  | Some err =>
      if isIgnorablePodSyncError err then Ret (0%Z, None)
      else
        call (CounterAdd ExecutionFailures (vp_Name pool) 1) ;;;
        recordWarning "PodExecutionFailed" err ;;;
        updateExecutionConditions ns name ConditionFalse ConditionTrue "PodExecutionFailed"
          (Error err) ;;;
        Ret ((2 * Second)%Z, None)
  | None =>
      call (CounterAdd HostPodCreates (vp_Name pool) (er_CreatedHostPods result)) ;;;
      call (CounterAdd HostPodDeletes (vp_Name pool) (er_DeletedHostPods result)) ;;;
      call (CounterAdd StatusSyncs (vp_Name pool) (er_SyncedStatuses result)) ;;;
      (if (0 <? er_CreatedHostPods result)%Z || (0 <? er_DeletedHostPods result)%Z
          || (0 <? er_SyncedStatuses result)%Z
       then recordEvent "Normal" "PodExecutionSynced" "PodSync" (syncedNote result)
       else Ret tt) ;;;
      updateExecutionConditions ns name ConditionTrue ConditionFalse "PodExecutionReady"
        ("Processed " +:+ pretty (er_SourcePods result) +:+ " tenant pods") ;;;
      Ret ((2 * Second)%Z, None)
  end.

Definition ReconcilePodSync (ns name : string) : go (Z * option error) :=
  r <- call (Get HostClient KVNodePool ns name) ;;
  match r with
  | Err e => Ret (0%Z, IgnoreNotFound e)
  | Ok cr =>
      let pool := crToPoolModel cr in
      match Validate pool with
      | Some _ => Ret (0%Z, None)
      | None =>
          if deleting (pc_Meta cr) then cleanupDeleted pool
          else if bool_decide (vp_Phase pool = PoolPhaseFailed) then Ret ((3 * Second)%Z, None)
          else executePool (om_Namespace (pc_Meta cr)) (om_Name (pc_Meta cr)) pool
      end
  end.

End PodSyncReconciler.
