(* ===== verification/Statuses.v ===== *)
(** Properties of the controllers' own logic: conditions, status patches,
    requeue delays, and the conversions that exist twice in the code. *)

From S2P Require Import Prelude GoProg Model PodModel Kube Libs ApiServer Ports PodClient.
From S2P Require Import NodeRepo NodeStore Execution PoolReconciler NodeReconciler.
From S2P Require Import PodSyncReconciler.

(** ** Conditions *)

(** The content a controller sets, without the bookkeeping. *)
Definition content (c : Condition) : string * string * string :=
  (co_Status c, co_Reason c, co_Message c).

(** The first condition of a type. *)
Fixpoint condition_of (ty : string) (cs : list Condition) : option Condition :=
  match cs with
  | [] => None
  | c :: cs' => if bool_decide (co_Type c = ty) then Some c else condition_of ty cs'
  end.

Lemma setCondition_here t ty st re ms cs :
  exists c, condition_of ty (setCondition t ty st re ms cs) = Some c /\ content c = (st, re, ms) /\
    (Some c = condition_of ty cs \/ co_LastTransitionTime c = t).
Proof.
  induction cs as [|c cs IH]; simpl.
  - rewrite bool_decide_true by done. eexists. split; [done|]. auto.
  - case_bool_decide as Hty; simpl.
    + destruct (_ && _) eqn:Heq; simpl; rewrite bool_decide_true by done.
      * rewrite !andb_true_iff, !bool_decide_eq_true in Heq. destruct Heq as [[Hs Hr] Hm].
        exists c. unfold content. rewrite Hs, Hr, Hm. auto.
      * eexists. split; [done|]. auto.
    + rewrite bool_decide_false by done. destruct IH as (c' & H1 & H2 & H3). eauto.
Qed.

Lemma setCondition_other t ty st re ms ty' cs :
  ty' <> ty -> condition_of ty' (setCondition t ty st re ms cs) = condition_of ty' cs.
Proof.
  intros Hne. induction cs as [|c cs IH]; simpl.
  - by rewrite bool_decide_false.
  - destruct (bool_decide_reflect (co_Type c = ty)) as [Hty|Hty]; simpl;
      [|by case_bool_decide].
    destruct (_ && _); simpl; [done|]. by case_bool_decide; [congruence|].
Qed.

Lemma setCondition_types t ty st re ms cs :
  co_Type <$> setCondition t ty st re ms cs =
  if bool_decide (ty ∈ (co_Type <$> cs)) then co_Type <$> cs else (co_Type <$> cs) ++ [ty].
Proof.
  induction cs as [|c cs IH]; [done|]. cbn [setCondition].
  destruct (bool_decide_reflect (co_Type c = ty)) as [<-|Hty]; rewrite !fmap_cons.
  - rewrite (bool_decide_true (_ ∈ _)) by (apply list_elem_of_here). by destruct (_ && _).
  - rewrite IH.
    rewrite (bool_decide_ext (ty ∈ co_Type c :: (co_Type <$> cs)) (ty ∈ (co_Type <$> cs)))
      by set_solver. by case_bool_decide.
Qed.

(** C27: [setStatusCondition] puts exactly one condition of its type in place: it
    carries the requested content, its transition time moves only when the
    content changes, every other condition is as before, and no type appears
    twice that did not. *)
Theorem setCondition_spec t ty st re ms cs :
  let cs' := setCondition t ty st re ms cs in
  (exists c, condition_of ty cs' = Some c /\ content c = (st, re, ms) /\
     match condition_of ty cs with
     | Some old => if bool_decide (content old = (st, re, ms)) then c = old
                   else co_LastTransitionTime c = t
     | None => co_LastTransitionTime c = t
     end) /\
  (forall ty', ty' <> ty -> condition_of ty' cs' = condition_of ty' cs) /\
  (NoDup (co_Type <$> cs) -> NoDup (co_Type <$> cs')).
Proof.
  split_and!.
  - induction cs as [|c cs IH]; simpl.
    + rewrite bool_decide_true by done. by eexists.
    + case_bool_decide as Hty; simpl.
      * destruct (_ && _) eqn:Heq; simpl; rewrite bool_decide_true by done.
        -- rewrite !andb_true_iff, !bool_decide_eq_true in Heq. destruct Heq as [[Hs Hr] Hm].
           exists c. unfold content. rewrite Hs, Hr, Hm. by rewrite bool_decide_true.
        -- eexists. split_and!; [done..|]. rewrite bool_decide_false; [done|].
           intros [= Hs Hr Hm]. by rewrite !bool_decide_true in Heq.
      * rewrite bool_decide_false by done. exact IH.
  - intros ty' Hne. by apply setCondition_other.
  - intros HN. rewrite setCondition_types. case_bool_decide; [done|].
    apply NoDup_app. split_and!; [done|set_solver|apply NoDup_singleton].
Qed.

(** Setting a condition to what it says already changes nothing. *)
Lemma setCondition_id t ty st re ms cs c :
  condition_of ty cs = Some c -> content c = (st, re, ms) -> setCondition t ty st re ms cs = cs.
Proof.
  intros Hc Hcon. induction cs as [|c' cs IH]; simpl in *; [done|].
  case_bool_decide as Hty.
  - injection Hc as ->. injection Hcon as Hs Hr Hm. by rewrite !bool_decide_true.
  - by rewrite IH.
Qed.

(** The two copies of the helper, in the pool and in the pod sync controller,
    are the same function. *)
Lemma setPodSyncCondition_same t ty st re ms cs :
  setPodSyncCondition_at t ty st re ms cs = setCondition t ty st re ms cs.
Proof. induction cs as [|c cs IH]; simpl; [done|]. by rewrite IH. Qed.

(** ** A settled status is not patched again *)

(** The pure part of [mutateStatus], with the two times it reads. *)
Definition mutated (t1 t2 : Z) (phase : string) (counts : option (Z * Z))
    (ready readyReason readyMsg degraded degradedReason degradedMsg : string)
    (st : VNodePoolStatus) : VNodePoolStatus :=
  let cs := setCondition t2 "Degraded" degraded degradedReason degradedMsg
              (setCondition t1 "Ready" ready readyReason readyMsg (st_Conditions st)) in
  match counts with
  | Some (rn, tn) => mkVNodePoolStatus phase rn tn cs
  | None => mkVNodePoolStatus phase (st_ReadyNodes st) (st_TotalNodes st) cs
  end.

Lemma mutated_mutated t1 t2 t3 t4 phase counts r1 r2 r3 d1 d2 d3 st :
  let st' := mutated t1 t2 phase counts r1 r2 r3 d1 d2 d3 st in
  mutated t3 t4 phase counts r1 r2 r3 d1 d2 d3 st' = st'.
Proof.
  set (cs1 := setCondition t1 "Ready" r1 r2 r3 (st_Conditions st)).
  set (cs2 := setCondition t2 "Degraded" d1 d2 d3 cs1).
  assert (setCondition t4 "Degraded" d1 d2 d3 (setCondition t3 "Ready" r1 r2 r3 cs2) = cs2) as E.
  { destruct (setCondition_here t1 "Ready" r1 r2 r3 (st_Conditions st)) as (c1 & H1 & H2 & _).
    destruct (setCondition_here t2 "Degraded" d1 d2 d3 cs1) as (c2 & H3 & H4 & _).
    rewrite (setCondition_id t3 "Ready" r1 r2 r3 cs2 c1).
    - by apply (setCondition_id _ _ _ _ _ _ c2).
    - unfold cs2. by rewrite setCondition_other.
    - done. }
  unfold mutated. destruct counts as [[rn tn]|]; simpl; f_equal; exact E.
Qed.

(** The environment of a pool whose status is [st]; a status patch is not
    allowed. *)
Definition settled (st : VNodePoolStatus) : spec api unit :=
  mkSpec
    (fun R (c : api R) _ => match c with StatusPatch _ _ _ _ => False | _ => True end)
    (fun R (c : api R) _ r _ =>
       match c in api R return R -> Prop with
       | Get _ k _ _ =>
           match k in kind T return res T -> Prop with
           | KVNodePool => fun r => match r with Ok o => pc_Status o = st | Err _ => True end
           | _ => fun _ => True
           end
       | _ => fun _ => True
       end r).

(** C26: A status update that repeats the last one, at any later time, sends no
    patch, so the controller does not wake itself up: on a pool whose status
    came from the same update, the patch call is never made. *)
Theorem settled_status_not_patched `{LL : KubeLibsLaws} t1 t2 phase counts r1 r2 r3 d1 d2 d3 st0
    ns name m :
  wp (settled (mutated t1 t2 phase counts r1 r2 r3 d1 d2 d3 st0))
    (updatePoolStatus ns name (mutateStatus phase counts r1 r2 r3 d1 d2 d3)) tt m
    (fun o _ _ => exists r, o = Done r).
Proof.
  unfold updatePoolStatus. apply (wp_retry _ (fun _ _ => True)); [|done].
  intros [] m' _. unfold updatePoolStatus_attempt. apply wp_bind. unfold call at 1; simpl.
  split; [done|]. intros [base|e] [] Hst; simpl; [|split; [done|by eexists]].
  split; [done|]. intros t3 [] _. split; [done|]. intros t4 [] _.
  rewrite bool_decide_true; [simpl; by eexists|].
  pose proof (mutated_mutated t1 t2 t3 t4 phase counts r1 r2 r3 d1 d2 d3 st0) as E.
  rewrite <- Hst in E. symmetry. exact E.
Qed.

Lemma settled_status_not_patched_witness :
  wp (settled (mutated 1 2 PoolPhaseReady (Some (3, 3)%Z) "True" "PoolReady" "3/3" "False"
                 "PoolReady" "ok" (mkVNodePoolStatus "" 0 0 [])))
    (@updatePoolStatus simple_libs "ns" "pool"
       (mutateStatus PoolPhaseReady (Some (3, 3)%Z) "True" "PoolReady" "3/3" "False" "PoolReady"
          "ok")) tt ∅ (fun o _ _ => exists r, o = Done r).
Proof.
  apply (@settled_status_not_patched simple_libs simple_libs_laws 1 2 PoolPhaseReady
    (Some (3, 3)%Z) "True" "PoolReady" "3/3" "False" "PoolReady" "ok"
    (mkVNodePoolStatus "" 0 0 []) "ns" "pool" ∅).
Defined.

(** ** Requeue delays *)

Lemma backoff_loop_stop fuel th d age :
  (age < th \/ vnodeMaxRequeue <= d)%Z -> backoff_loop fuel th d age = d.
Proof.
  intros H. destruct fuel; simpl; [done|].
  destruct (Z.leb_spec th age), (Z.ltb_spec d vnodeMaxRequeue); simpl; done || lia.
Qed.

Lemma backoff_loop_go fuel th d age :
  (th <= age)%Z -> (d < vnodeMaxRequeue)%Z ->
  backoff_loop (S fuel) th d age = backoff_loop fuel (th + 30 * Second) (d * 2) age.
Proof. intros H1 H2. simpl. by rewrite (proj2 (Z.leb_le _ _) H1), (proj2 (Z.ltb_lt _ _) H2). Qed.

(** The age in steps of thirty seconds, up to the fifth. *)
Lemma age_steps age :
  (age < 30 * Second \/
   (exists k, 1 <= k <= 4 /\ k * (30 * Second) <= age < (k + 1) * (30 * Second)) \/
   150 * Second <= age)%Z.
Proof.
  unfold Second.
  destruct (Z.lt_ge_cases age (30 * 1000000000)) as [|H1]; [by left|].
  destruct (Z.lt_ge_cases age (60 * 1000000000)); [right; left; exists 1%Z; lia|].
  destruct (Z.lt_ge_cases age (90 * 1000000000)); [right; left; exists 2%Z; lia|].
  destruct (Z.lt_ge_cases age (120 * 1000000000)); [right; left; exists 3%Z; lia|].
  destruct (Z.lt_ge_cases age (150 * 1000000000)); [right; left; exists 4%Z; lia|].
  right. right. lia.
Qed.

Ltac backoff_run :=
  repeat (rewrite backoff_loop_go by (unfold vnodeMinRequeue, vnodeMaxRequeue, Second in *; lia));
  rewrite backoff_loop_stop by (unfold vnodeMinRequeue, vnodeMaxRequeue, Second in *; lia).

Lemma backoff_loop_value n age :
  backoff_loop (6 + n) (30 * Second) vnodeMinRequeue age =
  (vnodeMinRequeue * 2 ^ Z.min 5 (Z.max 0 (age / (30 * Second))))%Z.
Proof.
  simpl Nat.add.
  destruct (age_steps age) as [H|[(k & Hk & Hage)|H]].
  - rewrite backoff_loop_stop by (by left).
    assert (age / (30 * Second) <= 0)%Z as Hd.
    { destruct (Z.lt_ge_cases age 0).
      - apply Z.lt_le_incl, Z.div_lt_upper_bound; unfold Second; lia.
      - rewrite Z.div_small; unfold Second in *; lia. }
    rewrite Z.max_l by done. done.
  - rewrite <- (Z.div_unique_pos age (30 * Second) k (age - 30 * Second * k))
      by (unfold Second in *; lia).
    rewrite Z.max_r, Z.min_r by lia.
    assert (k = 1 \/ k = 2 \/ k = 3 \/ k = 4)%Z as [->|[->|[->| ->]]] by lia; by backoff_run.
  - assert (5 <= age / (30 * Second))%Z by (apply Z.div_le_lower_bound; unfold Second in *; lia).
    rewrite Z.max_r, Z.min_l by lia. by backoff_run.
Qed.

(** C28: The requeue delay is two seconds doubled once per thirty seconds of age,
    at most a minute, at least two seconds, whatever the age (negative ages of
    skewed clocks included); and the fuel of the loop never runs out. *)
Theorem requeueBackoff_spec age :
  requeueBackoff age =
    Z.min (60 * Second) (2 * Second * 2 ^ Z.min 5 (Z.max 0 (age / (30 * Second)))) /\
  (2 * Second <= requeueBackoff age <= 60 * Second)%Z /\
  (forall n, backoff_loop (6 + n) (30 * Second) vnodeMinRequeue age =
             backoff_loop 6 (30 * Second) vnodeMinRequeue age).
Proof.
  pose proof (backoff_loop_value 0 age) as E. change (6 + 0) with 6 in E.
  set (k := Z.min 5 (Z.max 0 (age / (30 * Second)))) in *.
  assert (0 < 2 ^ k)%Z by (apply Z.pow_pos_nonneg; lia).
  assert (requeueBackoff age = Z.min (60 * Second) (2 * Second * 2 ^ k))%Z as E'.
  { unfold requeueBackoff. rewrite E. unfold vnodeMinRequeue, vnodeMaxRequeue.
    destruct (Z.ltb_spec (60 * Second) (2 * Second * 2 ^ k)); lia. }
  split_and!; [done|rewrite E'; unfold Second; lia..|].
  intros n. by rewrite E, backoff_loop_value.
Qed.

(** ** Conversions that exist twice *)

(** [n] without what the VNode controller does not read back. *)
Definition without_allocatable (n : VNode) : VNode :=
  mkVNode (vn_ID n) (vn_Name n) (vn_Namespace n) (vn_PoolName n) (vn_TenantRef n) (vn_Taints n)
    (vn_Phase n) (vn_Capacity n) zeroResourceList (vn_Conditions n).

(** The host-only fields a tenant pod is read without. *)
Definition without_host_fields (p : PodSpec) : PodSpec :=
  mkPodSpec (ps_Name p) (ps_Namespace p) (ps_Labels p) (ps_NodeName p) (ps_Containers p)
    (ps_Volumes p) (ps_ServiceAccountName p) None "" ∅ false.

(** The repository and the controllers read the custom resources alike, and the
    host and tenant sides read pods alike: the pool conversions agree; the VNode
    controller's node is the repository's without the allocatable resources;
    the tenant pod conversion is the host one without the host-only fields; and
    the condition helpers of the two pool controllers are the same function. *)
Theorem conversions_agree `{L : KubeLibs} :
  (forall cr, crToPool cr = crToPoolModel cr) /\
  (forall cr, nodeFromCR cr = without_allocatable (crToNode cr)) /\
  (forall pod, podFromCore pod = without_host_fields (podToSpec pod)) /\
  (forall t ty st re ms cs,
     setPodSyncCondition_at t ty st re ms cs = setCondition t ty st re ms cs).
Proof. split_and!; [done..|]. intros. apply setPodSyncCondition_same. Qed.

(** ** Event routing *)

(** The controllers meet on the label the repository sets: for a VNode the
    repository wrote, a change of the stored phase passes the predicate and is
    routed to the pool of which the repository lists the VNode as a member; an
    update that keeps the phase is dropped. *)
Lemma phase_change_reaches_pool x old new :
  good_vnode x new -> ns_PoolRef (nd_Spec new) <> "" ->
  (vnodePhaseChangedPredicate (UpdateEvent (Some old) (Some new)) = true <->
   nst_Phase (nd_Status old) <> nst_Phase (nd_Status new)) /\
  vnodeToPool (Some new) = [(x.1, ns_PoolRef (nd_Spec new))] /\
  in_pool x.1 (ns_PoolRef (nd_Spec new)) (x, crToNode new).
Proof.
  intros (<- & Hl & _) Hp. split_and!; try done.
  - simpl. rewrite negb_true_iff. by rewrite bool_decide_eq_false.
  - unfold vnodeToPool, map_get. change "vnode.kroderdev.io/pool" with labelPool.
    rewrite Hl. simpl. by rewrite bool_decide_false.
Qed.
