(* ===== verification/Config.v ===== *)
(** The configuration of the operator (internal/config/config.go). *)

From S2P Require Import Prelude.

Record Config : Type := mkConfig {
  cf_MetricsAddr : string;
  cf_HealthProbeAddr : string;
  cf_LeaderElection : bool;
  cf_LeaderElectionID : string;
  cf_DefaultRuntimeClass : string;
  cf_HostNamespace : string
}.

(** [os.Getenv] on the environment [env]: [""] for a variable that is not set. *)
Definition Getenv (env : gmap string string) (key : string) : string := map_get env key.

Definition envOrDefault (env : gmap string string) (key fallback : string) : string :=
  let v := Getenv env key in if bool_decide (v = "") then fallback else v.

Definition Default (env : gmap string string) : Config :=
  mkConfig (envOrDefault env "METRICS_ADDR" ":8080")
    (envOrDefault env "HEALTH_PROBE_ADDR" ":8081")
    (bool_decide (Getenv env "LEADER_ELECTION" = "true"))
    "vnode-operator.kroderdev.io"
    (envOrDefault env "DEFAULT_RUNTIME_CLASS" "")
    (envOrDefault env "HOST_NAMESPACE" "vnode-system").

Definition ValidateConfig (c : Config) : option error :=
  if bool_decide (cf_HostNamespace c = "") then Some (ErrText "HOST_NAMESPACE is required") else None.

(** The default configuration passes the validation in every environment: the
    check in [main] cannot fail. *)
Lemma Default_valid (env : gmap string string) : ValidateConfig (Default env) = None.
Proof.
  unfold ValidateConfig, Default, envOrDefault; simpl.
  by repeat case_bool_decide.
Qed.
