(* ===== verification/System.v ===== *)
(** The operator as main.go assembles it: adapters, services and the three
    controllers. *)

From S2P Require Import Prelude GoProg Model Kube Ports PodClient NodeRepo Registrar PodService.
From S2P Require Import NodeService PoolService Execution PoolReconciler NodeReconciler.
From S2P Require Import PodSyncReconciler Config.

Section System.
Context `{L : KubeLibs}.
Variable cfg : Config.

(** Outbound adapters. *)
Definition nodeRepo : NodeRepository := KubeNodeRepository.
Definition hostPods : ClusterClient := PodClusterClient.
Definition kubeconfigResolver : KubeconfigResolver := SecretKubeconfigResolver.
Definition registrar : NodeRegistrar := TenantRegistrar kubeconfigResolver.
Definition kataRuntime : IsolationRuntime := KataAdapter (cf_DefaultRuntimeClass cfg).

(** Domain services. *)
Definition nodeSvc : NodeLifecycle := NodeService nodeRepo registrar.
Definition poolSvc : PoolManager := PoolService nodeRepo nodeSvc.
Definition podSvc : PodTranslator := PodService kataRuntime.
Definition podExecSvc : VNodePool -> go (PodExecutionResult * option error) :=
  ReconcilePool hostPods podSvc nodeRepo kubeconfigResolver.

(** Controllers; each handles one request [(namespace, name)]. *)
Definition poolReconciler : string -> string -> go (Z * option error) :=
  ReconcileVNodePool poolSvc.
Definition vnodeReconciler : string -> string -> go (Z * option error) :=
  ReconcileVNode nodeSvc.
Definition podSyncReconciler : string -> string -> go (Z * option error) :=
  ReconcilePodSync podExecSvc hostPods true.

End System.
