(* ===== verification/NodePools.v ===== *)
(** The node side of the operator as main.go assembles it, on API servers that
    behave as documented: scaling of pools and status updates of nodes, with
    the contracts of the adapters discharged. *)

From S2P Require Import Prelude GoProg Model Kube Libs ApiServer Testbed Ports PodClient.
From S2P Require Import NodeRepo Registrar NodeStore Tenants Registration NodeService Lifecycle.
From S2P Require Import PoolService Scaling NodeReconciler Config System.

(** Faults that are neither a stopped context nor the answer that an object is
    missing. *)
Definition calm_faults (faults : error -> Prop) : Prop :=
  forall e, faults e -> is_context_error e = false /\ status_reason e <> Some ReasonNotFound.

Section NodePools.
Context `{L : KubeLibs} {LL : KubeLibsLaws}.
Variable faults : error -> Prop.
Hypothesis calm : calm_faults faults.

Definition registrar_meets : TenantSide (kube_spec faults) registrar resources_fit good_world
    node_view :=
  TenantRegistrar_nodes faults calm SecretKubeconfigResolver
    (SecretKubeconfigResolver_quiet faults calm).

Definition nodeSvc_meets : LifecycleSpec (kube_spec faults) nodeSvc (pool_fits resources_fit)
    good_world node_view :=
  NodeService_lifecycle _ _ _ _ _ _ (store := KubeNodeRepository_store faults calm)
    (tenants := registrar_meets).

Lemma resources_pool_fits pool :
  is_Some (buildResources (vp_PerNodeResources pool)) -> pool_fits resources_fit pool.
Proof. intros H k. by split. Qed.

(** C1: The wired pool manager, on API servers that may fail: when the declared
    count is valid, the quantities parse and the names of the missing nodes are
    not in use, a reconciliation that reports success has left exactly the
    declared number of VNodes of the pool in the host cluster, having only
    added or only removed VNodes, and its counts and phase are those of the
    stored VNodes; a failed one reports the phase Failed or has changed
    nothing; VNodes outside the pool are untouched. *)
Theorem pool_scaling pool w m :
  good_world w -> vp_Namespace pool <> "" ->
  is_Some (buildResources (vp_PerNodeResources pool)) ->
  (0 <= vp_NodeCount pool <= int32_max)%Z ->
  (Z.of_nat (size (pool_members node_view pool w)) <= int32_max)%Z ->
  names_free node_view pool w
    (Z.to_nat (vp_NodeCount pool) - size (pool_members node_view pool w)) ->
  wp (kube_spec faults) (ReconcilePoolNodes poolSvc pool) w m (fun o w' _ => exists pool' err,
    o = Done (pool', err) /\ good_world w' /\ others_kept node_view pool w w' /\
    match err with
    | None =>
        Z.of_nat (size (pool_members node_view pool w')) = vp_NodeCount pool /\
        (node_view w ⊆ node_view w' \/ node_view w' ⊆ node_view w) /\
        reports pool pool' (pool_members node_view pool w')
    | Some _ => vp_Phase pool' = PoolPhaseFailed \/ (pool' = pool /\ w' = w)
    end).
Proof.
  intros Hw Hns Hfit%resources_pool_fits Hc Hsz Hfree.
  by apply (ReconcileNodes_scales _ _ _ _ _ _ (store := KubeNodeRepository_store faults calm)
    (lifecycle := nodeSvc_meets)).
Qed.

(** C15: A removal that reports success has deleted the VNode, whatever became of
    the deregistration in the tenant cluster; no other VNode changes. *)
Theorem node_removal node w m :
  good_world w ->
  wp (kube_spec faults) (Deprovision nodeSvc node) w m (fun o w' _ => exists err,
    o = Done err /\ good_world w' /\
    (forall y, y <> node_key node -> node_view w' !! y = node_view w !! y) /\
    (err = None -> node_view w' !! node_key node = None)).
Proof. intros Hw. by apply (deprovision_contract (LifecycleSpec := nodeSvc_meets)). Qed.

(** C14: A status update whose quantities parse ends; it changes no other VNode; and
    it reports success only if the VNode is stored as ready, or was ready and
    is left alone, or has no status yet and is left alone. *)
Theorem node_status_update node w m :
  good_world w -> resources_fit node ->
  wp (kube_spec faults) (UpdateStatus nodeSvc node) w m (fun o w' _ => exists r,
    o = Done r /\ good_world w' /\ update_result node (node_view w) r (node_view w')).
Proof.
  intros Hw Hn. by apply (UpdateNode_result _ _ _ _ _ _
    (store := KubeNodeRepository_store faults calm) (tenants := registrar_meets)).
Qed.


(** The VNode resource does not keep the taints of its pool: when the VNode
    controller registers a node, as it does for every node whose first
    registration failed, the node in the tenant cluster ends up without any
    taint, whatever the pool configures. *)
Theorem controller_registration_has_no_taints cr t w m :
  tr_KubeconfigSecret t <> "" ->
  wp (kube_spec faults) (Register registrar (nodeFromCR cr) t) w m (fun o w' m' =>
    o = Done None -> exists cs node, m' !! cacheKey t = Some cs /\
      object (Tenant cs) KNode ("", om_Name (nd_Meta cr)) w' = Some node /\ cn_Taints node = []).
Proof.
  intros Ht. eapply wp_mono; [|by apply (Register_meets faults (nodeFromCR cr) t)].
  intros o w' m' H Ho. destruct (H Ho) as (cs & Hm & (node & cap & alloc & ti & Hobj & _ & Htn & _) & _).
  by exists cs, node.
Qed.

End NodePools.

(** ** On concrete clusters *)

(** A host cluster with the kubeconfig of the sample tenant. *)
Definition demo_world : world :=
  mkWorld
    (mkCluster ∅ ∅ ∅
       {[ ("t-ns", "kc") := mkCoreSecret (newMeta "kc" "t-ns" ∅ ∅) {[ "kubeconfig" := "cfg" ]} "" ]}
       ∅ ∅ ∅ ∅) ∅.

#[export] Instance good_vnode_dec x cr : Decision (good_vnode x cr).
Proof. unfold good_vnode. apply _. Defined.

Lemma good_world_check w :
  bool_decide (map_Forall good_vnode (c_vnodes (w_host w))) = true -> good_world w.
Proof. intros H%bool_decide_eq_true_1 x cr Hx. by apply H. Qed.

Lemma no_faults_calm : calm_faults no_faults.
Proof. done. Qed.

(** The state after a run on the in-memory servers. *)
Definition after {A} (p : go A) (w : world) (m : mem) : world * mem :=
  match run memory_server p w m with (_, w', m') => (w', m') end.

(** Three nodes, of which the second was removed. *)
Definition demo_gap : world * mem :=
  let '(w, m) := after (ReconcilePoolNodes (@poolSvc simple_libs) (sample_pool 3)) demo_world ∅ in
  match node_view w !! ("ns", "vnode-pool-2") with
  | Some node => after (Deprovision (@nodeSvc simple_libs) node) w m
  | None => (w, m)
  end.

Lemma pool_scaling_witness :
  wp (kube_spec no_faults) (ReconcilePoolNodes (@poolSvc simple_libs) (sample_pool 3)) demo_world ∅
    (fun o w' _ => exists pool' err, o = Done (pool', err) /\ good_world w' /\
      others_kept node_view (sample_pool 3) demo_world w' /\
      match err with
      | None =>
          Z.of_nat (size (pool_members node_view (sample_pool 3) w')) = 3%Z /\
          (node_view demo_world ⊆ node_view w' \/ node_view w' ⊆ node_view demo_world) /\
          reports (sample_pool 3) pool' (pool_members node_view (sample_pool 3) w')
      | Some _ => vp_Phase pool' = PoolPhaseFailed \/ (pool' = sample_pool 3 /\ w' = demo_world)
      end).
Proof.
  apply (@pool_scaling simple_libs simple_libs_laws no_faults no_faults_calm (sample_pool 3)
           demo_world ∅).
  - by apply good_world_check.
  - done.
  - vm_compute. by eexists.
  - done.
  - done.
  - by intros j _.
Defined.

Lemma node_removal_witness :
  wp (kube_spec no_faults) (Deprovision (@nodeSvc simple_libs) (pendingNode (sample_pool 3) 0))
    demo_world ∅
    (fun o w' _ => exists err, o = Done err /\ good_world w' /\
      (forall y, y <> ("ns", "vnode-pool-1") -> node_view w' !! y = node_view demo_world !! y) /\
      (err = None -> node_view w' !! ("ns", "vnode-pool-1") = None)).
Proof.
  apply (@node_removal simple_libs simple_libs_laws no_faults no_faults_calm
           (pendingNode (sample_pool 3) 0) demo_world ∅).
  by apply good_world_check.
Defined.

Lemma node_status_update_witness :
  wp (kube_spec no_faults) (UpdateStatus (@nodeSvc simple_libs) (pendingNode (sample_pool 3) 0))
    demo_world ∅
    (fun o w' _ => exists r, o = Done r /\ good_world w' /\
      update_result (pendingNode (sample_pool 3) 0) (node_view demo_world) r (node_view w')).
Proof.
  apply (@node_status_update simple_libs simple_libs_laws no_faults no_faults_calm
           (pendingNode (sample_pool 3) 0) demo_world ∅).
  - by apply good_world_check.
  - split; vm_compute; by eexists.
Defined.


Lemma controller_registration_has_no_taints_witness :
  wp (kube_spec no_faults)
    (Register (@registrar simple_libs) (nodeFromCR (newVNodeCR (pendingNode (sample_pool 1) 0)))
       (mkTenantRef "t" "t-ns" "kc")) demo_world ∅ (fun o w' m' =>
    o = Done None -> exists cs node, m' !! cacheKey (mkTenantRef "t" "t-ns" "kc") = Some cs /\
      object (Tenant cs) KNode ("", "vnode-pool-1") w' = Some node /\ cn_Taints node = []).
Proof.
  apply (@controller_registration_has_no_taints simple_libs simple_libs_laws no_faults
           (newVNodeCR (pendingNode (sample_pool 1) 0)) (mkTenantRef "t" "t-ns" "kc")). done.
Defined.

(** On the in-memory servers: the pool with a gap asks for three nodes, is told
    Ready with three of three, and still has two. *)
Example gap_run :
  match run memory_server (ReconcilePoolNodes (@poolSvc simple_libs) (sample_pool 3))
          demo_gap.1 demo_gap.2 with
  | (Done (pool', None), w', _) =>
      (vp_Phase pool', vp_ReadyNodes pool', size (node_view w')) = (PoolPhaseReady, 3%Z, 2)
  | _ => False
  end.
Proof. by vm_compute. Qed.
