(* ===== verification/Footprint.v ===== *)
(** What each controller may do to the clusters: the verbs and kinds of every
    call it can issue, on every path and for every reply; and the guard on the
    removal of a pool's finalizer. *)

From S2P Require Import Prelude GoProg Model PodModel Kube Libs ApiServer Ports PodClient.
From S2P Require Import NodeRepo Registrar PodService NodeService PoolService Execution.
From S2P Require Import PoolReconciler NodeReconciler PodSyncReconciler Config System.

(** ** Footprints *)
Inductive verb : Type := VRead | VCreate | VUpdate | VStatus | VDelete.
Inductive side : Type := OnHost | OnTenant.
Inductive ktag : Type :=
| TVNodePool | TVNode | TPod | TSecret | TConfigMap | TNode | TLease | TNamespace.

Definition tag {T} (k : kind T) : ktag :=
  match k with
  | KVNodePool => TVNodePool
  | KVNode => TVNode
  | KPod => TPod
  | KSecret => TSecret
  | KConfigMap => TConfigMap
  | KNode => TNode
  | KLease => TLease
  | KNamespace => TNamespace
  end.

Definition side_of (c : conn) : side := match c with Tenant _ => OnTenant | _ => OnHost end.

(** [None] for a call that touches no cluster object. *)
Definition footprint {R} (c : api R) : option (side * verb * ktag) :=
  match c with
  | Get c k _ _ | List c k _ _ => Some (side_of c, VRead, tag k)
  | Create c k _ => Some (side_of c, VCreate, tag k)
  | Update c k _ => Some (side_of c, VUpdate, tag k)
  | StatusUpdate c k _ | StatusPatch c k _ _ => Some (side_of c, VStatus, tag k)
  | Delete c k _ _ => Some (side_of c, VDelete, tag k)
  | NewClientset _ | Now | CounterAdd _ _ _ | Eventf _ _ _ _ => None
  end.

(** The call is in the given list, or touches no object. *)
Definition within (fp : list (side * verb * ktag)) (R : Type) (c : api R) : Prop :=
  match footprint c with Some x => x ∈ fp | None => True end.

#[export] Instance ktag_eq_dec : EqDecision ktag.
Proof. solve_decision. Defined.
#[export] Instance verb_eq_dec : EqDecision verb.
Proof. solve_decision. Defined.
#[export] Instance side_eq_dec : EqDecision side.
Proof. solve_decision. Defined.

(** The kubeconfig secret. *)
Definition fp_client : list (side * verb * ktag) := [(OnHost, VRead, TSecret)].

(** Registration in a tenant: read and write its nodes and leases. *)
Definition fp_register : list (side * verb * ktag) := fp_client ++ [
  (OnTenant, VRead, TNamespace); (OnTenant, VCreate, TNamespace);
  (OnTenant, VRead, TNode); (OnTenant, VCreate, TNode); (OnTenant, VUpdate, TNode);
  (OnTenant, VStatus, TNode);
  (OnTenant, VRead, TLease); (OnTenant, VCreate, TLease); (OnTenant, VUpdate, TLease)].

(** Deregistration deletes them. *)
Definition fp_deregister : list (side * verb * ktag) := fp_client ++ [
  (OnTenant, VDelete, TNode); (OnTenant, VDelete, TLease)].

Definition fp_save : list (side * verb * ktag) := [
  (OnHost, VRead, TVNode); (OnHost, VCreate, TVNode); (OnHost, VUpdate, TVNode);
  (OnHost, VStatus, TVNode)].

(** The VNode controller. *)
Definition fp_vnode : list (side * verb * ktag) := fp_register ++ fp_save.

(** Scaling adds the deletions. *)
Definition fp_scale : list (side * verb * ktag) := fp_vnode ++ [
  (OnHost, VDelete, TVNode); (OnTenant, VDelete, TNode); (OnTenant, VDelete, TLease)].

(** The VNodePool controller. *)
Definition fp_pool : list (side * verb * ktag) := fp_scale ++ [
  (OnHost, VRead, TVNodePool); (OnHost, VUpdate, TVNodePool); (OnHost, VStatus, TVNodePool)].

(** Host pods. *)
Definition fp_hostpods : list (side * verb * ktag) := [
  (OnHost, VRead, TPod); (OnHost, VCreate, TPod); (OnHost, VDelete, TPod)].

(** Host pods, and the status of the tenant's. *)
Definition fp_pods : list (side * verb * ktag) := fp_hostpods ++ [
  (OnTenant, VRead, TPod); (OnTenant, VStatus, TPod)].

(** The ConfigMaps and Secrets that pods mount. *)
Definition fp_resources : list (side * verb * ktag) := [
  (OnHost, VRead, TConfigMap); (OnHost, VCreate, TConfigMap); (OnHost, VUpdate, TConfigMap);
  (OnHost, VRead, TSecret); (OnHost, VCreate, TSecret); (OnHost, VUpdate, TSecret);
  (OnTenant, VRead, TConfigMap); (OnTenant, VRead, TSecret)].

(** The pod sync controller. *)
Definition fp_podsync : list (side * verb * ktag) := fp_pods ++ fp_resources ++ [
  (OnHost, VRead, TVNodePool); (OnHost, VStatus, TVNodePool); (OnHost, VRead, TVNode)].

Lemma issues_within {A} (fp fp' : list (side * verb * ktag)) (p : go A) :
  fp ⊆ fp' -> issues (within fp) p -> issues (within fp') p.
Proof.
  intros Hsub. apply issues_mono. intros R c. unfold within.
  destruct (footprint c); set_solver.
Qed.

Lemma now_within fp : issues (within fp) now.
Proof. done. Qed.

(** Membership of a concrete triple in a concrete list. *)
Ltac in_list := unfold within; simpl; apply (bool_decide_unpack _); vm_compute; exact I.

(** Walk through a program whose calls are all concrete. *)
Ltac footprint :=
  repeat first
    [ lazymatch goal with
      | |- issues _ (must _) => apply issues_must
      | |- issues _ (RetryOnConflict _) => apply issues_retry
      | |- issues _ now => apply now_within
      end
    | issues_step
    | exact I
    | in_list
    | match goal with |- _ /\ _ => split end
    | progress intros ].

Section Stacks.
Context `{L : KubeLibs} {LL : KubeLibsLaws}.

Lemma GetClient_within tenant :
  issues (within fp_client) (GetClient kubeconfigResolver tenant).
Proof.
  unfold GetClient, cache_lookup, cache_store, Invalidate, atomic.
  cbn -[kubeconfig_data within]. intros [cs|]; [done|].
  split; [in_list|]. intros [secret|e]; [|done].
  generalize (kubeconfig_data ["kubeconfig"; "config"; "value"] (se_Data secret)).
  intros [d|]; cbn -[within]; [|done].
  destruct (RESTConfigFromKubeConfig d); cbn -[within]; [|done].
  split; [done|]. by intros [|].
Qed.

Lemma conditionsToCR_within fp cs : issues (within fp) (conditionsToCR cs).
Proof.
  induction cs as [|c cs IH]; simpl; [done|]. split; [done|]. intros t.
  apply issues_bind; [done|]. done.
Qed.

Lemma applyNodeStatus_within fp cr n : issues (within fp) (applyNodeStatus cr n).
Proof. unfold applyNodeStatus. apply issues_bind; [apply conditionsToCR_within|done]. Qed.

Lemma updateStatus_within n : issues (within fp_save) (updateStatus n).
Proof.
  unfold updateStatus, updateStatus_attempt. apply issues_retry.
  apply issues_bind; [footprint|]. intros [cr|e]; [|footprint].
  apply issues_bind; [apply applyNodeStatus_within|]. footprint.
Qed.

Lemma Save_within n : issues (within fp_save) (Save n).
Proof.
  unfold Save, annotate_attempt. apply issues_bind; [footprint|]. intros [cr|e].
  - apply issues_bind; [footprint|]. intros [e|]; [footprint|apply updateStatus_within].
  - destruct (IgnoreNotFound e); [done|]. apply issues_bind; [footprint|].
    intros [cr|e']; [|done]. apply issues_bind; [apply applyNodeStatus_within|]. intros cr'.
    apply issues_bind; [footprint|]. intros [?|e2]; [done|].
    destruct (_ || _); [apply updateStatus_within|done].
Qed.

Lemma ListByPool_within ns name :
  issues (within fp_save) (nodes_ListByPool nodeRepo ns name).
Proof. change (issues (within fp_save) (ListByPool ns name)). unfold ListByPool. footprint. Qed.

Lemma upsertLease_within cs name : issues (within fp_register) (upsertLease cs name).
Proof. unfold upsertLease. footprint. Qed.

Lemma UpdateNodeStatus_within n t :
  issues (within fp_register) (registrar_UpdateNodeStatus kubeconfigResolver n t).
Proof.
  unfold registrar_UpdateNodeStatus, node_status_attempt. case_bool_decide; [done|].
  apply issues_bind; [eapply issues_within; [|apply GetClient_within]; set_solver|].
  intros [cs|e]; [|done]. apply issues_bind; [footprint|].
  intros [e|]; [done|apply upsertLease_within].
Qed.

Lemma Register_within n t :
  issues (within fp_register) (registrar_Register kubeconfigResolver n t).
Proof.
  unfold registrar_Register, ensureLeaseNamespace, upsertNode.
  apply issues_bind; [eapply issues_within; [|apply GetClient_within]; set_solver|].
  intros [cs|e]; [|done]. apply issues_bind; [footprint|]. intros [e|]; [done|].
  apply issues_bind; [footprint|]. intros [e|]; [done|apply UpdateNodeStatus_within].
Qed.

Lemma Deregister_within n t :
  issues (within fp_deregister) (registrar_Deregister kubeconfigResolver n t).
Proof.
  unfold registrar_Deregister. case_bool_decide; [done|].
  apply issues_bind; [eapply issues_within; [|apply GetClient_within]; set_solver|].
  intros [cs|e]; footprint.
Qed.

(** Lift the footprint of a part into the one of the whole. *)
Ltac sub_footprint lem := eapply issues_within; [|apply lem]; set_solver.

Lemma UpdateNode_within n : issues (within fp_vnode) (UpdateNode nodeRepo registrar n).
Proof.
  assert (forall n, issues (within fp_vnode) (nodes_Save nodeRepo n)) as Hs
    by (intros; sub_footprint Save_within).
  assert (forall n, issues (within fp_vnode) (saveReady nodeRepo n)) as Hr
    by (intros; unfold saveReady; apply issues_bind; [apply Hs|]; footprint).
  unfold UpdateNode. destruct (_ && _); [done|]. destruct (shouldRetryRegistration n).
  - unfold retryRegistration. apply issues_bind; [sub_footprint Register_within|].
    intros [e|]; [|apply Hr]. destruct (isIgnorableStatusError e); [done|].
    destruct (_ || _); [|done]. apply issues_bind; [apply Hs|]. footprint.
  - unfold refreshStatus. apply issues_bind; [sub_footprint UpdateNodeStatus_within|].
    intros [e|]; [|destruct (_ && _); [done|apply Hr]].
    destruct (isIgnorableStatusError e); [done|]. apply issues_bind; [apply Hs|]. footprint.
Qed.

Lemma ProvisionNode_within pool : issues (within fp_vnode) (ProvisionNode nodeRepo registrar pool).
Proof.
  assert (forall n, issues (within fp_vnode) (nodes_Save nodeRepo n)) as Hs
    by (intros; sub_footprint Save_within).
  unfold ProvisionNode. apply issues_bind; [sub_footprint ListByPool_within|].
  intros [l|e]; [|done].
  apply issues_bind; [apply Hs|]. intros [e|]; [done|].
  apply issues_bind; [sub_footprint Register_within|]. intros [e|]; (apply issues_bind; [apply Hs|]).
  - done.
  - by intros [e|].
Qed.

Lemma DeprovisionNode_within n : issues (within fp_scale) (DeprovisionNode nodeRepo registrar n).
Proof.
  unfold DeprovisionNode. apply issues_bind; [sub_footprint Save_within|]. intros [e|]; [done|].
  apply issues_bind; [sub_footprint Deregister_within|]. intros _.
  apply issues_bind; [|footprint]. split; [in_list|done].
Qed.

Lemma ReconcileNodes_within pool : issues (within fp_scale) (ReconcilePoolNodes poolSvc pool).
Proof.
  apply ReconcileNodes_issues.
  - intros. sub_footprint ListByPool_within.
  - intros. sub_footprint ProvisionNode_within.
  - apply DeprovisionNode_within.
Qed.

(** *** Pods *)

Lemma CreatePod_within pod : issues (within fp_hostpods) (CreatePod hostPods pod).
Proof. change (issues (within fp_hostpods) (CreatePod_ pod)). unfold CreatePod_. footprint. Qed.

Lemma DeletePod_within ns name : issues (within fp_hostpods) (DeletePod hostPods ns name).
Proof. change (issues (within fp_hostpods) (DeletePod_ ns name)). unfold DeletePod_. footprint. Qed.

Lemma GetPod_within ns name : issues (within fp_hostpods) (GetPod hostPods ns name).
Proof. change (issues (within fp_hostpods) (GetPod_ ns name)). unfold GetPod_. footprint. Qed.

Lemma GetPodStatus_within ns name : issues (within fp_hostpods) (GetPodStatus hostPods ns name).
Proof.
  change (issues (within fp_hostpods) (GetPodStatus_ ns name)). unfold GetPodStatus_. footprint.
Qed.

Lemma ListPods_within ns labels : issues (within fp_hostpods) (ListPodsByLabels hostPods ns labels).
Proof.
  change (issues (within fp_hostpods) (ListPodsByLabels_ ns labels)).
  unfold ListPodsByLabels_. footprint.
Qed.

Lemma hostpods_pods {A} (p : go A) : issues (within fp_hostpods) p -> issues (within fp_pods) p.
Proof. apply issues_within. set_solver. Qed.

Lemma pods_podsync {A} (p : go A) : issues (within fp_pods) p -> issues (within fp_podsync) p.
Proof. apply issues_within. set_solver. Qed.

Lemma resources_podsync {A} (p : go A) :
  issues (within fp_resources) p -> issues (within fp_podsync) p.
Proof. apply issues_within. set_solver. Qed.

Lemma EnsureConfigMap_within ns name d b l :
  issues (within fp_resources) (EnsureConfigMap hostPods ns name d b l).
Proof.
  change (issues (within fp_resources) (EnsureConfigMap_ ns name d b l)).
  unfold EnsureConfigMap_. footprint.
Qed.

Lemma EnsureSecret_within ns name d l :
  issues (within fp_resources) (EnsureSecret hostPods ns name d l).
Proof.
  change (issues (within fp_resources) (EnsureSecret_ ns name d l)). unfold EnsureSecret_. footprint.
Qed.

Lemma syncPodResources_within cs t pool :
  issues (within fp_resources) (syncPodResources cs hostPods t pool).
Proof.
  unfold syncPodResources. apply issues_bind; [|by intros [|]]. apply issues_for_range.
  intros ref u. unfold syncResource. case_bool_decide; [|case_bool_decide; [|done]].
  - apply issues_bind; [footprint|]. intros [cm|e]; [|footprint].
    apply issues_bind; [apply EnsureConfigMap_within|]. footprint.
  - apply issues_bind; [footprint|]. intros [se|e]; [|footprint].
    apply issues_bind; [apply EnsureSecret_within|]. footprint.
Qed.

Lemma ensureHostPod_within pod : issues (within fp_hostpods) (ensureHostPod hostPods pod).
Proof.
  unfold ensureHostPod. apply issues_bind; [apply GetPod_within|]. intros [cur|e].
  - destruct (ps_Deleting cur); [done|]. destruct (podSpecsEqual cur pod); [done|].
    apply issues_bind; [apply DeletePod_within|]. footprint.
  - destruct (IsNotFound e); [|done]. apply issues_bind; [apply CreatePod_within|]. footprint.
Qed.

Lemma finishTerminal_within src target r d :
  issues (within fp_hostpods) (finishTerminal hostPods src target r d).
Proof.
  unfold finishTerminal. destruct (isTerminalPod src); [|done].
  apply issues_bind; [apply DeletePod_within|]. footprint.
Qed.

Lemma syncHostStatus_within runtime cs src target r d :
  issues (within fp_pods) (syncHostStatus hostPods (PodService runtime) cs src target r d).
Proof.
  unfold syncHostStatus. apply issues_bind; [apply hostpods_pods, GetPodStatus_within|]. intros [st|e].
  - apply issues_bind; [done|]. intros [st'|e]; [|done].
    apply issues_bind; [unfold updateTenantPodStatus; footprint|].
    intros [e|]; [done|apply hostpods_pods, finishTerminal_within].
  - destruct (IsNotFound e); [apply hostpods_pods, finishTerminal_within|done].
Qed.

Lemma processPod_within runtime cs pool src a :
  issues (within fp_podsync) (processPod hostPods (PodService runtime) cs pool src a).
Proof.
  unfold processPod. destruct a as [r d]. apply issues_bind; [done|]. intros [t|e]; [|done].
  apply issues_bind; [apply resources_podsync, syncPodResources_within|]. intros [e|]; [done|].
  destruct (isTerminalPod src); [apply pods_podsync, syncHostStatus_within|].
  apply issues_bind; [apply pods_podsync, hostpods_pods, ensureHostPod_within|]. intros [[c dl] [e|]].
  - by destruct (errors_Is e ErrPodTerminating).
  - apply pods_podsync, syncHostStatus_within.
Qed.

Lemma cleanupOrphans_within pool r d :
  issues (within fp_hostpods) (cleanupOrphans hostPods pool r d).
Proof.
  unfold cleanupOrphans. apply issues_bind; [apply ListPods_within|]. intros [pods|e]; [|done].
  apply issues_bind; [|by intros [|]]. apply issues_for_range. intros pod r'.
  unfold removeOrphan. case_bool_decide; [done|].
  apply issues_bind; [apply DeletePod_within|]. footprint.
Qed.

Lemma ReconcilePool_within cfg pool : issues (within fp_podsync) (podExecSvc cfg pool).
Proof.
  unfold podExecSvc, ReconcilePool.
  apply issues_bind; [sub_footprint GetClient_within|]. intros [cs|e]; [|done].
  apply issues_bind.
  { change (issues (within fp_podsync) (ListByPool (vp_Namespace pool) (vp_Name pool))).
    unfold ListByPool. footprint. }
  intros [nodes|e]; [|done].
  apply issues_bind; [unfold listTenantPodsForNodes; footprint|]. intros [pods|e]; [|done].
  apply issues_bind; [apply issues_for_range; intros; apply processPod_within|].
  intros [[r d]|r]; [apply pods_podsync, hostpods_pods, cleanupOrphans_within|done].
Qed.

Lemma CleanupPoolPods_within pool : issues (within fp_hostpods) (CleanupPoolPods hostPods pool).
Proof.
  unfold CleanupPoolPods. apply issues_bind; [apply ListPods_within|]. intros [pods|e].
  - apply issues_bind; [|by intros [|]]. apply issues_for_range. intros pod d. unfold cleanupPod.
    apply issues_bind; [apply DeletePod_within|]. footprint.
  - by destruct (isIgnorableShutdownError e).
Qed.

(** *** The controllers *)

Lemma mutateStatus_within fp phase counts a b c d e f st :
  issues (within fp) (mutateStatus phase counts a b c d e f st).
Proof. unfold mutateStatus, setStatusCondition. footprint. Qed.

Lemma updatePoolStatus_within ns name mutate :
  (forall st, issues (within fp_pool) (mutate st)) ->
  issues (within fp_pool) (updatePoolStatus ns name mutate).
Proof.
  intros Hm. unfold updatePoolStatus, updatePoolStatus_attempt. apply issues_retry.
  apply issues_bind; [footprint|]. intros [base|e]; [|done].
  apply issues_bind; [apply Hm|]. footprint.
Qed.

Lemma handleDeletion_within cr : issues (within fp_pool) (handleDeletion poolSvc cr).
Proof.
  unfold handleDeletion. destruct (negb _); [done|].
  apply issues_bind; [apply updatePoolStatus_within; intros; apply mutateStatus_within|]. intros _.
  apply issues_bind; [sub_footprint ReconcileNodes_within|]. intros [p [e|]]; [done|].
  apply issues_bind; [footprint|]. intros [l|e]; [|done]. destruct (0 <? length l)%nat; [done|].
  unfold removeFinalizer_attempt. footprint.
Qed.

Lemma reconcileSpec_within cr : issues (within fp_pool) (reconcileSpec poolSvc cr).
Proof.
  unfold reconcileSpec. destruct (Validate _).
  { apply issues_bind; [apply updatePoolStatus_within; intros; apply mutateStatus_within|done]. }
  apply issues_bind; [sub_footprint ReconcileNodes_within|].
  intros [p [e|]]; (apply issues_bind;
    [apply updatePoolStatus_within; intros; apply mutateStatus_within|]); [done|].
  intros [e|]; [done|]. by destruct (_ && _).
Qed.

Lemma cleanupDeleted_within pool :
  issues (within fp_podsync) (cleanupDeleted hostPods true pool).
Proof.
  unfold cleanupDeleted, recordWarning, recordEvent.
  apply issues_bind; [apply pods_podsync, hostpods_pods, CleanupPoolPods_within|]. footprint.
Qed.

Lemma executePool_within cfg ns name pool :
  issues (within fp_podsync) (executePool (podExecSvc cfg) true ns name pool).
Proof.
  unfold executePool, recordWarning, recordEvent,
    updateExecutionConditions, executionConditions_attempt, setPodSyncCondition.
  apply issues_bind; [apply ReconcilePool_within|]. footprint.
Qed.

(** C16: The three controllers stay within their footprints, whatever the API
    servers reply: only the VNodePool controller deletes nodes and only it
    updates pool objects, the VNode controller deletes nothing, and the pod
    sync controller writes no VNode, Node, Lease or Namespace. *)
Theorem controllers_footprint (cfg : Config) (ns name : string) :
  issues (within fp_pool) (poolReconciler ns name) /\
  issues (within fp_vnode) (vnodeReconciler ns name) /\
  issues (within fp_podsync) (podSyncReconciler cfg ns name).
Proof.
  split; [|split].
  - unfold poolReconciler, ReconcileVNodePool. apply issues_bind; [footprint|].
    intros [cr|e]; [|done]. destruct (deleting _); [apply handleDeletion_within|].
    destruct (negb _); [|apply reconcileSpec_within].
    apply issues_bind; [footprint|]. intros [cr'|e]; [apply reconcileSpec_within|done].
  - unfold vnodeReconciler, ReconcileVNode. apply issues_bind; [footprint|].
    intros [cr|e]; [|done]. apply issues_bind; [apply UpdateNode_within|]. footprint.
  - unfold podSyncReconciler, ReconcilePodSync. apply issues_bind; [footprint|].
    intros [cr|e]; [|done]. destruct (Validate _); [done|]. destruct (deleting _).
    + apply cleanupDeleted_within.
    + case_bool_decide; [done|apply executePool_within].
Qed.

(** ** The finalizer *)

(** The tracked state says that the last listing of the pool's VNodes was
    empty and no VNode was created since.  A write of the pool object must keep
    the finalizer unless that holds; the server answers a [Get] of a pool with
    the pool asked for. *)
Definition finalizer_guard (ns name : string) : spec api bool :=
  mkSpec
    (fun R c s => match c with
      | Update _ k o =>
          match k in kind T return T -> Prop with
          | KVNodePool => fun o => poolFinalizer ∈ om_Finalizers (pc_Meta o) \/ s = true
          | _ => fun _ => True
          end o
      | Delete _ KVNodePool _ _ => False
      | _ => True
      end)
    (fun R c s r s' => match c in api R return R -> Prop with
      | Get _ k ns' name' => fun r =>
          s' = s /\
          match k in kind T return res T -> Prop with
          | KVNodePool => fun r =>
              match r with Ok cr => key_of KVNodePool cr = (ns', name') | Err _ => True end
          | _ => fun _ => True
          end r
      | List HostClient k ns' labels => fun r =>
          match k in kind T return res (list T) -> Prop with
          | KVNode => fun r =>
              if bool_decide (ns' = ns /\ labels = {[ "vnode.kroderdev.io/pool" := name ]})
              then s' = match r with Ok [] => true | _ => false end
              else s' = s
          | _ => fun _ => s' = s
          end r
      | Create _ KVNode _ => fun _ => s' = false
      | _ => fun _ => s' = s
      end r).

(** A program that neither updates nor deletes a pool object is never stopped
    by the guard. *)
Lemma guard_free {A} ns name fp (p : go A) s m Q :
  (forall x, x ∈ fp -> x <> (OnHost, VUpdate, TVNodePool) /\ x <> (OnTenant, VUpdate, TVNodePool) /\
     x <> (OnHost, VDelete, TVNodePool) /\ x <> (OnTenant, VDelete, TVNodePool)) ->
  issues (within fp) p -> (forall o s' m', Q o s' m') ->
  wp (finalizer_guard ns name) p s m Q.
Proof.
  intros Hfp Hp HQ. eapply wp_mono; [intros; apply HQ|].
  apply (wp_issues _ (within fp) (fun _ => True)); [|done..].
  intros R c s' Hc _. unfold within in Hc.
  destruct c as [? c k| |? c k o|? c k o|? c k o|? c k b o|? c k ? ?| | | |]; try exact I;
    destruct (Hfp _ Hc) as (N1 & N2 & N3 & N4); destruct k; try exact I; by destruct c.
Qed.

Lemma fp_scale_guard x :
  x ∈ fp_scale -> x <> (OnHost, VUpdate, TVNodePool) /\ x <> (OnTenant, VUpdate, TVNodePool) /\
    x <> (OnHost, VDelete, TVNodePool) /\ x <> (OnTenant, VDelete, TVNodePool).
Proof.
  intros Hx. cbv in Hx. repeat (apply elem_of_cons in Hx as [->|Hx]; [done|]).
  by apply not_elem_of_nil in Hx.
Qed.

(** Reading and patching the status of pools. *)
Definition fp_status : list (side * verb * ktag) :=
  [(OnHost, VRead, TVNodePool); (OnHost, VStatus, TVNodePool)].

Lemma fp_status_guard x :
  x ∈ fp_status -> x <> (OnHost, VUpdate, TVNodePool) /\ x <> (OnTenant, VUpdate, TVNodePool) /\
    x <> (OnHost, VDelete, TVNodePool) /\ x <> (OnTenant, VDelete, TVNodePool).
Proof.
  intros Hx. cbv in Hx. repeat (apply elem_of_cons in Hx as [->|Hx]; [done|]).
  by apply not_elem_of_nil in Hx.
Qed.

Lemma updatePoolStatus_status ns name phase counts a b c d e f :
  issues (within fp_status) (updatePoolStatus ns name (mutateStatus phase counts a b c d e f)).
Proof.
  unfold updatePoolStatus, updatePoolStatus_attempt. apply issues_retry.
  apply issues_bind; [footprint|]. intros [base|err]; [|done].
  apply issues_bind; [apply mutateStatus_within|]. footprint.
Qed.

Lemma reconcileSpec_guard ns name cr s m :
  wp (finalizer_guard ns name) (reconcileSpec poolSvc cr) s m (fun _ _ _ => True).
Proof.
  unfold reconcileSpec. destruct (Validate _).
  { apply wp_bind. eapply guard_free; [apply fp_status_guard|apply updatePoolStatus_status|].
    by intros [?|?]. }
  apply wp_bind. eapply guard_free; [apply fp_scale_guard|apply ReconcileNodes_within|].
  intros [[p [e|]]|msg] s' m'; [..|done]; apply wp_bind;
    (eapply guard_free; [apply fp_status_guard|apply updatePoolStatus_status|]);
    intros [[?|]|?] s2 m2; try done. simpl. by destruct (_ && _).
Qed.

Lemma handleDeletion_guard ns name cr s m :
  key_of KVNodePool cr = (ns, name) ->
  wp (finalizer_guard ns name) (handleDeletion poolSvc cr) s m (fun _ _ _ => True).
Proof.
  intros Hkey. injection Hkey as Hns Hname. unfold handleDeletion.
  destruct (negb _); [done|]. rewrite Hns, Hname.
  apply wp_bind. eapply guard_free; [apply fp_status_guard|apply updatePoolStatus_status|].
  intros [o|?] s1 m1; [|done].
  apply wp_bind. eapply guard_free; [apply fp_scale_guard|apply ReconcileNodes_within|].
  intros [[p [e|]]|msg] s2 m2; try done.
  apply wp_bind. unfold call; simpl. split; [done|]. intros [l|e] s3 Hs3; [|done].
  rewrite bool_decide_true in Hs3 by done. destruct l as [|x l]; [|done]. subst s3. simpl.
  apply wp_bind. apply (wp_retry _ (fun s _ => s = true)); [|done].
  intros s4 m4 ->. unfold removeFinalizer_attempt. apply wp_bind. simpl. split; [done|].
  intros [cur|e] s5 [-> _]; simpl; [|by destruct (IgnoreNotFound e)].
  split; [by right|]. intros [o'|e] s6 ->; done.
Qed.

(** C3: The pool's finalizer is removed only after the controller has seen, with no
    VNode created in between, that no VNode of the pool is left; until then
    every write of the pool keeps it.  This holds for every reply of the API
    servers that answers a read of a pool with that pool. *)
Theorem finalizer_removed_only_when_empty (ns name : string) (s : bool) (m : mem) :
  wp (finalizer_guard ns name) (poolReconciler ns name) s m (fun _ _ _ => True).
Proof.
  unfold poolReconciler, ReconcileVNodePool. apply wp_bind. unfold call; simpl.
  split; [done|]. intros [cr|e] s1 [-> Hkey]; [|done].
  destruct (deleting (pc_Meta cr)); [by apply handleDeletion_guard|].
  destruct (ContainsFinalizer _ _) eqn:Hc; simpl; [apply reconcileSpec_guard|].
  split.
  - left. rewrite AddFinalizer_law. case_bool_decide; set_solver.
  - intros [cr'|e] s2 _; [apply reconcileSpec_guard|done].
Qed.

End Stacks.

Lemma controllers_footprint_witness :
  issues (within fp_pool) (@poolReconciler simple_libs "ns" "pool") /\
  issues (within fp_vnode) (@vnodeReconciler simple_libs "ns" "vnode-pool-1") /\
  issues (within fp_podsync) (@podSyncReconciler simple_libs (Default ∅) "ns" "pool").
Proof.
  split_and!.
  - apply (@controllers_footprint simple_libs simple_libs_laws (Default ∅) "ns" "pool").
  - apply (@controllers_footprint simple_libs simple_libs_laws (Default ∅) "ns" "vnode-pool-1").
  - apply (@controllers_footprint simple_libs simple_libs_laws (Default ∅) "ns" "pool").
Defined.

Lemma finalizer_removed_only_when_empty_witness :
  wp (finalizer_guard "ns" "pool") (@poolReconciler simple_libs "ns" "pool") false ∅
    (fun _ _ _ => True).
Proof.
  apply (@finalizer_removed_only_when_empty simple_libs simple_libs_laws "ns" "pool" false ∅).
Defined.
