(* ===== verification/PodSafety.v ===== *)
(** What the pod side of the operator puts on the host cluster: every pod,
    ConfigMap and Secret it writes there, on every path; and what the cleanup
    of a pool leaves behind. *)

From S2P Require Import Prelude GoProg Model PodModel Kube Libs ApiServer Testbed Ports.
From S2P Require Import PodClient NodeRepo Registrar PodService Execution Config System.

(** ** Confinement *)

(** The mount path of the service account token. *)
Definition tokenPath : string := "/var/run/secrets/kubernetes.io/serviceaccount".

(** A host pod that is confined to [pool]: in its namespace, labelled with the
    operator and the pool, without service account, token or pinned node, and
    with the runtime class and node selector of the pool. *)
Definition confined (runtime : IsolationRuntime) (pool : VNodePool) (o : CorePod) : Prop :=
  om_Namespace (cp_Meta o) = vp_Namespace pool /\
  poolLabels pool ⊆ om_Labels (cp_Meta o) /\
  cps_ServiceAccountName (cp_Spec o) = "" /\
  cps_AutomountServiceAccountToken (cp_Spec o) = Some false /\
  cps_NodeName (cp_Spec o) = "" /\
  cps_RuntimeClassName (cp_Spec o) =
    stringPtrOrNil (if bool_decide (vp_RuntimeClassName pool = "") then RuntimeClassName runtime
                    else vp_RuntimeClassName pool) /\
  (vp_Mode pool = PoolModeDedicated -> cps_NodeSelector (cp_Spec o) = vp_NodeSelector pool) /\
  (forall v, v ∈ cps_Volumes (cp_Spec o) -> cv_Projected v = None) /\
  (forall c mnt, c ∈ cps_Containers (cp_Spec o) -> mnt ∈ cc_VolumeMounts c ->
     cvm_MountPath mnt <> tokenPath).

(** What may be written to the host for [pool]: confined pods may be created,
    and no pod replaced; ConfigMaps and Secrets carry the labels of the pool. *)
Definition host_write (runtime : IsolationRuntime) (pool : VNodePool) (R : Type) (c : api R)
    : Prop :=
  match c with
  | Create _ k o =>
      match k in kind T return T -> Prop with
      | KPod => fun o => confined runtime pool o
      | KConfigMap => fun o => om_Labels (cm_Meta o) = poolLabels pool
      | KSecret => fun o => om_Labels (se_Meta o) = poolLabels pool
      | _ => fun _ => False
      end o
  | Update _ k o =>
      match k in kind T return T -> Prop with
      | KConfigMap => fun o => om_Labels (cm_Meta o) = poolLabels pool
      | KSecret => fun o => om_Labels (se_Meta o) = poolLabels pool
      | _ => fun _ => False
      end o
  | _ => True
  end.

Section Confinement.
Context `{L : KubeLibs}.
Variable runtime : IsolationRuntime.
Variable pool : VNodePool.

Abbreviation W := (host_write runtime pool).

(** A volume is projected on the host only if it was so in the domain. *)
Lemma volumeToK8s_projected v :
  vo_Type v <> VolumeTypeProjected -> cv_Projected (volumeToK8s v) = None.
Proof. intros Hv. unfold volumeToK8s. repeat case_bool_decide; simpl; done || congruence. Qed.

Lemma containerToK8s_mounts c o mnt :
  containerToK8s c = Some o -> mnt ∈ cc_VolumeMounts o ->
  exists vm, vm ∈ ct_VolumeMounts c /\ cvm_MountPath mnt = vm_MountPath vm.
Proof.
  unfold containerToK8s.
  destruct (resourceListToK8s (cr_Requests (ct_Resources c))); simpl; [|done].
  destruct (resourceListToK8s _); simpl; [|done]. intros [= <-]. simpl.
  unfold volumeMountsToK8s. intros (vm & -> & Hvm)%list_elem_of_fmap. by exists vm.
Qed.

Lemma tracked_labels source vnode :
  poolLabels pool ⊆
  ps_Labels (pt_TargetPod (TranslatePod source (translateOpts runtime pool vnode))).
Proof.
  rewrite target_labels. etrans; [|apply map_union_subseteq_l].
  destruct (trackingLabels_lookup source (translateOpts runtime pool vnode)) as (H1 & H2 & _).
  unfold poolLabels. apply insert_subseteq_l; [exact H1|].
  apply insert_subseteq_l; [exact H2|]. apply map_empty_subseteq.
Qed.

(** The host pod of a translation is confined. *)
Lemma translated_confined source vnode o :
  podSpecToK8sPod (pt_TargetPod (TranslatePod source (translateOpts runtime pool vnode))) = Some o ->
  confined runtime pool o.
Proof.
  set (opts := translateOpts runtime pool vnode). unfold podSpecToK8sPod.
  destruct (mapM containerToK8s _) as [cs|] eqn:Hcs; [cbn [mbind option_bind]|done].
  intros [= <-]. unfold confined. cbn [cp_Meta cp_Spec newMeta om_Namespace om_Labels
    cps_ServiceAccountName cps_AutomountServiceAccountToken cps_NodeName cps_RuntimeClassName
    cps_NodeSelector cps_Volumes cps_Containers].
  split_and!; try done.
  - exact (tracked_labels source vnode).
  - intros Hm. simpl. by rewrite Hm.
  - intros v (v' & -> & Hv')%list_elem_of_fmap. apply volumeToK8s_projected.
    by apply (target_volumes source opts).
  - intros c mnt Hc Hmnt. apply mapM_Some_1 in Hcs.
    apply list_elem_of_lookup in Hc as [i Hi].
    destruct (Forall2_lookup_r _ _ _ _ _ Hcs Hi) as (c0 & Hc0 & Heq).
    destruct (containerToK8s_mounts _ _ _ Heq Hmnt) as (vm & Hvm & ->).
    apply list_elem_of_lookup_2 in Hc0.
    pose proof (target_mounts source opts _ _ Hc0 Hvm) as Hsa.
    unfold isServiceAccountMount in Hsa. by apply bool_decide_eq_false in Hsa.
Qed.

(** A pod whose creation is confined. *)
Definition admissible (pod : PodSpec) : Prop :=
  forall o, podSpecToK8sPod pod = Some o -> confined runtime pool o.

(** Walk through reads and deletions. *)
Ltac harmless := repeat first [ issues_step | exact I | progress intros ].

Lemma DeletePod_writes ns name : issues W (DeletePod hostPods ns name).
Proof. change (issues W (DeletePod_ ns name)). unfold DeletePod_. harmless. Qed.

Lemma CreatePod_writes pod : admissible pod -> issues W (CreatePod hostPods pod).
Proof.
  intros Hp. change (issues W (CreatePod_ pod)). unfold CreatePod_.
  destruct (podSpecToK8sPod pod) as [o|] eqn:Ho; [|done].
  split; [by apply Hp|]. done.
Qed.

Lemma EnsureConfigMap_writes ns name d b :
  issues W (EnsureConfigMap hostPods ns name d b (poolLabels pool)).
Proof.
  change (issues W (EnsureConfigMap_ ns name d b (poolLabels pool))). unfold EnsureConfigMap_.
  apply issues_bind; [by split|]. intros [o|e]; [by split|].
  destruct (IsNotFound e); [by split|done].
Qed.

Lemma EnsureSecret_writes ns name d :
  issues W (EnsureSecret hostPods ns name d (poolLabels pool)).
Proof.
  change (issues W (EnsureSecret_ ns name d (poolLabels pool))). unfold EnsureSecret_.
  apply issues_bind; [by split|]. intros [o|e]; [by split|].
  destruct (IsNotFound e); [by split|done].
Qed.

Lemma syncPodResources_writes cs t : issues W (syncPodResources cs hostPods t pool).
Proof.
  unfold syncPodResources. apply issues_bind; [|by intros [|]]. apply issues_for_range.
  intros ref u. unfold syncResource. case_bool_decide; [|case_bool_decide; [|done]].
  - apply issues_bind; [by split|]. intros [cm|e]; [|by destruct (IsNotFound e)].
    apply issues_bind; [apply EnsureConfigMap_writes|]. by intros [|].
  - apply issues_bind; [by split|]. intros [se|e]; [|by destruct (IsNotFound e)].
    apply issues_bind; [apply EnsureSecret_writes|]. by intros [|].
Qed.

Lemma ensureHostPod_writes pod : admissible pod -> issues W (ensureHostPod hostPods pod).
Proof.
  intros Hp. unfold ensureHostPod. apply issues_bind.
  { change (issues W (GetPod_ (ps_Namespace pod) (ps_Name pod))). unfold GetPod_. harmless. }
  intros [cur|e].
  - destruct (ps_Deleting cur); [done|]. destruct (podSpecsEqual cur pod); [done|].
    apply issues_bind; [apply DeletePod_writes|]. by intros [|].
  - destruct (IsNotFound e); [|done]. apply issues_bind; [by apply CreatePod_writes|]. done.
Qed.

Lemma finishTerminal_writes src target r d : issues W (finishTerminal hostPods src target r d).
Proof.
  unfold finishTerminal. destruct (isTerminalPod src); [|done].
  apply issues_bind; [apply DeletePod_writes|]. by intros [|].
Qed.

Lemma syncHostStatus_writes cs src target r d :
  issues W (syncHostStatus hostPods (PodService runtime) cs src target r d).
Proof.
  unfold syncHostStatus. apply issues_bind.
  { change (issues W (GetPodStatus_ (ps_Namespace target) (ps_Name target))).
    unfold GetPodStatus_. harmless. }
  intros [st|e]; [|destruct (IsNotFound e); [apply finishTerminal_writes|done]].
  apply issues_bind; [done|]. intros [st'|e]; [|done].
  apply issues_bind; [unfold updateTenantPodStatus; harmless|].
  intros [e|]; [done|apply finishTerminal_writes].
Qed.

Lemma processPod_writes cs src a :
  issues W (processPod hostPods (PodService runtime) cs pool src a).
Proof.
  unfold processPod. destruct a as [r d]. cbn [PodService Translate TranslateForPool bind].
  apply issues_bind; [apply syncPodResources_writes|]. intros [e|]; [done|].
  destruct (isTerminalPod src); [apply syncHostStatus_writes|].
  apply issues_bind; [apply ensureHostPod_writes; intros o; apply translated_confined|].
  intros [[c dl] [e|]]; [by destruct (errors_Is e ErrPodTerminating)|apply syncHostStatus_writes].
Qed.

End Confinement.

Lemma podExecSvc_writes `{L : KubeLibs} cfg pool :
  issues (host_write (kataRuntime cfg) pool) (podExecSvc cfg pool).
Proof.
  unfold podExecSvc, ReconcilePool. apply issues_bind.
  { unfold GetClient, kubeconfigResolver. cbn -[kubeconfig_data]. intros [cs|]; [done|].
    split; [done|]. intros [secret|e]; [|done].
    generalize (kubeconfig_data ["kubeconfig"; "config"; "value"] (se_Data secret)).
    intros [d|]; simpl; [|done]. destruct (RESTConfigFromKubeConfig d); simpl; [|done].
    split; [done|]. by intros [|]. }
  intros [cs|e]; [|done]. apply issues_bind.
  { change (issues (host_write (kataRuntime cfg) pool)
      (ListByPool (vp_Namespace pool) (vp_Name pool))).
    unfold ListByPool. apply issues_bind; [by split|]. by intros [|]. }
  intros [nodes|e]; [|done]. apply issues_bind.
  { unfold listTenantPodsForNodes. destruct (_ =? _)%nat; [done|].
    apply issues_bind; [by split|]. by intros [|]. }
  intros [pods|e]; [|done]. apply issues_bind.
  { apply issues_for_range. intros src a. apply processPod_writes. }
  intros [[r d]|r]; [|done]. unfold cleanupOrphans. apply issues_bind.
  { change (issues (host_write (kataRuntime cfg) pool)
      (ListPodsByLabels_ (vp_Namespace pool) (poolLabels pool))).
    unfold ListPodsByLabels_. apply issues_bind; [by split|]. by intros [|]. }
  intros [hp|e]; [|done]. apply issues_bind; [|by intros [|]].
  apply issues_for_range. intros pod r'. unfold removeOrphan. case_bool_decide; [done|].
  apply issues_bind; [apply DeletePod_writes|]. by intros [|].
Qed.

(** C2: Whatever the clusters reply, every pod the operator creates on the host for
    a pool is confined to it (its namespace and labels, no credentials of the
    tenant or of the host, the runtime class and, for a dedicated pool, the node
    selector of the pool); it replaces no pod; and every ConfigMap and Secret it
    writes carries the labels of the pool. *)
Theorem host_writes_confined `{L : KubeLibs} cfg pool :
  issues (host_write (kataRuntime cfg) pool) (podExecSvc cfg pool).
Proof. apply podExecSvc_writes. Qed.

(** [pool] with another isolation backend and other tolerations. *)
Definition with_isolation (pool : VNodePool) (backend : string) (ts : list Toleration)
    : VNodePool :=
  mkVNodePool (vp_ID pool) (vp_Name pool) (vp_DisplayName pool) (vp_Namespace pool)
    (vp_TenantRef pool) (vp_Mode pool) backend (vp_RuntimeClassName pool) (vp_NodeCount pool)
    (vp_PerNodeResources pool) (vp_NodeSelector pool) (vp_Taints pool) ts (vp_Phase pool)
    (vp_ReadyNodes pool) (vp_Nodes pool) (vp_DeletionPending pool).

(** The isolation backend and the tolerations of a pool have no effect on its
    host pods; in particular a pool that declares only an isolation backend gets
    host pods without a runtime class under the default configuration. *)
Theorem isolation_backend_ignored `{L : KubeLibs} pool backend ts source vnode :
  Translate (podSvc (Default ∅)) source (with_isolation pool backend ts) vnode =
    Translate (podSvc (Default ∅)) source pool vnode /\
  (vp_RuntimeClassName pool = "" ->
   forall o, podSpecToK8sPod (pt_TargetPod (TranslatePod source
       (translateOpts (kataRuntime (Default ∅)) (with_isolation pool backend ts) vnode))) = Some o ->
     cps_RuntimeClassName (cp_Spec o) = None).
Proof.
  split; [done|]. intros Hr o Ho. apply translated_confined in Ho.
  destruct Ho as (_ & _ & _ & _ & _ & -> & _). simpl. by rewrite Hr.
Qed.

(** ** Cleanup of a pool *)
Section Cleanup.
Context `{L : KubeLibs} {LL : KubeLibsLaws}.
Variable faults : error -> Prop.
Hypothesis calm : forall e, faults e -> is_context_error e = false /\
  status_reason e <> Some ReasonNotFound.

Abbreviation K := (kube_spec faults).
Abbreviation pod x w := (object HostClient KPod x w).

(** Pods sit at their keys. *)
Definition pods_keyed (w : world) : Prop := forall x o, pod x w = Some o -> key_of KPod o = x.

(** The pod carries the labels of the pool, in its namespace. *)
Definition of_pool (pool : VNodePool) (x : key) (o : CorePod) : Prop :=
  selected KPod (vp_Namespace pool) (poolLabels pool) (x, o).

#[export] Instance of_pool_dec pool x o : Decision (of_pool pool x o).
Proof. unfold of_pool. apply _. Defined.

Definition going (o : CorePod) : Prop := om_DeletionTimestamp (cp_Meta o) <> None.

(** Where the pod at [x] is in a cleanup of the pods [sel] that started from [w0]
    and has the keys [todo] left. *)
Definition cleaning (sel : key -> CorePod -> Prop) (w0 w : world) (todo : list key) (x : key)
    : Prop :=
  match pod x w0 with
  | None => pod x w = None
  | Some o0 =>
      (pod x w = Some o0 /\ (sel x o0 -> x ∈ todo)) \/
      (sel x o0 /\ exists o, pod x w = Some o /\
         same_description (cp_Meta o0) (cp_Meta o) /\ going o)
  end.

Section Loop.
Variable sel : key -> CorePod -> Prop.

Lemma cleaning_step w0 w x todo y o o' :
  (forall z, cleaning sel w0 w (x :: todo) z) ->
  pod x w = Some o -> marked KPod o o' ->
  (forall o0, pod x w0 = Some o0 -> sel x o0) ->
  cleaning sel w0 (put HostClient KPod x (Some o') w) todo y.
Proof.
  intros Hc Ho (Hd & Hdel & _) Hsel. specialize (Hc y). unfold cleaning in *.
  destruct (decide (x = y)) as [<-|Hne].
  - rewrite object_put. destruct (pod x w0) as [o0|] eqn:Hw0; [|congruence].
    right. split; [by apply Hsel|]. exists o'. split_and!; try done.
    destruct Hc as [[Hx _]|(_ & o1 & Hx & Hd1 & _)].
    + rewrite Hx in Ho. by injection Ho as ->.
    + rewrite Hx in Ho. injection Ho as ->. unfold same_description in *. simpl in *.
      intuition congruence.
  - rewrite object_put_ne by done. destruct (pod y w0); [|done].
    destruct Hc as [[H1 H2]|H]; [left|by right]. split; [done|].
    intros Hs. apply H2 in Hs. apply elem_of_cons in Hs as [->|]; done.
Qed.

(** A key that needs no deletion. *)
Lemma cleaning_skip w0 w x todo y :
  (forall z, cleaning sel w0 w (x :: todo) z) ->
  pod x w = None \/ (forall o, pod x w0 = Some o -> ~ sel x o) -> cleaning sel w0 w todo y.
Proof.
  intros Hc Hx. specialize (Hc y). unfold cleaning in *.
  destruct (pod y w0) as [o0|] eqn:Hy; [|done].
  destruct Hc as [[H1 H2]|H]; [left|by right]. split; [done|]. intros Hs.
  pose proof (H2 Hs) as Hin. apply elem_of_cons in Hin as [->|]; [|done].
  destruct Hx as [Hx|Hx]; [congruence|by destruct (Hx o0 Hy)].
Qed.

(** One deletion: it goes on, or fails without a stopped context. *)
Lemma DeletePod_step w0 w m ns name rest :
  (forall z, cleaning sel w0 w ((ns, name) :: rest) z) ->
  (forall o0, pod (ns, name) w0 = Some o0 -> sel (ns, name) o0) ->
  wp K (DeletePod hostPods ns name) w m (fun o w' _ => exists r, o = Done r /\
    match r with
    | None => forall z, cleaning sel w0 w' rest z
    | Some e => is_context_error e = false
    end).
Proof.
  intros Hc Hsel. change (DeletePod hostPods ns name) with (DeletePod_ ns name).
  unfold DeletePod_. apply wp_bind. unfold call. cbn [wp]. split; [done|]. intros [e|] w1; simpl.
  - intros Hw. rewrite IsNotFound_reason. case_bool_decide as Hnf; simpl; eexists; (split; [done|]).
    + destruct Hw as [(r & _ & [_ Hnone] & ->)|[Hf _]]; [|by destruct (calm e Hf)].
      intros z. eapply cleaning_skip; [done|by left].
    + destruct Hw as [(r & He & _)|[Hf _]]; [by eapply status_not_context|by apply calm].
  - intros (old & Hold & [[Hnd _]|(_ & o' & Hm & ->)]); [by destruct Hnd|].
    eexists. split; [done|]. intros z. by eapply cleaning_step.
Qed.

End Loop.

Lemma cleanupPod_step sel w0 w m p n rest :
  (forall z, cleaning sel w0 w ((ps_Namespace p, ps_Name p) :: rest) z) ->
  (forall o0, pod (ps_Namespace p, ps_Name p) w0 = Some o0 -> sel (ps_Namespace p, ps_Name p) o0) ->
  wp K (cleanupPod hostPods p n) w m (fun o w' m' =>
    match o with
    | Done (Next _) => forall z, cleaning sel w0 w' rest z
    | Done (Return (_, e)) => exists e', e = Some e'
    | Panicked _ => False
    end).
Proof.
  intros Hc Hsel. unfold cleanupPod. apply wp_bind. eapply wp_mono; [|by apply DeletePod_step].
  intros o w1 m1 (r & -> & Hr). destruct r as [e|]; [|exact Hr].
  change (isIgnorableShutdownError e) with (is_context_error e). rewrite Hr. simpl. eauto.
Qed.

Definition spec_key (p : PodSpec) : key := (ps_Namespace p, ps_Name p).

(** The list of the cleanup: the pods of the pool. *)
Lemma listed_items pool w items :
  items ≡ₚ listing HostClient KPod (vp_Namespace pool) (poolLabels pool) w ->
  forall o, o ∈ items <-> exists x, pod x w = Some o /\ of_pool pool x o.
Proof. intros Hl o. by rewrite Hl, elem_of_listing. Qed.

Lemma cleaning_start (sel : key -> CorePod -> Prop) pool w items z :
  pods_keyed w -> (forall o, o ∈ items <-> exists x, pod x w = Some o /\ of_pool pool x o) ->
  (forall x o, sel x o -> of_pool pool x o) ->
  cleaning sel w w (spec_key <$> map podToSpec items) z.
Proof.
  intros Hw Hi Hsub. unfold cleaning. destruct (pod z w) as [o0|] eqn:Hz; [|done]. left.
  split; [done|]. intros Hs%Hsub. apply list_elem_of_fmap. exists (podToSpec o0). split.
  - symmetry. exact (Hw z o0 Hz).
  - apply list_elem_of_fmap_2. apply Hi. eauto.
Qed.

Lemma listed_selected pool w items p o0 :
  pods_keyed w -> (forall o, o ∈ items <-> exists x, pod x w = Some o /\ of_pool pool x o) ->
  p ∈ map podToSpec items -> pod (spec_key p) w = Some o0 -> of_pool pool (spec_key p) o0.
Proof.
  intros Hw Hi (o & -> & (x & Hx & Hs)%Hi)%list_elem_of_fmap Ho.
  change (spec_key (podToSpec o)) with (key_of KPod o) in *.
  rewrite (Hw x o Hx) in *. rewrite Hx in Ho. by injection Ho as <-.
Qed.

(** The end of the loop. *)
Lemma cleaned pool w w' x o' :
  (forall z, cleaning (of_pool pool) w w' [] z) -> pod x w' = Some o' ->
  if decide (of_pool pool x o') then going o' else pod x w = Some o'.
Proof.
  intros Hc Hx. specialize (Hc x). unfold cleaning in Hc.
  destruct (pod x w) as [o0|] eqn:Hw0; [|congruence].
  destruct Hc as [[H1 H2]|(Hs & o & H1 & Hd & Hg)].
  - rewrite Hx in H1. injection H1 as ->. case_decide as Hs; [|done].
    by apply H2, elem_of_nil in Hs.
  - rewrite Hx in H1. injection H1 as ->. rewrite decide_True; [done|].
    destruct Hs as [Hns Hlab]. destruct Hd as (_ & _ & El & _).
    split; [done|]. simpl in *. by rewrite El.
Qed.

(** C12: A cleanup that reports success, on API servers that behave as documented:
    every host pod in the namespace of the pool that carries its labels is
    marked for deletion, and every other pod is as it was. *)
Theorem CleanupPoolPods_complete pool w m :
  pods_keyed w ->
  wp K (CleanupPoolPods hostPods pool) w m (fun o w' _ => exists n err, o = Done (n, err) /\
    (err = None -> forall x o', pod x w' = Some o' ->
       if decide (of_pool pool x o') then going o' else pod x w = Some o')).
Proof.
  intros Hw. unfold CleanupPoolPods. apply wp_bind.
  change (ListPodsByLabels hostPods (vp_Namespace pool) (poolLabels pool))
    with (ListPodsByLabels_ (vp_Namespace pool) (poolLabels pool)). unfold ListPodsByLabels_.
  apply wp_bind. unfold call. cbn [wp]. split; [done|]. intros [items|e] w1 [-> Hl].
  2:{ destruct (calm e Hl) as [Hctx _]. simpl.
      change (isIgnorableShutdownError e) with (is_context_error e). rewrite Hctx. simpl.
      by do 2 eexists. }
  cbn [wp]. apply wp_bind. pose proof (listed_items pool w items Hl) as Hitems.
  eapply (wp_for_range _ (fun _ todo _ w' _ =>
    (forall z, cleaning (of_pool pool) w w' (spec_key <$> todo) z) /\
    forall p o0, p ∈ todo -> pod (spec_key p) w = Some o0 -> of_pool pool (spec_key p) o0))
    with (pref := []).
  - intros _ p rest n w1 m1 [Hc Hsel]. eapply wp_mono; [|apply (cleanupPod_step (of_pool pool) w)].
    + intros [[n'|[n' e]]|msg] w2 m2; simpl; [|by intros [e' ->]; do 2 eexists|done].
      intros Hc2. split; [done|]. intros. by eapply Hsel; [right|].
    + exact Hc.
    + intros o0. apply Hsel. by left.
  - intros _ n w1 m1 [Hc _]. cbn [wp]. exists n, None. split; [done|]. intros _ x o' Hx.
    by eapply cleaned.
  - split; [intros z; by apply (cleaning_start _ pool)|]. intros p o0. by apply listed_selected.
Qed.

End Cleanup.

(** A host with one pod of the sample pool and one that is not its own. *)
Definition demo_pods : world :=
  let mk name labels := mkCorePod (newMeta name "ns" labels ∅)
    (mkCorePodSpec "" "" None None ∅ [] [] "") (mkCorePodStatus "" "" "" "" [] "") in
  mkWorld
    (mkCluster ∅ ∅
       (<[("ns", "mine") := mk "mine" (poolLabels (sample_pool 1))]>
        {[ ("ns", "other") := mk "other" ∅ ]}) ∅ ∅ ∅ ∅ ∅) ∅.

Lemma pods_keyed_check w :
  bool_decide (map_Forall (fun x o => key_of KPod o = x) (c_pods (w_host w))) = true -> pods_keyed w.
Proof. intros H%bool_decide_eq_true_1 x o Hx. by apply H. Qed.

Lemma CleanupPoolPods_complete_witness :
  wp (kube_spec no_faults) (CleanupPoolPods (@hostPods simple_libs) (sample_pool 1)) demo_pods ∅
    (fun o w' _ => exists n err, o = Done (n, err) /\
      (err = None -> forall x o', object HostClient KPod x w' = Some o' ->
         if decide (of_pool (sample_pool 1) x o') then going o'
         else object HostClient KPod x demo_pods = Some o')).
Proof.
  apply (@CleanupPoolPods_complete simple_libs simple_libs_laws no_faults ltac:(done)
           (sample_pool 1) demo_pods ∅).
  apply pods_keyed_check. by vm_compute.
Defined.
