(* ===== verification/Orphans.v ===== *)
(** The end of a pod execution: after a pass of ReconcilePool that reports
    success, no host pod of the pool is left that no tenant pod asks for. *)

From S2P Require Import Prelude GoProg Model PodModel Kube Libs ApiServer Testbed Ports PodClient.
From S2P Require Import NodeRepo Registrar Tenants Registration PodService Scaling Execution.
From S2P Require Import Config System PodSafety.

Section Orphans.
Context `{L : KubeLibs} {LL : KubeLibsLaws}.
Variable faults : error -> Prop.
Hypothesis calm : forall e, faults e -> is_context_error e = false /\
  status_reason e <> Some ReasonNotFound.

Abbreviation K := (kube_spec faults).
Abbreviation pod x w := (object HostClient KPod x w).

(** ** Errors without a stopped context *)

Definition calm_err (r : option error) : Prop :=
  match r with Some e => is_context_error e = false | None => True end.

(** The error a program ends with, if it ends, is calm. *)
Definition calm_prog {A} (err : A -> option error) (p : go A) : Prop :=
  forall w m, wp K p w m (fun o _ _ => match o with Done a => calm_err (err a) | _ => True end).

Lemma calm_ret {A} (err : A -> option error) a : calm_err (err a) -> calm_prog err (Ret a).
Proof. by intros H w m. Qed.

Lemma calm_panic {A} (err : A -> option error) msg : calm_prog err (Panic msg).
Proof. by intros w m. Qed.

Lemma calm_bind {A B} (errA : A -> option error) (err : B -> option error) (p : go A) k :
  calm_prog errA p -> (forall a, calm_err (errA a) -> calm_prog err (k a)) ->
  calm_prog err (bind p k).
Proof.
  intros Hp Hk w m. apply wp_bind. eapply wp_mono; [|apply Hp].
  intros [a|msg] w' m' Ha; [by apply Hk|done].
Qed.

Lemma calm_call {R} (c : api R) : calm_prog (reply_err c) (call c).
Proof.
  intros w m. unfold call. cbn [wp]. split; [done|]. intros r w2 Hpost.
  destruct (reply_err c r) eqn:He; [|done]. by apply (reply_calm faults calm c w r w2).
Qed.

Lemma calm_res {T} (r : res T) : calm_err (res_err r) -> calm_prog (fun e => e) (Ret (res_err r)).
Proof. apply (calm_ret (fun e => e)). Qed.

(** Bind over a call. *)
Lemma calm_after {R B} (err : B -> option error) (c : api R) k :
  (forall r, calm_err (reply_err c r) -> calm_prog err (k r)) ->
  calm_prog err (bind (call c) k).
Proof. apply calm_bind, calm_call. Qed.

Lemma calm_wrap p e : calm_err (Some e) -> calm_err (Some (ErrWrap p e)).
Proof. simpl. by rewrite is_context_error_wrap. Qed.

Lemma DeletePod_calm ns name : calm_prog (fun e => e) (DeletePod hostPods ns name).
Proof.
  change (DeletePod hostPods ns name) with (DeletePod_ ns name). unfold DeletePod_.
  apply calm_after. intros [e|] He; [destruct (IsNotFound e)|]; by apply calm_ret.
Qed.

Lemma GetPod_calm ns name : calm_prog res_err (GetPod hostPods ns name).
Proof.
  change (GetPod hostPods ns name) with (GetPod_ ns name). unfold GetPod_.
  apply calm_after. intros [o|e] He; by apply calm_ret.
Qed.

Lemma GetPodStatus_calm ns name : calm_prog res_err (GetPodStatus hostPods ns name).
Proof.
  change (GetPodStatus hostPods ns name) with (GetPodStatus_ ns name). unfold GetPodStatus_.
  apply calm_after. intros [o|e] He; by apply calm_ret.
Qed.

Lemma CreatePod_calm p : calm_prog (fun e => e) (CreatePod hostPods p).
Proof.
  change (CreatePod hostPods p) with (CreatePod_ p). unfold CreatePod_.
  destruct (podSpecToK8sPod p) as [o|]; [|by intros w m].
  change (calm_prog (fun e => e) (bind (call (Create HostClient KPod o)) (fun r => Ret (res_err r)))).
  apply calm_after. intros r Hr. by apply calm_ret.
Qed.

Lemma EnsureConfigMap_calm ns name d b l :
  calm_prog (fun e => e) (EnsureConfigMap hostPods ns name d b l).
Proof.
  change (EnsureConfigMap hostPods ns name d b l) with (EnsureConfigMap_ ns name d b l).
  unfold EnsureConfigMap_. apply calm_after. intros [o|e] He.
  - apply calm_after. intros r Hr. by apply calm_ret.
  - destruct (IsNotFound e); [|by apply calm_ret].
    apply calm_after. intros r Hr. by apply calm_ret.
Qed.

Lemma EnsureSecret_calm ns name d l :
  calm_prog (fun e => e) (EnsureSecret hostPods ns name d l).
Proof.
  change (EnsureSecret hostPods ns name d l) with (EnsureSecret_ ns name d l).
  unfold EnsureSecret_. apply calm_after. intros [o|e] He.
  - apply calm_after. intros r Hr. by apply calm_ret.
  - destruct (IsNotFound e); [|by apply calm_ret].
    apply calm_after. intros r Hr. by apply calm_ret.
Qed.

(** The error a loop returns with. *)
Definition ctl_err {S} (c : ctl S error) : option error :=
  match c with Next _ => None | Return e => Some e end.

Lemma calm_for_range {X S} (body : X -> S -> go (ctl S error)) xs st :
  (forall x st, calm_prog ctl_err (body x st)) -> calm_prog ctl_err (for_range xs st body).
Proof.
  intros Hb. revert st. induction xs as [|x xs IH]; intros st; [by apply calm_ret|].
  cbn [for_range]. eapply calm_bind; [apply Hb|]. intros [st'|e] He; [apply IH|by apply calm_ret].
Qed.

Lemma syncPodResources_calm cs t pool :
  calm_prog (fun e => e) (syncPodResources cs hostPods t pool).
Proof.
  unfold syncPodResources. eapply calm_bind; [apply calm_for_range|].
  - intros ref u. unfold syncResource. case_bool_decide; [|case_bool_decide; [|by apply calm_ret]].
    + apply calm_after. intros [cm|e] He.
      * eapply calm_bind; [apply EnsureConfigMap_calm|].
        intros [e|] He'; apply calm_ret; [by apply calm_wrap|done].
      * destruct (IsNotFound e); apply calm_ret; [done|by apply calm_wrap].
    + apply calm_after. intros [se|e] He.
      * eapply calm_bind; [apply EnsureSecret_calm|].
        intros [e|] He'; apply calm_ret; [by apply calm_wrap|done].
      * destruct (IsNotFound e); apply calm_ret; [done|by apply calm_wrap].
  - intros [u|e] He; by apply calm_ret.
Qed.

Lemma ensureHostPod_calm p : calm_prog (fun x => x.2) (ensureHostPod hostPods p).
Proof.
  unfold ensureHostPod. eapply calm_bind; [apply GetPod_calm|]. intros [cur|e] He.
  - destruct (ps_Deleting cur); [by apply calm_ret|].
    destruct (podSpecsEqual cur p); [by apply calm_ret|].
    eapply calm_bind; [apply DeletePod_calm|]. intros [e|] He'; by apply calm_ret.
  - destruct (IsNotFound e); [|by apply calm_ret].
    eapply calm_bind; [apply CreatePod_calm|]. intros c Hc. by apply calm_ret.
Qed.

Lemma updateTenantPodStatus_calm cs ns name st :
  calm_prog (fun e => e) (updateTenantPodStatus cs ns name st).
Proof.
  unfold updateTenantPodStatus. apply calm_after. intros [o|e] He; [|by apply calm_ret].
  apply calm_after. intros r Hr. by apply calm_ret.
Qed.

(** ** The loop over the tenant pods *)

(** A step that keeps the set of desired keys or fails with an error. *)
Definition passes (d : gset string)
    (o : outcome (ctl (PodExecutionResult * gset string) (PodExecutionResult * option error)))
    : Prop :=
  match o with
  | Done (Next (_, d')) => d' = d
  | Done (Return (_, e)) => e <> None
  | Panicked _ => True
  end.

Lemma stop_fails r p e : calm_err (Some e) -> (stop r p e).2 <> None.
Proof.
  intros He. unfold stop. change (isIgnorableShutdownError e) with (is_context_error e).
  by rewrite He.
Qed.

Lemma passes_stop d r p e : calm_err (Some e) -> passes d (Done (Return (stop r p e))).
Proof. intros He. pose proof (stop_fails r p e He). simpl. by destruct (stop r p e). Qed.

(** Run a calm part of a step. *)
Lemma wp_calm {A B} (err : A -> option error) (p : go A) (k : A -> go B) w m Q :
  calm_prog err p ->
  (forall a w' m', calm_err (err a) -> wp K (k a) w' m' Q) ->
  (forall msg w' m', Q (Panicked msg) w' m') ->
  wp K (bind p k) w m Q.
Proof.
  intros Hp Hk Hm. apply wp_bind. eapply wp_mono; [|apply Hp].
  intros [a|msg] w' m' Ha; [by apply Hk|apply Hm].
Qed.

Lemma finishTerminal_passes src target r d w m :
  wp K (finishTerminal hostPods src target r d) w m (fun o _ _ => passes d o).
Proof.
  unfold finishTerminal. destruct (isTerminalPod src); [|done].
  eapply wp_calm; [apply DeletePod_calm| |done]. intros [e|] w' m' He; [|done].
  by apply passes_stop.
Qed.

Lemma syncHostStatus_passes runtime cs src target r d w m :
  wp K (syncHostStatus hostPods (PodService runtime) cs src target r d) w m
    (fun o _ _ => passes d o).
Proof.
  unfold syncHostStatus. eapply wp_calm; [apply GetPodStatus_calm| |done].
  intros [st|e] w1 m1 He.
  - cbn [PodService SyncStatus SyncPodStatus bind].
    eapply wp_calm; [apply updateTenantPodStatus_calm| |done]. intros [e|] w2 m2 He2.
    + by apply passes_stop.
    + apply finishTerminal_passes.
  - destruct (IsNotFound e); [apply finishTerminal_passes|by apply passes_stop].
Qed.

(** The key of the host pod of a tenant pod. *)
Definition targetKey (pool : VNodePool) (src : CorePod) : string :=
  keyForPod (vp_Namespace pool)
    (targetPodName (cps_NodeName (cp_Spec src)) (om_Namespace (cp_Meta src))
       (om_Name (cp_Meta src))).

Lemma processPod_passes runtime cs pool src r d w m :
  wp K (processPod hostPods (PodService runtime) cs pool src (r, d)) w m
    (fun o _ _ => passes ({[ targetKey pool src ]} ∪ d) o).
Proof.
  unfold processPod. cbn [PodService Translate TranslateForPool bind].
  eapply wp_calm; [apply syncPodResources_calm| |done]. intros [e|] w1 m1 He.
  { by apply passes_stop. }
  destruct (isTerminalPod src); [apply syncHostStatus_passes|].
  eapply wp_calm; [apply ensureHostPod_calm| |done]. intros [[c dl] [e|]] w2 m2 He2.
  - destruct (errors_Is e ErrPodTerminating); [done|]. by apply passes_stop.
  - apply syncHostStatus_passes.
Qed.

(** The desired keys are those of the tenant pods. *)
Lemma loop_desired runtime cs pool srcs r w m :
  wp K (for_range srcs (r, ∅) (processPod hostPods (PodService runtime) cs pool)) w m
    (fun o _ _ => match o with
      | Done (Next (_, d)) => forall k, k ∈ d -> exists src, src ∈ srcs /\ k = targetKey pool src
      | Done (Return (_, e)) => e <> None
      | Panicked _ => True
      end).
Proof.
  apply (wp_for_range _ (fun pref todo st _ _ => srcs = pref ++ todo /\
    forall k, k ∈ st.2 -> exists src, src ∈ pref /\ k = targetKey pool src)) with (pref := []).
  - intros pref src todo [r' d] w' m' [Hs Hd]. simpl in Hd.
    eapply wp_mono; [|apply processPod_passes].
    intros [[[r2 d2]|[r2 e]]|msg] w2 m2; simpl; [|done..]. intros ->.
    split; [by rewrite Hs, <- app_assoc|]. intros k [->%elem_of_singleton|Hk]%elem_of_union.
    + exists src. split; [set_solver|done].
    + destruct (Hd k Hk) as (s & Hin & ->). exists s. set_solver.
  - intros all [r' d] w' m' [-> Hd]. by rewrite app_nil_r.
  - split; [done|]. simpl. set_solver.
Qed.

(** ** The removal of orphans *)

(** A pod of the pool whose key is not desired. *)
Definition orphan (pool : VNodePool) (d : gset string) (x : key) (o : CorePod) : Prop :=
  of_pool pool x o /\ keyForPod x.1 x.2 ∉ d.

Lemma removeOrphan_step pool d w0 w m p r rest :
  (forall z, cleaning (orphan pool d) w0 w (spec_key p :: rest) z) ->
  (forall o0, pod (spec_key p) w0 = Some o0 -> of_pool pool (spec_key p) o0) ->
  wp K (removeOrphan hostPods d p r) w m (fun o w' _ =>
    match o with
    | Done (Next _) => forall z, cleaning (orphan pool d) w0 w' rest z
    | Done (Return (_, e)) => e <> None
    | Panicked _ => False
    end).
Proof.
  intros Hc Hsel. unfold removeOrphan. case_bool_decide as Hin.
  - intros z. eapply cleaning_skip; [exact Hc|]. right. intros o _ [_ Hn]. by apply Hn.
  - apply wp_bind. eapply wp_mono; [|apply (DeletePod_step faults calm (orphan pool d) w0)].
    + intros o w1 m1 (e & -> & He). destruct e as [e|]; [|exact He].
      pose proof (stop_fails r ("deleting orphaned host pod " +:+
        podRef (ps_Namespace p) (ps_Name p)) e He) as Hs. simpl. by destruct (stop _ _ _).
    + exact Hc.
    + intros o0 Ho0. split; [by apply Hsel|done].
Qed.

Lemma orphans_gone pool d w w' x o' :
  (forall z, cleaning (orphan pool d) w w' [] z) -> pod x w' = Some o' -> of_pool pool x o' ->
  going o' \/ keyForPod x.1 x.2 ∈ d.
Proof.
  intros Hc Hx Ho. specialize (Hc x). unfold cleaning in Hc.
  destruct (pod x w) as [o0|]; [|congruence].
  destruct Hc as [[H1 H2]|(_ & o & H1 & _ & Hg)]; rewrite Hx in H1; injection H1 as ->.
  - right. destruct (decide (keyForPod x.1 x.2 ∈ d)) as [|Hn]; [done|].
    by destruct (proj1 (elem_of_nil x) (H2 (conj Ho Hn))).
  - by left.
Qed.

Lemma cleanupOrphans_complete pool r d w m :
  pods_keyed w ->
  wp K (cleanupOrphans hostPods pool r d) w m (fun o w' _ =>
    forall r', o = Done (r', None) -> forall x o', pod x w' = Some o' -> of_pool pool x o' ->
      going o' \/ keyForPod x.1 x.2 ∈ d).
Proof.
  intros Hw. unfold cleanupOrphans. apply wp_bind.
  change (ListPodsByLabels hostPods (vp_Namespace pool) (poolLabels pool))
    with (ListPodsByLabels_ (vp_Namespace pool) (poolLabels pool)). unfold ListPodsByLabels_.
  apply wp_bind. unfold call. cbn [wp]. split; [done|]. intros [items|e] w1 [-> Hl].
  2:{ cbn [wp]. destruct (calm e Hl) as [Hctx _].
      pose proof (stop_fails r "listing host pods for cleanup: " e Hctx) as Hs.
      simpl. intros r' [= Heq]. by rewrite Heq in Hs. }
  cbn [wp]. apply wp_bind. pose proof (listed_items pool w items Hl) as Hitems.
  eapply (wp_for_range _ (fun _ todo _ w' _ =>
    (forall z, cleaning (orphan pool d) w w' (spec_key <$> todo) z) /\
    forall p o0, p ∈ todo -> pod (spec_key p) w = Some o0 -> of_pool pool (spec_key p) o0))
    with (pref := []).
  - intros _ p rest r1 w1 m1 [Hc Hsel]. eapply wp_mono; [|apply (removeOrphan_step pool d w)].
    + intros [[r2|[r2 e]]|msg] w2 m2; [| |done].
      * intros Hc2. split; [done|]. intros. by eapply Hsel; [right|].
      * intros He r' [= -> ->]. done.
    + exact Hc.
    + intros o0. apply Hsel. by left.
  - intros _ r1 w1 m1 [Hc _]. cbn [wp]. intros r' _ x o'. by apply (orphans_gone pool d w).
  - split; [intros z; apply (cleaning_start _ pool); [done..|by intros ? ? []]|].
    intros p o0. by apply listed_selected.
Qed.

(** ** A whole pass *)

(** After the client of the tenant is known, the memory is left alone. *)
Lemma syncPodResources_lockless cs t pool : lockless (syncPodResources cs hostPods t pool).
Proof.
  unfold syncPodResources, syncResource, hostPods, PodClusterClient.
  cbn [EnsureConfigMap EnsureSecret]. unfold EnsureConfigMap_, EnsureSecret_.
  repeat lockless_step.
Qed.

Lemma ensureHostPod_lockless p : lockless (ensureHostPod hostPods p).
Proof.
  unfold ensureHostPod, hostPods, PodClusterClient. cbn [GetPod CreatePod DeletePod].
  unfold GetPod_, CreatePod_, DeletePod_, must. repeat lockless_step.
Qed.

Lemma syncHostStatus_lockless runtime cs src target r d :
  lockless (syncHostStatus hostPods (PodService runtime) cs src target r d).
Proof.
  unfold syncHostStatus, finishTerminal, hostPods, PodClusterClient, PodService.
  cbn [GetPodStatus DeletePod SyncStatus].
  unfold GetPodStatus_, DeletePod_, SyncPodStatus, updateTenantPodStatus. repeat lockless_step.
Qed.

Lemma processPod_lockless runtime cs pool src a :
  lockless (processPod hostPods (PodService runtime) cs pool src a).
Proof.
  unfold processPod. destruct a as [r d]. cbn [PodService Translate TranslateForPool bind].
  apply lockless_bind; [apply syncPodResources_lockless|]. intros [e|]; [done|].
  destruct (isTerminalPod src); [apply syncHostStatus_lockless|].
  apply lockless_bind; [apply ensureHostPod_lockless|].
  intros [[c dl] [e|]]; [by destruct (errors_Is e ErrPodTerminating)|apply syncHostStatus_lockless].
Qed.

Lemma cleanupOrphans_lockless pool r d : lockless (cleanupOrphans hostPods pool r d).
Proof.
  unfold cleanupOrphans, removeOrphan, hostPods, PodClusterClient.
  cbn [ListPodsByLabels DeletePod]. unfold ListPodsByLabels_, DeletePod_. repeat lockless_step.
Qed.

(** A read of the clusters. *)
Definition reads (R : Type) (c : api R) : Prop :=
  match c with Get _ _ _ _ | List _ _ _ _ | NewClientset _ => True | _ => False end.

Lemma GetClient_reads t : issues reads (GetClient SecretKubeconfigResolver t).
Proof.
  unfold GetClient. cbn -[kubeconfig_data]. intros [cs|]; [done|].
  split; [done|]. intros [secret|e]; [|done].
  generalize (kubeconfig_data ["kubeconfig"; "config"; "value"] (se_Data secret)).
  intros [d|]; simpl; [|done]. destruct (RESTConfigFromKubeConfig d); simpl; [|done].
  split; [done|]. by intros [|].
Qed.

(** The client of the tenant: cached on success, and the clusters are as they were. *)
Lemma GetClient_ends t w m :
  wp K (GetClient SecretKubeconfigResolver t) w m (fun o w' m' => w' = w /\ exists r, o = Done r /\
    match r with
    | Ok cs => m' !! cacheKey t = Some cs
    | Err e => is_context_error e = false
    end).
Proof.
  eapply wp_mono; [|apply wp_and; [apply (wp_issues K reads (fun w' => w' = w))|apply wp_and;
    [apply (GetClient_quiet faults calm _ (SecretKubeconfigResolver_quiet faults calm))
    |apply GetClient_caches; done]]].
  - intros o w' m' (-> & (r & -> & _ & Hr) & (r' & [= <-] & _ & Hm)). split; [done|].
    exists r. split; [done|]. by destruct r.
  - done.
  - intros R c w1 r w2 Hc -> Hp. destruct c; try done; by destruct Hp.
  - apply GetClient_reads.
  - done.
Qed.

Lemma readyNodes_lookup nodes k n :
  readyNodes nodes !! k = Some n -> n ∈ nodes /\ IsReady n = true /\ vn_Name n = k.
Proof.
  unfold readyNodes. rewrite <- fold_left_rev_right. intros H.
  enough (n ∈ List.rev nodes /\ IsReady n = true /\ vn_Name n = k) as (Hin & Hr).
  { split; [|done]. rewrite list_elem_of_In in *. by apply in_rev. }
  induction (List.rev nodes) as [|a l IH]; simpl in H; [done|].
  destruct (IsReady a) eqn:Ha; [apply lookup_insert_Some in H as [[<- <-]|[_ H]]|].
  - split; [by left|done].
  - destruct (IH H). split; [by right|done].
  - destruct (IH H). split; [by right|done].
Qed.

(** The host pod at [x] is that of a tenant pod that is neither managed by the
    operator nor marked for deletion, on a ready VNode of the pool. *)
Definition wanted (pool : VNodePool) (cs : Clientset) (w : world) (x : key) : Prop :=
  exists y src z cr,
    object (Tenant cs) KPod y w = Some src /\
    map_get (om_Labels (cp_Meta src)) LabelManagedBy <> LabelManagedByValue /\
    om_DeletionTimestamp (cp_Meta src) = None /\
    object HostClient KVNode z w = Some cr /\
    selected KVNode (vp_Namespace pool) {[ labelPool := vp_Name pool ]} (z, cr) /\
    IsReady (crToNode cr) = true /\
    om_Name (nd_Meta cr) = cps_NodeName (cp_Spec src) /\
    x = (vp_Namespace pool,
         targetPodName (cps_NodeName (cp_Spec src)) (om_Namespace (cp_Meta src))
           (om_Name (cp_Meta src))).

Lemma no_nodes_no_pods ready src : size ready = 0 -> keepTenantPod ready src = false.
Proof.
  intros ->%map_size_empty_inv. unfold keepTenantPod. case_bool_decide; [done|].
  destruct (om_DeletionTimestamp _); [done|]. by rewrite lookup_empty.
Qed.

(** The tenant pods of a pass. *)
Lemma listTenantPods_ends cs ready w m :
  wp K (listTenantPodsForNodes cs ready) w m (fun o w' m' => w' = w /\ m' = m /\
    exists r, o = Done r /\
    match r with
    | Ok srcs => forall src, src ∈ srcs <->
        keepTenantPod ready src = true /\ exists y, object (Tenant cs) KPod y w = Some src
    | Err e => is_context_error e = false
    end).
Proof.
  unfold listTenantPodsForNodes. destruct (size ready =? 0)%nat eqn:Hsz.
  { split_and!; [done..|]. exists (Ok []). split; [done|]. intros src.
    split; [by intros ?%elem_of_nil|]. intros [Hk _].
    by rewrite (no_nodes_no_pods ready src) in Hk by by apply Nat.eqb_eq. }
  apply wp_bind. unfold call. cbn [wp]. split; [done|]. intros [items|e] w1 [-> Hl]; cbn [wp].
  - split_and!; [done..|]. eexists. split; [done|]. intros src.
    rewrite list_elem_of_In, filter_In, <- list_elem_of_In, Hl, elem_of_listing. split.
    + intros [(y & Hy & _) Hk]. eauto.
    + intros (Hk & y & Hy). split; [|done]. exists y. split; [done|]. split; [by left|].
      apply map_empty_subseteq.
  - split_and!; [done..|]. eexists. split; [done|]. simpl. rewrite is_context_error_wrap.
    by apply calm.
Qed.

Lemma kept_wanted pool cs nodes w y src x :
  nodes ≡ₚ listing HostClient KVNode (vp_Namespace pool) {[ labelPool := vp_Name pool ]} w ->
  object (Tenant cs) KPod y w = Some src ->
  keepTenantPod (readyNodes (map crToNode nodes)) src = true ->
  x.1 = vp_Namespace pool -> keyForPod x.1 x.2 = targetKey pool src -> wanted pool cs w x.
Proof.
  intros Hn Hy Hkeep Hx Hk. unfold keepTenantPod in Hkeep. case_bool_decide as Hm; [done|].
  destruct (om_DeletionTimestamp _) eqn:Hdel; [done|].
  destruct (readyNodes _ !! _) as [n|] eqn:Hr; [|done].
  apply readyNodes_lookup in Hr as (Hin & Hrdy & Hname).
  apply list_elem_of_fmap in Hin as (cr & -> & Hcr).
  rewrite Hn, elem_of_listing in Hcr. destruct Hcr as (z & Hz & Hsel).
  exists y, src, z, cr. split_and!; try done. destruct x as [a b]. simpl in *. subst a.
  unfold targetKey, keyForPod in Hk. by rewrite (append_inj _ _ _ (append_inj _ _ _ Hk)).
Qed.

(** Every host pod left to the pool is that of one of [srcs]. *)
Definition no_orphans (pool : VNodePool) (srcs : list CorePod)
    (o : outcome (PodExecutionResult * option error)) (w' : world) : Prop :=
  forall r, o = Done (r, None) -> forall x o', pod x w' = Some o' -> of_pool pool x o' ->
    going o' \/ exists src, src ∈ srcs /\ keyForPod x.1 x.2 = targetKey pool src.

(** The loops of a pass, on the tenant pods [srcs]. *)
Definition pass_loops (cfg : Config) (cs : Clientset) (pool : VNodePool) (srcs : list CorePod)
    : go (PodExecutionResult * option error) :=
  bind (for_range srcs (mkPodExecutionResult (Z.of_nat (length srcs)) 0 0 0, ∅)
          (processPod hostPods (podSvc cfg) cs pool))
    (fun b => match b with
              | Return a => Ret a
              | Next (r', desired) => cleanupOrphans hostPods pool r' desired
              end).

Lemma pass_loops_lockless cfg cs pool srcs : lockless (pass_loops cfg cs pool srcs).
Proof.
  apply lockless_bind.
  - apply lockless_for_range. intros. apply processPod_lockless.
  - intros [[r' d]|a]; [apply cleanupOrphans_lockless|done].
Qed.

Lemma loops_no_orphans cfg cs pool srcs w m :
  everywhere at_key w ->
  wp K (pass_loops cfg cs pool srcs) w m (fun o w' m' => no_orphans pool srcs o w' /\ m' = m).
Proof.
  intros Hw. apply wp_and.
  2:{ apply wp_lockless; [done|]. apply pass_loops_lockless. }
  apply wp_bind. eapply wp_mono; [|apply wp_and; [apply loop_desired|
    apply (wp_keeps K (everywhere at_key)); [done| |exact Hw]]].
  2:{ intros R c. apply kube_post_at_keys. }
  intros [[[r1 d]|[r1 e]]|msg] w1 m1 [Hd Hw1]; [|by intros r' [= -> ->]|done].
  eapply wp_mono; [|apply (cleanupOrphans_complete pool r1 d)].
  - intros o w2 m2 Hc r' Ho x o' Hx Hof. destruct (Hc r' Ho x o' Hx Hof) as [|Hin]; [by left|].
    right. apply Hd in Hin as (src & Hin & Hk). eauto.
  - intros x o Hx. by apply Hw1 in Hx.
Qed.

(** A pass up to its loops: it fails, or goes on with the tenant pods to run. *)
Lemma ReconcilePool_loops cfg pool w m (Q : outcome (PodExecutionResult * option error) ->
    world -> mem -> Prop) :
  (forall cs nodes srcs m', m' !! cacheKey (vp_TenantRef pool) = Some cs ->
     nodes ≡ₚ listing HostClient KVNode (vp_Namespace pool) {[ labelPool := vp_Name pool ]} w ->
     (forall src, src ∈ srcs <-> keepTenantPod (readyNodes (map crToNode nodes)) src = true /\
        exists y, object (Tenant cs) KPod y w = Some src) ->
     wp K (pass_loops cfg cs pool srcs) w m' Q) ->
  (forall o w' m', (forall r, o <> Done (r, None)) -> Q o w' m') ->
  wp K (podExecSvc cfg pool) w m Q.
Proof.
  intros Hloops Hfail. unfold podExecSvc, ReconcilePool. apply wp_bind.
  eapply wp_mono; [|apply GetClient_ends]. intros o w1 m1 (-> & c & -> & Hc).
  destruct c as [cs|e].
  2:{ change (isIgnorableShutdownError e) with (is_context_error e). rewrite Hc. by apply Hfail. }
  apply wp_bind. change (nodes_ListByPool nodeRepo) with ListByPool. unfold ListByPool.
  apply wp_bind. unfold call at 1. cbn [wp]. split; [done|]. intros [nodes|e] w1 [-> Hn].
  2:{ cbn [wp]. pose proof (stop_fails (mkPodExecutionResult 0 0 0 0) "listing pool nodes: " e
        (proj1 (calm e Hn))) as Hs. apply Hfail. intros r [= Heq]. by rewrite Heq in Hs. }
  cbn [wp]. apply wp_bind. eapply wp_mono; [|apply listTenantPods_ends].
  intros o w1 m2 (-> & -> & p & -> & Hp). destruct p as [srcs|e].
  2:{ change (isIgnorableShutdownError e) with (is_context_error e). rewrite Hp. by apply Hfail. }
  by eapply Hloops.
Qed.

(** C9: A pass that reports success, on API servers that behave as documented and a
    context that is not done: every host pod with the labels of the pool is
    marked for deletion, or is the host pod of a tenant pod the pass found in
    the tenant cluster of the pool, unmanaged, not being deleted, and on a
    VNode of the pool that was ready; no other host pod of the pool survives,
    and none does if no VNode is ready. *)
Theorem ReconcilePool_no_orphans cfg pool w m :
  everywhere at_key w -> vp_Namespace pool <> "" ->
  wp K (podExecSvc cfg pool) w m (fun o w' m' => forall r, o = Done (r, None) ->
    exists cs, m' !! cacheKey (vp_TenantRef pool) = Some cs /\
    forall x o', pod x w' = Some o' -> of_pool pool x o' -> going o' \/ wanted pool cs w x).
Proof.
  intros Hw Hns. apply ReconcilePool_loops; [|by intros o w' m' Ho r ?; destruct (Ho r)].
  intros cs nodes srcs m1 Hm Hn Hsrcs. eapply wp_mono; [|by apply loops_no_orphans].
  intros o w1 m2 [Ho ->] r Hr. exists cs. split; [done|]. intros x o' Hx Hof.
  destruct (Ho r Hr x o' Hx Hof) as [|(src & Hin & Hk)]; [by left|]. right.
  apply Hsrcs in Hin as (Hkeep & y & Hy). eapply kept_wanted; [done..| |done].
  by destruct Hof as [[|] _].
Qed.

End Orphans.

(** ** A concrete pass *)

(** A pool with one ready VNode and a tenant pod on it, a pod of the pool no
    tenant pod asks for, and a host pod that is none of the pool's. *)
Definition demo_pass : world :=
  let mk ns name node labels := mkCorePod (newMeta name ns labels ∅)
    (mkCorePodSpec node "" None None ∅ [] [] "") (mkCorePodStatus "" "" "" "" [] "") in
  mkWorld
    (mkCluster ∅
       {[ ("ns", "pool-0") := mkVNodeCR (newMeta "pool-0" "ns" {[ labelPool := "pool" ]} ∅)
            (mkVNodeSpec "pool" (mkNodeResources "4" "8Gi" 110))
            (mkVNodeStatus NodePhaseReady []) ]}
       (<[("ns", "mine") := mk "ns" "mine" "" (poolLabels (sample_pool 1))]>
        {[ ("ns", "other") := mk "ns" "other" "" ∅ ]}) ∅ ∅ ∅ ∅ ∅)
    {[ mkClientset "t" :=
         mkCluster ∅ ∅ {[ ("default", "web") := mk "default" "web" "pool-0" ∅ ]} ∅ ∅ ∅ ∅ ∅ ]}.

Definition demo_cache : mem := {[ cacheKey (vp_TenantRef (sample_pool 1)) := mkClientset "t" ]}.

Lemma ReconcilePool_no_orphans_witness :
  (run memory_server (@podExecSvc simple_libs (Default ∅) (sample_pool 1)) demo_pass demo_cache).1.1
    = Done (mkPodExecutionResult 1 1 1 1, None) /\
  wp (kube_spec no_faults) (@podExecSvc simple_libs (Default ∅) (sample_pool 1)) demo_pass
    demo_cache (fun o w' m' => forall r, o = Done (r, None) ->
      exists cs, m' !! cacheKey (vp_TenantRef (sample_pool 1)) = Some cs /\
      forall x o', object HostClient KPod x w' = Some o' -> of_pool (sample_pool 1) x o' ->
        going o' \/ wanted (sample_pool 1) cs demo_pass x).
Proof.
  split; [by vm_compute|].
  apply (@ReconcilePool_no_orphans simple_libs simple_libs_laws no_faults ltac:(done)
           (Default ∅) (sample_pool 1) demo_pass demo_cache).
  - apply keyed_at_keys, keyed_check; [by vm_compute|]. apply map_Forall_singleton. by vm_compute.
  - done.
Defined.
