(* ===== verification/Coverage.v ===== *)
(** The host pods of a pod execution: after a pass of ReconcilePool that reports
    success, every tenant pod that asks for a host pod has one. *)

From S2P Require Import Prelude GoProg Model PodModel Kube Libs ApiServer Testbed Ports PodClient.
From S2P Require Import NodeRepo Registrar Tenants Registration PodService Scaling Execution.
From S2P Require Import Config System PodSafety Orphans.

Abbreviation pod x w := (object HostClient KPod x w).

(** The key of the host pod of a tenant pod. *)
Abbreviation hostKey pool src := (vp_Namespace pool,
  targetPodName (cps_NodeName (cp_Spec src)) (om_Namespace (cp_Meta src)) (om_Name (cp_Meta src))).

(** ** Pods stay until their node has stopped them *)

Lemma pod_put {T} c (k : kind T) y o w x :
  is_Some (pod x w) -> match k with KPod => is_Some o | _ => True end ->
  is_Some (pod x (put c k y o w)).
Proof.
  intros Hx Ho. destruct c as [| |cs]; [| |done];
    (destruct k; [done|done| |done..]; destruct (decide (y = x)) as [->|Hne];
     [unfold object, put; simpl; by rewrite lookup_partial_alter_eq
     |unfold object, put; simpl; by rewrite lookup_partial_alter_ne]).
Qed.

Lemma write_error_pod faults refused (applied : world -> Prop) w e w' x :
  write_error faults refused applied w e w' -> is_Some (pod x w) ->
  (forall w', applied w' -> is_Some (pod x w')) -> is_Some (pod x w').
Proof. intros [(r & _ & _ & ->)|[_ [->|Ha]]] Hw Happ; auto. Qed.

Lemma some_or_any {T} (k : kind T) (o : T) : match k with KPod => is_Some (Some o) | _ => True end.
Proof. by destruct k. Qed.

Lemma create_pods {T} c (k : kind T) o w o' w' x :
  create_applied c k o w o' w' -> is_Some (pod x w) -> is_Some (pod x w').
Proof. intros (_ & _ & ->) Hx. apply pod_put; [done|apply some_or_any]. Qed.

Lemma update_pods {T} c (k : kind T) o w o' w' x :
  update_applied c k o w o' w' -> is_Some (pod x w) -> is_Some (pod x w').
Proof. intros (old & _ & _ & ->) Hx. apply pod_put; [done|]. by destruct k. Qed.

Lemma write_pods {T} rel c (k : kind T) o w o' w' x :
  write_applied rel c k o w o' w' -> is_Some (pod x w) -> is_Some (pod x w').
Proof. intros (old & _ & _ & ->) Hx. apply pod_put; [done|apply some_or_any]. Qed.

Lemma delete_pods {T} c (k : kind T) y w w' x :
  delete_applied c k y w w' -> is_Some (pod x w) -> is_Some (pod x w').
Proof.
  intros (old & _ & [[Hd ->]|(_ & o' & _ & ->)]) Hx; apply pod_put; try done.
  - by destruct k.
  - apply some_or_any.
Qed.

(** Whatever the operator asks for, a host pod stays in the store. *)
Lemma kube_post_pods faults {R} (c : api R) w r w' x :
  kube_post faults R c w r w' -> is_Some (pod x w) -> is_Some (pod x w').
Proof.
  intros H Hx. destruct c as [? c k ? ?|? c k ? ?|? c k o|? c k o|? c k o|? c k b o|? c k ? ?|?| | |];
    simpl in H; try by subst.
  - by destruct H as [-> _].
  - by destruct H as [-> _].
  - destruct r as [o'|e]; [by eapply create_pods|].
    eapply write_error_pod; [done..|]. intros w2 [o' Ha]. by eapply create_pods.
  - destruct r as [o'|e]; [by eapply update_pods|].
    eapply write_error_pod; [done..|]. intros w2 [o' Ha]. by eapply update_pods.
  - destruct r as [o'|e]; [by eapply write_pods|].
    eapply write_error_pod; [done..|]. intros w2 [o' Ha]. by eapply write_pods.
  - destruct r as [e|]; [|destruct H; by eapply write_pods].
    eapply write_error_pod; [done..|]. intros w2 [o' Ha]. by eapply write_pods.
  - destruct r as [e|]; [|by eapply delete_pods].
    eapply write_error_pod; [done..|]. intros w2 Ha. by eapply delete_pods.
  - by destruct H as [-> _].
Qed.

Section Coverage.
Context `{L : KubeLibs} {LL : KubeLibsLaws}.
Variable faults : error -> Prop.
Hypothesis calm : forall e, faults e -> is_context_error e = false /\
  status_reason e <> Some ReasonNotFound.
(** The API servers do not answer with the operator's own error. *)
Hypothesis foreign : forall e, faults e -> errors_Is e ErrPodTerminating = false.

Abbreviation K := (kube_spec faults).

Lemma pod_stays {A} (p : go A) w m x :
  is_Some (pod x w) -> wp K p w m (fun _ w' _ => is_Some (pod x w')).
Proof.
  intros Hx. apply (wp_keeps K (fun w => is_Some (pod x w))); [done| |done].
  intros R c w1 r w2. apply kube_post_pods.
Qed.

Lemma status_foreign e r : status_reason e = Some r -> errors_Is e ErrPodTerminating = false.
Proof. by induction e. Qed.

(** One tenant pod: after the step its host pod is there, or it failed. *)
Lemma ensureHostPod_covers p w m :
  wp K (ensureHostPod hostPods p) w m (fun o w' _ =>
    forall c d e, o = Done (c, d, e) ->
      (e = None \/ exists e', e = Some e' /\ errors_Is e' ErrPodTerminating = true) ->
      is_Some (pod (spec_key p) w')).
Proof.
  unfold ensureHostPod. change (GetPod hostPods (ps_Namespace p) (ps_Name p))
    with (GetPod_ (ps_Namespace p) (ps_Name p)). unfold GetPod_. apply wp_bind, wp_bind.
  unfold call. cbn [wp]. split; [done|]. intros [o|e] w1 [-> Hr]; cbn [wp].
  - destruct Hr as (Ho & _). eapply wp_mono; [|apply (pod_stays _ w m (spec_key p)); by exists o].
    intros; done.
  - rewrite IsNotFound_reason. case_bool_decide as Hnf.
    2:{ cbn [wp]. intros c d e' [= <- <- <-] [?|(e2 & [= <-] & Ht)]; [done|].
        destruct Hr as [[? _]|Hf]; [done|]. by rewrite foreign in Ht. }
    change (CreatePod hostPods p) with (CreatePod_ p). unfold CreatePod_.
    destruct (podSpecToK8sPod p) as [o|] eqn:Ho; [|done].
    assert (key_of KPod o = spec_key p) as Hkey.
    { unfold podSpecToK8sPod in Ho. destruct (mapM _ _); [|done]. by injection Ho as <-. }
    cbn [must bind wp call]. split; [done|]. intros [o'|e'] w1; cbn [wp].
    + intros (_ & _ & ->) c d e' _ _. rewrite Hkey, object_put. done.
    + intros Hw c d e2 [= <- <- <-] [?|(e3 & [= <-] & Ht)]; [done|]. exfalso.
      destruct Hw as [(r & Hst & _)|[Hf _]]; [by rewrite (status_foreign _ _ Hst) in Ht|].
      by rewrite foreign in Ht.
Qed.

Lemma processPod_covers runtime cs pool src a w m :
  isTerminalPod src = false ->
  wp K (processPod hostPods (PodService runtime) cs pool src a) w m (fun o w' _ =>
    forall a', o = Done (Next a') -> is_Some (pod (hostKey pool src) w')).
Proof.
  intros Ht. unfold processPod. destruct a as [r d].
  cbn [PodService Translate TranslateForPool bind].
  eapply (wp_calm faults); [by apply syncPodResources_calm| |done]. intros [e|] w1 m1 _; [done|].
  rewrite Ht. apply wp_bind. eapply wp_mono; [|apply ensureHostPod_covers].
  intros [[[c dl] err]|msg] w2 m2 Hs; [|done].
  specialize (Hs c dl err eq_refl). destruct err as [e|].
  - destruct (errors_Is e ErrPodTerminating) eqn:He; [|done].
    intros a' _. apply Hs. right. by exists e.
  - eapply wp_mono; [|apply (pod_stays _ _ _ (hostKey pool src))]; [done|]. apply Hs. by left.
Qed.

Definition covered (pool : VNodePool) (srcs : list CorePod) (w : world) : Prop :=
  forall src, src ∈ srcs -> isTerminalPod src = false -> is_Some (pod (hostKey pool src) w).

Lemma covered_stays {A} (p : go A) pool srcs w m :
  covered pool srcs w -> wp K p w m (fun _ w' _ => covered pool srcs w').
Proof.
  intros Hc. apply (wp_keeps K (covered pool srcs)); [done| |done].
  intros R c w1 r w2 Hp H1 src Hs Ht. apply (kube_post_pods faults c w1 r w2 _ Hp). by apply H1.
Qed.

Lemma loop_covers runtime cs pool srcs r w m :
  wp K (for_range srcs (r, ∅) (processPod hostPods (PodService runtime) cs pool)) w m
    (fun o w' _ => forall a, o = Done (Next a) -> covered pool srcs w').
Proof.
  apply (wp_for_range _ (fun pref todo _ w' _ => srcs = pref ++ todo /\ covered pool pref w'))
    with (pref := []).
  - intros pref src todo a w1 m1 [-> Hc].
    eapply wp_mono; [|apply wp_and; [by apply (covered_stays _ pool pref)|]].
    2:{ destruct (isTerminalPod src) eqn:Ht.
        - apply (wp_any K) with (Q := fun o w' _ => forall a', o = Done (Next a') ->
            isTerminalPod src = false -> is_Some (pod (hostKey pool src) w')); [done|].
          intros. congruence.
        - eapply wp_mono; [|by apply processPod_covers]. intros o w' m' H a' Ho _. by eapply H. }
    intros [[a'|e]|msg] w2 m2 [Hp Hs]; [|done..]. split; [by rewrite <- app_assoc|].
    intros s [Hin|Hin]%elem_of_app Ht; [by apply Hp|].
    apply list_elem_of_singleton in Hin as ->. by eapply Hs.
  - intros all a w1 m1 [-> Hc] a' _. by rewrite app_nil_r.
  - split; [done|]. by intros s ?%elem_of_nil.
Qed.

Lemma loops_cover cfg cs pool srcs w m :
  wp K (pass_loops cfg cs pool srcs) w m (fun o w' m' =>
    (forall r, o = Done (r, None) -> covered pool srcs w') /\ m' = m).
Proof.
  apply wp_and; [|apply wp_lockless; [done|]; apply pass_loops_lockless].
  apply wp_bind. eapply wp_mono; [|apply wp_and; [by apply (loop_desired faults calm)|
    apply loop_covers]].
  intros [[[r1 d]|[r1 e]]|msg] w1 m1 [Hd Hc]; [|by intros r' [= -> ->]|done].
  eapply wp_mono; [|apply (covered_stays _ pool srcs); by eapply Hc]. by intros.
Qed.

Lemma readyNodes_complete nodes n :
  n ∈ nodes -> IsReady n = true -> is_Some (readyNodes nodes !! vn_Name n).
Proof.
  unfold readyNodes. rewrite <- fold_left_rev_right. intros Hin Hr.
  assert (n ∈ List.rev nodes) as Hin' by (rewrite list_elem_of_In in *; by apply in_rev in Hin).
  induction (List.rev nodes) as [|a l IH]; simpl; [by apply elem_of_nil in Hin'|].
  apply elem_of_cons in Hin' as [<-|Hin']; [rewrite Hr, lookup_insert_eq; eauto|].
  destruct (IsReady a); [|auto]. destruct (decide (vn_Name a = vn_Name n)) as [->|Hne].
  - rewrite lookup_insert_eq. eauto.
  - rewrite lookup_insert_ne by done. auto.
Qed.

(** A tenant pod that asks for a host pod: not managed by the operator, neither
    marked for deletion nor at its end, on a ready VNode of the pool. *)
Definition asks (pool : VNodePool) (w : world) (src : CorePod) : Prop :=
  map_get (om_Labels (cp_Meta src)) LabelManagedBy <> LabelManagedByValue /\
  om_DeletionTimestamp (cp_Meta src) = None /\ isTerminalPod src = false /\
  exists z cr, object HostClient KVNode z w = Some cr /\
    selected KVNode (vp_Namespace pool) {[ labelPool := vp_Name pool ]} (z, cr) /\
    IsReady (crToNode cr) = true /\ om_Name (nd_Meta cr) = cps_NodeName (cp_Spec src).

Lemma asks_kept pool nodes w src :
  nodes ≡ₚ listing HostClient KVNode (vp_Namespace pool) {[ labelPool := vp_Name pool ]} w ->
  asks pool w src -> keepTenantPod (readyNodes (map crToNode nodes)) src = true.
Proof.
  intros Hn (Hm & Hdel & _ & z & cr & Hz & Hsel & Hr & Hname). unfold keepTenantPod.
  rewrite bool_decide_false by done. rewrite Hdel, <- Hname.
  assert (crToNode cr ∈ map crToNode nodes) as Hin.
  { apply list_elem_of_fmap_2. rewrite Hn, elem_of_listing. eauto. }
  destruct (readyNodes_complete _ _ Hin Hr) as [n Hl]. simpl in Hl. by rewrite Hl.
Qed.


End Coverage.

