(* ===== verification/Resources.v ===== *)
(** The ConfigMaps and Secrets of a pod execution: after a pass of ReconcilePool
    that reports success, everything the host pods mount is on the host. *)

From S2P Require Import Prelude GoProg Model PodModel Kube Libs ApiServer Testbed Ports PodClient.
From S2P Require Import NodeRepo Registrar Tenants Registration PodService Scaling Execution.
From S2P Require Import Config System Footprint PodSafety Orphans Coverage.

(** ** Calls that leave ConfigMaps and Secrets alone *)
Definition is_resource {T} (k : kind T) : bool :=
  match k with KConfigMap | KSecret => true | _ => false end.

Definition spares R (c : api R) : Prop :=
  match c with
  | Create _ k _ | Update _ k _ | StatusUpdate _ k _ | StatusPatch _ k _ _ | Delete _ k _ _ =>
      is_resource k = false
  | _ => True
  end.

Lemma object_put_other {T T'} c c' (k : kind T) (k' : kind T') x y o w :
  is_resource k = false -> is_resource k' = true -> object c' k' x (put c k y o w) = object c' k' x w.
Proof.
  intros Hk Hk'. unfold object, put.
  destruct c as [| |cs], c' as [| |cs']; simpl; try (by destruct k, k'); try done.
  destruct (decide (cs = cs')) as [->|Hne].
  - rewrite lookup_insert_eq. by destruct k, k'.
  - by rewrite lookup_insert_ne.
Qed.

Lemma spares_keeps faults {R T} (c : api R) (k : kind T) c' x w r w' :
  is_resource k = true -> spares R c -> kube_post faults R c w r w' ->
  object c' k x w' = object c' k x w.
Proof.
  intros Hk Hc [->|He]%kube_post_effect; [done|].
  destruct c; simpl in *; try done;
    unfold create_applied, update_applied, write_applied, delete_applied in He;
    destruct_or?; naive_solver (eauto using object_put_other).
Qed.

(** ** What a copy is *)

(** The contents of a ConfigMap or Secret are those of another. *)
Definition same_contents {T} (k : kind T) : T -> T -> Prop :=
  match k in kind T return T -> T -> Prop with
  | KConfigMap => fun o o' => cm_Data o' = cm_Data o /\ cm_BinaryData o' = cm_BinaryData o
  | KSecret => fun o o' => se_Data o' = se_Data o
  | _ => fun _ _ => False
  end.

(** The host name of a tenant object. *)
Definition joined (x : key) : string := x.1 +:+ "-" +:+ x.2.

Local Open Scope go_scope.

Section Resources.
Context `{L : KubeLibs} {LL : KubeLibsLaws}.
Variable faults : error -> Prop.
Hypothesis calm : forall e, faults e -> is_context_error e = false /\
  status_reason e <> Some ReasonNotFound.

Abbreviation K := (kube_spec faults).

Section Pass.
Variable cs : Clientset.
Variable pool : VNodePool.
(** The world the pass began with. *)
Variable w0 : world.

(** On the host, under the name [t], a copy of an object of that name of the
    tenant cluster, labelled as the pool's. *)
Definition mirrored {T} (k : kind T) (t : string) (w : world) : Prop :=
  exists x o o', object (Tenant cs) k x w0 = Some o /\ joined x = t /\
    object HostClient k (vp_Namespace pool, t) w = Some o' /\
    same_contents k o o' /\ om_Labels (meta k o') = poolLabels pool.

Definition unchanged_sources (w : world) : Prop :=
  forall T (k : kind T) x, is_resource k = true -> object (Tenant cs) k x w = object (Tenant cs) k x w0.

(** What a reference to a ConfigMap or Secret the tenant has asks for. *)
Definition served (ref : VolumeResourceRef) (w : world) : Prop :=
  let has {T} (k : kind T) := is_Some (object (Tenant cs) k (rf_SourceNamespace ref, rf_SourceName ref) w0) in
  (rf_Type ref = VolumeTypeConfigMap -> has KConfigMap -> mirrored KConfigMap (rf_TargetName ref) w) /\
  (rf_Type ref = VolumeTypeSecret -> has KSecret -> mirrored KSecret (rf_TargetName ref) w).

Definition serving (refs : list VolumeResourceRef) (w : world) : Prop :=
  unchanged_sources w /\ forall ref, ref ∈ refs -> served ref w.

Lemma serving_same refs w w' :
  (forall T (k : kind T) c x, is_resource k = true -> object c k x w' = object c k x w) ->
  serving refs w -> serving refs w'.
Proof.
  intros E [Hs Hr]. split; [intros T k x Hk; rewrite E by done; by apply Hs|].
  intros ref Hin. destruct (Hr ref Hin) as [H1 H2].
  split; intros Ht Hh; [destruct (H1 Ht Hh) as (x & o & o' & ? & ? & Ho & ?)|
    destruct (H2 Ht Hh) as (x & o & o' & ? & ? & Ho & ?)];
    exists x, o, o'; rewrite E by done; done.
Qed.

Lemma spares_serving {A} (p : go A) refs w m :
  issues spares p -> serving refs w -> wp K p w m (fun _ w' _ => serving refs w').
Proof.
  apply (wp_issues K spares (serving refs)); [done|].
  intros R c w1 r w2 Hc H1 Hp. apply (serving_same refs w1); [|done].
  intros T k c' x Hk. by apply (spares_keeps faults c k c' x w1 r w2).
Qed.

(** [o'] on the host is a copy of the tenant's object at [x]. *)
Definition copy_from {T} (k : kind T) (x : key) (o' : T) : Prop :=
  exists o, object (Tenant cs) k x w0 = Some o /\ same_contents k o o' /\
    om_Labels (meta k o') = poolLabels pool.

Abbreviation copied k x o' w :=
  (put HostClientset k (vp_Namespace pool, joined x) (Some o') w).

Lemma mirrored_new {T} (k : kind T) x o' w :
  copy_from k x o' -> mirrored k (joined x) (copied k x o' w).
Proof.
  intros (o & H1 & H2 & H3). exists x, o, o'. split_and!; try done. apply (object_put HostClientset).
Qed.

(** A copy put in place may replace the copy of a namesake. *)
Lemma mirrored_put {T T2} (k : kind T) (k2 : kind T2) x o' t w :
  is_resource k = true -> copy_from k x o' -> mirrored k2 t w -> mirrored k2 t (copied k x o' w).
Proof.
  intros Hk Hc (y & o2 & o2' & H1 & H2 & H3 & H4 & H5).
  pose proof (mirrored_new k x o' w Hc) as Hn.
  destruct (decide (t = joined x)) as [->|Hne].
  - destruct k, k2; try done; by exists y, o2, o2'.
  - exists y, o2, o2'. split_and!; try done. rewrite <- H3. destruct k, k2; try done;
      (apply (object_put_ne HostClientset); intros [=]; congruence).
Qed.

Lemma serving_put {T} (k : kind T) x o' refs w :
  is_resource k = true -> copy_from k x o' -> serving refs w -> serving refs (copied k x o' w).
Proof.
  intros Hk Hc [Hs Hr]. split.
  - intros T2 k2 y Hk2. rewrite <- (Hs T2 k2 y Hk2). done.
  - intros ref Hin. destruct (Hr ref Hin). split; intros; apply mirrored_put; auto.
Qed.

(** Get, then create or update: the shape of EnsureConfigMap and EnsureSecret. *)
Definition ensure {T} (k : kind T) (name : string) (fresh : T) (change : T -> T) : go (option error) :=
  r <- call (Get HostClientset k (vp_Namespace pool) name) ;;
  match r with
  | Err e =>
      if IsNotFound e then r' <- call (Create HostClientset k fresh) ;; Ret (res_err r')
      else Ret (Some e)
  | Ok existing => r' <- call (Update HostClientset k (change existing)) ;; Ret (res_err r')
  end.

Lemma ensure_stores {T} (k : kind T) name fresh change w m :
  key_of k fresh = (vp_Namespace pool, name) -> om_Labels (meta k fresh) = poolLabels pool ->
  (forall o, meta k (change o) = set_labels (meta k o) (poolLabels pool)) ->
  wp K (ensure k name fresh change) w m (fun o w' _ => o = Done None ->
    exists o', w' = put HostClientset k (vp_Namespace pool, name) (Some o') w /\
      om_Labels (meta k o') = poolLabels pool /\
      (created k fresh o' \/ exists old, updated k old (change old) o')).
Proof.
  intros Hk Hl Hch. unfold ensure. apply wp_bind. unfold call at 1. cbn [wp]. split; [done|].
  intros [old|e] w1 [-> Hr].
  - destruct Hr as (Ho & Hko & Hf). apply wp_bind. unfold call. cbn [wp]. split; [done|].
    assert (key_of k (change old) = (vp_Namespace pool, name)) as Hkc.
    { unfold key_of in *. by rewrite Hch. }
    intros [o'|e] w2; simpl; [|done]. intros (old' & Ho' & Hu & ->) _.
    rewrite Hkc in *. rewrite Ho in Ho'. injection Ho' as <-.
    rewrite (updated_unfinished _ _ _ _ Hu) by (try rewrite Hch; done).
    exists o'. split; [done|]. split; [|right; by exists old].
    destruct Hu as ((_ & _ & -> & _) & _). by rewrite Hch.
  - destruct (IsNotFound e); [|done]. apply wp_bind. unfold call. cbn [wp]. split; [done|].
    intros [o'|e'] w2; simpl; [|done]. intros (_ & Hc & ->) _. rewrite Hk.
    exists o'. split; [done|]. split; [|by left]. destruct Hc as ((_ & _ & -> & _) & _). done.
Qed.

Lemma EnsureConfigMap_copies x cm w m :
  object (Tenant cs) KConfigMap x w0 = Some cm ->
  wp K (EnsureConfigMap hostPods (vp_Namespace pool) (joined x) (cm_Data cm) (cm_BinaryData cm)
          (poolLabels pool)) w m (fun o w' _ => o = Done None ->
    exists o', copy_from KConfigMap x o' /\ w' = copied KConfigMap x o' w).
Proof.
  intros Hx. eapply wp_mono; [|apply (ensure_stores KConfigMap (joined x)
    (mkCoreConfigMap (newMeta (joined x) (vp_Namespace pool) (poolLabels pool) ∅) (cm_Data cm)
       (cm_BinaryData cm) "")
    (fun old => mkCoreConfigMap (set_labels (cm_Meta old) (poolLabels pool)) (cm_Data cm)
       (cm_BinaryData cm) (cm_rest old))); done].
  intros o w' m' Ho Hd. destruct (Ho Hd) as (o' & -> & Hl & Hc). exists o'. split; [|done].
  exists cm. split_and!; [done| |done].
  by destruct Hc as [(_ & _ & Hc)|(old & _ & _ & Hc)].
Qed.

Lemma EnsureSecret_copies x se w m :
  object (Tenant cs) KSecret x w0 = Some se ->
  wp K (EnsureSecret hostPods (vp_Namespace pool) (joined x) (se_Data se) (poolLabels pool)) w m
    (fun o w' _ => o = Done None ->
      exists o', copy_from KSecret x o' /\ w' = copied KSecret x o' w).
Proof.
  intros Hx. eapply wp_mono; [|apply (ensure_stores KSecret (joined x)
    (mkCoreSecret (newMeta (joined x) (vp_Namespace pool) (poolLabels pool) ∅) (se_Data se) "")
    (fun old => mkCoreSecret (set_labels (se_Meta old) (poolLabels pool)) (se_Data se)
       (se_rest old))); done].
  intros o w' m' Ho Hd. destruct (Ho Hd) as (o' & -> & Hl & Hc). exists o'. split; [|done].
  exists se. split_and!; [done| |done].
  by destruct Hc as [(_ & _ & Hc)|(old & _ & _ & Hc)].
Qed.

Lemma serving_add refs ref w : serving refs w -> served ref w -> serving (refs ++ [ref]) w.
Proof.
  intros [Hs Hd] Hr. split; [done|]. intros ref' [Hin|Hin]%elem_of_app; [by apply Hd|].
  by apply list_elem_of_singleton in Hin as ->.
Qed.

(** A source that is not there asks for nothing. *)
Lemma source_absent {T} (k : kind T) x e w refs :
  is_resource k = true -> serving refs w -> status_reason e = Some ReasonNotFound ->
  read_error faults (object (Tenant cs) k x w) e -> ~ is_Some (object (Tenant cs) k x w0).
Proof.
  intros Hk [Hs _] He [[_ Hno]|Hf]; [|by apply calm in Hf as []].
  rewrite (Hs _ k x Hk) in Hno. rewrite Hno. by intros [].
Qed.

Lemma syncResource_serves ref refs w m :
  rf_TargetName ref = joined (rf_SourceNamespace ref, rf_SourceName ref) -> serving refs w ->
  wp K (syncResource cs hostPods pool ref tt) w m (fun o w' _ =>
    forall u, o = Done (Next u) -> serving (refs ++ [ref]) w').
Proof.
  intros Ht Hw. unfold syncResource. set (x := (rf_SourceNamespace ref, rf_SourceName ref)) in *.
  case_bool_decide as Hc; [|case_bool_decide as Hse].
  - apply wp_bind. unfold call at 1. cbn [wp]. split; [done|]. intros [cm|e] w1 [-> Hr].
    + destruct Hr as (Hcm & _). fold x in Hcm. rewrite (proj1 Hw _ KConfigMap x eq_refl) in Hcm.
      apply wp_bind. rewrite Ht. eapply wp_mono; [|by apply EnsureConfigMap_copies].
      intros [[e|]|msg] w1 m1 Ho; [done| |done]. destruct (Ho eq_refl) as (o' & Hcp & ->).
      intros u _. apply serving_add; [by apply serving_put|].
      split; [|rewrite Hc; discriminate]. intros _ _. rewrite Ht. by apply mirrored_new.
    + rewrite IsNotFound_reason. case_bool_decide as Hnf; [|done]. intros u _.
      apply serving_add; [done|]. split; [|rewrite Hc; discriminate]. intros _ Hs.
      by destruct (source_absent KConfigMap x e w refs eq_refl Hw Hnf Hr).
  - apply wp_bind. unfold call at 1. cbn [wp]. split; [done|]. intros [se|e] w1 [-> Hr].
    + destruct Hr as (Hcm & _). fold x in Hcm. rewrite (proj1 Hw _ KSecret x eq_refl) in Hcm.
      apply wp_bind. rewrite Ht. eapply wp_mono; [|by apply EnsureSecret_copies].
      intros [[e|]|msg] w1 m1 Ho; [done| |done]. destruct (Ho eq_refl) as (o' & Hcp & ->).
      intros u _. apply serving_add; [by apply serving_put|].
      split; [rewrite Hse; discriminate|]. intros _ _. rewrite Ht. by apply mirrored_new.
    + rewrite IsNotFound_reason. case_bool_decide as Hnf; [|done]. intros u _.
      apply serving_add; [done|]. split; [rewrite Hse; discriminate|]. intros _ Hs.
      by destruct (source_absent KSecret x e w refs eq_refl Hw Hnf Hr).
  - intros u _. by apply serving_add; [|split; congruence].
Qed.

Lemma volumeRefs_joined ns vs ref :
  ref ∈ volumeRefs ns vs -> rf_TargetName ref = joined (rf_SourceNamespace ref, rf_SourceName ref).
Proof.
  induction vs as [|v vs IH]; simpl; [by intros ?%elem_of_nil|].
  destruct (_ && _); [done|]. by intros [->|]%elem_of_cons; auto.
Qed.

Lemma syncPodResources_serves t refs w m :
  serving refs w ->
  wp K (syncPodResources cs hostPods t pool) w m (fun o w' _ =>
    o = Done None -> serving (refs ++ ResourceRefs t) w').
Proof.
  intros Hw. unfold syncPodResources. apply wp_bind.
  eapply wp_mono; [|apply (wp_for_range _ (fun pref todo _ w' _ =>
    ResourceRefs t = pref ++ todo /\ serving (refs ++ pref) w')
    (syncResource cs hostPods pool) (fun o w' _ => forall u, o = Done (Next u) ->
      serving (refs ++ ResourceRefs t) w')) with (pref := [])].
  - intros [[[]|e]|msg] w' m' Ho; [|done..]. intros _. by apply (Ho tt).
  - intros pref ref todo [] w1 m1 [E H1].
    eapply wp_mono; [|apply syncResource_serves; [|done]].
    + intros [[[]|e]|msg] w2 m2 Ho; [|done..]. rewrite app_assoc. split; [|by apply (Ho tt)].
      by rewrite <- app_assoc.
    + eapply volumeRefs_joined. unfold ResourceRefs in E. rewrite E. apply elem_of_app. right. left.
  - intros all [] w1 m1 [E H1] u _. rewrite E, app_nil_r. done.
  - split; [done|]. by rewrite app_nil_r.
Qed.

(** The programs that handle pods leave ConfigMaps and Secrets alone. *)
Lemma pods_spare {A} (p : go A) refs w m :
  issues (within fp_pods) p -> serving refs w -> wp K p w m (fun _ w' _ => serving refs w').
Proof.
  intros Hp. apply spares_serving. revert Hp. apply issues_mono. intros R c.
  destruct c as [? c k ? ?|? c k ? ?|? c k o|? c k o|? c k o|? c k b o|? c k ? ?|?| | |]; try done;
    destruct k; try done; unfold within; simpl; destruct c; set_solver.
Qed.

Lemma processPod_serves runtime src refs a w m :
  serving refs w ->
  wp K (processPod hostPods (PodService runtime) cs pool src a) w m (fun o w' _ =>
    forall a', o = Done (Next a') ->
      serving (refs ++ volumeRefs (om_Namespace (cp_Meta src)) (ps_Volumes (podFromCore src))) w').
Proof.
  intros Hw. unfold processPod. destruct a as [r d].
  cbn [PodService Translate TranslateForPool bind].
  apply wp_bind. eapply wp_mono; [|by apply syncPodResources_serves].
  intros [[e|]|msg] w1 m1 Hs; [done| |done]. specialize (Hs eq_refl).
  eapply wp_mono; [|eapply pods_spare; [|exact Hs]].
  - intros o w2 m2 H a' _. exact H.
  - destruct (isTerminalPod src); [apply syncHostStatus_within|].
    apply issues_bind; [apply hostpods_pods, ensureHostPod_within|].
    intros [[c dl] [e|]]; [by destruct (errors_Is e ErrPodTerminating)|apply syncHostStatus_within].
Qed.

(** The references of tenant pods. *)
Definition pod_refs (src : CorePod) : list VolumeResourceRef :=
  volumeRefs (om_Namespace (cp_Meta src)) (ps_Volumes (podFromCore src)).

Lemma loops_serve cfg srcs m :
  wp K (pass_loops cfg cs pool srcs) w0 m (fun o w' m' =>
    (forall r, o = Done (r, None) -> serving (flat_map pod_refs srcs) w') /\ m' = m).
Proof.
  apply wp_and; [|apply wp_lockless; [done|]; apply pass_loops_lockless].
  apply wp_bind. eapply wp_mono; [|apply wp_and; [by apply (loop_desired faults calm)|
    apply (wp_for_range _ (fun pref todo _ w' _ =>
      srcs = pref ++ todo /\ serving (flat_map pod_refs pref) w') _
      (fun o w' _ => forall a, o = Done (Next a) -> serving (flat_map pod_refs srcs) w'))
      with (pref := [])]].
  - intros [[[r1 d]|[r1 e]]|msg] w1 m1 [Hd Hc]; [|by intros r' [= -> ->]|done].
    eapply wp_mono; [|apply pods_spare; [apply hostpods_pods, cleanupOrphans_within|by eapply Hc]]. by intros.
  - intros pref src todo a w1 m1 [-> Hs].
    eapply wp_mono; [|by apply processPod_serves].
    intros [[a'|e]|msg] w2 m2 Ho; [|done..]. split; [by rewrite <- app_assoc|].
    rewrite flat_map_app. simpl. rewrite app_nil_r. by eapply Ho.
  - intros all a w1 m1 [-> Hs] a' _. by rewrite app_nil_r.
  - split; [done|]. split; [done|]. by intros ref ?%elem_of_nil.
Qed.
End Pass.


End Resources.

(** ** A concrete pass: a tenant pod that mounts a ConfigMap *)
Definition mounting_pod : CorePod :=
  mkCorePod (newMeta "web" "default" ∅ ∅)
    (mkCorePodSpec "pool-0" "" None None ∅ []
       [mkCoreVolume "conf" (Some "settings") None None None None None] "")
    (mkCorePodStatus "" "" "" "" [] "").
Definition settings : CoreConfigMap :=
  mkCoreConfigMap (newMeta "settings" "default" ∅ ∅) {[ "key" := "value" ]} ∅ "".
Definition mounting_world : world :=
  mkWorld (w_host demo_pass)
    {[ mkClientset "t" := mkCluster ∅ ∅ {[ ("default", "web") := mounting_pod ]} ∅
         {[ ("default", "settings") := settings ]} ∅ ∅ ∅ ]}.

