(* ===== verification/Interleaving.v ===== *)
(** Programs that run beside others: a predicate on programs that holds however
    the calls of other programs and of the environment fall between their own,
    and whatever they find in the shared memory. *)

From S2P Require Import Prelude GoProg Kube.

Section Rely.
Context {E : Type -> Type} {M S : Type}.
Abbreviation prog := (prog E M).

(** How the tracked state may move between two steps of a program. *)
Variable ext : S -> S -> Prop.
Variable sp : spec E S.

(** Every call of the program is allowed in every state others may have led to;
    critical sections meet any memory. *)
Fixpoint rely {A} (p : prog A) (s : S) (Q : outcome A -> S -> Prop) : Prop :=
  match p with
  | Ret a => Q (Done a) s
  | Panic msg => Q (Panicked msg) s
  | Call c k => forall s1, ext s s1 ->
      pre sp c s1 /\ forall r s2, post sp c s1 r s2 -> rely (k r) s2 Q
  | Atomic f k => forall m, rely (k (f m).1) s Q
  end.

Lemma rely_mono {A} (p : prog A) s (Q Q' : outcome A -> S -> Prop) :
  (forall o s', Q o s' -> Q' o s') -> rely p s Q -> rely p s Q'.
Proof.
  intros HQ. revert s. induction p as [a|msg|R c k IH|R f k IH]; intros s; simpl; auto.
  intros Hp s1 Hs1. destruct (Hp s1 Hs1) as [Hpre Hk]. auto.
Qed.

Lemma rely_bind {A B} (p : prog A) (f : A -> prog B) s Q :
  rely p s (fun o s' =>
    match o with Done a => rely (f a) s' Q | Panicked msg => Q (Panicked msg) s' end) ->
  rely (bind p f) s Q.
Proof.
  revert s. induction p as [a|msg|R c k IH|R g k IH]; intros s; simpl; auto.
  intros Hp s1 Hs1. destruct (Hp s1 Hs1) as [Hpre Hk]. auto.
Qed.

(** A fact about the state that neither others nor replies undo. *)
Class Stable (I : S -> Prop) : Prop := {
  stable_ext s s' : I s -> ext s s' -> I s';
  stable_post R (c : E R) s r s' : I s -> post sp c s r s' -> I s'
}.

#[export] Instance stable_true : Stable (fun _ => True).
Proof. by split. Qed.

(** The program may run from every state where [I] holds. *)
Definition polite {A} (I : S -> Prop) (p : prog A) : Prop :=
  forall s, I s -> rely p s (fun _ s' => I s').

Lemma polite_ret {A} I (a : A) : polite I (Ret a).
Proof. by intros s. Qed.

Lemma polite_panic {A} I msg : polite I (Panic (A := A) msg).
Proof. by intros s. Qed.

Lemma polite_atomic {R} I (f : M -> R * M) : polite I (atomic f).
Proof. by intros s Hs m. Qed.

Lemma polite_bind {A B} I (p : prog A) (f : A -> prog B) :
  polite I p -> (forall a, polite I (f a)) -> polite I (bind p f).
Proof.
  intros Hp Hf s Hs. apply rely_bind. eapply rely_mono; [|by apply Hp].
  intros [a|msg] s' Hs'; [by apply Hf|done].
Qed.

Lemma polite_for_range {X St R} I (body : X -> St -> prog (ctl St R)) xs st :
  (forall x st, polite I (body x st)) -> polite I (for_range xs st body).
Proof.
  intros Hb. revert st. induction xs as [|x xs IH]; intros st; simpl; [apply polite_ret|].
  apply polite_bind; [done|]. intros [st'|r]; [apply IH|apply polite_ret].
Qed.

(** Calls that are allowed wherever [I] holds. *)
Lemma polite_issues {A} I `{!Stable I} (P : forall R : Type, E R -> Prop) (p : prog A) :
  (forall R (c : E R) s, I s -> P R c -> pre sp c s) -> issues P p -> polite I p.
Proof.
  intros HP. induction p as [a|msg|R c k IH|R f k IH]; simpl; intros Hp s Hs; simpl; auto.
  - intros s1 Hs1. assert (I s1) as HI by by eapply stable_ext. destruct Hp as [Hc Hk].
    split; [auto|]. intros r s2 Hr. apply IH; [done|]. by eapply stable_post.
  - intros m. by apply IH.
Qed.

(** A call, then a program that may use what the reply tells. *)
Lemma rely_call {R A} (c : E R) (k : R -> prog A) s Q :
  (forall s1, ext s s1 -> pre sp c s1) ->
  (forall s1 r s2, ext s s1 -> post sp c s1 r s2 -> rely (k r) s2 Q) ->
  rely (bind (call c) k) s Q.
Proof. intros Hpre Hk s1 Hs1. split; [auto|]. intros r s2 Hr. by eapply Hk. Qed.

(** Others move the state on. *)
Lemma rely_ext {A} (p : prog A) s s' :
  (forall a b c, ext a b -> ext b c -> ext a c) -> ext s s' ->
  rely p s (fun _ _ => True) -> rely p s' (fun _ _ => True).
Proof.
  intros Htrans. revert s s'.
  induction p as [a|msg|R c k IH|R f k IH]; intros s s' Hs; simpl; auto.
  - intros Hp s1 Hs1. apply Hp. eauto.
  - intros Hp m. by eapply IH.
Qed.

End Rely.

Lemma polite_retry `{KubeLibsLaws} {S} (ext : S -> S -> Prop) (sp : spec api S) (I : S -> Prop)
    (fn : go (option error)) :
  polite ext sp I fn -> polite ext sp I (RetryOnConflict fn).
Proof.
  intros Hfn. destruct RetryOnConflict_loop as [n Hn]. rewrite Hn. clear Hn.
  induction n as [|n IH]; simpl; apply polite_bind; try done; intros [e|]; try apply polite_ret;
    destruct (IsConflict e); try done; apply polite_ret.
Qed.

(** One step of a [polite] goal. *)
Ltac polite_step :=
  lazymatch goal with
  | |- polite _ _ _ (bind _ _) => apply polite_bind
  | |- polite _ _ _ (for_range _ _ _) => apply polite_for_range; intros
  | |- polite _ _ _ (match ?x with _ => _ end) => destruct x
  | |- polite _ _ _ (Ret _) => apply polite_ret
  | |- polite _ _ _ (Panic _) => apply polite_panic
  | |- polite _ _ _ (RetryOnConflict _) => apply polite_retry
  | |- forall _, _ => intro
  end.
