(* ===== verification/Concurrent.v ===== *)
(** The operator as its manager runs it: the three controllers side by side,
    each on one request at a time, one call after the other, between the steps
    of users, nodes and tenants.

    Reads through the manager's client come from a cache that may lag behind
    the API server by any time; writes carry the resource version of the object
    they start from and are refused if it is no longer the stored one.  The
    operator may stop at any moment and start again with empty memory. *)

From S2P Require Import Prelude GoProg Model PodModel Kube Libs ApiServer Ports PodClient.
From S2P Require Import NodeRepo NodeStore Registrar Tenants PodService NodeService PoolService.
From S2P Require Import Execution PoolReconciler NodeReconciler PodSyncReconciler Config System.
From S2P Require Import Footprint PodSafety Interleaving.

(** ** The system *)
Inductive controller : Type := PoolController | VNodeController | PodSyncController.

#[export] Instance controller_eq_dec : EqDecision controller.
Proof. solve_decision. Defined.
#[export] Instance controller_countable : Countable controller.
Proof.
  apply (inj_countable'
    (fun c => match c with PoolController => 0 | VNodeController => 1 | PodSyncController => 2 end)
    (fun n => match n with 0 => PoolController | 1 => VNodeController | _ => PodSyncController end)).
  by intros [].
Defined.

(** What a controller is doing. *)
Abbreviation thread := (go (Z * option error)).

(** [os_past] holds the worlds before the current one. *)
Record op_state : Type := mkOp {
  os_world : world;
  os_past : list world;
  os_mem : mem;
  os_run : gmap controller thread
}.

Definition seen (s : op_state) : list world := os_world s :: os_past s.

(** The world moves on. *)
Definition moved (s : op_state) (w : world) (m : mem) (run : gmap controller thread) : op_state :=
  mkOp w (seen s) m run.

Abbreviation host k x w := (object HostClient k x w).
Definition version {T} (k : kind T) (o : T) : string := om_ResourceVersion (meta k o).

(** Reads that the manager's client answers from its cache. *)
Definition cached_read {R} (c : api R) : bool :=
  match c with Get HostClient _ _ _ | List HostClient _ _ _ => true | _ => false end.

(** An update is applied only to the version it was made from. *)
Definition optimistic {R} (c : api R) (w w' : world) : Prop :=
  w' = w \/
  match c with
  | Update cn k o | StatusUpdate cn k o => forall old,
      object cn k (key_of k o) w = Some old -> version k old = version k o
  | _ => True
  end.

(** A stored object is unchanged or has a version its key never had. *)
Definition new_versions (past : list world) (w' : world) : Prop :=
  forall T (k : kind T) x o o' w0, host k x w' = Some o' -> w0 ∈ past ->
    host k x w0 = Some o -> version k o = version k o' -> o = o'.

(** What other parties do: anything to tenant clusters, pools, pods, secrets
    and config maps; VNodes are the operator's, others at most delete them. *)
Inductive environment (w : world) : world -> Prop :=
| env_tenants ts : environment w (mkWorld (w_host w) ts)
| env_pool x o : environment w (put HostClient KVNodePool x o w)
| env_pod x o : environment w (put HostClient KPod x o w)
| env_secret x o : environment w (put HostClient KSecret x o w)
| env_configmap x o : environment w (put HostClient KConfigMap x o w)
| env_vnode_deleted x : environment w (put HostClient KVNode x None w).

Section System.
Context `{L : KubeLibs} {LL : KubeLibsLaws}.
Variable faults : error -> Prop.
Variable cfg : Config.

Definition handle (c : controller) (ns name : string) : thread :=
  match c with
  | PoolController => poolReconciler ns name
  | VNodeController => vnodeReconciler ns name
  | PodSyncController => podSyncReconciler cfg ns name
  end.

(** The answer to a call in world [w]. *)
Definition answers {R} (c : api R) (past : list world) (w : world) (r : R) (w' : world) : Prop :=
  if cached_read c then w' = w /\ exists w0, w0 ∈ w :: past /\ kube_post faults R c w0 r w0
  else kube_post faults R c w r w' /\ optimistic c w w' /\ new_versions (w :: past) w'.

(** One step; [Some c] is a step of controller [c]. *)
Inductive op_step (s : op_state) : option controller -> op_state -> Prop :=
| step_start c ns name :
    os_run s !! c = None ->
    op_step s (Some c) (mkOp (os_world s) (os_past s) (os_mem s) (<[c := handle c ns name]> (os_run s)))
| step_call c R (a : api R) k r w' :
    os_run s !! c = Some (Call a k) -> answers a (os_past s) (os_world s) r w' ->
    op_step s (Some c) (moved s w' (os_mem s) (<[c := k r]> (os_run s)))
| step_atomic c R (f : mem -> R * mem) k :
    os_run s !! c = Some (Atomic f k) ->
    op_step s (Some c)
      (mkOp (os_world s) (os_past s) (f (os_mem s)).2 (<[c := k (f (os_mem s)).1]> (os_run s)))
| step_return c r :
    os_run s !! c = Some (Ret r) ->
    op_step s (Some c) (mkOp (os_world s) (os_past s) (os_mem s) (delete c (os_run s)))
| step_recover c msg :
    os_run s !! c = Some (Panic msg) ->
    op_step s (Some c) (mkOp (os_world s) (os_past s) (os_mem s) (delete c (os_run s)))
| step_environment w' :
    environment (os_world s) w' -> new_versions (seen s) w' ->
    op_step s None (moved s w' (os_mem s) (os_run s))
| step_restart : op_step s None (mkOp (os_world s) (os_past s) ∅ ∅).

Definition any_step (s s' : op_state) : Prop := exists who, op_step s who s'.

(** The operator starts on a cluster whose VNodes, if any, are its own. *)
Definition initial (s : op_state) : Prop :=
  os_past s = [] /\ os_run s = ∅ /\ good_world (os_world s).

Definition reachable (s : op_state) : Prop := exists s0, initial s0 /\ rtc any_step s0 s.

End System.

(** ** What the controllers guarantee *)

(** The object was stored at its key in one of the worlds. *)
Definition was_stored {T} (k : kind T) (h : list world) (o : T) : Prop :=
  exists w, w ∈ h /\ host k (key_of k o) w = Some o.

(** [o] differs from [base] in finalizers and status only. *)
Definition pool_edit (base o : VNodePoolCR) : Prop :=
  version KVNodePool o = version KVNodePool base /\ key_of KVNodePool o = key_of KVNodePool base /\
  om_Labels (pc_Meta o) = om_Labels (pc_Meta base) /\
  om_Annotations (pc_Meta o) = om_Annotations (pc_Meta base) /\ pc_Spec o = pc_Spec base.

(** [o] differs from [base] in annotations and status only. *)
Definition vnode_edit (base o : VNodeCR) : Prop :=
  version KVNode o = version KVNode base /\ key_of KVNode o = key_of KVNode base /\
  om_Labels (nd_Meta o) = om_Labels (nd_Meta base) /\
  om_Finalizers (nd_Meta o) = om_Finalizers (nd_Meta base) /\ nd_Spec o = nd_Spec base.

(** A VNode as the operator creates them. *)
Definition new_vnode (o : VNodeCR) : Prop :=
  om_Labels (nd_Meta o) !! labelPool = Some (ns_PoolRef (nd_Spec o)) /\
  om_Finalizers (nd_Meta o) = [].

(** A host pod that is confined to a pool some world held. *)
Definition pool_pod (runtime : IsolationRuntime) (h : list world) (o : CorePod) : Prop :=
  exists cr, was_stored KVNodePool h cr /\ confined runtime (crToPoolModel cr) o.

Definition may_create {T} (runtime : IsolationRuntime) (h : list world) (k : kind T) (o : T) : Prop :=
  match k in kind T return T -> Prop with
  | KVNodePool => fun _ => False
  | KVNode => new_vnode
  | KPod => pool_pod runtime h
  | _ => fun _ => True
  end o.

Definition may_update {T} (h : list world) (k : kind T) (o : T) : Prop :=
  match k in kind T return T -> Prop with
  | KVNodePool => fun o => exists base, was_stored KVNodePool h base /\ pool_edit base o
  | KVNode => fun o => exists base, was_stored KVNode h base /\ vnode_edit base o
  | KPod => fun _ => False
  | _ => fun _ => True
  end o.

(** The calls a controller may make on the host after the worlds [h]. *)
Definition allowed (runtime : IsolationRuntime) (R : Type) (c : api R) (h : list world) : Prop :=
  match c with
  | Create cn k o => side_of cn = OnHost -> may_create runtime h k o
  | Update cn k o => side_of cn = OnHost -> may_update h k o
  | StatusUpdate cn k _ => side_of cn = OnHost -> tag k <> TPod
  | StatusPatch cn k _ _ => side_of cn = OnHost -> tag k = TVNodePool
  | Delete cn k _ _ => side_of cn = OnHost -> tag k <> TVNodePool
  | _ => True
  end.

(** What a controller learns from a read of the host. *)
Definition learned (R : Type) (c : api R) (h : list world) (r : R) : Prop :=
  match c in api R return R -> Prop with
  | Get cn k ns name => fun r =>
      side_of cn = OnHost ->
      match r with Ok o => was_stored k h o /\ key_of k o = (ns, name) | Err _ => True end
  | _ => fun _ => True
  end r.

Definition host_spec (runtime : IsolationRuntime) : spec api (list world) :=
  mkSpec (allowed runtime) (fun R c h r h' => h ⊆ h' /\ learned R c h' r).

Abbreviation Polite rt := (polite (⊆) (host_spec rt) (fun _ => True)).

Lemma was_stored_mono {T} (k : kind T) h h' o : h ⊆ h' -> was_stored k h o -> was_stored k h' o.
Proof. intros Hh (w & Hw & Ho). exists w. auto. Qed.

Lemma was_stored_now {T} (k : kind T) h w o :
  w ∈ h -> host k (key_of k o) w = Some o -> was_stored k h o.
Proof. intros Hw Ho. by exists w. Qed.

(** ** Writes to one object *)

Lemma host_put_other {T T'} cn (k : kind T) (k' : kind T') x y o w :
  side_of cn = OnTenant \/ tag k <> tag k' -> host k' y (put cn k x o w) = host k' y w.
Proof.
  intros H. destruct cn as [| |cs]; [| |by destruct k'];
    (destruct H as [H|H]; [done|]; by destruct k, k').
Qed.

Lemma host_put_same {T} cn (k : kind T) x y o w :
  side_of cn = OnHost ->
  host k y (put cn k x o w) = if decide (x = y) then o else host k y w.
Proof.
  intros H. assert (put cn k x o w = put HostClient k x o w) as -> by by destruct cn.
  case_decide as Hx; [subst; apply object_put|by apply object_put_ne].
Qed.

Lemma object_host {T} cn (k : kind T) x w : side_of cn = OnHost -> object cn k x w = host k x w.
Proof. by destruct cn. Qed.

(** The call writes or reads objects of that tag on that side. *)
Definition touches {R} (c : api R) (sd : side) (t : ktag) : Prop :=
  exists v, footprint c = Some (sd, v, t).

Lemma touches_dec {R} (c : api R) sd t : touches c sd t \/ ~ touches c sd t.
Proof.
  unfold touches. destruct (footprint c) as [[[sd' v] t']|]; [|right; by intros [? ?]].
  destruct (decide (sd' = sd /\ t' = t)) as [[-> ->]|Hn]; [left; eauto|].
  right. intros [v' [= -> _ ->]]. by apply Hn.
Qed.

Lemma effect_other {R T} (c : api R) (k : kind T) x w w' :
  effect c w w' -> ~ touches c OnHost (tag k) -> host k x w' = host k x w.
Proof.
  intros He Hn.
  assert (forall T' cn (k' : kind T') v y o, footprint c = Some (side_of cn, v, tag k') ->
    host k x (put cn k' y o w) = host k x w) as Hput.
  { intros T' cn k' v y o Hf. apply host_put_other. destruct (side_of cn) eqn:Hs; [|by left].
    right. intros Ht. apply Hn. exists v. by rewrite Hf, Ht. }
  destruct c; try done; simpl in He.
  - destruct He as (o' & _ & _ & ->). by eapply Hput.
  - destruct He as (o' & old & _ & _ & ->). by eapply Hput.
  - destruct He as (o' & old & _ & _ & ->). by eapply Hput.
  - destruct He as (o' & old & _ & _ & ->). by eapply Hput.
  - destruct He as (old & _ & [[_ ->]|(_ & o' & _ & ->)]); by eapply Hput.
Qed.

Section Steps.
Variable runtime : IsolationRuntime.

(** *** VNodes stay well formed *)

Definition vnode_ok {T} (k : kind T) (x : key) (o : T) : Prop :=
  match k in kind T return T -> Prop with KVNode => good_vnode x | _ => fun _ => True end o.

Lemma good_world_put {T} cn (k : kind T) x o w :
  good_world w -> (side_of cn = OnHost -> forall o', o = Some o' -> vnode_ok k x o') ->
  good_world (put cn k x o w).
Proof.
  intros Hw Ho y cr Hy. destruct (side_of cn) eqn:Hs.
  - destruct k; try (rewrite host_put_other in Hy by (by right); by apply Hw).
    rewrite host_put_same in Hy by done. case_decide; [subst; by apply Ho|by apply Hw].
  - rewrite host_put_other in Hy by (by left). by apply Hw.
Qed.

(** An object with the description and spec of a good VNode. *)
Lemma good_vnode_like x cr cr' :
  good_vnode x cr -> key_of KVNode cr' = key_of KVNode cr ->
  om_Labels (nd_Meta cr') = om_Labels (nd_Meta cr) ->
  om_Finalizers (nd_Meta cr') = om_Finalizers (nd_Meta cr) ->
  om_DeletionTimestamp (nd_Meta cr') = None -> nd_Spec cr' = nd_Spec cr -> good_vnode x cr'.
Proof. intros (H1 & H2 & H3 & H4) Ek El Ef Ed Es. unfold good_vnode. split_and!; congruence. Qed.

Lemma good_step {R} (c : api R) h w w' :
  (forall w0, w0 ∈ h -> good_world w0) -> w ∈ h -> allowed runtime R c h -> effect c w w' ->
  good_world w'.
Proof.
  intros Hh Hw Hc He. pose proof (Hh w Hw) as Hgood.
  destruct c as [| |T cn k o|T cn k o|T cn k o|T cn k base o|T cn k ns name| | | |]; try done; simpl in *.
  - destruct He as (o' & _ & Hcr & ->). apply good_world_put; [done|]. intros Hs ? [= <-].
    destruct k; try done. destruct (Hc Hs) as [Hl Hf].
    destruct Hcr as ((E1 & E2 & E3 & _ & E5) & E6 & E7 & _). simpl in *.
    unfold good_vnode, key_of. simpl. rewrite E1, E2, E3, E5, E6, E7. done.
  - destruct He as (o' & old & Hold & Hu & ->). apply good_world_put; [done|]. intros Hs o2 Ho2.
    destruct k; try done. destruct (finished KVNode o'); [done|]. injection Ho2 as <-.
    destruct (Hc Hs) as (b & (w0 & Hw0 & Hb) & (_ & Ek & El & Ef & Es)).
    rewrite object_host in Hold by done. apply Hgood in Hold as (_ & _ & _ & Hd).
    apply (Hh w0 Hw0) in Hb. destruct Hu as ((E1 & E2 & E3 & _ & E5) & (_ & _ & E6) & E7 & _).
    simpl in *. eapply (good_vnode_like _ b); [by rewrite Ek|..]; try congruence.
    rewrite <- Ek. unfold key_of. simpl. congruence.
  - destruct He as (o' & old & Hold & Hu & ->). apply good_world_put; [done|]. intros Hs ? [= <-].
    destruct k; try done. rewrite object_host in Hold by done. apply Hgood in Hold.
    destruct Hu as ((E1 & E2 & E3 & _ & E5) & (_ & _ & E6) & E7 & _). simpl in *.
    pose proof Hold as (_ & _ & _ & Hd).
    eapply good_vnode_like; [done|..]; try congruence. unfold key_of. simpl. congruence.
  - destruct He as (o' & old & Hold & Hu & ->). apply good_world_put; [done|]. intros Hs ? [= <-].
    specialize (Hc Hs). by destruct k.
  - destruct He as (old & Hold & [[_ ->]|(Hd & o' & Hm & ->)]); (apply good_world_put; [done|]);
      intros Hs ? [=]. subst. destruct k; try done. rewrite object_host in Hold by done.
    apply Hgood in Hold as (_ & _ & Hf & _). by destruct Hd.
Qed.

(** *** Pools keep what their owners wrote *)

(** What a pool's owner wrote is the same in both. *)
Definition same_request (o o' : VNodePoolCR) : Prop :=
  pc_Spec o' = pc_Spec o /\ om_Labels (pc_Meta o') = om_Labels (pc_Meta o) /\
  om_Annotations (pc_Meta o') = om_Annotations (pc_Meta o) /\
  om_DeletionTimestamp (pc_Meta o') = om_DeletionTimestamp (pc_Meta o).

(** Two objects one key held with one version are the same. *)
Definition one_version (h : list world) : Prop :=
  forall x o1 o2 w1 w2, w1 ∈ h -> w2 ∈ h -> host KVNodePool x w1 = Some o1 ->
    host KVNodePool x w2 = Some o2 -> version KVNodePool o1 = version KVNodePool o2 -> o1 = o2.

Lemma pool_status_step cn x y old o o1 w :
  side_of cn = OnHost -> object cn KVNodePool y w = Some old ->
  same_description (pc_Meta old) (pc_Meta o1) /\ same_identity (pc_Meta old) (pc_Meta o1) /\
    pc_Spec o1 = pc_Spec old /\ o ->
  forall o', host KVNodePool x (put cn KVNodePool y (Some o1) w) = Some o' ->
  exists o0, host KVNodePool x w = Some o0 /\ same_request o0 o'.
Proof.
  intros Hs Hold ((_ & _ & E3 & E4 & _) & (_ & _ & E6) & E7 & _) o' Hx.
  rewrite host_put_same in Hx by done. case_decide as Hk; [|by exists o'].
  injection Hx as <-. subst y. rewrite object_host in Hold by done. by exists old.
Qed.

Lemma pool_step {R} (c : api R) h w w' x o' :
  one_version h -> w ∈ h -> allowed runtime R c h -> effect c w w' -> optimistic c w w' ->
  host KVNodePool x w' = Some o' ->
  exists o, host KVNodePool x w = Some o /\ same_request o o'.
Proof.
  intros Hver Hw Hc He Ho Hx. assert (forall o, same_request o o) as Hrefl by done.
  destruct Ho as [->|Ho]; [eauto|].
  destruct (touches_dec c OnHost TVNodePool) as [(v & Hf)|Hn].
  2:{ rewrite (effect_other c KVNodePool x w w' He Hn) in Hx. eauto. }
  destruct c as [| |T cn k o|T cn k o|T cn k o|T cn k base o|T cn k ns name| | | |]; try done;
    simpl in He, Hc, Ho; injection Hf as Hs _ Ht; specialize (Hc Hs); destruct k; try done.
  - destruct He as (o1 & old & Hold & Hu & ->).
    rewrite host_put_same in Hx by done. case_decide as Hk; [|by eauto]. subst x.
    specialize (Ho old Hold). rewrite object_host in Hold by done. exists old. split; [done|].
    destruct (finished KVNodePool o1); [done|]. injection Hx as <-.
    destruct Hc as (b & (w0 & Hw0 & Hb) & (Ev & Ek & El & Ea & Es)). rewrite <- Ek in Hb.
    assert (b = old) as -> by (eapply (Hver _ b old w0 w); [done..|congruence]).
    destruct Hu as ((_ & _ & E3 & E4 & _) & (_ & _ & E6) & E7 & _). simpl in *.
    unfold same_request. split_and!; congruence.
  - destruct He as (o1 & old & Hold & Hu & ->). exact (pool_status_step cn x _ old _ o1 w Hs Hold Hu o' Hx).
  - destruct He as (o1 & old & Hold & Hu & ->). exact (pool_status_step cn x _ old _ o1 w Hs Hold Hu o' Hx).
Qed.

(** *** Pods *)

(** The operator adds confined pods and marks pods for deletion. *)
Lemma pod_step {R} (c : api R) h w w' x o' :
  allowed runtime R c h -> effect c w w' -> host KPod x w' = Some o' ->
  host KPod x w = Some o' \/
  (host KPod x w = None /\ exists o, created KPod o o' /\ key_of KPod o = x /\ pool_pod runtime h o) \/
  exists o, host KPod x w = Some o /\ marked KPod o o'.
Proof.
  intros Hc He Hx. destruct (touches_dec c OnHost TPod) as [(v & Hf)|Hn].
  2:{ rewrite (effect_other c KPod x w w' He Hn) in Hx. by left. }
  destruct c as [| |T cn k o|T cn k o|T cn k o|T cn k base o|T cn k ns name| | | |]; try done;
    simpl in He, Hc; injection Hf as Hs _ Ht; specialize (Hc Hs); destruct k; try done.
  - destruct He as (o1 & Hn & Hcr & ->).
    rewrite host_put_same in Hx by done. case_decide as Hk; [|by left]. injection Hx as <-. subst x.
    rewrite object_host in Hn by done. right. left. split; [done|]. exists o. auto.
  - destruct He as (old & Hold & [[Hd ->]|(_ & o1 & Hm & ->)]);
      rewrite host_put_same in Hx by done; (case_decide as Hk; [|by left]); [done|].
    injection Hx as <-. subst x. rewrite object_host in Hold by done. right. right. eauto.
Qed.

End Steps.
