(* ===== verification/Deletion.v ===== *)
(** The deletion of a pool comes to its end: on API servers that answer every
    call and refuse no update, one pass of the pool controller over a pool that
    is marked for deletion removes its VNodes and lets it go. *)

From S2P Require Import Prelude GoProg Model Kube Libs ApiServer Testbed Ports PodClient.
From S2P Require Import NodeRepo NodeStore Registrar Tenants NodeService Lifecycle PoolService.
From S2P Require Import Scaling PoolReconciler NodeReconciler Config System NodePools Footprint.
From S2P Require Import Concurrent.

(** ** Servers that answer *)

(** No fault, and no refusal for a conflict. *)
Definition no_conflict {R} (c : api R) (r : R) : Prop :=
  forall e, reply_err c r = Some e -> status_reason e <> Some ReasonConflict.

Definition quiet_spec : spec api world :=
  mkSpec (fun _ _ _ => True) (fun R c w r w' => kube_post no_faults R c w r w' /\ no_conflict c r).

Lemma quiet_kube {A} (p : go A) w m Q : wp (kube_spec no_faults) p w m Q -> wp quiet_spec p w m Q.
Proof. apply wp_weaken; [done|]. by intros R c s r s' [H _]. Qed.

Section Quiet.
Context `{L : KubeLibs} {LL : KubeLibsLaws}.
Abbreviation K := quiet_spec.

Lemma quiet_get {T A} c (k : kind T) ns name (f : res T -> go A) w m Q :
  (forall o, object c k (ns, name) w = Some o -> key_of k o = (ns, name) -> finished k o = false ->
     wp K (f (Ok o)) w m Q) ->
  (forall e, object c k (ns, name) w = None -> status_reason e = Some ReasonNotFound ->
     wp K (f (Err e)) w m Q) ->
  wp K (bind (call (Get c k ns name)) f) w m Q.
Proof.
  intros Hok Herr. cbn. split; [done|]. intros [o|e] w' [[-> Hr] _].
  - destruct Hr as (H1 & H2 & H3). auto.
  - destruct Hr as [[H1 H2]|[]]. auto.
Qed.

Lemma quiet_update {T A} c (k : kind T) o old (f : res T -> go A) w m Q :
  object c k (key_of k o) w = Some old ->
  (forall o', updated k old o o' ->
     wp K (f (Ok o')) (put c k (key_of k o) (if finished k o' then None else Some o') w) m Q) ->
  wp K (bind (call (Update c k o)) f) w m Q.
Proof.
  intros Hold Hok. cbn. split; [done|]. intros [o'|e] w' [Hr Hn].
  - destruct Hr as (old' & H1 & H2 & ->). rewrite H1 in Hold. injection Hold as ->. auto.
  - destruct Hr as [(r & He & [[-> _]|[_ H]] & _)|[[] _]]; [by destruct (Hn e)|congruence].
Qed.

Lemma quiet_status {T A} c (k : kind T) o old (f : res T -> go A) w m Q :
  object c k (key_of k o) w = Some old ->
  (forall o', status_updated k old o o' -> wp K (f (Ok o')) (put c k (key_of k o) (Some o') w) m Q) ->
  wp K (bind (call (StatusUpdate c k o)) f) w m Q.
Proof.
  intros Hold Hok. cbn. split; [done|]. intros [o'|e] w' [Hr Hn].
  - destruct Hr as (old' & H1 & H2 & ->). rewrite H1 in Hold. injection Hold as ->. auto.
  - destruct Hr as [(r & He & [[-> _]|[_ H]] & _)|[[] _]]; [by destruct (Hn e)|congruence].
Qed.

(** An attempt that succeeds is not repeated. *)
Lemma quiet_retry (fn : go (option error)) w m (Q : outcome (option error) -> world -> mem -> Prop) :
  wp K fn w m (fun o w' m' => o = Done None /\ Q o w' m') -> wp K (RetryOnConflict fn) w m Q.
Proof.
  intros Hfn. apply (wp_retry K (fun w1 m1 => w1 = w /\ m1 = m)); [|done].
  intros ? ? [-> ->]. eapply wp_mono; [|exact Hfn]. by intros o w' m' [-> HQ].
Qed.

(** ** Saving and deleting nodes *)

Lemma quiet_applyStatus {A} cr n (f : VNodeCR -> go A) w m Q :
  (forall cr', nd_Meta cr' = nd_Meta cr -> wp K (f cr') w m Q) ->
  wp K (bind (applyNodeStatus cr n) f) w m Q.
Proof.
  intros Hf. apply wp_bind, quiet_kube, applyNodeStatus_spec. intros cr' Hm _ _. by apply Hf.
Qed.

Lemma key_like cr cr' : nd_Meta cr' = nd_Meta cr -> key_of KVNode cr' = key_of KVNode cr.
Proof. intros H. unfold key_of. simpl. by rewrite H. Qed.

Lemma updateStatus_succeeds n w m :
  is_Some (object HostClient KVNode (node_key n) w) ->
  wp K (updateStatus n) w m (fun o _ _ => o = Done None).
Proof.
  intros [cr0 Hcr]. apply quiet_retry. unfold updateStatus_attempt. apply quiet_get.
  - intros cr Ho Hk _. apply quiet_applyStatus. intros cr' Hm. apply key_like in Hm.
    eapply quiet_status; [by rewrite Hm, Hk|]. by intros o' _.
  - intros e Hn _. unfold node_key in Hcr. congruence.
Qed.

Lemma annotate_succeeds n w m :
  good_world w -> is_Some (object HostClient KVNode (node_key n) w) ->
  wp K (annotate_attempt n) w m (fun o w' _ => o = Done None /\
    is_Some (object HostClient KVNode (node_key n) w')).
Proof.
  intros Hw [cr0 Hcr]. unfold annotate_attempt. apply quiet_get.
  - intros cr Ho Hk _. set (cr1 := setTenantAnnotations cr _).
    assert (key_of KVNode cr1 = node_key n) as Hk1 by exact Hk.
    eapply quiet_update; [rewrite Hk1; exact Ho|]. intros o' Hu. cbn [wp res_err]. split; [done|].
    rewrite Hk1, object_put. apply Hw in Ho as (_ & _ & _ & Hd).
    destruct Hu as (_ & (_ & _ & E) & _). simpl in E. unfold finished. simpl. rewrite E, Hd. simpl. eauto.
  - intros e Hn _. unfold node_key in Hcr. congruence.
Qed.

Lemma Save_succeeds n w m : good_world w -> wp K (Save n) w m (fun o _ _ => o = Done None).
Proof.
  intros Hw. unfold Save. apply quiet_get.
  - intros cr Ho _ _. apply wp_bind, quiet_retry.
    eapply wp_mono; [|apply annotate_succeeds; [done|by exists cr]].
    intros o w1 m1 [-> H1]. split; [done|]. by apply updateStatus_succeeds.
  - intros e Hn He. rewrite IgnoreNotFound_law, IsNotFound_reason, bool_decide_true by done.
    cbn. split; [done|]. intros [cr|e'] w1 [Hr _].
    + destruct Hr as (_ & Hc & ->). change (newVNodeCR n) with (newVNodeCR n) in *.
      apply quiet_applyStatus. intros cr' Hm. apply key_like in Hm.
      assert (key_of KVNode cr = key_of KVNode (newVNodeCR n)) as Hk
        by (by apply (described_key KVNode), Hc).
      eapply quiet_status; [rewrite Hm, Hk; apply object_put|]. by intros o' _.
    + destruct Hr as [(r & _ & [_ [o Ho]] & _)|[[] _]].
      change (key_of KVNode (newVNodeCR n)) with (vn_Namespace n, vn_Name n) in Ho. congruence.
Qed.

Lemma Deprovision_succeeds node w m :
  good_world w -> wp K (Deprovision nodeSvc node) w m (fun o _ _ => o = Done None).
Proof.
  intros Hw. change (Deprovision nodeSvc node) with (DeprovisionNode nodeRepo registrar node).
  unfold DeprovisionNode. set (node' := set_node_status _ _ _). apply wp_bind.
  eapply wp_mono; [|apply wp_and; [by apply Save_succeeds|apply quiet_kube;
    by apply (save_contract (NodeStore := KubeNodeRepository_store no_faults no_faults_calm))]].
  intros o w1 m1 [-> (r & [= <-] & _ & H1 & _ & (n1 & V1 & _))].
  apply wp_bind. eapply wp_mono; [|apply quiet_kube, (Deregister_quiet no_faults no_faults_calm
    SecretKubeconfigResolver (SecretKubeconfigResolver_quiet no_faults no_faults_calm))].
  intros o w2 m2 (r & -> & Hh & _).
  cbn. split; [done|]. intros [e|] w3 [Hr _]; [|done].
  destruct Hr as [(rr & _ & [_ Hn] & _)|[[] _]]. exfalso.
  change (node_key node') with (vn_Namespace node, vn_Name node) in V1.
  unfold node_view in V1. rewrite lookup_fmap in V1. unfold object in Hn. simpl in Hn, V1.
  rewrite Hh in Hn. by rewrite Hn in V1.
Qed.

(** ** Removing every node of a pool *)

Lemma ListByPool_answers ns name w m :
  wp K (nodes_ListByPool nodeRepo ns name) w m (fun o _ _ => exists l, o = Done (Ok l)).
Proof.
  change (nodes_ListByPool nodeRepo ns name) with (ListByPool ns name). unfold ListByPool.
  cbn. split; [done|]. intros [l|e] w' [[_ Hr] _]; [by eexists|done].
Qed.

Abbreviation members_of pool w := (pool_members node_view pool w).

Lemma scaleDown_empties n : forall pool working w m,
  good_world w -> tracks working (members_of pool w) -> length working <= n ->
  wp K (scaleDown nodeSvc n pool working) w m (fun o w' _ => exists pool',
    o = Done (pool', [], None) /\ good_world w' /\ members_of pool w' = ∅).
Proof.
  induction n as [|n IH]; intros pool working w m Hw Ht Hl; cbn [scaleDown].
  { destruct working; [|simpl in Hl; lia]. exists pool. split_and!; [done..|].
    apply map_size_empty_inv. by rewrite <- (tracks_length _ _ Ht). }
  destruct (last working) as [node|] eqn:Hlast.
  2:{ apply last_None in Hlast as ->. exists pool. split_and!; [done..|].
      apply map_size_empty_inv. by rewrite <- (tracks_length _ _ Ht). }
  apply last_split in Hlast. set (rest := take _ _) in *.
  rewrite Hlast in Ht. destruct (tracks_last _ _ _ Ht) as [_ Ht'].
  apply wp_bind. eapply wp_mono; [|apply wp_and; [by apply Deprovision_succeeds|apply quiet_kube;
    by apply (deprovision_contract (LifecycleSpec := nodeSvc_meets no_faults no_faults_calm))]].
  intros o w1 m1 [-> (err & [= <-] & H1 & F1 & V1)].
  pose proof (view_delete _ _ _ F1 (V1 eq_refl)) as E.
  assert (members_of pool w1 = delete (node_key node) (members_of pool w)) as E'.
  { unfold pool_members. by rewrite E, members_delete. }
  apply IH; [done|by rewrite E'|]. rewrite Hlast, length_app in Hl. simpl in Hl. lia.
Qed.

Lemma ReconcileNodes_empties pool w m :
  good_world w -> vp_Namespace pool <> "" -> vp_NodeCount pool = 0%Z ->
  (Z.of_nat (size (members_of pool w)) <= int32_max)%Z ->
  wp K (ReconcilePoolNodes poolSvc pool) w m (fun o w' _ => exists pool',
    o = Done (pool', None) /\ good_world w' /\ members_of pool w' = ∅).
Proof.
  intros Hw Hns Hc Hsz. change (ReconcilePoolNodes poolSvc pool) with (ReconcileNodes nodeRepo nodeSvc pool).
  unfold ReconcileNodes. apply wp_bind. eapply wp_mono; [|apply wp_and; [apply quiet_kube;
    by apply (list_contract (NodeStore := KubeNodeRepository_store no_faults no_faults_calm))|
    apply (ListByPool_answers (vp_Namespace pool) (vp_Name pool))]].
  intros o w1 m1 [(r & -> & -> & -> & Hl) (l & [= ->])].
  assert (tracks l (members_of pool w)) as Ht.
  { apply tracks_list; [|done]. intros x n Hx%map_lookup_filter_Some_1_1.
    by apply (view_keys (NodeStore := KubeNodeRepository_store no_faults no_faults_calm)) in Hx. }
  pose proof (tracks_length _ _ Ht) as Hlen.
  rewrite scale_actions by (rewrite ?Hc; unfold int32_max in *; lia).
  rewrite !Nat2Z.id, Hc. replace (Z.to_nat 0 - length l) with 0 by lia. cbn [scaleUp bind].
  apply wp_bind. eapply wp_mono; [|apply (scaleDown_empties (length l - Z.to_nat 0) pool l w m); [done..|lia]].
  intros o w2 m2 (pool' & -> & H2 & H3). cbn [wp]. eauto.
Qed.

(** ** The pool itself *)

(** The pool waits for the operator to release it. *)
Definition waiting (x : key) (w : world) : Prop :=
  exists cr, object HostClient KVNodePool x w = Some cr /\
    om_Finalizers (pc_Meta cr) = [poolFinalizer] /\ om_DeletionTimestamp (pc_Meta cr) <> None.

Lemma node_view_effect {R} (c : api R) w w' :
  effect c w w' -> ~ touches c OnHost TVNode -> node_view w' = node_view w.
Proof.
  intros He Hn. apply map_eq. intros x. rewrite !node_view_lookup.
  by rewrite (effect_other c KVNode x w w' He Hn).
Qed.

Lemma good_view w w' :
  (forall x, object HostClient KVNode x w' = object HostClient KVNode x w) ->
  good_world w -> good_world w'.
Proof. intros Heq Hw x cr Hx. rewrite Heq in Hx. by apply Hw. Qed.

(** Status updates of pools. *)
Lemma status_effect {R} (c : api R) x w w' :
  effect c w w' -> within fp_status R c -> waiting x w ->
  node_view w' = node_view w /\ waiting x w'.
Proof.
  intros He Hc (cr & Hcr & Hf & Hd). split.
  { eapply node_view_effect; [exact He|]. intros [v Hv]. unfold within in Hc. rewrite Hv in Hc.
    apply elem_of_cons in Hc as [[=]|[[=]|[]%elem_of_nil]%elem_of_cons]. }
  unfold within in Hc.
  destruct c as [| |T cn k o|T cn k o|T cn k o|T cn k base o|T cn k ns name| | | |]; try done;
    simpl in He, Hc;
    apply elem_of_cons in Hc as [[=]|[[= Hs Ht]|[]%elem_of_nil]%elem_of_cons]; destruct k; try done;
    destruct He as (o' & old & Hold & ((_ & _ & _ & _ & E1) & (_ & _ & E2) & _) & ->);
    unfold waiting; rewrite host_put_same by done; (case_decide as Hk; [|by eauto]);
    rewrite object_host in Hold by done; subst x; rewrite Hcr in Hold; injection Hold as ->;
    exists o'; simpl in E1, E2; rewrite E1, E2; done.
Qed.

Lemma updatePoolStatus_waits ns name phase counts a b c d e f x w m :
  waiting x w ->
  wp K (updatePoolStatus ns name (mutateStatus phase counts a b c d e f)) w m
    (fun _ w' _ => node_view w' = node_view w /\ waiting x w').
Proof.
  intros Hx. apply (wp_issues K (within fp_status)
    (fun w' => node_view w' = node_view w /\ waiting x w')); [done| |apply updatePoolStatus_status|done].
  intros R cl w1 r w2 Hc [Hv H1] [Hp _].
  destruct (kube_post_effect _ _ _ _ _ Hp) as [->|He]; [done|].
  destruct (status_effect cl x w1 w2 He Hc H1). split; [congruence|done].
Qed.

Lemma status_keeps_good ns name phase counts a b c d e f w m :
  good_world w ->
  wp K (updatePoolStatus ns name (mutateStatus phase counts a b c d e f)) w m
    (fun _ w' _ => good_world w').
Proof.
  intros Hw. apply (wp_issues K (within fp_status) good_world); [done| |apply updatePoolStatus_status|done].
  intros R cl w1 r w2 Hc H1 [Hp _].
  destruct (kube_post_effect _ _ _ _ _ Hp) as [->|He]; [done|].
  eapply good_view; [|exact H1]. intros x. eapply effect_other; [exact He|]. intros [v Hv].
  unfold within in Hc. rewrite Hv in Hc. revert Hc. destruct v; by apply (bool_decide_unpack _).
Qed.

Lemma updatePoolStatus_ends ns name phase counts a b c d e f w m :
  wp K (updatePoolStatus ns name (mutateStatus phase counts a b c d e f)) w m
    (fun o _ _ => exists r, o = Done r).
Proof.
  unfold updatePoolStatus. apply (wp_retry K (fun _ _ => True)); [|done]. intros w1 m1 _.
  eapply wp_mono with (Q := fun o _ _ => exists r, o = Done r).
  { intros [[e1|]|msg] w2 m2 [r [= ->]]; eauto. }
  unfold updatePoolStatus_attempt. cbn. split; [done|]. intros [base|e1] w2 _; cbn; [|eauto].
  split; [done|]. intros t1 w3 _. split; [done|]. intros t2 w4 _.
  destruct counts as [[? ?]|]; cbn; (case_bool_decide; cbn; [eauto|]); (split; [done|]);
    intros r w5 _; eauto.
Qed.

(** Scaling leaves the pool object alone. *)
Lemma ReconcileNodes_keeps_pool pool x w m :
  wp K (ReconcilePoolNodes poolSvc pool) w m
    (fun _ w' _ => object HostClient KVNodePool x w' = object HostClient KVNodePool x w).
Proof.
  apply (wp_issues K (within fp_scale)
    (fun w' => object HostClient KVNodePool x w' = object HostClient KVNodePool x w));
    [done| |apply ReconcileNodes_within|done].
  intros R cl w1 r w2 Hc Heq [Hp _]. rewrite <- Heq.
  destruct (kube_post_effect _ _ _ _ _ Hp) as [->|He]; [done|].
  eapply effect_other; [exact He|]. intros [v Hv]. unfold within in Hc. rewrite Hv in Hc.
  revert Hc. destruct v; by apply (bool_decide_unpack _).
Qed.

Lemma removeFinalizer_releases cr w m :
  let x := key_of KVNodePool cr in
  waiting x w ->
  wp K (RetryOnConflict (removeFinalizer_attempt cr)) w m (fun o w' _ =>
    o = Done None /\ w' = put HostClient KVNodePool x None w).
Proof.
  intros x (cur & Hcur & Hf & Hd). apply quiet_retry. unfold removeFinalizer_attempt.
  apply quiet_get; [|unfold x, key_of in Hcur; simpl in Hcur; intros; congruence].
  intros o Ho Hk _. change (om_Namespace (pc_Meta cr), om_Name (pc_Meta cr)) with x in *.
  rewrite Hcur in Ho. injection Ho as <-.
  set (o1 := mkVNodePoolCR _ _ _). assert (key_of KVNodePool o1 = x) as Hk1 by exact Hk.
  eapply quiet_update; [rewrite Hk1; exact Hcur|]. intros o' Hu. cbn [wp res_err].
  destruct Hu as ((_ & _ & _ & _ & E1) & (_ & _ & E2) & _). simpl in E1, E2.
  rewrite RemoveFinalizer_law, Hf in E1.
  unfold finished. simpl. rewrite E1, E2, Hk1. simpl.
  rewrite bool_decide_true by done. simpl. done.
Qed.

(** Without VNodes of the pool the list is empty. *)
Lemma no_members_listed ns name w (l : list VNodeCR) :
  good_world w -> ns <> "" -> members ns name (node_view w) = ∅ ->
  l ≡ₚ listing HostClient KVNode ns {[ labelPool := name ]} w -> l = [].
Proof.
  intros Hw Hns Hm Hl. pose proof (listing_members no_faults no_faults_calm ns name w Hw Hns) as Hp.
  rewrite Hm, map_to_list_empty in Hp. simpl in Hp. apply Permutation_sym, Permutation_nil in Hp.
  destruct (listing _ _ _ _ w); [|done]. symmetry in Hl. by apply Permutation_nil in Hl.
Qed.

Lemma handleDeletion_completes cr w m :
  let ns := om_Namespace (pc_Meta cr) in let name := om_Name (pc_Meta cr) in
  good_world w -> ns <> "" -> om_Finalizers (pc_Meta cr) = [poolFinalizer] -> waiting (ns, name) w ->
  (Z.of_nat (size (members ns name (node_view w))) <= int32_max)%Z ->
  wp K (handleDeletion poolSvc cr) w m (fun o w' _ => o = Done (0%Z, None) /\
    object HostClient KVNodePool (ns, name) w' = None /\ members ns name (node_view w') = ∅).
Proof.
  intros ns name Hw Hns Hf Hx Hsz. unfold handleDeletion.
  rewrite ContainsFinalizer_law, Hf, bool_decide_true by set_solver. cbn [negb].
  apply wp_bind. eapply wp_mono; [|apply wp_and; [apply updatePoolStatus_ends|apply wp_and;
    [by apply (updatePoolStatus_waits _ _ _ _ _ _ _ _ _ _ (ns, name))|
     by apply (status_keeps_good ns name)]]].
  intros o w1 m1 ((r & ->) & (Hv & H1) & Hg1). apply wp_bind.
  eapply wp_mono; [|apply wp_and; [apply (ReconcileNodes_empties (deletionPool cr)); try done;
    unfold pool_members; simpl; by rewrite Hv|apply (ReconcileNodes_keeps_pool _ (ns, name))]].
  intros o w2 m2 [(pool' & -> & Hg2 & Hm) Hp]. change (members ns name (node_view w2) = ∅) in Hm.
  cbn. split; [done|]. intros [l|e] w3 [[-> Hl] _]; [|done].
  rewrite (no_members_listed ns name w2 l Hg2 Hns Hm Hl). cbn.
  apply wp_bind. eapply wp_mono; [|apply (removeFinalizer_releases cr)].
  - intros o w3 m3 [-> ->]. cbn. split; [done|].
    change (key_of KVNodePool cr) with (ns, name). rewrite object_put. split; [done|].
    exact Hm.
  - destruct H1 as (c1 & H1 & H2). exists c1. change (key_of KVNodePool cr) with (ns, name). by rewrite Hp.
Qed.


End Quiet.

