(* ===== verification/StatusSync.v ===== *)
(** The statuses of a pod execution: after a pass of ReconcilePool that reports
    success, tenant pods show the status of their host pods. *)

From S2P Require Import Prelude GoProg Model PodModel Kube Libs ApiServer Testbed Ports PodClient.
From S2P Require Import NodeRepo Registrar Tenants Registration PodService Scaling Execution HostPods.
From S2P Require Import Config System Footprint PodSafety Orphans Coverage Concurrent.

(** The host pod is there and is going away, or the tenant pod shows its status. *)
Definition in_sync (cs : Clientset) (pool : VNodePool) (src : CorePod) (w : world) : Prop :=
  exists o, pod (hostKey pool src) w = Some o /\
    (going o \/ exists t, object (Tenant cs) KPod (key_of KPod src) w = Some t /\
       podToStatus t = podToStatus o).

(** ** Calls that leave statuses alone *)
Definition fp_beside : list (side * verb * ktag) := fp_hostpods ++ fp_resources.

(** An effect is on the side the call is on. *)
Lemma effect_side {R T} (c : api R) cs (k : kind T) x w w' :
  effect c w w' -> (forall v t, footprint c <> Some (OnTenant, v, t)) ->
  object (Tenant cs) k x w' = object (Tenant cs) k x w.
Proof.
  intros He Hc.
  assert (forall T' cn (k' : kind T') v y o, footprint c = Some (side_of cn, v, tag k') ->
    object (Tenant cs) k x (put cn k' y o w) = object (Tenant cs) k x w) as Hput.
  { intros T' cn k' v y o Hf. destruct cn as [| |cs']; [done..|]. by destruct (Hc _ _ Hf). }
  destruct c; try done; simpl in He.
  - destruct He as (o' & _ & _ & ->). by eapply Hput.
  - destruct He as (o' & old & _ & _ & ->). by eapply Hput.
  - destruct He as (o' & old & _ & _ & ->). by eapply Hput.
  - destruct He as (o' & old & _ & _ & ->). by eapply Hput.
  - destruct He as (old & _ & [[_ ->]|(_ & o' & _ & ->)]); by eapply Hput.
Qed.

(** Host pods are created where there is none, and at most marked. *)
Lemma beside_pods {R} (c : api R) x o w w' :
  within fp_beside R c -> effect c w w' -> pod x w = Some o ->
  pod x w' = Some o \/ exists o', pod x w' = Some o' /\ going o'.
Proof.
  intros Hc He Hx. destruct (touches_dec c OnHost TPod) as [(v & Hf)|Hn].
  2:{ left. by rewrite (effect_other c KPod x w w' He Hn). }
  unfold within in Hc. rewrite Hf in Hc.
  destruct c as [| |T cn k b|T cn k b|T cn k b|T cn k base b|T cn k ns name| | | |]; try done;
    simpl in He; injection Hf as Hs <- Ht; try (exfalso; set_solver); destruct k; try done.
  - destruct He as (o1 & Hno & _ & ->). rewrite object_host in Hno by done.
    left. rewrite host_put_same by done. case_decide as Hk; [subst x; congruence|done].
  - destruct He as (old & _ & [[Hd ->]|(_ & o1 & Hm & ->)]); rewrite host_put_same by done;
      (case_decide; [|by left]); [by destruct Hd|].
    right. exists o1. split; [done|]. by destruct Hm as (_ & Hg & _).
Qed.

Lemma beside_in_sync faults {R} (c : api R) cs pool src w r w' :
  within fp_beside R c -> kube_post faults R c w r w' -> in_sync cs pool src w ->
  in_sync cs pool src w'.
Proof.
  intros Hc [->|He]%kube_post_effect (o & Hx & Ho); [by exists o|].
  destruct (beside_pods c _ o w w' Hc He Hx) as [Hx'|(o' & Hx' & Hg)].
  - exists o. split; [done|]. destruct Ho as [Hg|(t & Ht & E)]; [by left|right]. exists t.
    split; [|done]. rewrite <- Ht. apply (effect_side c); [done|]. intros v tg Hf.
    unfold within in Hc. rewrite Hf in Hc. destruct c; simpl in He, Hf; try done;
      injection Hf as _ <- <-; set_solver.
  - exists o'. auto.
Qed.

Section StatusSync.
Context `{L : KubeLibs} {LL : KubeLibsLaws}.
Variable faults : error -> Prop.
Hypothesis calm : forall e, faults e -> is_context_error e = false /\
  status_reason e <> Some ReasonNotFound.
(** The API servers do not answer with the operator's own error. *)
Hypothesis foreign : forall e, faults e -> errors_Is e ErrPodTerminating = false.

Abbreviation K := (kube_spec faults).

Lemma in_sync_beside {A} (p : go A) cs pool src w m :
  issues (within fp_beside) p -> in_sync cs pool src w ->
  wp K p w m (fun _ w' _ => in_sync cs pool src w').
Proof.
  apply (wp_issues K (within fp_beside) (in_sync cs pool src)); [done|].
  intros R c w1 r w2 Hc Hs Hp. exact (beside_in_sync faults c cs pool src w1 r w2 Hc Hp Hs).
Qed.

Lemma hostpods_beside {A} (p : go A) : issues (within fp_hostpods) p -> issues (within fp_beside) p.
Proof. apply issues_within. set_solver. Qed.

Lemma resources_beside {A} (p : go A) : issues (within fp_resources) p -> issues (within fp_beside) p.
Proof. apply issues_within. set_solver. Qed.

(** ** One tenant pod *)

Lemma deleting_going o : ps_Deleting (podToSpec o) = true -> going o.
Proof. unfold going. simpl. by destruct (om_DeletionTimestamp (cp_Meta o)). Qed.

(** An error of the API servers is not the operator's own. *)
Lemma write_error_foreign refused applied w e w' :
  write_error faults refused applied w e w' -> errors_Is e ErrPodTerminating = false.
Proof. intros [(r & Hr & _)|[Hf _]]; [by eapply status_foreign|by apply foreign]. Qed.

Lemma DeletePod_marks ns name w m :
  is_Some (pod (ns, name) w) ->
  wp K (DeletePod hostPods ns name) w m (fun o w' _ => forall r, o = Done r ->
    match r with
    | None => exists o', pod (ns, name) w' = Some o' /\ going o'
    | Some e => errors_Is e ErrPodTerminating = false
    end).
Proof.
  intros [o Ho]. change (DeletePod hostPods ns name) with (DeletePod_ ns name).
  unfold DeletePod_. apply wp_bind. unfold call. cbn [wp]. split; [done|]. intros [e|] w1; simpl.
  - intros Hw. rewrite IsNotFound_reason. case_bool_decide as Hnf; intros r [= <-].
    + destruct Hw as [(r & _ & [_ Hnone] & ->)|[Hf _]]; [congruence|by destruct (calm e Hf)].
    + by eapply write_error_foreign.
  - intros (old & Hold & [[Hnd _]|(_ & o' & Hm & ->)]) r [= <-]; [by destruct Hnd|].
    exists o'. split; [apply object_put|]. by destruct Hm as (_ & Hg & _).
Qed.

(** After [ensureHostPod] the host pod is there, or going where it says so. *)
Lemma ensureHostPod_leaves p w m :
  wp K (ensureHostPod hostPods p) w m (fun o w' _ =>
    forall c d e, o = Done (c, d, e) ->
      (e = None -> is_Some (pod (spec_key p) w')) /\
      (forall e', e = Some e' -> errors_Is e' ErrPodTerminating = true ->
         exists o', pod (spec_key p) w' = Some o' /\ going o')).
Proof.
  unfold ensureHostPod. change (GetPod hostPods (ps_Namespace p) (ps_Name p))
    with (GetPod_ (ps_Namespace p) (ps_Name p)). unfold GetPod_. apply wp_bind, wp_bind.
  unfold call. cbn [wp]. split; [done|]. intros [o|e] w1 [-> Hr]; cbn [wp].
  - destruct Hr as (Ho & _). destruct (ps_Deleting (podToSpec o)) eqn:Hd.
    { intros c d e [= <- <- <-]. split; [done|]. intros _ _ _. exists o.
      split; [done|by apply deleting_going]. }
    destruct (podSpecsEqual _ p).
    { intros c d e [= <- <- <-]. split; [by exists o|done]. }
    apply wp_bind. eapply wp_mono; [|apply DeletePod_marks; by exists o].
    intros [[e|]|msg] w1 m1 Hdel; [..|done]; intros c d e' [= <- <- <-]; (split; [done|]).
    + intros e' [= <-] Ht. by rewrite (Hdel _ eq_refl) in Ht.
    + intros _ _ _. apply (Hdel _ eq_refl).
  - rewrite IsNotFound_reason. case_bool_decide as Hnf.
    2:{ intros c d e' [= <- <- <-]. split; [done|]. intros e2 [= <-] Ht.
        destruct Hr as [[? _]|Hf]; [done|]. by rewrite foreign in Ht. }
    change (CreatePod hostPods p) with (CreatePod_ p). unfold CreatePod_.
    destruct (podSpecToK8sPod p) as [o|] eqn:Ho; [|done].
    assert (key_of KPod o = spec_key p) as Hkey.
    { unfold podSpecToK8sPod in Ho. destruct (mapM _ _); [|done]. by injection Ho as <-. }
    cbn [must bind wp call]. split; [done|]. intros [o'|e'] w1; cbn [wp].
    + intros (_ & _ & ->) c d e' [= <- <- <-]. split; [|done]. intros _.
      rewrite Hkey, object_put. done.
    + intros Hw c d e2 [= <- <- <-]. split; [done|]. intros e3 [= <-] Ht.
      by rewrite (write_error_foreign _ _ _ _ _ Hw) in Ht.
Qed.

(** The status of the host pod reaches the tenant pod. *)
Lemma syncHostStatus_syncs runtime cs pool src target r d w m :
  isTerminalPod src = false -> spec_key target = hostKey pool src ->
  is_Some (pod (hostKey pool src) w) ->
  wp K (syncHostStatus hostPods (PodService runtime) cs src target r d) w m (fun o w' _ =>
    forall a', o = Done (Next a') -> in_sync cs pool src w').
Proof.
  intros Hterm Hkey [h Hh]. unfold syncHostStatus, finishTerminal. rewrite Hterm.
  change (GetPodStatus hostPods (ps_Namespace target) (ps_Name target))
    with (GetPodStatus_ (ps_Namespace target) (ps_Name target)). unfold GetPodStatus_.
  apply wp_bind, wp_bind. unfold call at 1. cbn [wp]. split; [done|].
  change (ps_Namespace target, ps_Name target) with (spec_key target).
  intros [o|e] w1 [-> Hr]; cbn [wp].
  - destruct Hr as (Ho & _). change (ps_Namespace target, ps_Name target) with (spec_key target) in Ho.
    rewrite Hkey, Hh in Ho. injection Ho as <-. cbn [PodService SyncStatus SyncPodStatus bind].
    apply wp_bind. unfold updateTenantPodStatus. apply wp_bind. unfold call at 1. cbn [wp].
    split; [done|]. intros [cur|e] w1 [-> Hcur]; cbn [wp]; [|done].
    destruct Hcur as (Hcur & Hk & _). apply wp_bind. unfold call. cbn [wp]. split; [done|].
    intros [t|e] w1; cbn [wp]; [|done]. intros (old & _ & Hu & ->) a' _.
    exists h. split; [exact Hh|]. right. exists t. split.
    + change (key_of KPod (setPodStatus cur (podToStatus h))) with (key_of KPod cur).
      rewrite Hk. apply (object_put (Tenant cs)).
    + destruct Hu as (_ & _ & _ & Hst). rewrite <- (status_synced cur h).
      unfold podToStatus. by rewrite Hst.
  - rewrite IsNotFound_reason. case_bool_decide as Hnf; [|done].
    change (ps_Namespace target, ps_Name target) with (spec_key target) in Hr.
    destruct Hr as [[_ Hno]|Hf]; [rewrite Hkey in Hno; congruence|by apply calm in Hf as []].
Qed.

(** ** The other tenant pods *)

Lemma in_sync_put cs pool src x t w :
  x <> key_of KPod src -> in_sync cs pool src w -> in_sync cs pool src (put (Tenant cs) KPod x t w).
Proof.
  intros Hne (o & Ho & Hs). exists o. split; [exact Ho|].
  destruct Hs as [|(t' & Ht & E)]; [by left|right]. exists t'. split; [|done].
  by rewrite object_put_ne.
Qed.

Lemma updateTenantPodStatus_keeps cs pool src ns name st w m :
  (ns, name) <> key_of KPod src -> in_sync cs pool src w ->
  wp K (updateTenantPodStatus cs ns name st) w m (fun _ w' _ => in_sync cs pool src w').
Proof.
  intros Hne Hs. unfold updateTenantPodStatus. apply wp_bind. unfold call at 1. cbn [wp].
  split; [done|]. intros [cur|e] w1 [-> Hr]; cbn [wp]; [|done]. destruct Hr as (_ & Hk & _).
  apply wp_bind. unfold call. cbn [wp]. split; [done|]. intros r w1 Hp.
  apply (kube_post_effect faults (StatusUpdate (Tenant cs) KPod (setPodStatus cur st)))
    in Hp as [->|(t & old & _ & _ & ->)]; [done|].
  change (key_of KPod (setPodStatus cur st)) with (key_of KPod cur). rewrite Hk.
  by apply in_sync_put.
Qed.

(** A program keeps [in_sync] if its parts do. *)
Lemma keeps_bind {A B} (p : go A) (f : A -> go B) cs pool src w m :
  wp K p w m (fun _ w' _ => in_sync cs pool src w') ->
  (forall a w' m', in_sync cs pool src w' -> wp K (f a) w' m' (fun _ w2 _ => in_sync cs pool src w2)) ->
  wp K (bind p f) w m (fun _ w' _ => in_sync cs pool src w').
Proof.
  intros Hp Hf. apply wp_bind. eapply wp_mono; [|exact Hp]. intros [a|msg] w' m' H; [|done].
  by apply Hf.
Qed.

Lemma processPod_keeps runtime cs pool src' a src w m :
  key_of KPod src' <> key_of KPod src -> in_sync cs pool src w ->
  wp K (processPod hostPods (PodService runtime) cs pool src' a) w m
    (fun _ w' _ => in_sync cs pool src w').
Proof.
  intros Hne Hs. unfold processPod. destruct a as [r d].
  cbn [PodService Translate TranslateForPool bind].
  assert (forall t r d w m, in_sync cs pool src w ->
    wp K (syncHostStatus hostPods (PodService runtime) cs src' t r d) w m
      (fun _ w' _ => in_sync cs pool src w')) as Hsync.
  { intros t r' d' w1 m1 H1. unfold syncHostStatus. apply keeps_bind.
    { apply in_sync_beside; [apply hostpods_beside, GetPodStatus_within|done]. }
    intros [st|e] w2 m2 H2.
    - cbn [PodService SyncStatus SyncPodStatus bind]. apply keeps_bind.
      { by apply updateTenantPodStatus_keeps. }
      intros [e|] w3 m3 H3; [done|].
      apply in_sync_beside; [apply hostpods_beside, finishTerminal_within|done].
    - destruct (IsNotFound e); [|done].
      apply in_sync_beside; [apply hostpods_beside, finishTerminal_within|done]. }
  apply keeps_bind.
  { apply in_sync_beside; [apply resources_beside, syncPodResources_within|done]. }
  intros [e|] w1 m1 H1; [done|]. destruct (isTerminalPod src'); [by apply Hsync|].
  apply keeps_bind.
  { apply in_sync_beside; [apply hostpods_beside, ensureHostPod_within|done]. }
  intros [[c dl] [e|]] w2 m2 H2; [by destruct (errors_Is e ErrPodTerminating)|by apply Hsync].
Qed.

Lemma processPod_syncs runtime cs pool src a w m :
  isTerminalPod src = false ->
  wp K (processPod hostPods (PodService runtime) cs pool src a) w m (fun o w' _ =>
    forall a', o = Done (Next a') -> in_sync cs pool src w').
Proof.
  intros Ht. unfold processPod. destruct a as [r d].
  cbn [PodService Translate TranslateForPool bind].
  eapply (wp_calm faults); [by apply syncPodResources_calm| |done]. intros [e|] w1 m1 _; [done|].
  rewrite Ht. apply wp_bind. eapply wp_mono; [|apply ensureHostPod_leaves].
  intros [[[c dl] err]|msg] w2 m2 Hs; [|done].
  destruct (Hs c dl err eq_refl) as [Hn Hg]. destruct err as [e|].
  - destruct (errors_Is e ErrPodTerminating) eqn:He; [|done]. intros a' _.
    destruct (Hg e eq_refl He) as (o' & Ho' & Hgo). exists o'. auto.
  - apply syncHostStatus_syncs; [done..|]. by apply Hn.
Qed.

(** ** The pass *)
Lemma loops_sync cfg cs pool srcs w m :
  (forall s s', s ∈ srcs -> s' ∈ srcs -> key_of KPod s = key_of KPod s' -> s = s') ->
  wp K (pass_loops cfg cs pool srcs) w m (fun o w' m' =>
    (forall r, o = Done (r, None) ->
       forall src, src ∈ srcs -> isTerminalPod src = false -> in_sync cs pool src w') /\ m' = m).
Proof.
  intros Hone. apply wp_and; [|apply wp_lockless; [done|]; apply pass_loops_lockless].
  apply wp_bind. eapply wp_mono; [|apply wp_and; [by apply (loop_desired faults calm)|
    apply (wp_for_range _ (fun pref todo _ w' _ => srcs = pref ++ todo /\
      forall src, src ∈ pref -> isTerminalPod src = false -> in_sync cs pool src w') _
      (fun o w' _ => forall a, o = Done (Next a) ->
         forall src, src ∈ srcs -> isTerminalPod src = false -> in_sync cs pool src w'))
      with (pref := [])]].
  - intros [[[r1 d]|[r1 e]]|msg] w1 m1 [Hd Hc]; [|by intros r' [= -> ->]|done].
    eapply wp_mono; [|apply (wp_forall K _ _ _ (fun src => src ∈ srcs /\ isTerminalPod src = false)
      (fun src _ w' _ => in_sync cs pool src w')); [done|]].
    + intros o w2 m2 H r _ src Hin Ht. by apply H.
    + intros src [Hin Ht]. apply in_sync_beside; [apply hostpods_beside, cleanupOrphans_within|].
      by apply (Hc (r1, d) eq_refl).
  - intros pref src todo a w1 m1 [-> Hs].
    eapply wp_mono; [|apply wp_and; [apply (wp_forall K _ _ _ (fun s => s ∈ pref /\
      isTerminalPod s = false /\ key_of KPod src <> key_of KPod s)
      (fun s _ w' _ => in_sync cs pool s w')); [done|]|
      apply (wp_forall K _ _ _ (fun _ : unit => isTerminalPod src = false)
        (fun _ o w' _ => forall a', o = Done (Next a') -> in_sync cs pool src w')); [done|]]].
    + intros [[a'|e]|msg] w2 m2 [Hk Hn]; [|done..]. split; [by rewrite <- app_assoc|].
      intros s Hin Ht. destruct (decide (key_of KPod src = key_of KPod s)) as [E|Hne].
      * assert (src = s) as -> by (apply Hone; [set_solver..|done]). by apply (Hn tt Ht a').
      * apply elem_of_app in Hin as [Hin|Hin%list_elem_of_singleton]; [by apply Hk|by subst].
    + intros s (Hin & Ht & Hne). apply processPod_keeps; [done|]. by apply Hs.
    + intros _ Ht. by apply processPod_syncs.
  - intros all a w1 m1 [-> Hs] a' _. by rewrite app_nil_r.
  - split; [done|]. by intros src ?%elem_of_nil.
Qed.


End StatusSync.

