(* ===== verification/Guarantees.v ===== *)
(** What the controllers guarantee each other and their users when they run
    side by side: every call keeps to [Concurrent.allowed], and with it the
    invariants of the system. *)

From S2P Require Import Prelude GoProg Model PodModel Kube Libs ApiServer Ports PodClient.
From S2P Require Import NodeRepo NodeStore Registrar PodService NodeService PoolService.
From S2P Require Import Execution PoolReconciler NodeReconciler PodSyncReconciler Config System.
From S2P Require Import Footprint PodSafety Interleaving Concurrent.

(** ** Calls that are allowed at any time *)
Definition harmless (x : side * verb * ktag) : bool :=
  match x with
  | (OnTenant, _, _) | (_, VRead, _) => true
  | (OnHost, VCreate, t) | (OnHost, VUpdate, t) =>
      match t with TVNodePool | TVNode | TPod => false | _ => true end
  | (OnHost, VStatus, t) => bool_decide (t = TVNodePool)
  | (OnHost, VDelete, t) => negb (bool_decide (t = TVNodePool))
  end.

Section Guarantees.
Context `{L : KubeLibs} {LL : KubeLibsLaws}.
Variable runtime : IsolationRuntime.
Abbreviation P p := (polite (M := mem) (⊆) (host_spec runtime) (fun _ => True) p).
Abbreviation Rely p h := (rely (⊆) (host_spec runtime) p h (fun _ _ => True)).

Lemma harmless_allowed {R} (c : api R) fp h :
  forallb harmless fp = true -> within fp R c -> allowed runtime R c h.
Proof.
  intros Hfp Hc. rewrite forallb_forall in Hfp. unfold within in Hc.
  destruct c as [| |T cn k o|T cn k o|T cn k o|T cn k base o|T cn k ns name| | | |]; try done; simpl in *;
    apply list_elem_of_In, Hfp in Hc; intros Hs; rewrite Hs in Hc; by destruct k.
Qed.

Lemma polite_within {A} fp (p : go A) :
  forallb harmless fp = true -> issues (within fp) p -> P p.
Proof. intros Hfp. apply polite_issues; [apply _|]. intros R c h _. by apply harmless_allowed. Qed.

(** A read of the host, and what follows with the object found. *)
Lemma polite_get {T A} cn (k : kind T) ns name (f : res T -> go A) :
  side_of cn = OnHost -> (forall e, P (f (Err e))) ->
  (forall o h, was_stored k h o -> key_of k o = (ns, name) -> Rely (f (Ok o)) h) ->
  P (bind (call (Get cn k ns name)) f).
Proof.
  intros Hs He Ho h _. apply rely_call; [done|]. intros h1 [o|e] h2 _ [_ Hl].
  - destruct (Hl Hs) as [H1 H2]. by apply Ho.
  - by apply He.
Qed.

(** An update made from a stored object, and what follows. *)
Lemma rely_write {R A} (c : api R) (f : R -> go A) h :
  (forall h', h ⊆ h' -> allowed runtime R c h') -> (forall r, P (f r)) -> Rely (bind (call c) f) h.
Proof. intros Hc Hf. apply rely_call; [done|]. intros h1 r h2 _ _. by apply Hf. Qed.

(** ** Nodes *)

Lemma conditionsToCR_polite cs : P (conditionsToCR cs).
Proof. apply (polite_within []); [done|apply conditionsToCR_within]. Qed.

Lemma applyNodeStatus_polite cr n : P (applyNodeStatus cr n).
Proof. apply (polite_within []); [done|apply applyNodeStatus_within]. Qed.

(** The status of a VNode may be written at any time. *)
Lemma vnode_status_polite o : P (call (StatusUpdate HostClient KVNode o)).
Proof. intros h _ h1 _. by split. Qed.

Lemma updateStatus_polite n : P (updateStatus n).
Proof.
  unfold updateStatus, updateStatus_attempt. apply polite_retry.
  apply polite_bind; [intros h _ h1 _; by split|]. intros [cr|e]; [|repeat polite_step].
  apply polite_bind; [apply applyNodeStatus_polite|]. intros cr'.
  apply polite_bind; [apply vnode_status_polite|]. repeat polite_step.
Qed.

Lemma annotate_polite n : P (annotate_attempt n).
Proof.
  unfold annotate_attempt. apply polite_get; [done|intros; apply polite_ret|].
  intros o h Ho _. apply rely_write; [|intros; apply polite_ret].
  intros h' Hh _. exists o. split; [by eapply was_stored_mono|done].
Qed.

Lemma newVNodeCR_allowed n h : allowed runtime _ (Create HostClient KVNode (newVNodeCR n)) h.
Proof. intros _. split; [|done]. simpl. by rewrite lookup_singleton_eq. Qed.

Lemma Save_polite n : P (Save n).
Proof.
  unfold Save. apply polite_bind; [intros h _ h1 _; by split|]. intros [cr|e].
  - apply polite_bind; [apply polite_retry, annotate_polite|].
    intros [e|]; [repeat polite_step|apply updateStatus_polite].
  - destruct (IgnoreNotFound e); [apply polite_ret|].
    apply polite_bind; [intros h _ h1 _; split; [apply newVNodeCR_allowed|done]|].
    intros [cr|e']; [|apply polite_ret]. apply polite_bind; [apply applyNodeStatus_polite|].
    intros cr'. apply polite_bind; [apply vnode_status_polite|]. intros [?|e2]; [apply polite_ret|].
    destruct (_ || _); [apply updateStatus_polite|apply polite_ret].
Qed.

Lemma ListByPool_polite ns name : P (nodes_ListByPool nodeRepo ns name).
Proof.
  change (P (ListByPool ns name)). unfold ListByPool. repeat polite_step. intros h1 _ h2 _. by split.
Qed.

Lemma Register_polite n t : P (Register registrar n t).
Proof. apply (polite_within fp_register); [done|apply Register_within]. Qed.
Lemma Deregister_polite n t : P (Deregister registrar n t).
Proof. apply (polite_within fp_deregister); [done|apply Deregister_within]. Qed.

Lemma UpdateNode_polite n : P (UpdateNode nodeRepo registrar n).
Proof.
  assert (forall n, P (saveReady nodeRepo n)) as Hr.
  { intros n'. unfold saveReady. apply polite_bind; [apply Save_polite|]. repeat polite_step. }
  unfold UpdateNode. destruct (_ && _); [apply polite_ret|]. destruct (shouldRetryRegistration n).
  - unfold retryRegistration. apply polite_bind; [apply Register_polite|].
    intros [e|]; [|apply Hr]. destruct (isIgnorableStatusError e); [apply polite_ret|].
    destruct (_ || _); [|apply polite_ret]. apply polite_bind; [apply Save_polite|].
    repeat polite_step.
  - unfold refreshStatus. apply polite_bind.
    { apply (polite_within fp_register); [done|apply UpdateNodeStatus_within]. }
    intros [e|]; [|destruct (_ && _); [apply polite_ret|apply Hr]].
    destruct (isIgnorableStatusError e); [apply polite_ret|].
    apply polite_bind; [apply Save_polite|]. repeat polite_step.
Qed.

Lemma ProvisionNode_polite pool : P (ProvisionNode nodeRepo registrar pool).
Proof.
  unfold ProvisionNode. apply polite_bind; [apply ListByPool_polite|].
  intros [l|e]; [|apply polite_ret].
  apply polite_bind; [apply Save_polite|]. intros [e|]; [apply polite_ret|].
  apply polite_bind; [apply Register_polite|].
  intros [e|]; (apply polite_bind; [apply Save_polite|]); repeat polite_step.
Qed.

Lemma DeprovisionNode_polite n : P (DeprovisionNode nodeRepo registrar n).
Proof.
  unfold DeprovisionNode. apply polite_bind; [apply Save_polite|]. intros [e|]; [apply polite_ret|].
  apply polite_bind; [apply Deregister_polite|]. intros _.
  apply polite_bind; [|repeat polite_step].
  apply (polite_within [(OnHost, VDelete, TVNode)]); [done|].
  change (issues (within [(OnHost, VDelete, TVNode)]) (DeleteNode (vn_Namespace n) (vn_Name n))).
  unfold DeleteNode. footprint.
Qed.

Lemma scaleUp_polite (svc : NodeLifecycle) :
  (forall pool, P (Provision svc pool)) -> forall n i pool w, P (scaleUp svc n i pool w).
Proof.
  intros Hp n. induction n as [|n IH]; intros i pool w; cbn [scaleUp]; [apply polite_ret|].
  apply polite_bind; [apply Hp|]. intros [node [e|]]; [apply polite_ret|apply IH].
Qed.

Lemma scaleDown_polite (svc : NodeLifecycle) :
  (forall node, P (Deprovision svc node)) -> forall n pool w, P (scaleDown svc n pool w).
Proof.
  intros Hd n. induction n as [|n IH]; intros pool w; cbn [scaleDown]; [apply polite_ret|].
  destruct (last w) as [node|]; [|apply polite_ret].
  apply polite_bind; [apply Hd|]. intros [e|]; [apply polite_ret|apply IH].
Qed.

Lemma ReconcileNodes_polite pool : P (ReconcilePoolNodes poolSvc pool).
Proof.
  change (P (ReconcileNodes nodeRepo nodeSvc pool)). unfold ReconcileNodes.
  apply polite_bind; [apply ListByPool_polite|]. intros [l|e]; [|apply polite_ret].
  destruct (DesiredScaleActions _ _) as [toAdd toRemove]. apply polite_bind.
  { apply scaleUp_polite, ProvisionNode_polite. }
  intros [[pool1 w1] [e|]]; [apply polite_ret|]. apply polite_bind.
  { apply scaleDown_polite, DeprovisionNode_polite. }
  repeat polite_step.
Qed.

(** ** Pools *)

Lemma updatePoolStatus_polite ns name phase counts a b c d e f :
  P (updatePoolStatus ns name (mutateStatus phase counts a b c d e f)).
Proof. apply (polite_within fp_status); [done|apply updatePoolStatus_status]. Qed.

Lemma removeFinalizer_polite cr : P (removeFinalizer_attempt cr).
Proof.
  unfold removeFinalizer_attempt. apply polite_get; [done|intros; apply polite_ret|].
  intros o h Ho _. apply rely_write; [|intros; apply polite_ret].
  intros h' Hh _. exists o. split; [by eapply was_stored_mono|done].
Qed.

Lemma handleDeletion_polite cr : P (handleDeletion poolSvc cr).
Proof.
  unfold handleDeletion. destruct (negb _); [apply polite_ret|].
  apply polite_bind; [apply updatePoolStatus_polite|]. intros _.
  apply polite_bind; [apply ReconcileNodes_polite|]. intros [p [e|]]; [apply polite_ret|].
  apply polite_bind; [intros h _ h1 _; by split|]. intros [l|e]; [|apply polite_ret].
  destruct (_ <? _)%nat; [apply polite_ret|].
  apply polite_bind; [apply polite_retry, removeFinalizer_polite|]. repeat polite_step.
Qed.

Lemma reconcileSpec_polite cr : P (reconcileSpec poolSvc cr).
Proof.
  unfold reconcileSpec. destruct (Validate _).
  { apply polite_bind; [apply updatePoolStatus_polite|]. repeat polite_step. }
  apply polite_bind; [apply ReconcileNodes_polite|].
  intros [p [e|]]; (apply polite_bind; [apply updatePoolStatus_polite|]); repeat polite_step.
Qed.

Lemma poolReconciler_polite ns name : P (poolReconciler ns name).
Proof.
  unfold poolReconciler, ReconcileVNodePool. apply polite_get; [done|intros; apply polite_ret|].
  intros cr h Hcr _. destruct (deleting _); [by apply handleDeletion_polite|].
  destruct (negb _); [|by apply reconcileSpec_polite].
  apply rely_write; [|intros [cr'|e]; [apply reconcileSpec_polite|apply polite_ret]].
  intros h' Hh _. exists cr. split; [by eapply was_stored_mono|done].
Qed.

Lemma vnodeReconciler_polite ns name : P (vnodeReconciler ns name).
Proof.
  unfold vnodeReconciler, ReconcileVNode. apply polite_bind; [intros h _ h1 _; by split|].
  intros [cr|e]; [|apply polite_ret]. apply polite_bind; [apply UpdateNode_polite|].
  intros [e|]; [repeat polite_step|]. destruct (shouldRequeueVNode _); [|apply polite_ret].
  apply (polite_within []); [done|]. footprint.
Qed.

(** ** Pods *)

#[local] Instance was_stored_stable cr :
  Stable (⊆) (host_spec runtime) (fun h => was_stored KVNodePool h cr).
Proof. split; intros; [|destruct H0]; by eapply was_stored_mono. Qed.

(** Writes confined to a stored pool. *)
Lemma pool_write_allowed {R} (c : api R) cr h :
  was_stored KVNodePool h cr ->
  host_write runtime (crToPoolModel cr) R c /\ within fp_podsync R c -> allowed runtime R c h.
Proof.
  intros Hcr [Hw Hf]. unfold within in Hf.
  destruct c as [| |T cn k o|T cn k o|T cn k o|T cn k base o|T cn k ns name| | | |]; try done;
    simpl in *; intros Hs; rewrite ?Hs in Hf; destruct k; try done;
    [by exists cr|exfalso; revert Hf; by apply (bool_decide_unpack _)..].
Qed.

Lemma pool_writes_rely {A} (p : go A) cr h :
  was_stored KVNodePool h cr -> issues (host_write runtime (crToPoolModel cr)) p ->
  issues (within fp_podsync) p -> Rely p h.
Proof.
  intros Hcr Hw Hf. eapply rely_mono; [|apply (polite_issues _ _ (fun h => was_stored KVNodePool h cr)
    (fun R c => host_write runtime (crToPoolModel cr) R c /\ within fp_podsync R c));
    [|by apply issues_and|done]].
  - done.
  - intros R c h'. apply pool_write_allowed.
Qed.

Lemma cleanupDeleted_writes pool :
  issues (host_write runtime pool) (cleanupDeleted hostPods true pool).
Proof.
  unfold cleanupDeleted, recordWarning, recordEvent. apply issues_bind; [|repeat issues_step; exact I].
  unfold CleanupPoolPods. apply issues_bind.
  { change (issues (host_write runtime pool) (ListPodsByLabels_ (vp_Namespace pool) (poolLabels pool))).
    unfold ListPodsByLabels_. repeat issues_step. exact I. }
  intros [pods|e]; [|repeat issues_step]. apply issues_bind; [|repeat issues_step].
  apply issues_for_range. intros p n. unfold cleanupPod.
  apply issues_bind; [apply DeletePod_writes|repeat issues_step].
Qed.

End Guarantees.

Section PodSync.
Context `{L : KubeLibs} {LL : KubeLibsLaws}.
Variable cfg : Config.

Lemma executePool_writes ns name pool :
  issues (host_write (kataRuntime cfg) pool) (executePool (podExecSvc cfg) true ns name pool).
Proof.
  unfold executePool, recordWarning, recordEvent, updateExecutionConditions,
    executionConditions_attempt, setPodSyncCondition.
  apply issues_bind; [apply podExecSvc_writes|].
  repeat first [issues_step|apply issues_retry|exact I|by split].
Qed.

Lemma podSyncReconciler_polite ns name : Polite (kataRuntime cfg) (podSyncReconciler cfg ns name).
Proof.
  unfold podSyncReconciler, ReconcilePodSync. apply polite_get; [done|intros; apply polite_ret|].
  intros cr h Hcr _. destruct (Validate _); [done|]. destruct (deleting _).
  - eapply pool_writes_rely; [done|apply cleanupDeleted_writes|apply cleanupDeleted_within].
  - case_bool_decide; [done|].
    eapply pool_writes_rely; [done|apply executePool_writes|apply executePool_within].
Qed.

Lemma handle_polite c ns name : Polite (kataRuntime cfg) (handle cfg c ns name).
Proof.
  destruct c; [apply poolReconciler_polite|apply vnodeReconciler_polite|apply podSyncReconciler_polite].
Qed.

End PodSync.

(** ** The invariant of the system *)
Section Invariant.
Context `{L : KubeLibs} {LL : KubeLibsLaws}.
Variable faults : error -> Prop.
Variable cfg : Config.
Abbreviation rt := (kataRuntime cfg).
Abbreviation step := (op_step faults cfg).

Definition following (h : list world) (run : gmap controller thread) : Prop :=
  forall c p, run !! c = Some p -> rely (⊆) (host_spec rt) p h (fun _ _ => True).

Record sys_inv (s : op_state) : Prop := {
  inv_good w : w ∈ seen s -> good_world w;
  inv_versions : one_version (seen s);
  inv_threads : following (seen s) (os_run s)
}.

Lemma following_mono h h' run : h ⊆ h' -> following h run -> following h' run.
Proof.
  intros Hh Hf c p Hp. eapply rely_ext; [|exact Hh|by eapply Hf]. intros; set_solver.
Qed.

Lemma following_insert h run c p :
  following h run -> rely (⊆) (host_spec rt) p h (fun _ _ => True) -> following h (<[c := p]> run).
Proof. intros Hf Hp c' p'. rewrite lookup_insert_Some. intros [[_ <-]|[_ H]]; eauto. Qed.

Lemma following_delete h run c : following h run -> following h (delete c run).
Proof. intros Hf c' p' [_ H]%lookup_delete_Some. eauto. Qed.

Lemma sys_inv_moved s w m run :
  sys_inv s -> good_world w -> one_version (w :: seen s) -> following (w :: seen s) run ->
  sys_inv (moved s w m run).
Proof. intros Hs Hw Hv Hf. split; try done. intros w0 [->|H0]%elem_of_cons; [done|by eapply inv_good]. Qed.

Lemma one_version_new h w : one_version h -> new_versions h w -> one_version (w :: h).
Proof.
  intros Hh Hn x o1 o2 w1 w2 [->|H1]%elem_of_cons [->|H2]%elem_of_cons E1 E2 Hv.
  - congruence.
  - symmetry. by apply (Hn _ KVNodePool x o2 o1 w2).
  - by apply (Hn _ KVNodePool x o1 o2 w1).
  - by apply (Hh x o1 o2 w1 w2).
Qed.

Lemma one_version_again h w : one_version h -> w ∈ h -> one_version (w :: h).
Proof.
  intros Hh Hw x o1 o2 w1 w2 H1 H2.
  apply Hh; [by apply elem_of_cons in H1 as [->|]|by apply elem_of_cons in H2 as [->|]].
Qed.

(** What an answer tells, and what it does to the world. *)
Lemma answers_learned {R} (c : api R) past w r w' :
  answers faults c past w r w' -> learned R c (w' :: w :: past) r.
Proof.
  intros Ha. destruct c; try done. simpl. intros Hs. unfold answers in Ha. destruct c; try done; simpl in Ha.
  - destruct Ha as [-> (w0 & Hw0 & _ & Hr)]. destruct r as [o|e]; [|done].
    destruct Hr as (Ho & Hk & _). split; [|done]. exists w0. rewrite Hk. split; [by right|done].
  - destruct Ha as [[-> Hr] _]. destruct r as [o|e]; [|done].
    destruct Hr as (Ho & Hk & _). split; [|done]. exists w. rewrite Hk. split; [by left|done].
Qed.

Lemma answers_world {R} (c : api R) past w r w' :
  answers faults c past w r w' ->
  w' = w \/ (effect c w w' /\ optimistic c w w' /\ new_versions (w :: past) w').
Proof.
  unfold answers. destruct (cached_read c); [by intros [-> _]; left|].
  intros (Hp & Ho & Hn). destruct (kube_post_effect _ _ _ _ _ Hp); auto.
Qed.

Lemma environment_good w w' : environment w w' -> good_world w -> good_world w'.
Proof.
  intros [] Hw; try done; apply good_world_put; done.
Qed.

Lemma sys_inv_step s who s' : sys_inv s -> step s who s' -> sys_inv s'.
Proof.
  intros Hs Hstep. pose proof (inv_threads s Hs) as Hf. pose proof (inv_versions s Hs) as Hv.
  pose proof (inv_good s Hs) as Hg.
  destruct Hstep as [c ns name Hc|c R a k r w' Hc Ha|c R f k Hc|c r Hc|c msg Hc|w' He Hn|].
  - split; try done. apply following_insert; [done|]. by apply handle_polite.
  - pose proof (Hf c _ Hc) as Hp. simpl in Hp. destruct (Hp (seen s)) as [Hal Hk]; [done|].
    assert (w' ∈ seen s \/ good_world w' /\ new_versions (seen s) w') as Hw'.
    { destruct (answers_world _ _ _ _ _ Ha) as [->|(He & Ho & Hn)]; [left; by left|right].
      split; [|done]. eapply good_step; [exact Hg|by left|exact Hal|exact He]. }
    apply sys_inv_moved; [done|destruct Hw' as [H|[H _]]; auto| |].
    { destruct Hw' as [H|[_ H]]; [by apply one_version_again|by apply one_version_new]. }
    apply following_insert; [eapply following_mono; [|exact Hf]; set_solver|].
    apply Hk. split; [set_solver|]. by apply answers_learned.
  - split; try done. apply following_insert; [done|]. by pose proof (Hf c _ Hc (os_mem s)).
  - split; try done. by apply following_delete.
  - split; try done. by apply following_delete.
  - apply sys_inv_moved; [done| |by apply one_version_new|].
    + eapply environment_good; [exact He|]. apply Hg. by left.
    + eapply following_mono; [|exact Hf]. set_solver.
  - by split.
Qed.

Lemma reachable_inv s : reachable faults cfg s -> sys_inv s.
Proof.
  intros (s0 & (Hp & Hr & Hg) & Hrtc). assert (sys_inv s0) as H0.
  { unfold seen. split; unfold seen; rewrite ?Hp, ?Hr.
    - intros w ->%list_elem_of_singleton. done.
    - intros x o1 o2 w1 w2 ->%list_elem_of_singleton ->%list_elem_of_singleton. congruence.
    - intros c p. by rewrite lookup_empty. }
  clear Hp Hr Hg. induction Hrtc as [|s1 s2 s3 [who Hs] _ IH]; [done|].
  apply IH. by eapply sys_inv_step.
Qed.

(** A step of a controller moves the world by one allowed call, or not at all. *)
Lemma controller_step s c s' :
  sys_inv s -> step s (Some c) s' ->
  os_world s' = os_world s \/
  exists R (a : api R), allowed rt R a (seen s) /\ effect a (os_world s) (os_world s') /\
    optimistic a (os_world s) (os_world s').
Proof.
  intros Hs Hstep. inversion Hstep as [|c' R a k r w' Hc Ha| | | | |]; subst; try by left.
  destruct (answers_world _ _ _ _ _ Ha) as [->|(He & Ho & _)]; [by left|right].
  exists R, a. split; [|done].
  pose proof (inv_threads s Hs c _ Hc) as Hp. by destruct (Hp (seen s)).
Qed.

(** C6: In every state the operator can reach, with its controllers interleaved in
    any way, cached reads of any age, faults, restarts and every step of other
    parties, the stored VNodes are well formed: each at its key, labelled with
    the pool it belongs to, without finalizers and not half deleted.  This is
    what the properties of single reconciliations start from. *)
Theorem vnodes_wellformed s : reachable faults cfg s -> good_world (os_world s).
Proof. intros Hs%reachable_inv. apply (inv_good s Hs). by left. Qed.

(** C7: In every such state, no step of a controller creates a pool or changes what
    its owner wrote: spec, labels, annotations and the deletion mark.  Updates made from an outdated read are refused. *)
Theorem pool_requests_kept s c s' x o' :
  reachable faults cfg s -> step s (Some c) s' ->
  object HostClient KVNodePool x (os_world s') = Some o' ->
  exists o, object HostClient KVNodePool x (os_world s) = Some o /\ same_request o o'.
Proof.
  intros Hs%reachable_inv Hstep Hx.
  destruct (controller_step s c s' Hs Hstep) as [Heq|(R & a & Hal & He & Ho)].
  { rewrite Heq in Hx. by exists o'. }
  eapply (pool_step rt a (seen s)); [by apply inv_versions|by left|done..].
Qed.


End Invariant.
