(* ===== verification/Races.v ===== *)
(** Executable schedules of the concurrent operator, and two races they show. *)

From S2P Require Import Prelude GoProg Model PodModel Kube Libs ApiServer Testbed Ports PodClient.
From S2P Require Import NodeRepo NodeStore Registrar PodService NodeService PoolService Orphans.
From S2P Require Import Execution PoolReconciler NodeReconciler PodSyncReconciler Config System.
From S2P Require Import Footprint PodSafety Concurrent Guarantees.

(** ** Schedules *)
Inductive choice : Type :=
| Begin (c : controller) (ns name : string)
| Tick (c : controller).

(** No object of the worlds has the version. *)
Definition unused_in {T} (k : kind T) (v : string) (w : world) : bool :=
  forallb (fun xo => negb (bool_decide (version k xo.2 = v))) (map_to_list (store k (w_host w))).
Definition unused (v : string) (h : list world) : bool :=
  forallb (fun w =>
    unused_in KVNodePool v w && unused_in KVNode v w && unused_in KPod v w &&
    unused_in KSecret v w && unused_in KConfigMap v w && unused_in KNode v w &&
    unused_in KLease v w && unused_in KNamespace v w) h.

(** The write was made from the stored version. *)
Definition up_to_date {R} (c : api R) (w : world) : bool :=
  match c with
  | Update cn k o | StatusUpdate cn k o =>
      match object cn k (key_of k o) w with
      | Some old => bool_decide (version k old = version k o)
      | None => true
      end
  | _ => true
  end.

(** The next step of a controller, on the in-memory server with a new version
    for every write and no lag of the cache. *)
Definition tick (c : controller) (s : op_state) : option op_state :=
  match os_run s !! c with
  | Some (Call a k) =>
      let v := pretty (Z.of_nat (length (seen s))) in
      if unused v (seen s) && up_to_date a (os_world s) then
        let '(r, w') := server (fun _ => v) _ a (os_world s) in
        Some (moved s w' (os_mem s) (<[c := k r]> (os_run s)))
      else None
  | Some (Atomic f k) =>
      Some (mkOp (os_world s) (os_past s) (f (os_mem s)).2 (<[c := k (f (os_mem s)).1]> (os_run s)))
  | Some (Ret _) | Some (Panic _) =>
      Some (mkOp (os_world s) (os_past s) (os_mem s) (delete c (os_run s)))
  | None => None
  end.

(** [n] steps of [c]. *)
Definition ticks (n : nat) (c : controller) : list choice := repeat (Tick c) n.

Section Replay.
Context `{L : KubeLibs} {LL : KubeLibsLaws}.
Variable cfg : Config.

Definition choose (a : choice) (s : op_state) : option op_state :=
  match a with
  | Begin c ns name =>
      match os_run s !! c with
      | None =>
          Some (mkOp (os_world s) (os_past s) (os_mem s) (<[c := handle cfg c ns name]> (os_run s)))
      | Some _ => None
      end
  | Tick c => tick c s
  end.

Definition replay (sch : list choice) (s : op_state) : option op_state :=
  foldl (fun os a => os ≫= choose a) (Some s) sch.

(** ** Schedules are runs of the operator *)

(** Two objects one key held with one version are the same, for every kind. *)
Definition versioned (h : list world) : Prop :=
  forall T (k : kind T) x o1 o2 w1 w2, w1 ∈ h -> w2 ∈ h -> object HostClient k x w1 = Some o1 ->
    object HostClient k x w2 = Some o2 -> version k o1 = version k o2 -> o1 = o2.

Lemma unused_spec v h T (k : kind T) x o w :
  unused v h = true -> w ∈ h -> object HostClient k x w = Some o -> version k o <> v.
Proof.
  unfold unused. rewrite forallb_forall. intros H Hw%list_elem_of_In Ho.
  specialize (H w Hw). rewrite !andb_true_iff in H.
  assert (unused_in k v w = true) as Hk by (destruct k; tauto).
  unfold unused_in in Hk. rewrite forallb_forall in Hk. specialize (Hk (x, o)).
  rewrite negb_true_iff, bool_decide_eq_false in Hk. apply Hk.
  by apply list_elem_of_In, elem_of_map_to_list.
Qed.

(** The server gives every object it writes the new version. *)
Lemma server_versions v {R} (a : api R) w T (k : kind T) x o' :
  object HostClient k x (server (fun _ => v) R a w).2 = Some o' ->
  object HostClient k x w = Some o' \/ version k o' = v.
Proof.
  assert (forall T' cn (k' : kind T') y oo, (forall o, oo = Some o -> version k' o = v) ->
    object HostClient k x (put cn k' y oo w) = Some o' ->
    object HostClient k x w = Some o' \/ version k o' = v) as Hput.
  { intros T' cn k' y oo Hoo. destruct (side_of cn) eqn:Hs.
    2:{ rewrite host_put_other by (by left). by left. }
    destruct (decide (tag k' = tag k)) as [Ht|Ht]; [|rewrite host_put_other by (by right); by left].
    destruct k', k; try done; rewrite host_put_same by done; (case_decide; [right; auto|by left]). }
  assert (forall T' (k' : kind T') o, version k' (restamp (fun _ => v) k' o) = v) as Hv.
  { intros. unfold version. by rewrite meta_restamp. }
  destruct a; simpl; try (by left);
    match goal with |- context [match ?x with Some _ => _ | None => _ end] => destruct x end;
    simpl; try (by left); apply Hput; intros o2.
  - intros [= <-]. apply Hv.
  - destruct (finished _ _); [done|]. intros [= <-]. apply Hv.
  - intros [= <-]. apply Hv.
  - intros [= <-]. apply Hv.
  - destruct (is_deferred _ _); [|done]. intros [= <-]. apply Hv.
Qed.

Lemma server_new_versions v {R} (a : api R) h w :
  versioned h -> w ∈ h -> unused v h = true -> new_versions h (server (fun _ => v) R a w).2.
Proof.
  intros Hh Hw Hu T k x o o' w0 Ho' Hw0 Ho Hv.
  destruct (server_versions _ _ _ _ _ _ _ Ho') as [H|H].
  - by apply (Hh T k x o o' w0 w).
  - rewrite H in Hv. by destruct (unused_spec v h T k x o w0).
Qed.

Lemma versioned_new h w : versioned h -> new_versions h w -> versioned (w :: h).
Proof.
  intros Hh Hn T k x o1 o2 w1 w2 [->|H1]%elem_of_cons [->|H2]%elem_of_cons E1 E2 Hv.
  - congruence.
  - symmetry. by apply (Hn T k x o2 o1 w2).
  - by apply (Hn T k x o1 o2 w1).
  - by apply (Hh T k x o1 o2 w1 w2).
Qed.

Lemma server_reads bump {R} (a : api R) w :
  cached_read a = true -> (server bump R a w).2 = w.
Proof. by destruct a as [? []|? []| | | | | | | | |]. Qed.

Lemma up_to_date_optimistic {R} (a : api R) w w' : up_to_date a w = true -> optimistic a w w'.
Proof.
  intros H. right. destruct a; try done; simpl in *; intros old Hold; rewrite Hold in H;
    by apply bool_decide_eq_true_1 in H.
Qed.

Definition replayable (s : op_state) : Prop := keyed (os_world s) /\ versioned (seen s).

Lemma tick_step c s s' :
  replayable s -> tick c s = Some s' -> op_step no_faults cfg s (Some c) s' /\ replayable s'.
Proof.
  intros [Hk Hv]. unfold tick. destruct (os_run s !! c) as [[r|msg|R a k|R f k]|] eqn:Hc; [..|done].
  - intros [= <-]. split; [by eapply step_return|done].
  - intros [= <-]. split; [by eapply step_recover|done].
  - set (v := pretty _). destruct (unused v (seen s)) eqn:Hu; [|done].
    destruct (up_to_date a _) eqn:Hup; [|done]. simpl.
    pose proof (server_meets (fun _ => v) a _ Hk) as Hm.
    pose proof (server_keyed (fun _ => v) a _ Hk) as Hk'.
    pose proof (server_new_versions v a (seen s) (os_world s) Hv ltac:(by left) Hu) as Hn.
    pose proof (server_reads (fun _ => v) a (os_world s)) as Hr.
    destruct (server _ _ a _) as [r w']. simpl in *. intros [= <-].
    split; [|split; [done|by apply versioned_new]]. eapply step_call; [done|].
    unfold answers. destruct (cached_read a).
    + rewrite Hr in * by done. split; [done|]. exists (os_world s). split; [by left|done].
    + split_and!; [done|by apply up_to_date_optimistic|done].
  - intros [= <-]. split; [by eapply step_atomic|done].
Qed.

(** A step of one of the controllers. *)
Definition own_step (s s' : op_state) : Prop := exists c, op_step no_faults cfg s (Some c) s'.

Lemma replay_runs sch : forall s s',
  replayable s -> replay sch s = Some s' -> rtc own_step s s' /\ replayable s'.
Proof.
  unfold replay. induction sch as [|a sch IH]; intros s s' Hs; simpl.
  { intros [= <-]. by split; [apply rtc_refl|]. }
  destruct (choose a s) as [s1|] eqn:H1; [|clear IH].
  2:{ assert (foldl (fun os a => os ≫= choose a) None sch = None) as ->; [|done].
      induction sch; simpl; auto. }
  assert (own_step s s1 /\ replayable s1) as [Hstep Hs1].
  { destruct a as [c ns name|c]; simpl in H1.
    - destruct (os_run s !! c) eqn:Hc; [done|]. injection H1 as <-.
      split; [|done]. exists c. by constructor.
    - destruct (tick_step c s s1 Hs H1). split; [by exists c|done]. }
  intros H2. destruct (IH s1 s' Hs1 H2). split; [by eapply rtc_l|done].
Qed.

End Replay.

(** ** A VNode that outlives its pool *)

(** A pool of one node under deletion, its VNode waiting for registration, and
    the kubeconfig of the tenant. *)
Definition demo_secret : CoreSecret :=
  mkCoreSecret (newMeta "kc" "t-ns" ∅ ∅) {[ "kubeconfig" := "tenant" ]} "".

Definition demo_spec : VNodePoolSpec :=
  mkVNodePoolSpec (mkAPITenantRef "t" "t-ns" "kc") 1 (mkNodeResources "4" "8Gi" 110)
    PoolModeShared "kata" "" ∅ [] [] "".

Definition demo_pool (deletion : option Z) (finalizers : list string) : VNodePoolCR :=
  mkVNodePoolCR (mkObjectMeta "pool" "ns" "uid" "0" ∅ ∅ finalizers 0 deletion) demo_spec
    (mkVNodePoolStatus "" 0 0 []).

Definition demo_vnode (phase : string) : VNodeCR :=
  mkVNodeCR (newMeta "vnode-pool-1" "ns" {[ labelPool := "pool" ]}
      (<[annotationVClusterName := "t"]> (<[annotationVClusterNamespace := "t-ns"]>
       {[ annotationKubeconfigSecret := "kc" ]})))
    (mkVNodeSpec "pool" (mkNodeResources "4" "8Gi" 110))
    (mkVNodeStatus phase []).

Definition start_of (pools : gmap key VNodePoolCR) (vnodes : gmap key VNodeCR)
    (pods : gmap key CorePod) : op_state :=
  mkOp (mkWorld (mkCluster pools vnodes ∅ {[ ("t-ns", "kc") := demo_secret ]} ∅ ∅ ∅ ∅)
          {[ mkClientset "tenant" := mkCluster ∅ ∅ pods ∅ ∅ ∅ ∅ ∅ ]}) [] ∅ ∅.

(** The VNode controller has read the VNode when the pool controller removes
    it and lets the pool go; then the VNode controller saves what it read. *)
Definition deletion_race : list choice :=
  Begin VNodeController "ns" "vnode-pool-1" :: Tick VNodeController ::
  Begin PoolController "ns" "pool" :: ticks 23 PoolController ++ ticks 22 VNodeController.

Section Starts.
Variable pools : gmap key VNodePoolCR.
Variable vnodes : gmap key VNodeCR.
Variable pods : gmap key CorePod.
Abbreviation start := (start_of pools vnodes pods).
Abbreviation Reachable := (@reachable simple_libs no_faults (Default ∅)).

(** What makes a start a start. *)
Definition start_ok : bool :=
  cluster_sound (w_host (os_world start)) && cluster_sound (mkCluster ∅ ∅ pods ∅ ∅ ∅ ∅ ∅) &&
  bool_decide (map_Forall good_vnode vnodes).

Lemma start_replayable : start_ok = true -> replayable start.
Proof.
  unfold start_ok. rewrite !andb_true_iff. intros [[Hh Ht] _].
  split; [apply keyed_check; [done|by apply map_Forall_singleton]|].
  intros T k x o1 o2 w1 w2 ->%list_elem_of_singleton ->%list_elem_of_singleton. congruence.
Qed.

Lemma start_initial : start_ok = true -> initial start.
Proof.
  unfold start_ok. rewrite !andb_true_iff. intros [_ H%bool_decide_eq_true_1].
  split_and!; [done..|]. intros x cr Hx. by apply H.
Qed.

(** A schedule from a start leads to a reachable state; [check] is evaluated
    there. *)
Lemma replay_reaches sch (check : op_state -> bool) :
  start_ok = true ->
  match @replay simple_libs (Default ∅) sch start with Some s => check s | None => false end = true ->
  exists s, Reachable s /\ replayable s /\ check s = true.
Proof.
  intros Hs Hr. destruct (@replay simple_libs (Default ∅) sch _) as [s|] eqn:Hrep; [|done].
  destruct (replay_runs (L := simple_libs) (Default ∅) sch _ s (start_replayable Hs) Hrep) as [H Hp].
  exists s. split_and!; [|done..]. exists start. split; [by apply start_initial|].
  revert H. apply rtc_subrel. intros s1 s2 [c Hc]. by exists (Some c).
Qed.

(** The same with one more step of a controller. *)
Lemma replay_steps sch c (check : op_state -> op_state -> bool) :
  start_ok = true ->
  match @replay simple_libs (Default ∅) sch start with
  | Some s => match tick c s with Some s' => check s s' | None => false end
  | None => false
  end = true ->
  exists s s', Reachable s /\ @op_step simple_libs no_faults (Default ∅) s (Some c) s' /\
    check s s' = true.
Proof.
  intros Hs Hr. destruct (replay_reaches sch (fun s =>
    match tick c s with Some s' => check s s' | None => false end) Hs Hr) as (s & H1 & H2 & H3).
  destruct (tick c s) as [s'|] eqn:Ht; [|done]. exists s, s'. split_and!; try done.
  by apply (tick_step (L := simple_libs) (Default ∅) c s s' H2).
Qed.

End Starts.

(** C37: The deletion of a pool and the status update of its VNode, interleaved: the
    operator reaches a state where no controller is at work, the pool is gone,
    and its VNode is back and ready, with a registered node in the tenant
    cluster.  A further pass of the pool controller changes nothing. *)
Theorem vnode_outlives_pool :
  exists s, @reachable simple_libs no_faults (Default ∅) s /\ os_run s = ∅ /\
    object HostClient KVNodePool ("ns", "pool") (os_world s) = None /\
    (exists cr, object HostClient KVNode ("ns", "vnode-pool-1") (os_world s) = Some cr /\
       om_Labels (nd_Meta cr) !! labelPool = Some "pool" /\ nst_Phase (nd_Status cr) = NodePhaseReady) /\
    is_Some (object (Tenant (mkClientset "tenant")) KNode ("", "vnode-pool-1") (os_world s)) /\
    run memory_server (@poolReconciler simple_libs "ns" "pool") (os_world s) (os_mem s) =
      (Done (0%Z, None), os_world s, os_mem s).
Proof.
  destruct (replay_reaches {[ ("ns", "pool") := demo_pool (Some 5%Z) [poolFinalizer] ]}
    {[ ("ns", "vnode-pool-1") := demo_vnode NodePhasePending ]} ∅ deletion_race (fun s =>
      (size (os_run s) =? 0)%nat &&
      bool_decide (is_Some (object HostClient KVNodePool ("ns", "pool") (os_world s)) -> False) &&
      match object HostClient KVNode ("ns", "vnode-pool-1") (os_world s) with
      | Some cr => bool_decide (om_Labels (nd_Meta cr) !! labelPool = Some "pool") &&
                   bool_decide (nst_Phase (nd_Status cr) = NodePhaseReady)
      | None => false
      end &&
      bool_decide (is_Some (object (Tenant (mkClientset "tenant")) KNode ("", "vnode-pool-1")
        (os_world s))))) as (s & Hr & _ & Hc); [by vm_compute..|].
  rewrite !andb_true_iff, !bool_decide_eq_true in Hc. destruct Hc as [[[H1 H2] H3] H4].
  exists s. split_and!; try done.
  - apply map_size_empty_inv. by apply Nat.eqb_eq.
  - by apply eq_None_not_Some.
  - destruct (object HostClient KVNode _ _) as [cr|]; [|done]. exists cr.
    by rewrite andb_true_iff, !bool_decide_eq_true in H3.
  - unfold poolReconciler, ReconcileVNodePool. simpl. 
    assert (object HostClient KVNodePool ("ns", "pool") (os_world s) = None) as Hn
      by (by apply eq_None_not_Some).
    by rewrite Hn.
Qed.

(** ** A condition that is overwritten *)

(** The pod sync controller has read the pool when the pool controller reports
    its nodes; then it writes its own list of conditions. *)
Definition condition_race : list choice :=
  Begin PodSyncController "ns" "pool" :: ticks 13 PodSyncController ++
  Begin PoolController "ns" "pool" :: ticks 34 PoolController.

Definition condition_race_end : list choice := ticks 2 PodSyncController.

(** The phase of the pool and the status of its condition of a type. *)
Definition pool_phase (s : op_state) : option string :=
  st_Phase ∘ pc_Status <$> object HostClient KVNodePool ("ns", "pool") (os_world s).
Definition pool_condition (ty : string) (s : op_state) : option string :=
  cr ← object HostClient KVNodePool ("ns", "pool") (os_world s);
  co_Status ∘ snd <$> list_find (fun c => co_Type c = ty) (st_Conditions (pc_Status cr)).

(** C38: Two controllers write the conditions of a pool as one list, without a check
    of the version: the operator reaches a state where the pool is ready and
    says so in its Ready condition, and from there, by steps of the controllers
    alone, a state at rest where the pool is ready and has no Ready condition. *)
Theorem ready_condition_lost :
  exists s1 s2, @reachable simple_libs no_faults (Default ∅) s1 /\
    rtc (@own_step simple_libs (Default ∅)) s1 s2 /\ os_run s2 = ∅ /\
    pool_phase s1 = Some PoolPhaseReady /\ pool_condition "Ready" s1 = Some ConditionTrue /\
    pool_phase s2 = Some PoolPhaseReady /\ pool_condition "Ready" s2 = None.
Proof.
  destruct (replay_reaches {[ ("ns", "pool") := demo_pool None [poolFinalizer] ]} ∅ ∅
    condition_race (fun s =>
      bool_decide (pool_phase s = Some PoolPhaseReady) &&
      bool_decide (pool_condition "Ready" s = Some ConditionTrue) &&
      match @replay simple_libs (Default ∅) condition_race_end s with
      | Some s2 => (size (os_run s2) =? 0)%nat &&
          bool_decide (pool_phase s2 = Some PoolPhaseReady) &&
          bool_decide (pool_condition "Ready" s2 = None)
      | None => false
      end)) as (s1 & Hreach & Hp & Hc); [by vm_compute..|].
  rewrite !andb_true_iff, !bool_decide_eq_true in Hc. destruct Hc as [[H1 H2] H3].
  destruct (@replay simple_libs (Default ∅) condition_race_end s1) as [s2|] eqn:Hs2; [|done].
  destruct (replay_runs (L := simple_libs) (Default ∅) _ _ _ Hp Hs2) as [Hrun _].
  rewrite !andb_true_iff, !bool_decide_eq_true in H3. destruct H3 as [[H3 H4] H5].
  exists s1, s2. split_and!; try done. apply map_size_empty_inv. by apply Nat.eqb_eq.
Qed.

(** ** Runs on which the guarantees are seen *)

Definition demo_tenant_pod : CorePod :=
  mkCorePod (newMeta "web" "default" ∅ ∅)
    (mkCorePodSpec "vnode-pool-1" "" None None ∅ [] [] "") (mkCorePodStatus "" "" "" "" [] "").

Lemma vnodes_wellformed_witness :
  exists s, @reachable simple_libs no_faults (Default ∅) s /\
    is_Some (object HostClient KVNode ("ns", "vnode-pool-1") (os_world s)) /\
    good_world (os_world s).
Proof.
  destruct (replay_reaches {[ ("ns", "pool") := demo_pool None [poolFinalizer] ]} ∅ ∅
    condition_race (fun s =>
      bool_decide (is_Some (object HostClient KVNode ("ns", "vnode-pool-1") (os_world s)))))
    as (s & Hr & _ & Hc); [by vm_compute..|].
  exists s. split; [exact Hr|]. split; [by apply bool_decide_eq_true_1 in Hc|].
  exact (@vnodes_wellformed simple_libs simple_libs_laws no_faults (Default ∅) s Hr).
Defined.

(** The step that adds the finalizer. *)
Lemma pool_requests_kept_witness :
  exists s s' o', @reachable simple_libs no_faults (Default ∅) s /\
    @op_step simple_libs no_faults (Default ∅) s (Some PoolController) s' /\
    object HostClient KVNodePool ("ns", "pool") (os_world s') = Some o' /\
    om_Finalizers (pc_Meta o') = [poolFinalizer] /\
    exists o, object HostClient KVNodePool ("ns", "pool") (os_world s) = Some o /\ same_request o o'.
Proof.
  destruct (replay_steps {[ ("ns", "pool") := demo_pool None [] ]} ∅ ∅
    [Begin PoolController "ns" "pool"; Tick PoolController] PoolController (fun _ s' =>
      match object HostClient KVNodePool ("ns", "pool") (os_world s') with
      | Some o' => bool_decide (om_Finalizers (pc_Meta o') = [poolFinalizer])
      | None => false
      end)) as (s & s' & Hr & Hs & Hc); [by vm_compute..|].
  destruct (object HostClient KVNodePool _ (os_world s')) as [o'|] eqn:Ho; [|done].
  apply bool_decide_eq_true_1 in Hc. exists s, s', o'. split_and!; [exact Hr|exact Hs|exact Ho|exact Hc|].
  exact (@pool_requests_kept simple_libs simple_libs_laws no_faults (Default ∅) s PoolController s'
           ("ns", "pool") o' Hr Hs Ho).
Defined.

