(* ===== verification/Work.v ===== *)
(** How much a reconciliation does: the number of calls to API servers a
    controller makes for one request, whatever the servers reply. *)

From S2P Require Import Prelude GoProg Model PodModel Kube Libs ApiServer Ports PodClient.
From S2P Require Import NodeRepo Registrar PodService NodeService PoolService Execution.
From S2P Require Import PoolReconciler NodeReconciler PodSyncReconciler Config System Footprint.

Local Open Scope go_scope.

(** ** Counting calls *)

(** A call to an API server; the clock, the metrics and the event recorder are
    local. *)
Definition remote {R} (c : api R) : bool :=
  match footprint c with Some _ => true | None => false end.

Section Count.
(** The replies to reckon with. *)
Variable ok : forall R, api R -> R -> Prop.

(** With replies that are [ok], [p] ends after at most [n] calls, with a result
    in [Q] or a panic. *)
Fixpoint ends_within {A} (n : nat) (p : go A) (Q : A -> Prop) : Prop :=
  match p with
  | Ret a => Q a
  | Panic _ => True
  | Call c k =>
      if remote c then
        match n with O => False | S n' => forall r, ok _ c r -> ends_within n' (k r) Q end
      else forall r, ok _ c r -> ends_within n (k r) Q
  | Atomic f k => forall r, ends_within n (k r) Q
  end.

Lemma ends_mono {A} n n' (p : go A) (Q Q' : A -> Prop) :
  n <= n' -> (forall a, Q a -> Q' a) -> ends_within n p Q -> ends_within n' p Q'.
Proof.
  intros Hn HQ. revert n n' Hn. induction p as [a|msg|R c k IH|R f k IH]; intros n n' Hn; simpl; auto.
  - destruct (remote c); [|eauto]. destruct n as [|n]; [done|]. destruct n' as [|n']; [lia|].
    intros H r Hr. apply (IH r n n'); [lia|auto].
  - eauto.
Qed.

Lemma ends_bind {A B} a b n (p : go A) (f : A -> go B) Q Q' :
  a + b <= n -> ends_within a p Q -> (forall x, Q x -> ends_within b (f x) Q') ->
  ends_within n (bind p f) Q'.
Proof.
  intros Hn. revert a n Hn. induction p as [x|msg|R c k IH|R g k IH]; intros a n Hn Hp Hf; simpl in *.
  - eapply ends_mono; [|done|by apply Hf]. lia.
  - done.
  - destruct (remote c); [|intros r Hr; eapply IH; eauto].
    destruct a as [|a]; [done|]. destruct n as [|n]; [lia|].
    intros r Hr. apply (IH r a n); [lia|auto..].
  - intros r. eapply IH; eauto.
Qed.

Lemma ends_call {R B} n (c : api R) (f : R -> go B) Q :
  (forall r, ok R c r -> ends_within n (f r) Q) -> ends_within (S n) (bind (call c) f) Q.
Proof.
  intros Hf. simpl. destruct (remote c); [done|]. intros r Hr.
  eapply ends_mono; [|done|by apply Hf]. lia.
Qed.

Lemma ends_last {R} n (c : api R) (Q : R -> Prop) :
  (forall r, ok R c r -> Q r) -> ends_within (S n) (call c) Q.
Proof. intros HQ. simpl. by destruct (remote c). Qed.

Lemma ends_local {R B} n (c : api R) (f : R -> go B) Q :
  remote c = false -> (forall r, ends_within n (f r) Q) -> ends_within n (bind (call c) f) Q.
Proof. intros Hc Hf. simpl. rewrite Hc. auto. Qed.

Lemma ends_for_range {X St R} n b (body : X -> St -> go (ctl St R)) xs st :
  length xs * b <= n -> (forall x st, x ∈ xs -> ends_within b (body x st) (fun _ => True)) ->
  ends_within n (for_range xs st body) (fun _ => True).
Proof.
  revert n st. induction xs as [|x xs IH]; intros n st Hn Hb; [done|]. cbn [for_range].
  simpl in Hn. eapply (ends_bind b (length xs * b)); [lia|apply Hb; left|].
  intros [st'|r] _; [|done]. apply IH; [lia|]. intros y st2 Hy. apply Hb. by right.
Qed.
End Count.

(** Walk through a program whose calls are in sight, one budget unit each. *)
Ltac work_step :=
  lazymatch goal with
  | |- ends_within _ _ (bind (call ?c) _) _ =>
      first [apply ends_local; [reflexivity|intros ?] | apply ends_call; intros ? ?]
  | |- ends_within _ _ (call _) _ => apply ends_last
  | |- ends_within _ _ (match ?x with _ => _ end) _ => destruct x
  | |- ends_within _ _ (Ret _) _ => cbn [ends_within]
  | |- ends_within _ _ (Panic _) _ => exact I
  end.
Ltac work := repeat first [ work_step | progress intros | exact I | done ].

Section Stacks.
Context `{L : KubeLibs} {LL : KubeLibsLaws}.
Variable ok : forall R, api R -> R -> Prop.
(** The attempts of [retry.RetryOnConflict]. *)
Variable tries : nat.
Hypothesis retries : exists n, tries = S n /\ forall fn, RetryOnConflict fn = retry_loop IsConflict n fn.

Abbreviation ends n p := (ends_within ok n p (fun _ => True)).

Lemma ends_any {A} n n' (p : go A) : n <= n' -> ends n p -> ends n' p.
Proof. intros Hn. by apply ends_mono. Qed.

(** A part with a bound of its own, then the rest. *)
Lemma ends_then {A B} a b n (p : go A) (f : A -> go B) Q :
  a + b <= n -> ends a p -> (forall x, ends_within ok b (f x) Q) -> ends_within ok n (bind p f) Q.
Proof. intros Hn Hp Hf. by apply (ends_bind ok a b n p f (fun _ => True)). Qed.

Lemma ends_retry b fn : ends b fn -> ends (tries * b) (RetryOnConflict fn).
Proof.
  intros Hfn. destruct retries as (n & -> & E). rewrite E. clear E retries.
  induction n as [|n IH]; simpl retry_loop.
  - apply (ends_then b 0); [lia|done|]. intros [e|]; [|done]. by destruct (IsConflict e).
  - apply (ends_then b (S n * b)); [lia|done|]. intros [e|]; [|done].
    destruct (IsConflict e); [|done]. exact IH.
Qed.

(** *** Repositories and tenants *)
Lemma conditions_ends cs : ends 0 (conditionsToCR cs).
Proof.
  induction cs as [|c cs IH]; [done|]. cbn [conditionsToCR]. unfold now. work.
  apply (ends_then 0 0); [done|done|]. work.
Qed.

Lemma applyNodeStatus_ends cr n : ends 0 (applyNodeStatus cr n).
Proof. unfold applyNodeStatus. apply (ends_then 0 0); [done|apply conditions_ends|]. work. Qed.

Lemma updateStatus_ends n : ends (tries * 2) (updateStatus n).
Proof.
  apply ends_retry. unfold updateStatus_attempt. work.
  apply (ends_then 0 1); [done|apply applyNodeStatus_ends|]. work.
Qed.

Definition save_work : nat := 3 + tries * 4.

Lemma Save_ends n : ends save_work (Save n).
Proof.
  unfold Save, save_work. apply ends_call. intros [cr|e] _.
  - apply (ends_then (tries * 2) (tries * 2)); [lia|apply ends_retry; unfold annotate_attempt; work|].
    intros [e|]; [work|apply updateStatus_ends].
  - destruct (IgnoreNotFound e); [done|]. apply ends_call. intros [cr|e'] _; [|done].
    apply (ends_then 0 (1 + tries * 4)); [lia|apply applyNodeStatus_ends|]. intros cr'.
    apply ends_call. intros [?|e'] _; [done|].
    destruct (_ || _); [|done]. eapply ends_any; [|apply updateStatus_ends]. lia.
Qed.

Lemma GetClient_ends_within t : ends 1 (GetClient kubeconfigResolver t).
Proof.
  unfold GetClient, cache_lookup, cache_store, Invalidate, atomic, Resolve. cbn -[kubeconfig_data].
  intros [cs|]; [done|]. intros [secret|e] _; [|done].
  destruct (kubeconfig_data _ _); cbn; [|done].
  destruct (RESTConfigFromKubeConfig _); cbn; [|done]. by intros [|].
Qed.

Lemma upsertLease_ends cs name : ends 2 (upsertLease cs name).
Proof. unfold upsertLease, now. work. Qed.
Lemma upsertNode_ends cs n : ends 2 (upsertNode cs n).
Proof. unfold upsertNode. work. Qed.
Lemma ensureLeaseNamespace_ends cs : ends 2 (ensureLeaseNamespace cs).
Proof. unfold ensureLeaseNamespace. work. Qed.

Lemma node_status_ends cs n : ends 2 (node_status_attempt cs n).
Proof.
  unfold node_status_attempt. apply ends_call. intros [cur|e] _; [|done].
  unfold must. destruct (buildResources _); [|done]. cbn [bind].
  destruct (buildResources _); [|done]. cbn [bind]. unfold now. work.
Qed.

Lemma UpdateNodeStatus_ends n t : ends (3 + tries * 2) (UpdateNodeStatus registrar n t).
Proof.
  change (UpdateNodeStatus registrar n t) with (registrar_UpdateNodeStatus kubeconfigResolver n t).
  unfold registrar_UpdateNodeStatus. case_bool_decide; [done|].
  apply (ends_then 1 (2 + tries * 2)); [lia|apply GetClient_ends_within|]. intros [cs|e]; [|done].
  apply (ends_then (tries * 2) 2); [lia|apply ends_retry, node_status_ends|].
  intros [e|]; [done|apply upsertLease_ends].
Qed.

Lemma Register_ends n t : ends (8 + tries * 2) (Register registrar n t).
Proof.
  change (Register registrar n t) with (registrar_Register kubeconfigResolver n t).
  unfold registrar_Register.
  apply (ends_then 1 (7 + tries * 2)); [lia|apply GetClient_ends_within|]. intros [cs|e]; [|done].
  apply (ends_then 2 (5 + tries * 2)); [lia|apply ensureLeaseNamespace_ends|]. intros [e|]; [done|].
  apply (ends_then 2 (3 + tries * 2)); [lia|apply upsertNode_ends|]. intros [e|]; [done|].
  apply UpdateNodeStatus_ends.
Qed.

Lemma Deregister_ends n t : ends 3 (Deregister registrar n t).
Proof.
  change (Deregister registrar n t) with (registrar_Deregister kubeconfigResolver n t).
  unfold registrar_Deregister. case_bool_decide; [done|].
  apply (ends_then 1 2); [lia|apply GetClient_ends_within|]. intros [cs|e]; [|done]. work.
Qed.

(** *** Nodes *)
Lemma nodeSave_ends n : ends save_work (nodes_Save nodeRepo n).
Proof. apply Save_ends. Qed.

Lemma saveReady_ends n : ends save_work (saveReady nodeRepo n).
Proof.
  unfold saveReady. apply (ends_then save_work 0); [lia|apply nodeSave_ends|]. work.
Qed.

Definition update_work : nat := 8 + tries * 2 + save_work.

Lemma UpdateNode_ends n : ends update_work (UpdateStatus nodeSvc n).
Proof.
  change (UpdateStatus nodeSvc n) with (UpdateNode nodeRepo registrar n).
  unfold UpdateNode, update_work. destruct (_ && _); [done|]. destruct (shouldRetryRegistration n).
  - unfold retryRegistration. apply (ends_then (8 + tries * 2) save_work); [lia|apply Register_ends|].
    intros [e|]; [|apply saveReady_ends]. destruct (isIgnorableStatusError e); [done|].
    destruct (_ || _); [|done]. apply (ends_then save_work 0); [lia|apply nodeSave_ends|]. work.
  - unfold refreshStatus. apply (ends_then (3 + tries * 2) save_work);
      [lia|apply UpdateNodeStatus_ends|].
    intros [e|].
    + destruct (isIgnorableStatusError e); [done|].
      apply (ends_then save_work 0); [lia|apply nodeSave_ends|]. work.
    + destruct (_ && _); [done|apply saveReady_ends].
Qed.

Lemma ReconcileVNode_ends ns name : ends (1 + update_work) (vnodeReconciler ns name).
Proof.
  unfold vnodeReconciler, ReconcileVNode. apply ends_call. intros [cr|e] _; [|done].
  apply (ends_then update_work 0); [lia|apply UpdateNode_ends|]. unfold now. work.
Qed.

Definition provision_work : nat := 9 + tries * 2 + 2 * save_work.

Lemma Provision_ends pool : ends provision_work (Provision nodeSvc pool).
Proof.
  change (Provision nodeSvc pool) with (ProvisionNode nodeRepo registrar pool).
  unfold ProvisionNode, provision_work.
  apply (ends_then 1 (8 + tries * 2 + 2 * save_work)); [lia| |].
  { change (nodes_ListByPool nodeRepo) with ListByPool. unfold ListByPool. work. }
  intros [existing|e]; [|done].
  apply (ends_then save_work (8 + tries * 2 + save_work)); [lia|apply nodeSave_ends|].
  intros [e|]; [done|].
  apply (ends_then (8 + tries * 2) save_work); [lia|apply Register_ends|].
  intros [e|]; (apply (ends_then save_work 0); [lia|apply nodeSave_ends|]); work.
Qed.

Lemma Deprovision_ends n : ends (4 + save_work) (Deprovision nodeSvc n).
Proof.
  change (Deprovision nodeSvc n) with (DeprovisionNode nodeRepo registrar n).
  unfold DeprovisionNode. apply (ends_then save_work 4); [lia|apply nodeSave_ends|].
  intros [e|]; [done|]. apply (ends_then 3 1); [lia|apply Deregister_ends|]. intros _.
  change (nodes_Delete nodeRepo) with DeleteNode. unfold DeleteNode. work.
Qed.

Lemma scaleUp_ends n : forall i pool l, ends (n * provision_work) (scaleUp nodeSvc n i pool l).
Proof.
  induction n as [|n IH]; intros i pool l; [done|]. cbn [scaleUp].
  apply (ends_then provision_work (n * provision_work)); [lia|apply Provision_ends|].
  intros [node [e|]]; [done|apply IH].
Qed.

Lemma scaleDown_ends n : forall pool l, ends (n * provision_work) (scaleDown nodeSvc n pool l).
Proof.
  induction n as [|n IH]; intros pool l; [done|]. cbn [scaleDown]. destruct (last l); [|done].
  apply (ends_then provision_work (n * provision_work)); [lia| |].
  - eapply ends_any; [|apply Deprovision_ends]. unfold provision_work. lia.
  - intros [e|]; [done|apply IH].
Qed.
End Stacks.

(** ** Replies of limited size *)

(** Lists of at most [N] objects, pods of at most [V] volumes, pools of at most
    [N] nodes. *)
Definition small_object (N V : nat) {T} (k : kind T) : T -> Prop :=
  match k in kind T return T -> Prop with
  | KPod => fun p => length (cps_Volumes (cp_Spec p)) <= V
  | KVNodePool => fun p => (sp_NodeCount (pc_Spec p) <= Z.of_nat N)%Z
  | _ => fun _ => True
  end.

Definition small (N V : nat) R (c : api R) : R -> Prop :=
  match c in api R return R -> Prop with
  | Get _ k _ _ | Update _ k _ => fun r => match r with Ok o => small_object N V k o | Err _ => True end
  | List _ k _ _ => fun r =>
      match r with Ok l => length l <= N /\ Forall (small_object N V k) l | Err _ => True end
  | _ => fun _ => True
  end.

Section Small.
Context `{L : KubeLibs} {LL : KubeLibsLaws}.
Variables N V tries : nat.
Hypothesis N_int32 : (Z.of_nat N <= int32_max)%Z.
Hypothesis retries : exists n, tries = S n /\ forall fn, RetryOnConflict fn = retry_loop IsConflict n fn.

Abbreviation ok := (small N V).
Abbreviation ends n p := (ends_within ok n p (fun _ => True)).

Lemma scale_actions_bound pool (c : Z) :
  (0 <= vp_NodeCount pool <= Z.of_nat N)%Z -> (0 <= c <= Z.of_nat N)%Z ->
  let '(add, remove) := DesiredScaleActions pool c in Z.to_nat add + Z.to_nat remove <= N.
Proof.
  unfold int32_max in *. intros Hp Hc. destruct (Z.le_ge_cases c (vp_NodeCount pool)).
  - rewrite DesiredScaleActions_add; unfold is_int32, int32_min, int32_max; lia.
  - rewrite DesiredScaleActions_remove; unfold is_int32, int32_min, int32_max; lia.
Qed.

Definition scale_work : nat := 1 + N * provision_work tries.

Lemma ReconcileNodes_ends pool :
  (0 <= vp_NodeCount pool <= Z.of_nat N)%Z -> ends scale_work (ReconcilePoolNodes poolSvc pool).
Proof.
  intros Hp. change (ReconcilePoolNodes poolSvc pool) with (ReconcileNodes nodeRepo nodeSvc pool).
  unfold ReconcileNodes, scale_work.
  apply (ends_bind ok 1 (N * provision_work tries) _ _ _
    (fun r => match r with Ok l => length l <= N | Err _ => True end)); [lia| |].
  { change (nodes_ListByPool nodeRepo) with ListByPool. unfold ListByPool.
    apply ends_call. intros [items|e] Hr; [|done]. cbn. rewrite length_map. apply Hr. }
  intros [existing|e] Hlen; [|done].
  assert (int32 (Z.of_nat (length existing)) = Z.of_nat (length existing)) as ->.
  { apply int32_id. unfold is_int32, int32_min, int32_max in *. lia. }
  pose proof (scale_actions_bound pool (Z.of_nat (length existing)) Hp ltac:(lia)) as Hact.
  destruct (DesiredScaleActions _ _) as [add remove].
  apply (ends_then ok (Z.to_nat add * provision_work tries) (Z.to_nat remove * provision_work tries));
    [nia|by apply scaleUp_ends|]. intros [[pool1 w1] [e|]]; [done|].
  apply (ends_then ok (Z.to_nat remove * provision_work tries) 0); [lia|by apply scaleDown_ends|].
  by intros [[pool2 w2] [e|]].
Qed.

Lemma updatePoolStatus_work ns name ph cts a b c d e f :
  ends (tries * 2) (updatePoolStatus ns name (mutateStatus ph cts a b c d e f)).
Proof.
  apply ends_retry; [done|]. unfold updatePoolStatus_attempt, mutateStatus, setStatusCondition, now.
  apply ends_call. intros [base|err] _; [|done]. cbn -[setCondition]. intros t _ t' _.
  case_bool_decide; [done|]. by intros.
Qed.

Lemma removeFinalizer_ends cr : ends (tries * 2) (RetryOnConflict (removeFinalizer_attempt cr)).
Proof. apply ends_retry; [done|]. unfold removeFinalizer_attempt. work. Qed.

Definition pool_work : nat := 2 + scale_work + tries * 4.

Lemma handleDeletion_ends cr : ends (1 + scale_work + tries * 4) (handleDeletion poolSvc cr).
Proof.
  unfold handleDeletion. destruct (negb _); [done|].
  apply (ends_then ok (tries * 2) (1 + scale_work + tries * 2)); [lia|apply updatePoolStatus_work|].
  intros _. apply (ends_then ok scale_work (1 + tries * 2)); [lia| |].
  { apply ReconcileNodes_ends. simpl. lia. }
  intros [pool' [e|]]; [done|]. apply ends_call. intros [remaining|e] _; [|done].
  destruct (0 <? length remaining); [done|].
  apply (ends_then ok (tries * 2) 0); [lia|apply removeFinalizer_ends|]. work.
Qed.

Lemma reconcileSpec_ends cr :
  (sp_NodeCount (pc_Spec cr) <= Z.of_nat N)%Z -> ends (scale_work + tries * 2) (reconcileSpec poolSvc cr).
Proof.
  intros Hn. unfold reconcileSpec. destruct (Validate (crToPoolModel cr)) as [e|] eqn:Hv.
  - apply (ends_then ok (tries * 2) 0); [lia|apply updatePoolStatus_work|done].
  - assert (0 <= vp_NodeCount (crToPoolModel cr))%Z as H0 by (by apply Validate_iff in Hv as (_ & _ & ? & _)).
    apply (ends_then ok scale_work (tries * 2)); [lia|by apply ReconcileNodes_ends|].
    intros [result [e|]].
    + apply (ends_then ok (tries * 2) 0); [lia|apply updatePoolStatus_work|done].
    + apply (ends_then ok (tries * 2) 0); [lia|apply updatePoolStatus_work|]. work.
Qed.

Lemma ReconcileVNodePool_ends ns name : ends pool_work (poolReconciler ns name).
Proof.
  unfold poolReconciler, ReconcileVNodePool.
  change pool_work with (S (1 + scale_work + tries * 4)). apply ends_call. intros [cr|e] Hcr; [|done].
  destruct (deleting _); [apply handleDeletion_ends|]. destruct (negb _).
  - apply (ends_any ok (S (scale_work + tries * 2))); [lia|]. apply ends_call.
    intros [cr'|e] Hcr'; [by apply reconcileSpec_ends|done].
  - apply (ends_any ok (scale_work + tries * 2)); [lia|by apply reconcileSpec_ends].
Qed.

(** *** Pods *)
Lemma DeletePod_ends ns name : ends 1 (DeletePod hostPods ns name).
Proof. change (DeletePod hostPods ns name) with (DeletePod_ ns name). unfold DeletePod_. work. Qed.

Lemma syncResource_ends cs pool ref u : ends 3 (syncResource cs hostPods pool ref u).
Proof.
  unfold syncResource. destruct (bool_decide _); [|destruct (bool_decide _); [|done]];
    (apply ends_call; intros [o|e] _; [|work]);
    (apply (ends_then ok 2 0); [lia| |by intros [|]]).
  - change (EnsureConfigMap hostPods) with EnsureConfigMap_. unfold EnsureConfigMap_. work.
  - change (EnsureSecret hostPods) with EnsureSecret_. unfold EnsureSecret_. work.
Qed.

Lemma volumeRefs_length ns vs : length (volumeRefs ns vs) <= length vs.
Proof. induction vs as [|v vs IH]; simpl; [lia|]. destruct (_ && _); simpl; lia. Qed.

Lemma ensureHostPod_ends pod : ends 2 (ensureHostPod hostPods pod).
Proof.
  unfold ensureHostPod. apply (ends_then ok 1 1); [lia| |].
  { change (GetPod hostPods) with GetPod_. unfold GetPod_. work. }
  intros [cur|e].
  - destruct (ps_Deleting cur); [done|]. destruct (podSpecsEqual cur pod); [done|].
    apply (ends_then ok 1 0); [lia|apply DeletePod_ends|]. work.
  - destruct (IsNotFound e); [|done]. apply (ends_then ok 1 0); [lia| |done].
    change (CreatePod hostPods) with CreatePod_. unfold CreatePod_, must.
    destruct (podSpecToK8sPod pod); [|done]. cbn [bind]. work.
Qed.

Lemma syncHostStatus_ends runtime cs src target r d :
  ends 4 (syncHostStatus hostPods (PodService runtime) cs src target r d).
Proof.
  assert (forall r, ends 1 (finishTerminal hostPods src target r d)) as Hfin.
  { intros r'. unfold finishTerminal. destruct (isTerminalPod src); [|done].
    apply (ends_then ok 1 0); [lia|apply DeletePod_ends|]. work. }
  unfold syncHostStatus. apply (ends_then ok 1 3); [lia| |].
  { change (GetPodStatus hostPods) with GetPodStatus_. unfold GetPodStatus_. work. }
  intros [st|e]; [|destruct (IsNotFound e); [|done]; by eapply ends_any; [|apply Hfin]; lia].
  apply (ends_then ok 0 3); [lia|done|]. intros [st'|e]; [|done].
  apply (ends_then ok 2 1); [lia|unfold updateTenantPodStatus; work|]. intros [e|]; [done|apply Hfin].
Qed.

Definition pod_work : nat := V * 3 + 6.

Lemma processPod_ends runtime cs pool src a :
  length (cps_Volumes (cp_Spec src)) <= V ->
  ends pod_work (processPod hostPods (PodService runtime) cs pool src a).
Proof.
  intros Hv. unfold processPod, pod_work. destruct a as [r d].
  cbn [PodService Translate TranslateForPool bind].
  apply (ends_then ok (V * 3) 6); [lia| |].
  { unfold syncPodResources. apply (ends_then ok (V * 3) 0); [lia| |by intros [|]].
    eapply (ends_for_range ok _ 3); [|intros; apply syncResource_ends].
    apply Nat.mul_le_mono_r. unfold ResourceRefs. cbn [pt_SourcePod TranslatePod].
    etrans; [apply volumeRefs_length|]. simpl. by rewrite length_map. }
  intros [e|]; [done|]. destruct (isTerminalPod src).
  { eapply ends_any; [|apply syncHostStatus_ends]. lia. }
  apply (ends_then ok 2 4); [lia|apply ensureHostPod_ends|].
  intros [[c dl] [e|]]; [by destruct (errors_Is e ErrPodTerminating)|apply syncHostStatus_ends].
Qed.

Lemma ListPods_ends ns labels : ends_within ok 1 (ListPodsByLabels hostPods ns labels)
  (fun r => match r with Ok l => length l <= N | Err _ => True end).
Proof.
  change (ListPodsByLabels hostPods) with ListPodsByLabels_. unfold ListPodsByLabels_.
  apply ends_call. intros [items|e] Hr; [|done]. cbn. rewrite length_map. apply Hr.
Qed.

Lemma cleanupOrphans_ends pool r d : ends (1 + N) (cleanupOrphans hostPods pool r d).
Proof.
  unfold cleanupOrphans. eapply (ends_bind ok 1 N); [lia|apply ListPods_ends|].
  intros [pods|e] Hl; [|done]. apply (ends_then ok N 0); [lia| |by intros [|]].
  apply (ends_for_range ok _ 1); [lia|]. intros pod st _. unfold removeOrphan.
  destruct (bool_decide _); [done|]. apply (ends_then ok 1 0); [lia|apply DeletePod_ends|]. work.
Qed.

Lemma ReconcilePool_ends cfg pool : ends (4 + N * (pod_work + 1)) (podExecSvc cfg pool).
Proof.
  unfold podExecSvc, ReconcilePool.
  apply (ends_then ok 1 (3 + N * (pod_work + 1))); [lia|by apply GetClient_ends_within|].
  intros [cs|e]; [|done]. apply (ends_then ok 1 (2 + N * (pod_work + 1))); [lia| |].
  { change (nodes_ListByPool nodeRepo) with ListByPool. unfold ListByPool. work. }
  intros [nodes|e]; [|done].
  eapply (ends_bind ok 1 (1 + N * (pod_work + 1)) _ _ _ (fun r => match r with
    | Ok l => length l <= N /\ Forall (fun p => length (cps_Volumes (cp_Spec p)) <= V) l
    | Err _ => True end)); [lia| |].
  { unfold listTenantPodsForNodes. destruct (_ =? _)%nat; [cbn; split; [lia|done]|].
    apply ends_call. intros [items|e] Hr; [|done]. destruct Hr as [Hl Hv]. cbn. split.
    - etrans; [apply filter_length_le|done].
    - apply List.Forall_forall. intros p Hp%filter_In. destruct Hp as [Hp _].
      by eapply List.Forall_forall in Hv. }
  intros [pods|e] Hp; [|done]. destruct Hp as [Hl Hv].
  apply (ends_then ok (N * pod_work) (1 + N)); [lia| |].
  { apply (ends_for_range ok _ pod_work); [nia|]. intros src st Hin. apply processPod_ends.
    rewrite Forall_forall in Hv. by apply Hv. }
  intros [[r d]|r]; [apply cleanupOrphans_ends|done].
Qed.

Definition podsync_work : nat := 5 + N * (pod_work + 1) + tries * 2.

Lemma updateExecutionConditions_ends ns name a b c d :
  ends (tries * 2) (updateExecutionConditions ns name a b c d).
Proof.
  apply ends_retry; [done|]. unfold executionConditions_attempt, setPodSyncCondition, now.
  apply ends_call. intros [base|err] _; [|work]. cbn -[setPodSyncCondition_at]. intros t _ t' _.
  case_bool_decide; [done|]. intros [e|] _; [|done]. by destruct (isIgnorablePodSyncError e).
Qed.

Lemma ReconcilePodSync_ends cfg ns name : ends podsync_work (podSyncReconciler cfg ns name).
Proof.
  unfold podSyncReconciler, ReconcilePodSync.
  change podsync_work with (S (4 + N * (pod_work + 1) + tries * 2)). apply ends_call.
  intros [cr|e] _; [|done]. destruct (Validate _); [done|]. destruct (deleting _).
  - unfold cleanupDeleted. apply (ends_then ok (1 + N) 0); [nia| |].
    + unfold CleanupPoolPods. eapply (ends_bind ok 1 N); [lia|apply ListPods_ends|].
      intros [pods|e] Hl; [|work]. apply (ends_then ok N 0); [lia| |by intros [|]].
      apply (ends_for_range ok _ 1); [lia|]. intros pod st _. unfold cleanupPod.
      apply (ends_then ok 1 0); [lia|apply DeletePod_ends|]. work.
    + intros [n [e|]]; unfold recordWarning, recordEvent; work.
  - destruct (bool_decide _); [done|]. unfold executePool.
    apply (ends_then ok (4 + N * (pod_work + 1)) (tries * 2)); [lia|apply ReconcilePool_ends|].
    intros [result [e|]].
    + destruct (isIgnorablePodSyncError e); [done|]. unfold recordWarning. do 2 (apply ends_local; [done|]; intros _).
      apply (ends_then ok (tries * 2) 0); [lia|apply updateExecutionConditions_ends|done].
    + unfold recordEvent. do 3 (apply ends_local; [done|]; intros _).
      apply (ends_then ok 0 (tries * 2)); [lia|by destruct (_ || _)|]. intros _.
      apply (ends_then ok (tries * 2) 0); [lia|apply updateExecutionConditions_ends|done].
Qed.
End Small.

(** C19: With [n] more tries of [retry.RetryOnConflict], lists of at most [N]
    objects, pools of at most [N] nodes and pods of at most [V] volumes, every
    request ends: the VNode controller after a constant number of API calls,
    the pool controller after a constant number per node, the pod sync
    controller after a number linear in the pods and their volumes. *)
Theorem reconciliations_end `{L : KubeLibs} {LL : KubeLibsLaws} :
  exists tries, forall (N V : nat) cfg ns name, (Z.of_nat N <= int32_max)%Z ->
  ends_within (fun _ _ _ => True) (12 + 6 * tries) (vnodeReconciler ns name) (fun _ => True) /\
  ends_within (small N V) (3 + N * (15 + 10 * tries) + 4 * tries) (poolReconciler ns name)
    (fun _ => True) /\
  ends_within (small N V) (5 + N * (3 * V + 7) + 2 * tries) (podSyncReconciler cfg ns name)
    (fun _ => True).
Proof.
  destruct RetryOnConflict_loop as [n Hn]. exists (S n). intros N V cfg ns name HN.
  assert (exists k, S n = S k /\ forall fn, RetryOnConflict fn = retry_loop IsConflict k fn)
    as Hr by (by exists n).
  split_and!.
  - eapply ends_mono; [| |by apply (ReconcileVNode_ends _ (S n))]; [|done].
    unfold update_work, save_work. lia.
  - eapply ends_mono; [| |by apply (ReconcileVNodePool_ends N V (S n))]; [|done].
    unfold pool_work, scale_work, provision_work, save_work. lia.
  - eapply ends_mono; [| |by apply (ReconcilePodSync_ends N V (S n))]; [|done].
    unfold podsync_work, pod_work. lia.
Qed.

Lemma reconciliations_end_witness :
  exists tries, ends_within (small 3 2) (5 + 3 * (3 * 2 + 7) + 2 * tries)
    (@podSyncReconciler simple_libs (Default ∅) "ns" "pool") (fun _ => True).
Proof.
  destruct (@reconciliations_end simple_libs simple_libs_laws) as [tries H].
  exists tries. apply (H 3 2 (Default ∅) "ns" "pool"). vm_compute. discriminate.
Defined.
