(* ===== verification/GoHeap.v ===== *)
(** Memory of a Go program, as far as copying needs it: maps, slices and structs
    behind pointers.

    A struct type with pointers is a record over a functor [P]: with [Ptr] it is
    the struct as memory holds it, with [Val] the value it denotes, every pointer
    followed.  [Viewed] relates the two readings ([view]) and says which cells
    the value is made of ([reach]).  A map or slice is a pointer to one cell with
    all its entries; a slice is always a view of its whole array. *)

From S2P Require Import Prelude.

Definition loc : Type := positive.
Inductive Ptr (A : Type) : Type :=
| Nil
| At (l : loc).
Arguments Nil {A}.
Arguments At {A} l.
Definition Val (A : Type) : Type := option A.

Section Memory.
Context {block : Type}.

Local Notation mem := (gmap loc block).

(** The types a cell can hold. *)
Class Stored (A : Type) := {
  cell : A -> block;
  content : block -> option A;
  content_cell : forall a, content (cell a) = Some a;
  cell_content : forall b a, content b = Some a -> b = cell a
}.

(** ** Programs over memory; [None] is a dangling or mistyped pointer. *)
Definition M (A : Type) : Type := mem -> option (A * mem).

Definition done {A} (a : A) : M A := fun h => Some (a, h).
Definition andThen {A B} (m : M A) (k : A -> M B) : M B :=
  fun h => match m h with Some (a, h') => k a h' | None => None end.
Definition load `{Stored A} (l : loc) : M A :=
  fun h => match h !! l ≫= content with Some a => Some (a, h) | None => None end.
Definition alloc `{Stored A} (a : A) : M loc :=
  fun h => let l := fresh (dom h) in Some (l, <[l := cell a]> h).
Fixpoint each {A B} (f : A -> M B) (l : list A) : M (list B) :=
  match l with
  | [] => done []
  | a :: l' => andThen (f a) (fun b => andThen (each f l') (fun bs => done (b :: bs)))
  end.

(** ** Values in memory *)
Class Viewed (A D : Type) := {
  view : mem -> A -> option D;
  reach : mem -> A -> gset loc;
  view_local : forall h h' a d, view h a = Some d ->
    (forall l, l ∈ reach h a -> h' !! l = h !! l) ->
    view h' a = Some d /\ reach h' a = reach h a;
  view_alloc : forall h a d, view h a = Some d -> reach h a ⊆ dom h
}.

(** A type without pointers. *)
#[refine] Global Instance flat_viewed (A : Type) : Viewed A A | 100 := {
  view _ a := Some a;
  reach _ _ := ∅
}.
Proof. all: naive_solver set_solver. Defined.

#[refine] Global Instance pair_viewed `{Viewed A D} `{Viewed B E} : Viewed (A * B) (D * E) | 50 := {
  view h p := match view h p.1, view h p.2 with Some d, Some e => Some (d, e) | _, _ => None end;
  reach h p := reach h p.1 ∪ reach h p.2
}.
Proof.
  - intros h h' [a b] [d e] Hv Hl; simpl in *.
    destruct (view h a) eqn:Ea; [|done]. destruct (view h b) eqn:Eb; simplify_eq.
    destruct (view_local h h' a d Ea) as [-> ->]; [set_solver|].
    destruct (view_local h h' b e Eb) as [-> ->]; [set_solver|done].
  - intros h [a b] [d e] Hv; simpl in *.
    destruct (view h a) eqn:Ea; [|done]. destruct (view h b) eqn:Eb; simplify_eq.
    apply view_alloc in Ea, Eb. set_solver.
Defined.

#[refine] Global Instance list_viewed `{Viewed A D} : Viewed (list A) (list D) | 50 := {
  view h l := mapM (view h) l;
  reach h l := foldr (fun a s => reach h a ∪ s) ∅ l
}.
Proof.
  - intros h h' l; induction l as [|a l IH]; intros d Hv Hl; simpl in *; [done|].
    destruct (view h a) as [da|] eqn:Ea; [|done]. simpl in Hv.
    destruct (mapM (view h) l) as [dl|] eqn:El; simplify_eq/=.
    destruct (view_local h h' a da Ea) as [-> ->]; [set_solver|]. simpl.
    destruct (IH dl eq_refl) as [-> ->]; [set_solver|done].
  - intros h l; induction l as [|a l IH]; intros d Hv; simpl in *; [set_solver|].
    destruct (view h a) as [da|] eqn:Ea; [|done]. simpl in Hv.
    destruct (mapM (view h) l) as [dl|] eqn:El; simplify_eq/=.
    apply view_alloc in Ea. specialize (IH _ eq_refl). set_solver.
Defined.

(** A pointer, with what lies behind it. *)
Definition ptr_view `{Stored A, Viewed A D} (h : mem) (p : Ptr A) : option (Val D) :=
  match p with
  | Nil => Some None
  | At l => match h !! l ≫= content with Some a => Some <$> view h a | None => None end
  end.

Definition ptr_reach `{Stored A, Viewed A D} (h : mem) (p : Ptr A) : gset loc :=
  match p with
  | Nil => ∅
  | At l => {[l]} ∪ match h !! l ≫= content with Some a => reach h a | None => ∅ end
  end.

Lemma ptr_view_At `{Stored A, Viewed A D} (h : mem) (l : loc) (v : Val D) :
  ptr_view h (At l : Ptr A) = Some v ->
  exists a d, h !! l ≫= content = Some a /\ view h a = Some d /\ v = Some d.
Proof.
  simpl. intros Hv. destruct (h !! l ≫= content) as [a|]; [|done].
  apply fmap_Some in Hv as (d & Hd & ->). by exists a, d.
Qed.

#[refine] Global Instance ptr_viewed `{Stored A, Viewed A D} : Viewed (Ptr A) (Val D) := {
  view := ptr_view;
  reach := ptr_reach
}.
Proof.
  - intros h h' [|l] v Hv Hl; [done|].
    apply ptr_view_At in Hv as (a & d & Ha & Hd & ->).
    simpl in *. rewrite Ha in Hl |- *.
    rewrite (Hl l) by (apply elem_of_union_l; by apply elem_of_singleton). rewrite Ha.
    destruct (view_local h h' a d Hd) as [-> ->]; [|done].
    intros k Hk. by apply Hl, elem_of_union_r.
  - intros h [|l] v Hv; [apply empty_subseteq|].
    apply ptr_view_At in Hv as (a & d & Ha & Hd & ->).
    simpl. rewrite Ha. apply view_alloc in Hd.
    destruct (h !! l) eqn:El; [|done]. apply elem_of_dom_2 in El. set_solver.
Defined.

(** A record read through the tuple of its fields. *)
#[refine] Definition record_viewed {R RD A D} (fields : R -> A) (build : D -> RD)
  `{Viewed A D} : Viewed R RD := {|
  view h r := build <$> view h (fields r);
  reach h r := reach h (fields r)
|}.
Proof.
  - intros h h' r d Hv Hl. apply fmap_Some in Hv as (d' & Hv & ->).
    destruct (view_local h h' _ d' Hv Hl) as [-> ->]. done.
  - intros h r d Hv. apply fmap_Some in Hv as (d' & Hv & ->). by apply view_alloc in Hv.
Defined.

Lemma view_extend `{Viewed A D} (h h' : mem) (a : A) (d : D) :
  view h a = Some d -> h ⊆ h' -> view h' a = Some d /\ reach h' a = reach h a.
Proof.
  intros Hv Hsub. apply (view_local h h' a d Hv). intros l Hl.
  apply (view_alloc h a d Hv), elem_of_dom in Hl as [b Hb].
  rewrite Hb. by apply (lookup_weaken h h').
Qed.

(** ** Copies *)

(** Which cells of its argument the result of a copier may keep. *)
Definition sharing (A : Type) : Type := mem -> A -> gset loc.

(** [S] depends only on the cells of its argument and is part of them. *)
Definition local_sharing `{Viewed A D} (S : sharing A) : Prop :=
  forall h a d, view h a = Some d ->
  S h a ⊆ reach h a /\ forall h', h ⊆ h' -> S h' a = S h a.

(** [a'] in memory [h'] has the value [d], and of the cells of [h] exactly [s]. *)
Definition copy_of `{Viewed A D} (h h' : mem) (a' : A) (d : D) (s : gset loc) : Prop :=
  view h' a' = Some d /\ reach h' a' ∩ dom h = s.

(** A function that copies all but the cells [S]: it ends, writes to no cell
    that existed before, and its result has the value of its argument and of the
    cells that existed before exactly those in [S]. *)
Definition copies `{Viewed A D} (S : sharing A) (f : A -> M A) : Prop :=
  local_sharing S /\
  forall h a d, view h a = Some d ->
  exists a' h', f a h = Some (a', h') /\ h ⊆ h' /\ copy_of h h' a' d (S h a).

Definition nothing {A} : sharing A := fun _ _ => ∅.
Definition deep_copier `{Viewed A D} (f : A -> M A) : Prop := copies nothing f.

Lemma copy_of_extend `{Viewed A D} (h0 h h' : mem) (a : A) (d : D) s :
  copy_of h0 h a d s -> h ⊆ h' -> copy_of h0 h' a d s.
Proof.
  intros [Hv Hr] Hsub. destruct (view_extend _ _ _ _ Hv Hsub) as [Hv' Hr'].
  split; [done|]. by rewrite Hr'.
Qed.

(** A copier run later, relative to the memory the whole copy began with. *)
Lemma copies_from `{Viewed A D} (S : sharing A) (f : A -> M A) (h0 h : mem) (a : A) (d : D) :
  copies S f -> view h0 a = Some d -> h0 ⊆ h ->
  exists a' h', f a h = Some (a', h') /\ h ⊆ h' /\ copy_of h0 h' a' d (S h0 a).
Proof.
  intros [HS Hf] Hv Hsub. destruct (view_extend _ _ _ _ Hv Hsub) as [Hv' _].
  destruct (Hf h a d Hv') as (a' & h' & ? & ? & ? & Hr). exists a', h'.
  do 3 (split; [done|]). destruct (HS h0 a d Hv) as [Hin Hst]. rewrite (Hst h Hsub) in Hr.
  pose proof (view_alloc _ _ _ Hv). apply subseteq_dom in Hsub. set_solver.
Qed.

Lemma copies_sharing `{Viewed A D} (S T : sharing A) (f : A -> M A) :
  (forall h a, S h a = T h a) -> copies S f -> copies T f.
Proof.
  intros HST [HS Hf]. split; intros h a d Hv.
  - destruct (HS h a d Hv) as [? Hst]. rewrite <- HST. split; [done|].
    intros h' Hh. rewrite <- HST. by apply Hst.
  - rewrite <- HST. by apply Hf.
Qed.

Lemma copies_ext `{Viewed A D} (S : sharing A) (f g : A -> M A) :
  (forall a h, g a h = f a h) -> copies S f -> copies S g.
Proof. intros E [HS Hf]. split; [done|]. intros h a d Hv. rewrite E. by apply Hf. Qed.

(** An assignment copies nothing that lies behind a pointer. *)
Lemma done_copies `{Viewed A D} : copies (A := A) reach done.
Proof.
  split; intros h a d Hv.
  - split; [done|]. intros h' Hh. by apply (view_extend h h' a d).
  - exists a, h. do 3 (split; [done|]). apply view_alloc in Hv. set_solver.
Qed.

Lemma flat_copier {A} : deep_copier (A := A) (D := A) done.
Proof. by apply (copies_sharing reach), done_copies. Qed.

(** ** Copying the parts of a value *)
Definition both {A B} (f : A -> M A) (g : B -> M B) (p : A * B) : M (A * B) :=
  andThen (f p.1) (fun a => andThen (g p.2) (fun b => done (a, b))).

Lemma both_copies `{Viewed A D, Viewed B E} (S : sharing A) (T : sharing B) f g :
  copies S f -> copies T g -> copies (fun h p => S h p.1 ∪ T h p.2) (both f g).
Proof.
  intros Hf Hg. split; intros h [a b] [d e] Hv; simpl in Hv;
    destruct (view h a) as [da|] eqn:Ea; try done;
    destruct (view h b) as [eb|] eqn:Eb; simplify_eq.
  - destruct (proj1 Hf h a d Ea) as [HSi HSt], (proj1 Hg h b e Eb) as [HTi HTt]. simpl.
    split; [set_solver|]. intros h' Hh. by rewrite HSt, HTt.
  - destruct (copies_from S f h h a d Hf Ea) as (a' & h1 & Hr1 & Hs1 & Hc1); [done|].
    destruct (copies_from T g h h1 b e Hg Eb Hs1) as (b' & h2 & Hr2 & Hs2 & [Hvb Hrb]).
    destruct (copy_of_extend _ _ _ _ _ _ Hc1 Hs2) as [Hva Hra].
    exists (a', b'), h2. unfold both, andThen. simpl. rewrite Hr1, Hr2.
    split; [done|]. split; [by etrans|]. split; simpl; [by rewrite Hva, Hvb|set_solver].
Qed.

Definition each_sharing {A} (S : sharing A) : sharing (list A) :=
  fun h l => foldr (fun a s => S h a ∪ s) ∅ l.

Lemma each_copies `{Viewed A D} (S : sharing A) f :
  copies S f -> copies (each_sharing S) (each f).
Proof.
  intros Hf. cut (forall l h d, view h l = Some d ->
    (each_sharing S h l ⊆ reach h l /\
       forall h', h ⊆ h' -> each_sharing S h' l = each_sharing S h l) /\
    forall h', h ⊆ h' -> exists l' h2, each f l h' = Some (l', h2) /\ h' ⊆ h2 /\
      copy_of h h2 l' d (each_sharing S h l)).
  { intros C. split; intros h l d Hv; [by apply C with d|by apply C]. }
  induction l as [|a l IH]; intros h d Hv; simpl in Hv.
  - split; [done|]. intros h' Hh. exists [], h'. simplify_eq. do 3 (split; [done|]). simpl. set_solver.
  - destruct (view h a) as [da|] eqn:Ea; [|done]. simpl in Hv.
    destruct (mapM (view h) l) as [dl|] eqn:El; [|done]. injection Hv as <-.
    destruct (IH h dl El) as [[HSi HSt] Hc], (proj1 Hf h a da Ea) as [Hai Hat]. simpl.
    split; [split; [set_solver|]; intros h' Hh; by rewrite Hat, HSt|].
    intros h' Hh.
    destruct (copies_from S f h h' a da Hf Ea Hh) as (a' & h1 & Hr1 & Hs1 & Hc1).
    destruct (Hc h1) as (l' & h2 & Hr2 & Hs2 & [Hvl Hrl]); [by etrans|].
    destruct (copy_of_extend _ _ _ _ _ _ Hc1 Hs2) as [Hva Hra].
    exists (a' :: l'), h2. unfold andThen. rewrite Hr1, Hr2.
    split; [done|]. split; [by etrans|]. simpl in *.
    split; simpl; [by rewrite Hva; simpl; rewrite Hvl|set_solver].
Qed.

(** [if in != nil { out = new copy of *in }]: the shape of every nested copy
    and of every [DeepCopy] method. *)
Definition copy_behind `{Stored A} (f : A -> M A) (p : Ptr A) : M (Ptr A) :=
  match p with
  | Nil => done Nil
  | At l => andThen (load l) (fun a => andThen (f a) (fun a' =>
             andThen (alloc a') (fun l' => done (At l'))))
  end.

Definition behind `{Stored A} (S : sharing A) : sharing (Ptr A) :=
  fun h p => match p with
             | Nil => ∅
             | At l => match h !! l ≫= content with Some a => S h a | None => ∅ end
             end.

Lemma alloc_fresh `{Stored A} (h : mem) (a : A) :
  exists l, alloc a h = Some (l, <[l := cell a]> h) /\ l ∉ dom h /\ h ⊆ <[l := cell a]> h.
Proof.
  exists (fresh (dom h)). split; [done|]. pose proof (is_fresh (dom h)) as Hf. split; [done|].
  apply insert_subseteq, not_elem_of_dom, Hf.
Qed.

Lemma content_extend `{Stored A} (h h' : mem) (l : loc) (a : A) :
  h !! l ≫= content = Some a -> h ⊆ h' -> h' !! l ≫= content = Some a.
Proof.
  intros Ha Hh. destruct (h !! l) as [b|] eqn:El; [|done].
  by rewrite (lookup_weaken _ _ _ _ El Hh).
Qed.

Lemma copy_behind_copies `{Stored A, Viewed A D} (S : sharing A) (f : A -> M A) :
  copies S f -> copies (behind S) (copy_behind f).
Proof.
  intros Hf. split; intros h [|l] v Hv.
  - split; [apply empty_subseteq|done].
  - apply ptr_view_At in Hv as (a & d & Ha & Hd & ->).
    destruct (proj1 Hf h a d Hd) as [Hi Hst]. simpl. rewrite Ha.
    split; [set_solver|]. intros h' Hh. rewrite (content_extend _ _ _ _ Ha Hh). by apply Hst.
  - exists Nil, h. do 3 (split; [done|]). simpl. set_solver.
  - apply ptr_view_At in Hv as (a & d & Ha & Hd & ->).
    destruct (proj2 Hf h a d Hd) as (a' & h1 & Hr & Hs & Hc).
    destruct (alloc_fresh h1 a') as (l' & Hal & Hl' & Hs').
    exists (At l'), (<[l' := cell a']> h1). unfold copy_behind, andThen, load.
    rewrite Ha, Hr, Hal. split; [done|]. split; [by etrans|].
    destruct (copy_of_extend _ _ _ _ _ _ Hc Hs') as [Hva Hra].
    split; simpl; rewrite lookup_insert_eq; simpl; rewrite content_cell; [by rewrite Hva|].
    rewrite Ha. apply subseteq_dom in Hs. set_solver.
Qed.

(** A record, field by field. *)
Lemma record_copies {R RD A D} (fields : R -> A) (build : D -> RD) (put : A -> R)
  `{V : Viewed A D} (S : sharing A) (f : A -> M A) :
  (forall t, fields (put t) = t) -> copies S f ->
  @copies R RD (record_viewed fields build) (fun h r => S h (fields r))
    (fun r => andThen (f (fields r)) (fun t => done (put t))).
Proof.
  intros Hput [HS Hf]. split; intros h r d Hv; simpl in Hv;
    apply fmap_Some in Hv as (d' & Hv & ->).
  - apply (HS h (fields r) d' Hv).
  - destruct (Hf h _ d' Hv) as (t & h' & Hr & Hs & [Hvt Hrt]).
    exists (put t), h'. unfold andThen. rewrite Hr. do 2 (split; [done|]).
    split; simpl; rewrite Hput; [by rewrite Hvt|done].
Qed.

(** Nothing shared by the elements is nothing shared by the slice. *)
Lemma each_nothing {A} (S : sharing A) (h : mem) (l : list A) :
  (forall a, S h a = ∅) -> each_sharing S h l = ∅.
Proof. intros HS. induction l as [|a l IH]; simpl; [done|]. rewrite HS, IH. set_solver. Qed.

Lemma behind_nothing `{Stored A} (S : sharing A) (h : mem) (p : Ptr A) :
  (forall a, S h a = ∅) -> behind S h p = ∅.
Proof. intros HS. destruct p as [|l]; simpl; [done|]. by destruct (h !! l ≫= content). Qed.

(** ** What kinds of cells a value is made of *)
Definition made_of (T : block -> bool) (A : Type) {D : Type} `{Viewed A D} : Prop :=
  forall h a d, view h a = Some d -> forall l, l ∈ reach h a -> exists b, h !! l = Some b /\ T b.

Lemma made_of_flat T {A : Type} : made_of T A (D := A).
Proof. intros h a d _ l Hl. simpl in Hl. set_solver. Qed.

Lemma made_of_pair T `{Viewed A D, Viewed B E} :
  made_of T A -> made_of T B -> made_of T (A * B).
Proof.
  intros HA HB h [a b] [d e] Hv l Hl. simpl in *.
  destruct (view h a) eqn:Ea; [|done]. destruct (view h b) eqn:Eb; [|done].
  apply elem_of_union in Hl as []; eauto.
Qed.

Lemma made_of_list T `{Viewed A D} : made_of T A -> made_of T (list A).
Proof.
  intros HA h l. induction l as [|a l IH]; intros d Hv k Hk; simpl in Hv, Hk; [set_solver|].
  destruct (view h a) as [da|] eqn:Ea; [|done]. simpl in Hv.
  destruct (mapM (view h) l) as [dl|] eqn:El; [|done].
  apply elem_of_union in Hk as [Hk|Hk]; eauto.
Qed.

Lemma made_of_ptr (T : block -> bool) `{Stored A, Viewed A D} :
  (forall a, T (cell a)) -> made_of T A -> made_of T (Ptr A).
Proof.
  intros HT HA h [|l] v Hv k Hk; [simpl in Hk; set_solver|].
  apply ptr_view_At in Hv as (a & d & Hc & Hd & ->). simpl in Hk. rewrite Hc in Hk.
  apply elem_of_union in Hk as [->%elem_of_singleton|Hk]; [|by apply (HA h a d)].
  destruct (h !! l) as [b|] eqn:Eb; [|done]. exists b. split; [done|].
  by rewrite (cell_content b a).
Qed.

Lemma made_of_record T {R RD A D} (fields : R -> A) (build : D -> RD) `{Viewed A D} :
  made_of T A -> @made_of T R RD (record_viewed fields build).
Proof. intros HA h r d Hv. apply fmap_Some in Hv as (e & Hv & _). by apply (HA h _ e). Qed.

(** ** What a copy is for *)

(** Writes through a deep copy never show in the original, and writes to what
    existed before never show in the copy. *)
Lemma deep_copy_independent `{Viewed A D} (h h' : mem) (a a' : A) (d : D) :
  view h a = Some d -> h ⊆ h' -> copy_of h h' a' d ∅ ->
  (forall h2, (forall l, l ∉ reach h' a' -> h2 !! l = h' !! l) -> view h2 a = Some d) /\
  (forall h2, (forall l, l ∉ dom h -> h2 !! l = h' !! l) -> view h2 a' = Some d).
Proof.
  intros Hv Hsub [Hv' Hr]. destruct (view_extend _ _ _ _ Hv Hsub) as [Hv1 Hr1].
  pose proof (view_alloc _ _ _ Hv). split; intros h2 Hh2.
  - apply (view_local h' h2 a d Hv1). intros l Hl. apply Hh2. set_solver.
  - apply (view_local h' h2 a' d Hv'). intros l Hl. apply Hh2. set_solver.
Qed.
End Memory.

Arguments M : clear implicits.
#[export] Instance M_bind (block : Type) : MBind (M block) := fun _ _ k m => andThen m k.
#[global] Arguments copy_behind : simpl never.
