(* ===== verification/DeepCopy.v ===== *)
(** The deep copies of the custom resources (api/v1alpha1/zz_generated.deepcopy.go,
    which says it is written by hand).

    [DeepCopyInto(out)] overwrites the struct behind [out]; here it returns that
    struct.  The same method of library types (ObjectMeta, ListMeta, Toleration,
    Condition) is a parameter that copies deeply, as its documentation says. *)

From S2P Require Import Prelude GoHeap Kube.

(** ** The structs, over the reading of their pointers *)
Record TypeMeta : Type := mkTypeMeta { tm_Kind : string; tm_APIVersion : string }.

Record MetaOf (P : Type -> Type) : Type := mkMetaOf {
  mo_Name : string;
  mo_Namespace : string;
  mo_UID : string;
  mo_ResourceVersion : string;
  mo_CreationTimestamp : Z;
  mo_Labels : P (gmap string string);
  mo_Annotations : P (gmap string string);
  mo_Finalizers : P (list string);
  mo_DeletionTimestamp : P Z
}.

Record ListMetaOf (P : Type -> Type) : Type := mkListMetaOf {
  lm_ResourceVersion : string;
  lm_Continue : string;
  lm_RemainingItemCount : P Z
}.

Record TaintOf (P : Type -> Type) : Type := mkTaintOf {
  tao_Key : string;
  tao_Value : string;
  tao_Effect : string;
  tao_TimeAdded : P Z
}.

Record TolerationOf (P : Type -> Type) : Type := mkTolerationOf {
  too_Key : string;
  too_Operator : string;
  too_Value : string;
  too_Effect : string;
  too_TolerationSeconds : P Z
}.

(** The fields of a pool spec without pointers. *)
Record SpecScalars : Type := mkSpecScalars {
  ss_TenantRef : APITenantRef;
  ss_NodeCount : Z;
  ss_PerNodeResources : NodeResources;
  ss_Mode : string;
  ss_IsolationBackend : string;
  ss_RuntimeClassName : string;
  ss_DisplayName : string
}.

Record PoolSpecOf (P : Type -> Type) : Type := mkPoolSpecOf {
  pso_Scalars : SpecScalars;
  pso_NodeSelector : P (gmap string string);
  pso_Taints : P (list (TaintOf P));
  pso_Tolerations : P (list (TolerationOf P))
}.

Record PoolStatusOf (P : Type -> Type) : Type := mkPoolStatusOf {
  pto_Phase : string;
  pto_ReadyNodes : Z;
  pto_TotalNodes : Z;
  pto_Conditions : P (list Condition)
}.

Record PoolOf (P : Type -> Type) : Type := mkPoolOf {
  po_TypeMeta : TypeMeta;
  po_Meta : MetaOf P;
  po_Spec : PoolSpecOf P;
  po_Status : PoolStatusOf P
}.

Record PoolListOf (P : Type -> Type) : Type := mkPoolListOf {
  pl_TypeMeta : TypeMeta;
  pl_ListMeta : ListMetaOf P;
  pl_Items : P (list (PoolOf P))
}.

Record NodeStatusOf (P : Type -> Type) : Type := mkNodeStatusOf {
  nto_Phase : string;
  nto_Conditions : P (list Condition)
}.

Record NodeOf (P : Type -> Type) : Type := mkNodeOf {
  no_TypeMeta : TypeMeta;
  no_Meta : MetaOf P;
  no_Spec : VNodeSpec;
  no_Status : NodeStatusOf P
}.

Record NodeListOf (P : Type -> Type) : Type := mkNodeListOf {
  nl_TypeMeta : TypeMeta;
  nl_ListMeta : ListMetaOf P;
  nl_Items : P (list (NodeOf P))
}.

Arguments mkMetaOf {P}.
Arguments mo_Name {P}.
Arguments mo_Namespace {P}.
Arguments mo_UID {P}.
Arguments mo_ResourceVersion {P}.
Arguments mo_CreationTimestamp {P}.
Arguments mo_Labels {P}.
Arguments mo_Annotations {P}.
Arguments mo_Finalizers {P}.
Arguments mo_DeletionTimestamp {P}.
Arguments mkListMetaOf {P}.
Arguments lm_ResourceVersion {P}.
Arguments lm_Continue {P}.
Arguments lm_RemainingItemCount {P}.
Arguments mkTaintOf {P}.
Arguments tao_Key {P}.
Arguments tao_Value {P}.
Arguments tao_Effect {P}.
Arguments tao_TimeAdded {P}.
Arguments mkTolerationOf {P}.
Arguments too_Key {P}.
Arguments too_Operator {P}.
Arguments too_Value {P}.
Arguments too_Effect {P}.
Arguments too_TolerationSeconds {P}.
Arguments mkPoolSpecOf {P}.
Arguments pso_Scalars {P}.
Arguments pso_NodeSelector {P}.
Arguments pso_Taints {P}.
Arguments pso_Tolerations {P}.
Arguments mkPoolStatusOf {P}.
Arguments pto_Phase {P}.
Arguments pto_ReadyNodes {P}.
Arguments pto_TotalNodes {P}.
Arguments pto_Conditions {P}.
Arguments mkPoolOf {P}.
Arguments po_TypeMeta {P}.
Arguments po_Meta {P}.
Arguments po_Spec {P}.
Arguments po_Status {P}.
Arguments mkPoolListOf {P}.
Arguments pl_TypeMeta {P}.
Arguments pl_ListMeta {P}.
Arguments pl_Items {P}.
Arguments mkNodeStatusOf {P}.
Arguments nto_Phase {P}.
Arguments nto_Conditions {P}.
Arguments mkNodeOf {P}.
Arguments no_TypeMeta {P}.
Arguments no_Meta {P}.
Arguments no_Spec {P}.
Arguments no_Status {P}.
Arguments mkNodeListOf {P}.
Arguments nl_TypeMeta {P}.
Arguments nl_ListMeta {P}.
Arguments nl_Items {P}.

(** ** Memory: what a cell holds. *)
Inductive block : Type :=
| BStrings (x : gmap string string)
| BNames (x : list string)
| BInt (x : Z)
| BTaints (x : list (TaintOf Ptr))
| BTolerations (x : list (TolerationOf Ptr))
| BConditions (x : list Condition)
| BPool (x : PoolOf Ptr)
| BPools (x : list (PoolOf Ptr))
| BPoolList (x : PoolListOf Ptr)
| BPoolSpec (x : PoolSpecOf Ptr)
| BPoolStatus (x : PoolStatusOf Ptr)
| BNode (x : NodeOf Ptr)
| BNodes (x : list (NodeOf Ptr))
| BNodeList (x : NodeListOf Ptr)
| BNodeSpec (x : VNodeSpec)
| BNodeStatus (x : NodeStatusOf Ptr)
| BTenantRef (x : APITenantRef)
| BNodeResources (x : NodeResources).

#[export] Instance BStrings_stored : Stored (block := block) (gmap string string) := {|
  cell := BStrings; content b := match b with BStrings x => Some x | _ => None end; content_cell _ := eq_refl;
  cell_content b a := ltac:(by destruct b; intros; simplify_eq) |}.
#[export] Instance BNames_stored : Stored (block := block) (list string) := {|
  cell := BNames; content b := match b with BNames x => Some x | _ => None end; content_cell _ := eq_refl;
  cell_content b a := ltac:(by destruct b; intros; simplify_eq) |}.
#[export] Instance BInt_stored : Stored (block := block) (Z) := {|
  cell := BInt; content b := match b with BInt x => Some x | _ => None end; content_cell _ := eq_refl;
  cell_content b a := ltac:(by destruct b; intros; simplify_eq) |}.
#[export] Instance BTaints_stored : Stored (block := block) (list (TaintOf Ptr)) := {|
  cell := BTaints; content b := match b with BTaints x => Some x | _ => None end; content_cell _ := eq_refl;
  cell_content b a := ltac:(by destruct b; intros; simplify_eq) |}.
#[export] Instance BTolerations_stored : Stored (block := block) (list (TolerationOf Ptr)) := {|
  cell := BTolerations; content b := match b with BTolerations x => Some x | _ => None end; content_cell _ := eq_refl;
  cell_content b a := ltac:(by destruct b; intros; simplify_eq) |}.
#[export] Instance BConditions_stored : Stored (block := block) (list Condition) := {|
  cell := BConditions; content b := match b with BConditions x => Some x | _ => None end; content_cell _ := eq_refl;
  cell_content b a := ltac:(by destruct b; intros; simplify_eq) |}.
#[export] Instance BPool_stored : Stored (block := block) (PoolOf Ptr) := {|
  cell := BPool; content b := match b with BPool x => Some x | _ => None end; content_cell _ := eq_refl;
  cell_content b a := ltac:(by destruct b; intros; simplify_eq) |}.
#[export] Instance BPools_stored : Stored (block := block) (list (PoolOf Ptr)) := {|
  cell := BPools; content b := match b with BPools x => Some x | _ => None end; content_cell _ := eq_refl;
  cell_content b a := ltac:(by destruct b; intros; simplify_eq) |}.
#[export] Instance BPoolList_stored : Stored (block := block) (PoolListOf Ptr) := {|
  cell := BPoolList; content b := match b with BPoolList x => Some x | _ => None end; content_cell _ := eq_refl;
  cell_content b a := ltac:(by destruct b; intros; simplify_eq) |}.
#[export] Instance BPoolSpec_stored : Stored (block := block) (PoolSpecOf Ptr) := {|
  cell := BPoolSpec; content b := match b with BPoolSpec x => Some x | _ => None end; content_cell _ := eq_refl;
  cell_content b a := ltac:(by destruct b; intros; simplify_eq) |}.
#[export] Instance BPoolStatus_stored : Stored (block := block) (PoolStatusOf Ptr) := {|
  cell := BPoolStatus; content b := match b with BPoolStatus x => Some x | _ => None end; content_cell _ := eq_refl;
  cell_content b a := ltac:(by destruct b; intros; simplify_eq) |}.
#[export] Instance BNode_stored : Stored (block := block) (NodeOf Ptr) := {|
  cell := BNode; content b := match b with BNode x => Some x | _ => None end; content_cell _ := eq_refl;
  cell_content b a := ltac:(by destruct b; intros; simplify_eq) |}.
#[export] Instance BNodes_stored : Stored (block := block) (list (NodeOf Ptr)) := {|
  cell := BNodes; content b := match b with BNodes x => Some x | _ => None end; content_cell _ := eq_refl;
  cell_content b a := ltac:(by destruct b; intros; simplify_eq) |}.
#[export] Instance BNodeList_stored : Stored (block := block) (NodeListOf Ptr) := {|
  cell := BNodeList; content b := match b with BNodeList x => Some x | _ => None end; content_cell _ := eq_refl;
  cell_content b a := ltac:(by destruct b; intros; simplify_eq) |}.
#[export] Instance BNodeSpec_stored : Stored (block := block) (VNodeSpec) := {|
  cell := BNodeSpec; content b := match b with BNodeSpec x => Some x | _ => None end; content_cell _ := eq_refl;
  cell_content b a := ltac:(by destruct b; intros; simplify_eq) |}.
#[export] Instance BNodeStatus_stored : Stored (block := block) (NodeStatusOf Ptr) := {|
  cell := BNodeStatus; content b := match b with BNodeStatus x => Some x | _ => None end; content_cell _ := eq_refl;
  cell_content b a := ltac:(by destruct b; intros; simplify_eq) |}.
#[export] Instance BTenantRef_stored : Stored (block := block) (APITenantRef) := {|
  cell := BTenantRef; content b := match b with BTenantRef x => Some x | _ => None end; content_cell _ := eq_refl;
  cell_content b a := ltac:(by destruct b; intros; simplify_eq) |}.
#[export] Instance BNodeResources_stored : Stored (block := block) (NodeResources) := {|
  cell := BNodeResources; content b := match b with BNodeResources x => Some x | _ => None end; content_cell _ := eq_refl;
  cell_content b a := ltac:(by destruct b; intros; simplify_eq) |}.

(** ** The fields of each struct, and the value it denotes *)
Definition meta_scalars {P : Type -> Type} (m : MetaOf P) : string * string * string * string * Z :=
  (mo_Name m, mo_Namespace m, mo_UID m, mo_ResourceVersion m, mo_CreationTimestamp m).
Definition meta_fields {P : Type -> Type} (m : MetaOf P) :=
  (meta_scalars m, (mo_Labels m, (mo_Annotations m, (mo_Finalizers m, mo_DeletionTimestamp m)))).
Definition meta_build {P : Type -> Type} (t : (string * string * string * string * Z) *
    (P (gmap string string) * (P (gmap string string) * (P (list string) * P Z)))) : MetaOf P :=
  let '((n, ns, u, v, c), (l, (a, (f, d)))) := t in mkMetaOf n ns u v c l a f d.

Definition list_meta_fields {P : Type -> Type} (m : ListMetaOf P) :=
  ((lm_ResourceVersion m, lm_Continue m), lm_RemainingItemCount m).
Definition list_meta_build {P : Type -> Type} (t : (string * string) * P Z) : ListMetaOf P :=
  mkListMetaOf t.1.1 t.1.2 t.2.

Definition taint_fields {P : Type -> Type} (t : TaintOf P) := ((tao_Key t, tao_Value t, tao_Effect t), tao_TimeAdded t).
Definition taint_build {P : Type -> Type} (t : (string * string * string) * P Z) : TaintOf P :=
  mkTaintOf t.1.1.1 t.1.1.2 t.1.2 t.2.

Definition toleration_fields {P : Type -> Type} (t : TolerationOf P) :=
  ((too_Key t, too_Operator t, too_Value t, too_Effect t), too_TolerationSeconds t).
Definition toleration_build {P : Type -> Type}
  (t : (string * string * string * string) * P Z) : TolerationOf P :=
  mkTolerationOf t.1.1.1.1 t.1.1.1.2 t.1.1.2 t.1.2 t.2.

Definition spec_fields {P : Type -> Type} (s : PoolSpecOf P) :=
  (pso_Scalars s, (pso_NodeSelector s, (pso_Taints s, pso_Tolerations s))).
Definition spec_build {P : Type -> Type} (t : SpecScalars * (P (gmap string string) *
    (P (list (TaintOf P)) * P (list (TolerationOf P))))) : PoolSpecOf P :=
  mkPoolSpecOf t.1 t.2.1 t.2.2.1 t.2.2.2.

Definition pool_status_fields {P : Type -> Type} (s : PoolStatusOf P) :=
  ((pto_Phase s, pto_ReadyNodes s, pto_TotalNodes s), pto_Conditions s).
Definition pool_status_build {P : Type -> Type}
  (t : (string * Z * Z) * P (list Condition)) : PoolStatusOf P :=
  mkPoolStatusOf t.1.1.1 t.1.1.2 t.1.2 t.2.

Definition pool_fields {P : Type -> Type} (p : PoolOf P) := (po_TypeMeta p, (po_Meta p, (po_Spec p, po_Status p))).
Definition pool_build {P : Type -> Type}
  (t : TypeMeta * (MetaOf P * (PoolSpecOf P * PoolStatusOf P))) : PoolOf P :=
  mkPoolOf t.1 t.2.1 t.2.2.1 t.2.2.2.

Definition pool_list_fields {P : Type -> Type} (l : PoolListOf P) := (pl_TypeMeta l, (pl_ListMeta l, pl_Items l)).
Definition pool_list_build {P : Type -> Type}
  (t : TypeMeta * (ListMetaOf P * P (list (PoolOf P)))) : PoolListOf P :=
  mkPoolListOf t.1 t.2.1 t.2.2.

Definition node_status_fields {P : Type -> Type} (s : NodeStatusOf P) := (nto_Phase s, nto_Conditions s).
Definition node_status_build {P : Type -> Type} (t : string * P (list Condition)) : NodeStatusOf P :=
  mkNodeStatusOf t.1 t.2.

Definition node_fields {P : Type -> Type} (n : NodeOf P) := ((no_TypeMeta n, no_Spec n), (no_Meta n, no_Status n)).
Definition node_build {P : Type -> Type}
  (t : (TypeMeta * VNodeSpec) * (MetaOf P * NodeStatusOf P)) : NodeOf P :=
  mkNodeOf t.1.1 t.2.1 t.1.2 t.2.2.

Definition node_list_fields {P : Type -> Type} (l : NodeListOf P) := (nl_TypeMeta l, (nl_ListMeta l, nl_Items l)).
Definition node_list_build {P : Type -> Type}
  (t : TypeMeta * (ListMetaOf P * P (list (NodeOf P)))) : NodeListOf P :=
  mkNodeListOf t.1 t.2.1 t.2.2.

#[export] Instance meta_viewed : Viewed (block := block) (MetaOf Ptr) (MetaOf Val) :=
  record_viewed meta_fields (meta_build (P := Val)).
#[export] Instance list_meta_viewed : Viewed (block := block) (ListMetaOf Ptr) (ListMetaOf Val) :=
  record_viewed list_meta_fields (list_meta_build (P := Val)).
#[export] Instance taint_viewed : Viewed (block := block) (TaintOf Ptr) (TaintOf Val) :=
  record_viewed taint_fields (taint_build (P := Val)).
#[export] Instance toleration_viewed : Viewed (block := block) (TolerationOf Ptr) (TolerationOf Val) :=
  record_viewed toleration_fields (toleration_build (P := Val)).
#[export] Instance pool_spec_viewed : Viewed (block := block) (PoolSpecOf Ptr) (PoolSpecOf Val) :=
  record_viewed spec_fields (spec_build (P := Val)).
#[export] Instance pool_status_viewed : Viewed (block := block) (PoolStatusOf Ptr) (PoolStatusOf Val) :=
  record_viewed pool_status_fields (pool_status_build (P := Val)).
#[export] Instance pool_viewed : Viewed (block := block) (PoolOf Ptr) (PoolOf Val) :=
  record_viewed pool_fields (pool_build (P := Val)).
#[export] Instance pool_list_viewed : Viewed (block := block) (PoolListOf Ptr) (PoolListOf Val) :=
  record_viewed pool_list_fields (pool_list_build (P := Val)).
#[export] Instance node_status_viewed : Viewed (block := block) (NodeStatusOf Ptr) (NodeStatusOf Val) :=
  record_viewed node_status_fields (node_status_build (P := Val)).
#[export] Instance node_viewed : Viewed (block := block) (NodeOf Ptr) (NodeOf Val) :=
  record_viewed node_fields (node_build (P := Val)).
#[export] Instance node_list_viewed : Viewed (block := block) (NodeListOf Ptr) (NodeListOf Val) :=
  record_viewed node_list_fields (node_list_build (P := Val)).

(** ** The copying methods *)

(** [DeepCopyInto] of the library types. *)
Class LibraryCopies := {
  ObjectMeta_DeepCopyInto : MetaOf Ptr -> M block (MetaOf Ptr);
  ListMeta_DeepCopyInto : ListMetaOf Ptr -> M block (ListMetaOf Ptr);
  Toleration_DeepCopyInto : TolerationOf Ptr -> M block (TolerationOf Ptr);
  Condition_DeepCopyInto : Condition -> M block Condition
}.

Class LibraryCopiesLaws `{LibraryCopies} : Prop := {
  ObjectMeta_copies : deep_copier ObjectMeta_DeepCopyInto;
  ListMeta_copies : deep_copier ListMeta_DeepCopyInto;
  Toleration_copies : deep_copier Toleration_DeepCopyInto;
  Condition_copies : deep_copier Condition_DeepCopyInto
}.

(** [make(map[string]string)] filled by ranging over the original. *)
Definition range_copy (m : gmap string string) : M block (gmap string string) :=
  done (map_fold (fun key val out => <[key := val]> out) ∅ m).

(** Objects of the scheme, as [runtime.Object] holds them. *)
Inductive Object : Type :=
| AVNodePool (l : loc)
| AVNodePoolList (l : loc)
| AVNode (l : loc)
| AVNodeList (l : loc).

(** [if c := in.DeepCopy(); c != nil { return c }; return nil]: a nil pointer
    becomes the nil interface. *)
Definition asObject {A} (mk : loc -> Object) (c : Ptr A) : M block (option Object) :=
  done match c with Nil => None | At l => Some (mk l) end.

Section Methods.
Context `{LibraryCopies}.

Definition TenantRef_DeepCopyInto (in_ : APITenantRef) : M block APITenantRef := done in_.
Definition TenantRef_DeepCopy : Ptr APITenantRef -> M block (Ptr APITenantRef) :=
  copy_behind TenantRef_DeepCopyInto.

Definition NodeResources_DeepCopyInto (in_ : NodeResources) : M block NodeResources := done in_.
Definition NodeResources_DeepCopy : Ptr NodeResources -> M block (Ptr NodeResources) :=
  copy_behind NodeResources_DeepCopyInto.

Definition VNodePoolStatus_DeepCopyInto (in_ : PoolStatusOf Ptr) : M block (PoolStatusOf Ptr) :=
  conditions ← copy_behind (each Condition_DeepCopyInto) (pto_Conditions in_);
  done (mkPoolStatusOf (pto_Phase in_) (pto_ReadyNodes in_) (pto_TotalNodes in_) conditions).
Definition VNodePoolStatus_DeepCopy : Ptr (PoolStatusOf Ptr) -> M block (Ptr (PoolStatusOf Ptr)) :=
  copy_behind VNodePoolStatus_DeepCopyInto.

(** The taints are copied with [copy], the tolerations one by one. *)
Definition VNodePoolSpec_DeepCopyInto (in_ : PoolSpecOf Ptr) : M block (PoolSpecOf Ptr) :=
  selector ← copy_behind range_copy (pso_NodeSelector in_);
  taints ← copy_behind done (pso_Taints in_);
  tolerations ← copy_behind (each Toleration_DeepCopyInto) (pso_Tolerations in_);
  done (mkPoolSpecOf (pso_Scalars in_) selector taints tolerations).
Definition VNodePoolSpec_DeepCopy : Ptr (PoolSpecOf Ptr) -> M block (Ptr (PoolSpecOf Ptr)) :=
  copy_behind VNodePoolSpec_DeepCopyInto.

(** The spec is assigned, not copied: [out.Spec = in.Spec]. *)
Definition VNodePool_DeepCopyInto (in_ : PoolOf Ptr) : M block (PoolOf Ptr) :=
  meta ← ObjectMeta_DeepCopyInto (po_Meta in_);
  status ← VNodePoolStatus_DeepCopyInto (po_Status in_);
  done (mkPoolOf (po_TypeMeta in_) meta (po_Spec in_) status).
Definition VNodePool_DeepCopy : Ptr (PoolOf Ptr) -> M block (Ptr (PoolOf Ptr)) :=
  copy_behind VNodePool_DeepCopyInto.
Definition VNodePool_DeepCopyObject (in_ : Ptr (PoolOf Ptr)) : M block (option Object) :=
  c ← VNodePool_DeepCopy in_; asObject AVNodePool c.

Definition VNodePoolList_DeepCopyInto (in_ : PoolListOf Ptr) : M block (PoolListOf Ptr) :=
  meta ← ListMeta_DeepCopyInto (pl_ListMeta in_);
  items ← copy_behind (each VNodePool_DeepCopyInto) (pl_Items in_);
  done (mkPoolListOf (pl_TypeMeta in_) meta items).
Definition VNodePoolList_DeepCopy : Ptr (PoolListOf Ptr) -> M block (Ptr (PoolListOf Ptr)) :=
  copy_behind VNodePoolList_DeepCopyInto.
Definition VNodePoolList_DeepCopyObject (in_ : Ptr (PoolListOf Ptr)) : M block (option Object) :=
  c ← VNodePoolList_DeepCopy in_; asObject AVNodePoolList c.

Definition VNodeSpec_DeepCopyInto (in_ : VNodeSpec) : M block VNodeSpec := done in_.
Definition VNodeSpec_DeepCopy : Ptr VNodeSpec -> M block (Ptr VNodeSpec) :=
  copy_behind VNodeSpec_DeepCopyInto.

Definition VNodeStatus_DeepCopyInto (in_ : NodeStatusOf Ptr) : M block (NodeStatusOf Ptr) :=
  conditions ← copy_behind (each Condition_DeepCopyInto) (nto_Conditions in_);
  done (mkNodeStatusOf (nto_Phase in_) conditions).
Definition VNodeStatus_DeepCopy : Ptr (NodeStatusOf Ptr) -> M block (Ptr (NodeStatusOf Ptr)) :=
  copy_behind VNodeStatus_DeepCopyInto.

Definition VNode_DeepCopyInto (in_ : NodeOf Ptr) : M block (NodeOf Ptr) :=
  meta ← ObjectMeta_DeepCopyInto (no_Meta in_);
  status ← VNodeStatus_DeepCopyInto (no_Status in_);
  done (mkNodeOf (no_TypeMeta in_) meta (no_Spec in_) status).
Definition VNode_DeepCopy : Ptr (NodeOf Ptr) -> M block (Ptr (NodeOf Ptr)) :=
  copy_behind VNode_DeepCopyInto.
Definition VNode_DeepCopyObject (in_ : Ptr (NodeOf Ptr)) : M block (option Object) :=
  c ← VNode_DeepCopy in_; asObject AVNode c.

Definition VNodeList_DeepCopyInto (in_ : NodeListOf Ptr) : M block (NodeListOf Ptr) :=
  meta ← ListMeta_DeepCopyInto (nl_ListMeta in_);
  items ← copy_behind (each VNode_DeepCopyInto) (nl_Items in_);
  done (mkNodeListOf (nl_TypeMeta in_) meta items).
Definition VNodeList_DeepCopy : Ptr (NodeListOf Ptr) -> M block (Ptr (NodeListOf Ptr)) :=
  copy_behind VNodeList_DeepCopyInto.
Definition VNodeList_DeepCopyObject (in_ : Ptr (NodeListOf Ptr)) : M block (option Object) :=
  c ← VNodeList_DeepCopy in_; asObject AVNodeList c.

End Methods.

(** ** What each method copies and what it shares *)

Lemma range_copy_copies : deep_copier range_copy.
Proof.
  apply (copies_ext _ done); [|apply flat_copier]. intros m h. unfold range_copy. do 2 f_equal.
  apply (map_fold_weak_ind (fun out m => out = m)); [done|]. by intros k v m' out _ ->.
Qed.

Create HintDb copying.
#[export] Hint Unfold VNodePoolStatus_DeepCopyInto VNodePoolSpec_DeepCopyInto
  VNodePool_DeepCopyInto VNodePoolList_DeepCopyInto VNodeStatus_DeepCopyInto VNode_DeepCopyInto
  VNodeList_DeepCopyInto : copying.

(** A method that copies a struct: it runs the copiers of the fields in order. *)
Ltac field_by_field :=
  intros [] ?; autounfold with copying; unfold mbind, M_bind, both, andThen, done; simpl; repeat case_match; by simplify_eq.

(** The fields of a struct built from a tuple. *)
Ltac tuples := intros; repeat match goal with t : (_ * _)%type |- _ => destruct t end; done.

(** [copy_record fields view put parts]: the method copies the fields with
    [parts]; what remains compares what the fields share with what is claimed. *)
Ltac copy_record fields build put parts :=
  eapply copies_sharing; [|eapply copies_ext; cycle 1;
    [eapply (record_copies fields build put); [tuples|parts] | field_by_field]].

(** What a copy of a pool shares: the cells of its spec. *)
Definition spec_cells : sharing (PoolOf Ptr) := fun h p => reach h (po_Spec p).
(** What a copy of a pool spec shares: the times of its taints. *)
Definition taint_times : sharing (PoolSpecOf Ptr) :=
  fun h s => behind reach h (pso_Taints s).
(** What a copy of a list of pools shares: the cells of the specs. *)
Definition item_spec_cells : sharing (PoolListOf Ptr) :=
  fun h l => behind (each_sharing spec_cells) h (pl_Items l).

Section Facts.
Context `{Laws : LibraryCopiesLaws}.

Lemma VNodePoolStatus_copies : deep_copier VNodePoolStatus_DeepCopyInto.
Proof.
  copy_record (pool_status_fields (P := Ptr)) (pool_status_build (P := Val))
    (pool_status_build (P := Ptr))
    ltac:(eapply both_copies;
      [apply done_copies|apply copy_behind_copies, each_copies, Condition_copies]).
  intros h s. simpl. rewrite behind_nothing by (intros; by apply each_nothing). set_solver.
Qed.

Lemma VNodeStatus_copies : deep_copier VNodeStatus_DeepCopyInto.
Proof.
  copy_record (node_status_fields (P := Ptr)) (node_status_build (P := Val))
    (node_status_build (P := Ptr))
    ltac:(eapply both_copies;
      [apply done_copies|apply copy_behind_copies, each_copies, Condition_copies]).
  intros h s. simpl. rewrite behind_nothing by (intros; by apply each_nothing). set_solver.
Qed.

Lemma VNodePoolSpec_copies : copies taint_times VNodePoolSpec_DeepCopyInto.
Proof.
  copy_record (spec_fields (P := Ptr)) (spec_build (P := Val)) (spec_build (P := Ptr))
    ltac:(eapply both_copies; [apply done_copies|];
      eapply both_copies; [apply copy_behind_copies, range_copy_copies|];
      eapply both_copies; [apply copy_behind_copies, done_copies|
        apply copy_behind_copies, each_copies, Toleration_copies]).
  intros h s. simpl. rewrite (behind_nothing _ _ (pso_NodeSelector s)) by done.
  rewrite (behind_nothing _ _ (pso_Tolerations s)) by (intros; by apply each_nothing).
  unfold taint_times. set_solver.
Qed.

Lemma VNodePool_copies : copies spec_cells VNodePool_DeepCopyInto.
Proof.
  copy_record (pool_fields (P := Ptr)) (pool_build (P := Val)) (pool_build (P := Ptr))
    ltac:(eapply both_copies; [apply done_copies|];
      eapply both_copies; [apply ObjectMeta_copies|];
      eapply both_copies; [apply done_copies|apply VNodePoolStatus_copies]).
  intros h p. unfold spec_cells, nothing. simpl. set_solver.
Qed.

Lemma VNodePoolList_copies : copies item_spec_cells VNodePoolList_DeepCopyInto.
Proof.
  copy_record (pool_list_fields (P := Ptr)) (pool_list_build (P := Val))
    (pool_list_build (P := Ptr))
    ltac:(eapply both_copies; [apply done_copies|];
      eapply both_copies; [apply ListMeta_copies|
        apply copy_behind_copies, each_copies, VNodePool_copies]).
  intros h l. unfold item_spec_cells, nothing. simpl. set_solver.
Qed.

Lemma VNode_copies : deep_copier VNode_DeepCopyInto.
Proof.
  copy_record (node_fields (P := Ptr)) (node_build (P := Val)) (node_build (P := Ptr))
    ltac:(eapply both_copies; [apply done_copies|];
      eapply both_copies; [apply ObjectMeta_copies|apply VNodeStatus_copies]).
  intros h n. unfold nothing. simpl. set_solver.
Qed.

Lemma VNodeList_copies : deep_copier VNodeList_DeepCopyInto.
Proof.
  copy_record (node_list_fields (P := Ptr)) (node_list_build (P := Val))
    (node_list_build (P := Ptr))
    ltac:(eapply both_copies; [apply done_copies|];
      eapply both_copies; [apply ListMeta_copies|
        apply copy_behind_copies, each_copies, VNode_copies]).
  intros h l. simpl. rewrite behind_nothing by (intros; by apply each_nothing).
  unfold nothing. set_solver.
Qed.

(** A [DeepCopy] method that keeps its promise: nil for nil; otherwise an equal
    value such that what is written through the copy never shows in the
    original, nor what is written to older cells in the copy. *)
Definition independent_copies `{Stored block A, Viewed block A D}
    (f : Ptr A -> M block (Ptr A)) : Prop :=
  (forall h, f Nil h = Some (Nil, h)) /\
  forall h p d, view h p = Some d ->
  exists p' h', f p h = Some (p', h') /\ h ⊆ h' /\ view h' p' = Some d /\
    (forall h2, (forall l, l ∉ reach h' p' -> h2 !! l = h' !! l) -> view h2 p = Some d) /\
    (forall h2, (forall l, l ∉ dom h -> h2 !! l = h' !! l) -> view h2 p' = Some d).

Lemma deep_copier_independent `{Stored block A, Viewed block A D} (f : A -> M block A) :
  deep_copier f -> independent_copies (copy_behind f).
Proof.
  intros Hf. split; [done|]. intros h p d Hv.
  destruct (proj2 (copy_behind_copies _ _ Hf) h p d Hv) as (p' & h' & Hr & Hs & Hc).
  rewrite behind_nothing in Hc by done.
  destruct (deep_copy_independent _ _ _ _ _ Hv Hs Hc). exists p', h'. by destruct Hc.
Qed.

(** C34: The deep copies of virtual nodes, of their lists, of the statuses and of the
    structs without pointers are independent of their originals. *)
Theorem DeepCopy_independent :
  independent_copies VNode_DeepCopy /\ independent_copies VNodeList_DeepCopy /\
  independent_copies VNodeSpec_DeepCopy /\ independent_copies VNodeStatus_DeepCopy /\
  independent_copies VNodePoolStatus_DeepCopy /\
  independent_copies TenantRef_DeepCopy /\ independent_copies NodeResources_DeepCopy.
Proof.
  split_and!; apply deep_copier_independent;
    [apply VNode_copies|apply VNodeList_copies|apply flat_copier|apply VNodeStatus_copies|
     apply VNodePoolStatus_copies|apply flat_copier|apply flat_copier].
Qed.

(** The copy of a pool, cell by cell. *)
Lemma VNodePool_DeepCopy_run (h : gmap loc block) (l : loc) (pool : PoolOf Ptr) (d : PoolOf Val) :
  h !! l = Some (BPool pool) -> view h pool = Some d ->
  exists l' h' out, VNodePool_DeepCopy (At l) h = Some (At l', h') /\ h ⊆ h' /\
    h' !! l' = Some (BPool out) /\ po_Spec out = po_Spec pool /\
    copy_of h h' (At l' : Ptr (PoolOf Ptr)) (Some d) (spec_cells h pool).
Proof.
  intros Hl Hv. assert (Hp : view h (At l : Ptr (PoolOf Ptr)) = Some (Some d)).
  { cbn [view ptr_viewed]. unfold ptr_view. rewrite Hl. cbn [mbind option_bind content BPool_stored].
    by rewrite Hv. }
  destruct (proj2 (copy_behind_copies _ _ VNodePool_copies) h (At l) (Some d) Hp)
    as (p' & h' & Hr & Hs & Hc).
  revert Hr. unfold VNodePool_DeepCopy, copy_behind, load, andThen. rewrite Hl. simpl.
  destruct (VNodePool_DeepCopyInto pool h) as [[out h1]|] eqn:Eo; [|done].
  intros Hr. injection Hr as <- <-. eexists _, _, out. split; [done|]. split; [done|].
  split; [apply lookup_insert_eq|]. split.
  - revert Eo. unfold VNodePool_DeepCopyInto, mbind, M_bind, andThen.
    repeat case_match; try done. intros E. by injection E as <- <-.
  - unfold behind in Hc. rewrite Hl in Hc. done.
Qed.

(** C36: A pool and its deep copy have one spec: what is written to the node selector
    of the copy is the node selector of the original. *)
Theorem VNodePool_DeepCopy_shares_spec (h : gmap loc block) (l : loc) (pool : PoolOf Ptr)
    (d : PoolOf Val) :
  h !! l = Some (BPool pool) -> view h pool = Some d ->
  exists l' h' out, VNodePool_DeepCopy (At l) h = Some (At l', h') /\
    h' !! l' = Some (BPool out) /\ view h' out = Some d /\
    reach h' (At l' : Ptr (PoolOf Ptr)) ∩ dom h = reach h (po_Spec pool) /\
    forall k m, pso_NodeSelector (po_Spec out) = At k ->
      view (<[k := BStrings m]> h') (pso_NodeSelector (po_Spec pool)) = Some (Some m).
Proof.
  intros Hl Hv. destruct (VNodePool_DeepCopy_run h l pool d Hl Hv)
    as (l' & h' & out & Hr & Hs & Ho & Hsp & [Hvo Hre]).
  exists l', h', out. do 2 (split; [done|]). split.
  - apply ptr_view_At in Hvo as (o & d' & Hc & Hd & E).
    rewrite Ho in Hc. simpl in Hc. by simplify_eq.
  - split; [done|]. intros k m Hk. rewrite <- Hsp, Hk. simpl. by rewrite lookup_insert_eq.
Qed.

(** The cells a pool spec is made of: maps, taints, tolerations and numbers. *)
Definition spec_block (b : block) : bool :=
  match b with BStrings _ | BTaints _ | BTolerations _ | BInt _ => true | _ => false end.

Lemma pool_spec_made_of : made_of spec_block (PoolSpecOf Ptr).
Proof.
  apply made_of_record, made_of_pair; [apply made_of_flat|].
  apply made_of_pair; [apply made_of_ptr; [done|apply made_of_flat]|].
  apply made_of_pair; (apply made_of_ptr; [done|]); apply made_of_list, made_of_record;
    repeat first [apply made_of_ptr; [done|] | apply made_of_flat | apply made_of_pair].
Qed.

Lemma view_spec (h : gmap loc block) (p : PoolOf Ptr) (d : PoolOf Val) :
  view h p = Some d -> view h (po_Spec p) = Some (po_Spec d).
Proof.
  intros Hv. apply fmap_Some in Hv as ([tm [m [s st]]] & Hv & ->). revert Hv.
  cbn [view pair_viewed pool_fields fst snd po_Spec pool_build].
  destruct (view h (po_TypeMeta p)), (view h (po_Meta p)); try done.
  destruct (view h (po_Spec p)), (view h (po_Status p)); try done. by intros; simplify_eq.
Qed.

(** C35: [base := current.DeepCopy()], the base of the status patches: writing to the
    struct of the pool, to its conditions or to its finalizers, whatever is
    written, leaves the value of the base as it was. *)
Theorem patch_base_kept (h : gmap loc block) (l : loc) (current : PoolOf Ptr) (d : PoolOf Val) :
  h !! l = Some (BPool current) -> view h current = Some d ->
  exists base h', VNodePool_DeepCopy (At l) h = Some (base, h') /\
    forall h2, (forall k b, h' !! k = Some b -> k ∉ dom h \/ spec_block b -> h2 !! k = Some b) ->
      view h2 base = Some (Some d).
Proof.
  intros Hl Hv. destruct (VNodePool_DeepCopy_run h l current d Hl Hv)
    as (l' & h' & out & Hr & Hs & Ho & Hsp & Hc).
  exists (At l'), h'. split; [done|]. intros h2 Hh2.
  pose proof Hc as [Hvo Hre]. apply (view_local h' h2 _ _ Hvo). intros k Hk.
  pose proof (view_alloc _ _ _ Hvo k Hk) as [b Hb]%elem_of_dom. rewrite Hb. apply Hh2; [done|].
  destruct (decide (k ∈ dom h)) as [Hd|]; [right|by left].
  assert (Hks : k ∈ reach h (po_Spec current)) by (fold (spec_cells h current); set_solver).
  destruct (pool_spec_made_of h _ _ (view_spec h current d Hv) k Hks) as (b' & Hb' & Ht).
  rewrite (lookup_weaken _ _ _ _ Hb' Hs) in Hb. by simplify_eq.
Qed.
End Facts.

(** ** Library methods that copy, and a pool in memory *)
Module Witness.

#[export] Instance copies_fields : LibraryCopies := {
  ObjectMeta_DeepCopyInto m :=
    labels ← copy_behind done (mo_Labels m);
    annotations ← copy_behind done (mo_Annotations m);
    finalizers ← copy_behind (each done) (mo_Finalizers m);
    deleted ← copy_behind done (mo_DeletionTimestamp m);
    done (mkMetaOf (mo_Name m) (mo_Namespace m) (mo_UID m) (mo_ResourceVersion m)
            (mo_CreationTimestamp m) labels annotations finalizers deleted);
  ListMeta_DeepCopyInto m :=
    remaining ← copy_behind done (lm_RemainingItemCount m);
    done (mkListMetaOf (lm_ResourceVersion m) (lm_Continue m) remaining);
  Toleration_DeepCopyInto t :=
    seconds ← copy_behind done (too_TolerationSeconds t);
    done (mkTolerationOf (too_Key t) (too_Operator t) (too_Value t) (too_Effect t) seconds);
  Condition_DeepCopyInto := done
}.

Lemma copies_fields_laws : LibraryCopiesLaws.
Proof.
  split; [| | |apply flat_copier]; cbn [ObjectMeta_DeepCopyInto ListMeta_DeepCopyInto
    Toleration_DeepCopyInto copies_fields].
  - copy_record (meta_fields (P := Ptr)) (meta_build (P := Val)) (meta_build (P := Ptr))
      ltac:(eapply both_copies; [apply done_copies|];
        eapply both_copies; [apply copy_behind_copies, flat_copier|];
        eapply both_copies; [apply copy_behind_copies, flat_copier|];
        eapply both_copies; [apply copy_behind_copies, each_copies, flat_copier|
          apply copy_behind_copies, flat_copier]).
    intros h m. simpl. rewrite !behind_nothing by first [done|intros; by apply each_nothing].
    unfold nothing. set_solver.
  - copy_record (list_meta_fields (P := Ptr)) (list_meta_build (P := Val)) (list_meta_build (P := Ptr))
      ltac:(eapply both_copies; [apply done_copies|apply copy_behind_copies, flat_copier]).
    intros h m. simpl. rewrite behind_nothing by done. unfold nothing. set_solver.
  - copy_record (toleration_fields (P := Ptr)) (toleration_build (P := Val)) (toleration_build (P := Ptr))
      ltac:(eapply both_copies; [apply done_copies|apply copy_behind_copies, flat_copier]).
    intros h m. simpl. rewrite behind_nothing by done. unfold nothing. set_solver.
Qed.

Definition spec : PoolSpecOf Ptr :=
  mkPoolSpecOf (mkSpecScalars (mkAPITenantRef "t" "t" "kc") 1 (mkNodeResources "1" "1Gi" 110)
    "dedicated" "" "" "") (At 2%positive) Nil Nil.
Definition pool : PoolOf Ptr :=
  mkPoolOf (mkTypeMeta "VNodePool" "v1alpha1") (mkMetaOf "p" "ns" "" "" 0 Nil Nil Nil Nil) spec
    (mkPoolStatusOf "Ready" 1 1 (At 3%positive)).
Definition memory : gmap loc block :=
  {[1%positive := BPool pool; 2%positive := BStrings {["disk" := "ssd"]};
    3%positive := BConditions [mkCondition "Ready" "True" 0 0 "" ""]]}.
Definition value : PoolOf Val :=
  mkPoolOf (mkTypeMeta "VNodePool" "v1alpha1") (mkMetaOf "p" "ns" "" "" 0 None None None None)
    (mkPoolSpecOf (pso_Scalars spec) (Some {["disk" := "ssd"]}) None None)
    (mkPoolStatusOf "Ready" 1 1 (Some [mkCondition "Ready" "True" 0 0 "" ""])).

End Witness.
Import Witness.

Lemma DeepCopy_independent_witness :
  LibraryCopiesLaws (H := Witness.copies_fields) /\ independent_copies VNode_DeepCopy.
Proof.
  split; [exact copies_fields_laws|].
  exact (proj1 (@DeepCopy_independent Witness.copies_fields copies_fields_laws)).
Defined.

Lemma VNodePool_DeepCopy_shares_spec_witness :
  exists h' out, view h' out = Some value /\
  view (<[2%positive := BStrings ∅]> h') (pso_NodeSelector (po_Spec pool)) = Some (Some ∅).
Proof.
  destruct (@VNodePool_DeepCopy_shares_spec Witness.copies_fields copies_fields_laws
    memory 1%positive pool value) as (l' & h' & out & Hr & Ho & Hv & _ & Hk);
    [reflexivity|vm_compute; reflexivity|].
  exists h', out. split; [exact Hv|]. apply Hk.
  vm_compute in Hr. injection Hr as <- <-. vm_compute in Ho. by injection Ho as <-.
Defined.

Lemma patch_base_kept_witness :
  exists base h', VNodePool_DeepCopy (At 1%positive) memory = Some (base, h') /\
  view (<[3%positive := BConditions []]> h') base = Some (Some value) /\
  view (<[3%positive := BConditions []]> h') pool <> Some value.
Proof.
  destruct (@patch_base_kept Witness.copies_fields copies_fields_laws
    memory 1%positive pool value) as (base & h' & Hr & Hk); [reflexivity|vm_compute; reflexivity|].
  exists base, h'. split; [exact Hr|]. vm_compute in Hr. injection Hr as <- <-. split.
  - apply Hk. intros k b Hb Hor.
    destruct (decide (k = 3%positive)) as [->|Hne]; [|by rewrite lookup_insert_ne].
    vm_compute in Hb. injection Hb as <-. destruct Hor as [Hn|Hn]; [|done].
    exfalso. apply Hn. vm_compute. reflexivity.
  - vm_compute. discriminate.
Defined.
