(* ===== verification/Startup.v ===== *)
(** The start of the operator (cmd/vnode/main.go) and the watches of its three
    controllers (the [SetupWithManager] methods).

    [main] is a straight line of calls to controller-runtime, each of which ends
    the process when it fails.  How the framework replies is a parameter, and so
    is how it turns a watch event into requests; the laws are those its
    documentation states. *)

From S2P Require Import Prelude GoProg Model Kube Libs ApiServer NodeRepo NodeStore PoolReconciler.
From S2P Require Import Config System Statuses Concurrent.

(** ** What a controller watches *)

Inductive pool_event : Type :=
| PoolCreated (o : VNodePoolCR)
| PoolDeleted (o : VNodePoolCR)
| PoolUpdated (old new : VNodePoolCR)
| PoolGeneric (o : VNodePoolCR).

Inductive cluster_event : Type :=
| OnPool (e : pool_event)
| OnVNode (e : watch_event).

Record WatchSpec : Type := mkWatchSpec {
  ws_Kind : string;
  ws_Map : option VNodeCR -> list (string * string);
  ws_Predicate : watch_event -> bool
}.

(** What [NewControllerManagedBy(mgr)] collects until [Complete]. *)
Record ControllerSpec : Type := mkControllerSpec {
  cs_Named : option string;
  cs_For : string;
  cs_ForPredicates : list (pool_event -> bool);
  cs_Watches : list WatchSpec;
  cs_Reconcile : string -> string -> go (Z * option error)
}.

(** ** The calls of [main] *)
Record ManagerOptions : Type := mkManagerOptions {
  mo_MetricsBindAddress : string;
  mo_HealthProbeBindAddress : string;
  mo_LeaderElection : bool;
  mo_LeaderElectionID : string
}.

Inductive startup_call : Type :=
| AddToScheme (group version : string) (types : list string)
| GetConfigOrDie
| NewManager (opts : ManagerOptions)
| NewForConfig
| Complete (c : ControllerSpec)
| AddHealthzCheck (name : string)
| AddReadyzCheck (name : string)
| Start.

(** How the process ends: [os.Exit(1)], a panic of [utilruntime.Must], or the
    return of [main]. *)
Inductive outcome : Type :=
| Exit (code : Z)
| Panicked.

(** What the framework replies to a call after the calls made before. *)
Definition replies : Type := list startup_call -> startup_call -> option error.

(** ** controller-runtime *)
Class Runtime : Type := {
  generation : VNodePoolCR -> Z;
  GenerationChangedPredicate : pool_event -> bool;
  (** The name of a controller, given or from the kind it is for. *)
  controllerName : option string -> string -> string;
  (** The requests an event puts into the queue of a controller. *)
  enqueued : ControllerSpec -> cluster_event -> list (string * string)
}.

Definition pool_subject (e : pool_event) : VNodePoolCR :=
  match e with PoolCreated o | PoolDeleted o | PoolUpdated _ o | PoolGeneric o => o end.
Definition vnode_subject (e : watch_event) : option VNodeCR :=
  match e with CreateEvent o | DeleteEvent o | UpdateEvent _ o | GenericEvent o => o end.
Definition request_of (m : ObjectMeta) : string * string := (om_Namespace m, om_Name m).

Class RuntimeLaws `{Runtime} : Prop := {
  (** Only updates that keep the generation are dropped. *)
  generation_predicate : forall e, GenerationChangedPredicate e =
    match e with
    | PoolUpdated old new => negb (bool_decide (generation old = generation new))
    | _ => true
    end;
  name_given : forall n k, controllerName (Some n) k = n;
  name_VNodePool : controllerName None "VNodePool" = "vnodepool";
  name_VNode : controllerName None "VNode" = "vnode";
  (** [For] enqueues the object of an event that passes the predicates,
      [Watches] what the map function makes of it. *)
  enqueued_pool : forall c e, enqueued c (OnPool e) =
    if bool_decide (cs_For c = "VNodePool") && forallb (fun p => p e) (cs_ForPredicates c)
    then [request_of (pc_Meta (pool_subject e))] else [];
  enqueued_vnode : forall c e, enqueued c (OnVNode e) =
    (if bool_decide (cs_For c = "VNode")
     then from_option (fun o => [request_of (nd_Meta o)]) [] (vnode_subject e) else []) ++
    flat_map (fun w => if bool_decide (ws_Kind w = "VNode") && ws_Predicate w e
                       then ws_Map w (vnode_subject e) else []) (cs_Watches c)
}.

Section Startup.
Context `{L : KubeLibs} `{R : Runtime}.

(** ** The controllers *)
Definition vnodePoolPredicates : pool_event -> bool := GenerationChangedPredicate.

Definition poolReconciler_SetupWithManager : ControllerSpec :=
  mkControllerSpec None "VNodePool" [vnodePoolPredicates]
    [mkWatchSpec "VNode" vnodeToPool vnodePhaseChangedPredicate] poolReconciler.

Definition vnodeReconciler_SetupWithManager : ControllerSpec :=
  mkControllerSpec None "VNode" [] [] vnodeReconciler.

Definition podSyncReconciler_SetupWithManager (cfg : Config) : ControllerSpec :=
  mkControllerSpec (Some "vnodepool-podsync") "VNodePool" [] [] (podSyncReconciler cfg).

(** ** The scheme (api/v1alpha1 and the [init] of main.go) *)
Definition GroupVersion : string * string := ("vnode.kroderdev.io", "v1alpha1").
(** [SchemeBuilder.Register] in vnode_types.go and vnodepool_types.go. *)
Definition SchemeBuilder : list string := ["VNode"; "VNodeList"] ++ ["VNodePool"; "VNodePoolList"].
(** The second [AddToScheme] is the one of this repository. *)
Definition init_calls : list startup_call :=
  [AddToScheme "" "v1" []; AddToScheme GroupVersion.1 GroupVersion.2 SchemeBuilder].

(** ** main *)
Definition main_calls (cfg : Config) : list startup_call :=
  [GetConfigOrDie;
   NewManager (mkManagerOptions (cf_MetricsAddr cfg) (cf_HealthProbeAddr cfg)
                 (cf_LeaderElection cfg) (cf_LeaderElectionID cfg));
   NewForConfig;
   Complete poolReconciler_SetupWithManager;
   Complete vnodeReconciler_SetupWithManager;
   Complete (podSyncReconciler_SetupWithManager cfg);
   AddHealthzCheck "healthz";
   AddReadyzCheck "readyz";
   Start].

(** Calls in order up to the first that fails; the calls made, and whether all
    succeeded. *)
Fixpoint perform (reply : replies) (made cs : list startup_call) : list startup_call * bool :=
  match cs with
  | [] => (made, true)
  | c :: cs' => match reply made c with
               | None => perform reply (made ++ [c]) cs'
               | Some _ => (made ++ [c], false)
               end
  end.

Definition main (env : gmap string string) (reply : replies) : list startup_call * outcome :=
  match perform reply [] init_calls with
  | (made, false) => (made, Panicked)
  | (made, true) =>
      let cfg := Default env in
      match ValidateConfig cfg with
      | Some _ => (made, Exit 1)
      | None => match perform reply made (main_calls cfg) with
               | (made', true) => (made', Exit 0)
               | (made', false) => (made', Exit 1)
               end
      end
  end.

(** ** How the process ends *)

(** Every call of [cs], made in order after [made], succeeds. *)
Definition all_succeed (reply : replies) (made cs : list startup_call) : Prop :=
  forall pre c post, cs = pre ++ c :: post -> reply (made ++ pre) c = None.

Lemma all_succeed_nil reply made : all_succeed reply made [].
Proof. by intros [|d pre] c post E. Qed.

Lemma all_succeed_cons reply made c cs :
  all_succeed reply made (c :: cs) <->
  reply made c = None /\ all_succeed reply (made ++ [c]) cs.
Proof.
  split.
  - intros Hs. split.
    + generalize (Hs [] c cs eq_refl). by rewrite app_nil_r.
    + intros pre d post ->. rewrite <- app_assoc. by apply (Hs (c :: pre) d post).
  - intros [Hc Hs] [|c' pre] d post E; injection E as <- E.
    + by rewrite app_nil_r.
    + generalize (Hs pre d post E). by rewrite <- app_assoc.
Qed.

Lemma perform_cases reply cs : forall made,
  (perform reply made cs = (made ++ cs, true) /\ all_succeed reply made cs) \/
  exists pre c post e, cs = pre ++ c :: post /\ all_succeed reply made pre /\
    reply (made ++ pre) c = Some e /\ perform reply made cs = (made ++ pre ++ [c], false).
Proof.
  induction cs as [|c cs IH]; intros made; simpl.
  - left. rewrite app_nil_r. split; [done|]. apply all_succeed_nil.
  - destruct (reply made c) as [e|] eqn:Ec.
    + right. exists [], c, cs, e. rewrite app_nil_r. split_and!; try done. apply all_succeed_nil.
    + destruct (IH (made ++ [c])) as [[-> Hs]|(pre & d & post & e & -> & Hs & Hd & ->)].
      * left. rewrite <- app_assoc. split; [done|]. by apply all_succeed_cons.
      * right. exists (c :: pre), d, post, e. rewrite <- app_assoc in Hd |- *.
        split_and!; try done. by apply all_succeed_cons.
Qed.

Lemma all_succeed_app reply made cs cs' :
  all_succeed reply made cs -> all_succeed reply (made ++ cs) cs' ->
  all_succeed reply made (cs ++ cs').
Proof.
  revert made. induction cs as [|c cs IH]; intros made; simpl.
  - by rewrite app_nil_r.
  - rewrite !all_succeed_cons. intros [Hc Hs] Hs'. split; [done|]. apply IH; [done|].
    by rewrite <- app_assoc.
Qed.

(** All the calls of a start. *)
Definition startup_script (env : gmap string string) : list startup_call :=
  init_calls ++ main_calls (Default env).

Lemma main_cases env reply :
  (main env reply = (startup_script env, Exit 0) /\ all_succeed reply [] (startup_script env)) \/
  exists pre c post e, startup_script env = pre ++ c :: post /\ all_succeed reply [] pre /\
    reply pre c = Some e /\
    main env reply = (pre ++ [c], if c is AddToScheme _ _ _ then Panicked else Exit 1).
Proof.
  unfold main, startup_script. rewrite Default_valid.
  destruct (perform_cases reply init_calls []) as [[-> Hs]|(pre & c & post & e & E & Hs & Hc & ->)].
  - destruct (perform_cases reply (main_calls (Default env)) ([] ++ init_calls))
      as [[-> Hs']|(pre & c & post & e & E & Hs' & Hc & ->)].
    + left. split; [done|]. by apply all_succeed_app.
    + right. exists (init_calls ++ pre), c, post, e. rewrite E, <- !app_assoc.
      split; [done|]. split; [by apply all_succeed_app|]. split; [done|]. simpl. do 3 f_equal.
      assert (Hin : c ∈ main_calls (Default env)) by (rewrite E; set_solver).
      clear -Hin. destruct c; try done. unfold main_calls in Hin. set_solver.
  - right. exists pre, c, (post ++ main_calls (Default env)), e.
    rewrite E, <- app_assoc. split_and!; try done. simpl. f_equal.
    assert (Hin : c ∈ init_calls) by (rewrite E; set_solver).
    clear -Hin. destruct c; try done; unfold init_calls in Hin; set_solver.
Qed.

(** ** A start without faults *)
Context `{RL : !RuntimeLaws}.

Definition controller_name (c : ControllerSpec) : string := controllerName (cs_Named c) (cs_For c).
Definition completed (made : list startup_call) : list ControllerSpec :=
  omap (fun c => if c is Complete s then Some s else None) made.
Definition registered (made : list startup_call) : list string :=
  mjoin ((fun c => if c is AddToScheme _ _ types then types else []) <$> made).

(** [Complete] refuses a name that is taken and types the scheme does not know. *)
Definition acceptable (made : list startup_call) (c : startup_call) : Prop :=
  match c with
  | Complete s => controller_name s ∉ controller_name <$> completed made /\
      cs_For s ∈ registered made /\
      Forall (fun w => ws_Kind w ∈ registered made) (cs_Watches s)
  | _ => True
  end.
Definition works (reply : replies) : Prop :=
  forall made c, acceptable made c -> reply made c = None.

Lemma script_names env : controller_name <$> completed (startup_script env)
  = ["vnodepool"; "vnode"; "vnodepool-podsync"].
Proof.
  cbn. unfold controller_name. cbn. by rewrite name_VNodePool, name_VNode, name_given.
Qed.

Lemma script_succeeds env reply : works reply -> all_succeed reply [] (startup_script env).
Proof.
  intros W. unfold startup_script, init_calls, main_calls. simpl.
  rewrite !all_succeed_cons. split_and!; try (apply W; exact I); try apply all_succeed_nil;
    apply W; unfold acceptable, controller_name; cbn;
    rewrite ?name_VNodePool, ?name_VNode, ?name_given; split_and!;
    repeat constructor; set_solver.
Qed.

Lemma main_works env reply : works reply -> main env reply = (startup_script env, Exit 0).
Proof.
  intros W.
  destruct (main_cases env reply) as [[-> _]|(pre & c & post & e & E & Hs & Hc & ->)]; [done|].
  generalize (script_succeeds env reply W pre c post E). simpl. congruence.
Qed.


(** The requests an event leads to, with the controller that handles them. *)
Definition wakes (made : list startup_call) (e : cluster_event) : list (string * (string * string)) :=
  mjoin ((fun c => pair (controller_name c) <$> enqueued c e) <$> completed made).

Lemma wakes_script env e : wakes (startup_script env) e =
  (pair "vnodepool" <$> enqueued poolReconciler_SetupWithManager e) ++
  (pair "vnode" <$> enqueued vnodeReconciler_SetupWithManager e) ++
  (pair "vnodepool-podsync" <$> enqueued (podSyncReconciler_SetupWithManager (Default env)) e).
Proof.
  unfold wakes. cbn. unfold controller_name. cbn.
  rewrite name_VNodePool, name_VNode, name_given. by rewrite app_nil_r.
Qed.

End Startup.

(** ** A framework that works *)
Module Witness.

#[export] Instance runtime : Runtime := {
  generation p := sp_NodeCount (pc_Spec p);
  GenerationChangedPredicate e :=
    match e with
    | PoolUpdated old new =>
        negb (bool_decide (sp_NodeCount (pc_Spec old) = sp_NodeCount (pc_Spec new)))
    | _ => true
    end;
  controllerName n k :=
    match n with Some n => n | None => if bool_decide (k = "VNode") then "vnode" else "vnodepool" end;
  enqueued c e :=
    match e with
    | OnPool e =>
        if bool_decide (cs_For c = "VNodePool") && forallb (fun p => p e) (cs_ForPredicates c)
        then [request_of (pc_Meta (pool_subject e))] else []
    | OnVNode e =>
        (if bool_decide (cs_For c = "VNode")
         then from_option (fun o => [request_of (nd_Meta o)]) [] (vnode_subject e) else []) ++
        flat_map (fun w => if bool_decide (ws_Kind w = "VNode") && ws_Predicate w e
                           then ws_Map w (vnode_subject e) else []) (cs_Watches c)
    end
}.

Lemma runtime_laws : RuntimeLaws.
Proof. by split. Qed.

Definition sample_vnode : VNodeCR := newVNodeCR
  (mkVNode "" "vnode-pool-1" "ns" "pool" (mkTenantRef "t" "t-ns" "kc") [] NodePhaseReady
     zeroResourceList zeroResourceList []).


End Witness.


